(* ===== verification/_CoqProject ===== *)
-Q . S2P
Prelude.v
Primitives.v
Messages.v
Concrete.v
Quorum.v
Aggregator.v
Synchronizer.v
State.v
Network.v
BlockImport.v
Worker.v
WorkerFacts.v
Replica.v
Handlers.v
Rounds.v
Pacemaker.v
Safety.v
Authentic.v
System.v
Agreement.v
Outsiders.v
Validity.v
Voting.v
Progress.v
Liveness.v
ViewChange.v
Recovery.v
Startup.v
Restart.v
Tasks.v
Rpc.v
Service.v
Command.v
Pallet.v
Runtime.v
Apis.v
ChainSpec.v
Deployment.v
Payload.v
Inherents.v
Benchmarking.v
NodeConfig.v
BenchClient.v
