(* ===== verification/Prelude.v ===== *)
(** * A verification of Substrate-HotStuff

    The program is HotStuff consensus for Substrate: a replica collects votes and
    timeouts into certificates, votes for proposals of the leader of its view and
    finalizes blocks of its chain; a pallet keeps slots and authorities in the
    runtime; a node assembles both from a chain specification. The development is
    a shallow embedding of these, one file per component, and the theorems that
    make the component correct.

    ** Parts, and the files that model them

    - [Prelude]: machine integers, Rust's [Result], the state monad of handlers
      ([M], with an error value, a panic and fuel as its ways to stop early) and
      its [wp] and [guar] rules, generic lemmas.
    - [Primitives]: the platform as type classes (block hashing, SCALE codecs,
      signatures, keystore) with the laws relied on; [HotstuffError]
      (consensus/src/primitives.rs).
    - [Messages]: QC, TC, Proposal, Vote, Timeout, ConsensusMessage with digests
      and verify methods (consensus/src/message.rs).
    - [Concrete]: an instance of the platform that satisfies every law, for the
      witnesses.
    - [Quorum]: the two-thirds arithmetic and the verdict of [QC::verify].
    - [Aggregator]: votes and timeouts into certificates
      (consensus/src/aggregator.rs).
    - [Synchronizer]: the client interface [ClientForHotstuff], the key-value
      store and proposal storage (consensus/src/store.rs, synchronizer.rs).
    - [State]: [ConsensusState] (consensus/src/consensus.rs, lines 47-232).
    - [Network]: the gossip validator and the bridge that shares it with the engine
      (consensus/src/network.rs), and the hand-over of messages by
      [ConsensusNetwork] (consensus/src/consensus.rs).
    - [BlockImport]: the queue of blocks to finalize and the import wrapper
      (consensus/src/import.rs).
    - [Worker]: [ConsensusWorker], all handlers and the loop
      (consensus/src/consensus.rs, lines 234-680).
    - [WorkerFacts]: the invariant [worker_ok], the relation [since] of how a
      worker moves, and triples for every handler; fuel.
    - [Replica]: runs of a worker interleaved with its environment, as the step
      relation [step], and the theorems about every run.
    - [Handlers]: what each handler does on each branch, and the normal path.
    - [Rounds]: the handlers on the way of a proposal that goes well: a vote for it,
      votes collected by the next leader, the proposal on top of it.
    - [Pacemaker]: what moves a replica out of its view, and what does not.
    - [Safety]: workers refine the operations of [ConsensusState]; one
      certificate per view.
    - [Authentic]: what a worker holds and sends carries no forged vote, and what
      it finalizes is certified, relative to the votes signed in the network.
    - [System]: a network of workers with their channels, as the step relation
      [sys_step]: what was sent arrives in any order, any number of times or never,
      timers fire, blocks are imported, and the adversary, with the keys of the
      faulty authorities and any others, sends any bytes that forge no signature of
      another key; its invariant [system_ok].
    - [Agreement]: the theorems about every reachable network, and a computed run
      of four replicas.
    - [Outsiders]: certificates by keys that belong to no authority, and what they
      do to agreement.
    - [Validity]: what the votes behind a finalized block say about it.
    - [Voting]: an abstract protocol of ballots, and the network as a refinement of it.
    - [Progress]: rounds of a network in which the messages of a quorum arrive.
    - [Liveness]: a proposed block is finalized within three views.
    - [ViewChange]: timers and timeouts take a stuck quorum to the next view, whose
      leader proposes when it is one of them.
    - [Recovery]: a stuck quorum changes views until three leaders in a row are
      members, which counting shows to happen, and finalizes.
    - [Startup]: the authority set, the block importer and its link, the timer and
      [start_hotstuff] (consensus/src/authorities.rs, aux_schema.rs, client.rs,
      synchronizer.rs, consensus.rs), and the poll of the network task.
    - [Restart]: networks whose processes are started again.
    - [Tasks]: a node as the two tasks of [start_hotstuff], with the channel, the
      queue and the gossip validator they share; the nodes implement [System].
    - [Rpc]: the RPC module (node/src/rpc.rs).
    - [Service]: the assembly of a node (node/src/service.rs), with its RPC, its
      block author and the two tasks of the consensus, and the protocol name
      (consensus/src/config.rs).
    - [Command]: the command line (node/src/command.rs, cli.rs).
    - [Pallet]: the pallet (pallets/hotstuff/src/lib.rs) and digest items
      (primitives/src/digests.rs).
    - [Runtime]: the runtime around the pallet, with the values of the other
      pallets' configurations (runtime/src/lib.rs), and the pallet's weights
      (weights.rs).
    - [Apis]: the runtime APIs (runtime/src/lib.rs), their names and bodies.
    - [ChainSpec]: the chain specifications (node/src/chain_spec.rs), from their
      seeds to the running replica.
    - [Deployment]: the chain put together: nodes brought up by [new_full] from a
      specification, and a computed run of five nodes of the local chain.
    - [Payload]: the commitment payload (primitives/src/payload.rs).
    - [Inherents]: the slot inherent and the commitment
      (primitives/src/inherents.rs, commitment.rs).
    - [Benchmarking]: the extrinsics of the benchmarks (node/src/benchmarking.rs).
    - [NodeConfig]: configuration files and the node booted from them
      (node/src/config.rs, node.rs), which no module of the crate declares.
    - [BenchClient]: the benchmark client (node/src/client.rs).

    ** How the code is read

    A [&mut self] handler is a computation of the monad on the record of its
    fields; an error stops it and keeps the mutations made so far, as [?] does.
    [u64] values are [N] with the wrap-around of [+ 1] written out ([u64_add]),
    which is what a release build does; theorems about views assume them below
    the overflow where it matters. Block numbers are unbounded. Indexing and
    remainder that can panic answer an option. What a worker does outside (the
    votes it signs, gossip, timer resets, sync requests, finalize calls) is a
    list of recorded effects. Features that are off by default (experimental,
    runtime-benchmarks, try-runtime) and log lines are left out.

    [handle_proposal] and [handle_vote] call each other: they take fuel. The loop
    uses [event_fuel], three nested handlers; [event_always_served] shows that
    with two or more distinct authorities this is always enough, that no event
    makes the task panic, and that more fuel changes nothing: after its own vote
    a leader is never also the next leader. A single authority can nest more; the
    step relations leave out its events that do.

    ** What the theorems show

    Agreement, with the keys of at most a third of the authorities, and any number of
    keys that belong to no authority, in the hands of an adversary that forges no
    signature of another key. [QC::verify] counts keys without asking whose they
    are. A certificate that verifies has a quorum of authorities among its voters, or
    a voter among the adversary's keys that is none. Those of one view that have a
    quorum of authorities are for one proposal ([system_certificates_agree]), and the
    replicas finalize one block per view by them ([system_finality_agrees]), which
    was known to the clients of correct authorities that with the faulty ones are a
    quorum ([system_external_validity]). The condition is needed:
    [outsiders_break_agreement] is a run in which correct replicas finalize different
    blocks for one view by certificates of fresh keys.

    Across views this is not enough:
    [conflicting_finality] is a run without any faulty replica in which two
    replicas finalize different blocks of one height. [locked_finality_chains]
    shows what a locking rule, with a check of who signs, would give, that finalized
    proposals form a chain, and the run shows what it would not: it keeps the rule,
    and the blocks of the proposals still conflict, since nothing ties a proposal's
    block to those of its ancestors.

    [system_refines_voting] puts these in the terms of an abstract protocol: what
    replicas sign is a sequence of ballots at increasing views, a certificate
    of a quorum of authorities is a quorum of ballots and a view chooses one proposal
    at most.
    [tasks_refine_system] ties the network to the nodes that run: whatever turns
    the two tasks of the nodes take, they implement [System]. What [System] leaves
    out is restarts, and [restart_certifies_twice] shows why: the last voted view
    is not stored, and restarted replicas certify a view twice.

    Liveness, for a quorum of replicas whatever the others do. [block_finalized]:
    a block that is proposed while the leaders of three views in a row are in the
    quorum is finalized by all of it, by messages alone. [quorum_recovers]:
    a quorum that is stuck in one view gets out of it by its timers and messages
    and finalizes the block at the front of its queues, whoever leads the views:
    those of silent leaders pass by timeouts, and among as many views as there are
    authorities three in a row have leaders in the quorum.
    [lagging_replica_stays] shows the limit: a replica
    that fell behind the view of the others is not brought forward by anything
    they send. The theorems are about runs that exist, since the network may
    lose what it likes.

    Voting: votes of a replica are for strictly increasing views, through any run
    and any messages ([replica_votes_increase]), none follows a timeout of the
    view ([timer_stops_votes]); with quorum overlap this gives one certificate
    per view ([one_certificate_per_view]). Finalizing: only blocks with a chain
    of two checked descendants ([replica_finalizes_certified]). Invariant and
    refinement: [replica_invariant], [worker_refines_state]. Certificates: the
    aggregator answers a certificate exactly when there is a quorum, and it
    verifies. Queue, gossip filters, pallet, payload,
    inherents, configuration files: their functional behaviour, bounds and round
    trips. Composition: [spec_replica_serves] follows the keys of a chain
    specification through the genesis of the pallet, the runtime API and
    [start_hotstuff] to a worker that serves every event; [deployed_chain_safe] and
    [deployed_chain_recovers] state agreement and recovery of the nodes that
    [new_full] brings up from the two specifications, one of six authorities of the
    local chain being faulty; [new_full_exact] says
    what a node is once it is up, [spec_genesis_ok] that the genesis of the node
    fits the limits of the pallets.

    Some theorems show where the code falls short: a certificate of a later view
    never moves a replica forward ([handle_qc_exact], [tc_ahead_keeps_view]),
    aggregated timeout certificates do not verify ([aggregated_tc_rejected]),
    membership of voters is not checked ([QC_verify_membership_blind],
    [outsiders_break_agreement]), voting
    has no locking rule ([make_vote_exact]), the pending queue starts empty
    ([pending_queue_starts_empty]), justifications are not looked at
    ([import_justification_unchecked]), a configuration file is not truncated
    ([config_write_read]), a timer duration of 0 takes the node down
    ([timer_duration_zero]).

    ** What is relied on

    Laws of the platform are classes: decoding inverts encoding ([CodecLaws]), a
    keystore that holds a key signs verifiably ([KeystoreLaws]), the auxiliary
    store is a map ([AuxStoreLaws]), a signature binds one digest and digests of
    votes and timeouts determine what they are made of ([SignatureBinding],
    [DigestInjective], [ProposalDigests]); inherent data reads back what was put
    ([InherentLaws]), the auxiliary store and finalizing do not change which blocks
    are known ([StatusLaws]), the gossip engine asks the validator it was given
    ([GossipEngineLaws]), shared data reads as it was made ([SharedDataLaws]),
    RPC modules merge when their methods differ ([RpcLaws]), JSON texts are read back and nothing may follow them
    ([JsonLaws]). Each has an
    instance, in [Concrete], [Synchronizer] or the file that states it. Other
    crates are parameters: [ClientForHotstuff], [RuntimeApi], [Services],
    [Environment], [KeyDerivation], [Weights], [Crates], [Frame]. The liveness
    theorems assume that writes to the store succeed, and of the clients that a
    block stays to be finalized until it is ([unfinalized]).

    ** What is not modelled

    The gossip engine, tokio timers and channels beyond their bound, the database
    behind the client, FRAME macros, the dispatch of runtime calls by name, the
    executive (which hooks it runs, and what extrinsics, those of root included, may
    write) and the other pallets beyond the values they are configured with, the parsing of the command line: code of
    other crates. The features experimental, runtime-benchmarks and try-runtime.
    Declarations without behaviour (trait bounds, type aliases, log targets).

    ** Left out

    Liveness is shown for one block at a time, from states whose channels are empty;
    what the queue of a leader offers next depends on the notifications of its
    client, and after a restart the code starts with an empty queue
    ([pending_queue_starts_empty]). *)

From Stdlib.Strings Require Import Byte.
From Stdlib Require Export Lia NArith String ZifyNat ZifyN Sorted.
From stdpp Require Export gmap strings countable.
From stdpp Require Export prelude.

Ltac Zify.zify_post_hook ::= Z.to_euclidean_division_equations.

(** Closed goals by evaluation in the virtual machine. *)
Ltac vm_eq := match goal with |- @eq _ _ ?b => vm_cast_no_check (eq_refl b) end.
Ltac vm_refl := first [vm_eq | hnf; vm_eq].
Ltac vm_decide := apply (bool_decide_unpack _); vm_cast_no_check I.

(** The lemmas that hold outright of fresh or unchanged states. *)
Create HintDb hotstuff.

Declare Scope hs_scope.
Delimit Scope hs_scope with hs.

(** ** Bytes: Rust's [u8], and [Vec<u8>] as a list of them. *)

Abbreviation bytes := (list Byte.byte).

#[global] Instance byte_eq_dec : EqDecision Byte.byte := Byte.byte_eq_dec.

#[global] Program Instance byte_countable : Countable Byte.byte :=
  inj_countable Byte.to_N Byte.of_N _.
Next Obligation. intros x. apply Byte.of_to_N. Qed.

(** ** Machine integers: [u64] as [N] with the wrap-around written out (the
    release profile of the workspace does not check overflow). *)

Definition u64_modulus : N := 18446744073709551616%N.
Definition u64_max : N := 18446744073709551615%N.
Definition u64_add (a b : N) : N := ((a + b) mod u64_modulus)%N.
Definition u64_of_usize (n : nat) : N := (N.of_nat n mod u64_modulus)%N.
Definition u32_modulus : N := 4294967296%N.
Definition u32_cast (n : N) : N := (n mod u32_modulus)%N.

Lemma mod_succ_ne (v n : N) : (2 <= n)%N -> (v mod n <> (v + 1) mod n)%N.
Proof.
  intros Hn. rewrite <- (N.Div0.add_mod_idemp_l v 1 n).
  pose proof (N.mod_lt v n ltac:(lia)) as Hlt. generalize dependent (v mod n)%N. intros r Hlt.
  destruct (N.eq_dec (r + 1)%N n) as [Heq|Hne].
  - rewrite Heq, N.Div0.mod_same. lia.
  - rewrite N.mod_small by lia. lia.
Qed.

Lemma residue_unique (v0 n v v' : N) :
  (v0 <= v < v0 + n)%N -> (v0 <= v' < v0 + n)%N -> (v mod n = v' mod n)%N -> v = v'.
Proof.
  intros Hv Hv' Hm. pose proof (N.div_mod' v n) as E. pose proof (N.div_mod' v' n) as E'.
  rewrite Hm in E. generalize dependent (v' mod n)%N. intros r _ E' E.
  generalize dependent (v' / n)%N. generalize dependent (v / n)%N. intros q Eq q' Eq'.
  assert (q = q')%N; [nia|]. subst. lia.
Qed.

(** Every residue occurs exactly once in a window of [n] consecutive numbers. *)
Lemma window_residue (v0 n r : N) :
  (r < n)%N ->
  exists v, (v0 <= v < v0 + n)%N /\ (v mod n = r)%N /\
    forall v', (v0 <= v' < v0 + n)%N -> (v' mod n = r)%N -> v' = v.
Proof.
  intros Hr.
  assert ((v0 + (r + n - v0 mod n) mod n) mod n = r)%N as Hmod.
  { pose proof (N.mod_lt v0 n ltac:(lia)) as H0.
    rewrite N.Div0.add_mod_idemp_r, <- N.Div0.add_mod_idemp_l.
    replace (v0 mod n + (r + n - v0 mod n))%N with (r + 1 * n)%N by lia.
    rewrite N.Div0.mod_add. by apply N.mod_small. }
  pose proof (N.mod_lt (r + n - v0 mod n) n ltac:(lia)) as Hlt.
  exists (v0 + (r + n - v0 mod n) mod n)%N.
  generalize dependent ((r + n - v0 mod n) mod n)%N. intros d Hmod Hlt. split_and!; try lia.
  intros v' Hv' Hm. apply (residue_unique v0 n); lia.
Qed.

Lemma pair_of_fst {A B} (p : A * B) (a : A) : p.1 = a -> p = (a, p.2).
Proof. by destruct p; intros <-. Qed.

(** ** Lists *)

Lemma filter_all {A} (P : A -> Prop) `{!forall x, Decision (P x)} (l : list A) :
  Forall P l -> filter P l = l.
Proof.
  induction 1 as [|x l Hx Hl IH]; [done|]. by rewrite filter_cons_True, IH.
Qed.

Lemma StronglySorted_app_intro {A} (R : A -> A -> Prop) (l1 l2 : list A) :
  StronglySorted R l1 -> StronglySorted R l2 -> (forall x y, x ∈ l1 -> y ∈ l2 -> R x y) ->
  StronglySorted R (l1 ++ l2).
Proof.
  induction 1 as [|x l1 Hs IH Hf]; intros H2 Hc; cbn; [done|]. constructor.
  - apply IH; [done|]. set_solver.
  - apply Forall_app. split; [done|]. apply Forall_forall. set_solver.
Qed.

(** ** Rust's [Result]. *)

Inductive result (E A : Type) : Type :=
| Ok (a : A)
| Err (e : E).
Arguments Ok {E A} a.
Arguments Err {E A} e.

#[global] Instance result_eq_dec {E A} `{EqDecision E, EqDecision A} : EqDecision (result E A).
Proof. solve_decision. Defined.

Definition result_bind {E A B} (r : result E A) (k : A -> result E B) : result E B :=
  match r with Ok a => k a | Err e => Err e end.

Definition ok_or {E A} (o : option A) (e : E) : result E A :=
  match o with Some a => Ok a | None => Err e end.

Definition map_err {E E' A} (f : E -> E') (r : result E A) : result E' A :=
  match r with Ok a => Ok a | Err e => Err (f e) end.

Definition result_ok {E A} (r : result E A) : option A :=
  match r with Ok a => Some a | Err _ => None end.

(** [result_bind] on the two outcomes, for case analysis of the checks. *)
Lemma bind_ok {E X Y} (r : result E X) (k : X -> result E Y) y :
  result_bind r k = Ok y <-> exists x, r = Ok x /\ k x = Ok y.
Proof. destruct r; cbn; split; [eauto|by intros (? & [= <-] & ?)|done|by intros (? & ? & ?)]. Qed.

Lemma ok_or_ok {E X} (o : option X) (e : E) x : ok_or o e = Ok x <-> o = Some x.
Proof. destruct o; cbn; split; by intros [= ->]. Qed.

Notation "'let?' x ':=' r 'in' k" := (result_bind r (fun x => k))
  (at level 10, x pattern, r at level 100, k at level 200) : hs_scope.
Notation "r '?;' k" := (result_bind r (fun _ => k))
  (at level 100, k at level 200, right associativity) : hs_scope.

(** ** Effectful code: a handler works on its [&mut self], may fail with an
    error value (the mutations made so far stay), may panic, and a recursive
    one carries fuel. *)

Inductive abort (E : Type) : Type :=
| Fail (e : E)
| Panicked
| NoFuel.
Arguments Fail {E} e.
Arguments Panicked {E}.
Arguments NoFuel {E}.

Inductive exec (E A : Type) : Type :=
| Val (a : A)
| Abort (x : abort E).
Arguments Val {E A} a.
Arguments Abort {E A} x.

Definition M (S E A : Type) : Type := S -> exec E A * S.

Section monad.
Context {S E : Type}.

Definition st_ret {A} (a : A) : M S E A := fun s => (Val a, s).

Definition st_bind {A B} (m : M S E A) (k : A -> M S E B) : M S E B := fun s =>
  match m s with
  | (Val a, s') => k a s'
  | (Abort x, s') => (Abort x, s')
  end.

Definition st_get {A} (f : S -> A) : M S E A := fun s => (Val (f s), s).
Definition st_modify (f : S -> S) : M S E unit := fun s => (Val tt, f s).
Definition st_update {A} (f : S -> A * S) : M S E A := fun s => let '(a, s') := f s in (Val a, s').
Definition st_throw {A} (e : E) : M S E A := fun s => (Abort (Fail e), s).
Definition st_panic {A} : M S E A := fun s => (Abort Panicked, s).
Definition st_nofuel {A} : M S E A := fun s => (Abort NoFuel, s).

Definition st_lift {A} (r : result E A) : M S E A :=
  match r with Ok a => st_ret a | Err e => st_throw e end.

(** Indexing or a division that panics when it has no value. *)
Definition st_expect {A} (o : option A) : M S E A :=
  match o with Some a => st_ret a | None => st_panic end.

(** [wp m Q X s]: from [s], [m] ends with a value and state in [Q], or stops
    early with an outcome and state in [X]. *)
Definition wp {A} (m : M S E A) (Q : A -> S -> Prop) (X : abort E -> S -> Prop) (s : S) : Prop :=
  match m s with
  | (Val a, s') => Q a s'
  | (Abort x, s') => X x s'
  end.

Lemma wp_ret {A} (a : A) Q X s : Q a s -> wp (st_ret a) Q X s.
Proof. done. Qed.

Lemma wp_bind {A B} (m : M S E A) (k : A -> M S E B) Q X s :
  wp m (fun a => wp (k a) Q X) X s -> wp (st_bind m k) Q X s.
Proof. unfold wp, st_bind. by destruct (m s) as [[a|x] s']. Qed.

Lemma wp_get {A} (f : S -> A) Q X s : Q (f s) s -> wp (st_get f) Q X s.
Proof. done. Qed.

Lemma wp_modify f Q X s : Q tt (f s) -> wp (st_modify f) Q X s.
Proof. done. Qed.

Lemma wp_update {A} (f : S -> A * S) (Q : A -> S -> Prop) X s :
  Q (f s).1 (f s).2 -> wp (st_update f) Q X s.
Proof. unfold wp, st_update. by destruct (f s). Qed.

Lemma wp_throw {A} e (Q : A -> S -> Prop) X s : X (Fail e) s -> wp (st_throw e) Q X s.
Proof. done. Qed.

Lemma wp_panic {A} (Q : A -> S -> Prop) X s : X Panicked s -> wp st_panic Q X s.
Proof. done. Qed.

Lemma wp_nofuel {A} (Q : A -> S -> Prop) X s : X NoFuel s -> wp st_nofuel Q X s.
Proof. done. Qed.

Lemma wp_lift {A} (r : result E A) Q X s :
  (forall a, r = Ok a -> Q a s) -> (forall e, r = Err e -> X (Fail e) s) -> wp (st_lift r) Q X s.
Proof. destruct r; cbn; eauto. Qed.

Lemma wp_expect {A} (o : option A) Q X s :
  (forall a, o = Some a -> Q a s) -> (o = None -> X Panicked s) -> wp (st_expect o) Q X s.
Proof. destruct o; cbn; eauto. Qed.

Lemma wp_mono {A} (m : M S E A) (Q Q' : A -> S -> Prop) (X X' : abort E -> S -> Prop) s :
  wp m Q X s -> (forall a s', Q a s' -> Q' a s') -> (forall x s', X x s' -> X' x s') ->
  wp m Q' X' s.
Proof. unfold wp. destruct (m s) as [[a|x] s']; eauto. Qed.

(** The relational form: whatever the outcome, [m] moves the state along [R]. *)
Definition guar {A} (R : S -> S -> Prop) (m : M S E A) : Prop := forall s, R s (m s).2.

Lemma guar_wp {A} (R : S -> S -> Prop) (m : M S E A) :
  (forall s, wp m (fun _ => R s) (fun _ => R s) s) -> guar R m.
Proof. intros H s. specialize (H s). unfold wp in H. by destruct (m s) as [[a|x] s']. Qed.

Lemma wp_guar {A} (R : S -> S -> Prop) (m : M S E A) (Q : A -> S -> Prop) X s :
  guar R m -> (forall a s', R s s' -> Q a s') -> (forall x s', R s s' -> X x s') -> wp m Q X s.
Proof. intros H HQ HX. specialize (H s). unfold wp. destruct (m s) as [[a|x] s']; eauto. Qed.

Lemma guar_bind {A B} (R : S -> S -> Prop) `{!Transitive R} (m : M S E A) (k : A -> M S E B) :
  guar R m -> (forall a, guar R (k a)) -> guar R (st_bind m k).
Proof.
  intros Hm Hk s. specialize (Hm s). unfold st_bind. destruct (m s) as [[a|x] s']; [|done].
  etrans; [exact Hm|apply Hk].
Qed.

Lemma guar_refl {A} (R : S -> S -> Prop) `{!Reflexive R} (m : M S E A) :
  (forall s, (m s).2 = s) -> guar R m.
Proof. intros H s. by rewrite H. Qed.

End monad.

Notation "'let!' x ':=' m 'in' k" := (st_bind m (fun x => k))
  (at level 10, x pattern, m at level 100, k at level 200) : hs_scope.
Notation "m ';!' k" := (st_bind m (fun _ => k))
  (at level 100, k at level 200, right associativity) : hs_scope.

(** Dropping one element of a list without repetitions. *)
Lemma length_filter_ne {X} `{EqDecision X} (l : list X) (x : X) :
  NoDup l -> (length l <= S (length (filter (.≠ x) l)))%nat.
Proof.
  induction 1 as [|y l Hnin Hnd IH]; [cbn; lia|]. rewrite filter_cons. destruct (decide (y ≠ x)) as [Hne|Heq]; cbn [length]; [lia|].
  apply dec_stable in Heq as ->. clear IH. assert (filter (.≠ x) l = l) as ->; [|lia].
  induction l as [|z l IH]; [done|]. apply not_elem_of_cons in Hnin as [Hz Hnin]. apply NoDup_cons in Hnd as [_ Hnd].
  rewrite filter_cons, decide_True by congruence. f_equal. by apply IH.
Qed.
