(* ===== verification/Primitives.v ===== *)
(** * Primitives

    The types of [consensus/src/primitives.rs] and [hotstuff-primitives], and
    the platform they are generic over: the block type with its hashing, the
    SCALE codec, the signature scheme and the keystore, all of them code of
    other crates, are type-class parameters. *)

From S2P Require Import Prelude.

(** ** The platform *)

(** [B: BlockT]: the hash type of the block, its [Default], and the hashing of
    the header. [hash] is [HashT::hash] on a byte slice, [hash_of] is
    [HashT::hash_of] on an owned [Vec<u8>], [hash_as_ref] the bytes of a hash.
    Block numbers are unsigned. *)
Class BlockT := {
  Hash : Type;
  Hash_eq_dec :: EqDecision Hash;
  Hash_countable :: Countable Hash;
  Hash_default : Hash;
  hash : bytes -> Hash;
  hash_of : bytes -> Hash;
  hash_as_ref : Hash -> bytes;
}.

(** [AuthorityId], [AuthoritySignature] and [AuthorityPair::verify] of the
    application crypto, and the keystore behind [KeystorePtr]. [sign_with]
    answers the raw signature bytes, or nothing when it does not hold the key;
    [signature_try_from] is [AuthoritySignature::try_from]. *)
Class Crypto `{!BlockT} := {
  AuthorityId : Type;
  AuthorityId_eq_dec :: EqDecision AuthorityId;
  AuthorityId_countable :: Countable AuthorityId;
  AuthoritySignature : Type;
  AuthoritySignature_eq_dec :: EqDecision AuthoritySignature;
  pair_verify : AuthoritySignature -> Hash -> AuthorityId -> bool;
  Keystore : Type;
  has_keys : Keystore -> AuthorityId -> bool;
  sign_with : Keystore -> AuthorityId -> Hash -> result string (option bytes);
  signature_try_from : bytes -> option AuthoritySignature;
}.

(** [Encode]/[Decode] of one type; a decoding error is the text made of it. *)
Class Codec (A : Type) := {
  encode : A -> bytes;
  decode : bytes -> result string A;
}.

(** What is relied on of a codec: decoding what was encoded gives it back. *)
Class CodecLaws (A : Type) `{!Codec A} : Prop := {
  decode_encode : forall a : A, decode (encode a) = Ok a;
}.

(** What is relied on of the keystore: when it holds the key of an authority it
    signs, the answer is a well-formed signature, and the signature verifies. *)
Class KeystoreLaws `{Crypto} : Prop := {
  sign_with_verifies : forall ks id d, has_keys ks id = true ->
    exists raw sig, sign_with ks id d = Ok (Some raw) /\
      signature_try_from raw = Some sig /\ pair_verify sig d id = true;
}.

(** ** [hotstuff-primitives] *)

(** [pub type ViewNumber = u64] *)
Abbreviation ViewNumber := N.

(** [pub type AuthorityWeight = u64] *)
Abbreviation AuthorityWeight := N.

(** [pub type AuthorityList = Vec<(AuthorityId, AuthorityWeight)>] *)
Abbreviation AuthorityList := (list (AuthorityId * AuthorityWeight)).

Section primitives.
Context `{Crypto}.

(** [enum HotstuffError] *)
Inductive HotstuffError : Type :=
| AuthorityReuse (id : AuthorityId)
| InsufficientQuorum
| InvalidSignature (id : AuthorityId)
| NullSignature
| UnknownAuthority (id : AuthorityId)
| NotAuthority
| WrongProposer
| ProposalNoParent
| ExpiredVote
| InvalidTC
| FinalizeBlock (msg : string)
| SaveProposal (msg : string)
| ClientError (msg : string)
| Other (msg : string).

#[global] Instance HotstuffError_eq_dec : EqDecision HotstuffError.
Proof. solve_decision. Defined.

(** The ids of an authority list. *)
Definition ids (authorities : AuthorityList) : list AuthorityId := authorities.*1.

End primitives.
