(* ===== verification/Messages.v ===== *)
(** * Messages

    The message types of [consensus/src/message.rs] with their digests and
    their [verify] methods. *)

From S2P Require Import Prelude Primitives.
#[local] Open Scope hs_scope.

(** ** Data *)

Section data.
Context `{Crypto}.

(** [struct QC]: quorum certificate for a proposal. *)
Record QC := mkQC {
  qc_proposal_hash : Hash;
  qc_view : ViewNumber;
  qc_votes : list (AuthorityId * AuthoritySignature);
}.

(** [impl Default for QC] *)
Definition QC_default : QC := mkQC Hash_default 0%N [].

(** [struct Payload]: the block that will be finalized. *)
Record Payload := mkPayload {
  block_hash : Hash;
  block_number : N;
}.

(** [struct TC]: timeout certificate. *)
Record TC := mkTC {
  tc_view : ViewNumber;
  tc_votes : list (AuthorityId * AuthoritySignature * ViewNumber);
}.

(** [struct Proposal] *)
Record Proposal := mkProposal {
  proposal_qc : QC;
  proposal_tc : option TC;
  proposal_payload : Payload;
  proposal_view : ViewNumber;
  proposal_author : AuthorityId;
  proposal_signature : option AuthoritySignature;
}.

(** [struct Vote] *)
Record Vote := mkVote {
  vote_proposal_hash : Hash;
  vote_view : ViewNumber;
  vote_voter : AuthorityId;
  vote_signature : option AuthoritySignature;
}.

(** [Vote::new] *)
Definition Vote_new (proposal_hash : Hash) (view : ViewNumber) (voter : AuthorityId) : Vote :=
  mkVote proposal_hash view voter None.

(** [struct Timeout] *)
Record Timeout := mkTimeout {
  timeout_high_qc : QC;
  timeout_view : ViewNumber;
  timeout_voter : AuthorityId;
  timeout_signature : option AuthoritySignature;
}.

(** [enum ConsensusMessage] *)
Inductive ConsensusMessage : Type :=
| MsgPropose (p : Proposal)
| MsgVote (v : Vote)
| MsgTimeout (t : Timeout)
| MsgTC (t : TC)
| MsgSyncRequest (h : Hash) (id : AuthorityId)
| MsgPhantom.

(** [impl PartialEq for QC]: the votes are not compared. *)
Definition QC_eqb (a b : QC) : bool :=
  bool_decide (qc_proposal_hash a = qc_proposal_hash b) && (qc_view a =? qc_view b)%N.

(** [QC::add_votes] *)
Definition QC_add_votes (qc : QC) (authority_id : AuthorityId) (signature : AuthoritySignature) : QC :=
  mkQC (qc_proposal_hash qc) (qc_view qc) (qc_votes qc ++ [(authority_id, signature)]).

(** [Proposal::parent_hash] *)
Definition Proposal_parent_hash (p : Proposal) : Hash := qc_proposal_hash (proposal_qc p).

End data.

(** The codecs the messages are built from and sent with. *)
Class MessageCodecs `{Crypto} := {
  hash_codec :: Codec Hash;
  view_codec :: Codec ViewNumber;
  id_codec :: Codec AuthorityId;
  payload_codec :: Codec Payload;
  proposal_codec :: Codec Proposal;
  message_codec :: Codec ConsensusMessage;
}.

(** ** Digests and verification *)

Section verify.
Context `{MessageCodecs}.

(** [QC::digest] *)
Definition QC_digest (qc : QC) : Hash :=
  hash_of (encode (qc_proposal_hash qc) ++ encode (qc_view qc)).

(** [Vote::digest] *)
Definition Vote_digest (v : Vote) : Hash :=
  hash_of (encode (vote_proposal_hash v) ++ encode (vote_view v)).

(** [Proposal::digest] *)
Definition Proposal_digest (p : Proposal) : Hash :=
  hash_of (encode (proposal_author p) ++ encode (proposal_payload p) ++
           encode (proposal_view p) ++ encode (qc_proposal_hash (proposal_qc p))).

(** [Timeout::digest] *)
Definition Timeout_digest (t : Timeout) : Hash :=
  hash_of (encode (timeout_view t) ++ encode (qc_view (timeout_high_qc t))).

(** The digest [TC::verify] computes for one entry of the certificate. *)
Definition TC_vote_digest (tc : TC) (view : ViewNumber) : Hash :=
  hash_of (encode (tc_view tc) ++ encode view).

(** The first loop of [QC::verify] and [TC::verify]: refuse an id seen before,
    count the others. *)
Fixpoint count_votes (used : gset AuthorityId) (grant_votes : nat) (voters : list AuthorityId)
    : result HotstuffError nat :=
  match voters with
  | [] => Ok grant_votes
  | authority_id :: rest =>
      if decide (authority_id ∈ used) then Err (AuthorityReuse authority_id)
      else count_votes ({[authority_id]} ∪ used) (S grant_votes) rest
  end.

(** The second loop of [QC::verify]. *)
Fixpoint check_qc_signatures (digest : Hash) (votes : list (AuthorityId * AuthoritySignature))
    : result HotstuffError unit :=
  match votes with
  | [] => Ok tt
  | (voter, signature) :: rest =>
      if negb (pair_verify signature digest voter) then Err (InvalidSignature voter)
      else check_qc_signatures digest rest
  end.

(** The second loop of [TC::verify]. *)
Fixpoint check_tc_signatures (tc : TC) (votes : list (AuthorityId * AuthoritySignature * ViewNumber))
    : result HotstuffError unit :=
  match votes with
  | [] => Ok tt
  | (voter, signature, view) :: rest =>
      if negb (pair_verify signature (TC_vote_digest tc view) voter) then Err (InvalidSignature voter)
      else check_tc_signatures tc rest
  end.

(** [authorities.len() * 2 / 3] *)
Definition two_thirds (authorities : AuthorityList) : nat := (length authorities * 2 / 3)%nat.

(** [QC::verify] *)
Definition QC_verify (qc : QC) (authorities : AuthorityList) : result HotstuffError unit :=
  let? grant_votes := count_votes ∅ 0 (qc_votes qc).*1 in
  if (grant_votes <=? two_thirds authorities)%nat then Err InsufficientQuorum
  else check_qc_signatures (QC_digest qc) (qc_votes qc).

(** [TC::verify] *)
Definition TC_verify (tc : TC) (authorities : AuthorityList) : result HotstuffError unit :=
  let? grant_votes := count_votes ∅ 0 (tc_votes tc).*1.*1 in
  if (grant_votes <=? two_thirds authorities)%nat then Err InsufficientQuorum
  else check_tc_signatures tc (tc_votes tc).

(** [authorities.iter().find(|authority| authority.0 == id)] *)
Definition find_authority (authorities : AuthorityList) (id : AuthorityId)
    : option (AuthorityId * AuthorityWeight) :=
  List.find (fun authority => bool_decide (authority.1 = id)) authorities.

(** The signature check shared by [Proposal::verify], [Vote::verify] and
    [Timeout::verify]. *)
Definition check_signature (signature : option AuthoritySignature) (digest : Hash) (id : AuthorityId)
    : result HotstuffError unit :=
  let? sig := ok_or signature NullSignature in
  if negb (pair_verify sig digest id) then Err (InvalidSignature id) else Ok tt.

(** [Proposal::verify] *)
Definition Proposal_verify (p : Proposal) (authorities : AuthorityList) : result HotstuffError unit :=
  ok_or (find_authority authorities (proposal_author p)) (UnknownAuthority (proposal_author p)) ?;
  check_signature (proposal_signature p) (Proposal_digest p) (proposal_author p) ?;
  if negb (QC_eqb (proposal_qc p) QC_default) then QC_verify (proposal_qc p) authorities else Ok tt.

(** [Vote::verify] *)
Definition Vote_verify (v : Vote) (authorities : AuthorityList) : result HotstuffError unit :=
  ok_or (find_authority authorities (vote_voter v)) (UnknownAuthority (vote_voter v)) ?;
  check_signature (vote_signature v) (Vote_digest v) (vote_voter v).

(** [Timeout::verify] *)
Definition Timeout_verify (t : Timeout) (authorities : AuthorityList) : result HotstuffError unit :=
  ok_or (find_authority authorities (timeout_voter t)) (UnknownAuthority (timeout_voter t)) ?;
  check_signature (timeout_signature t) (Timeout_digest t) (timeout_voter t) ?;
  if negb (QC_eqb (timeout_high_qc t) QC_default) then QC_verify (timeout_high_qc t) authorities
  else Ok tt.

(** [ConsensusMessage::gossip_topic]: the hash of [b"hotstuff/consensus"]. *)
Definition gossip_topic : Hash := hash (String.list_byte_of_string "hotstuff/consensus").

End verify.

#[global] Arguments two_thirds : simpl never.

(** ** Idealised cryptography

    What the signature scheme and the hashing are relied on for, where a
    statement needs it: a signature is over one digest only, and the digests of
    votes and of timeouts determine what was signed. *)
Class SignatureBinding `{Crypto} : Prop := {
  signature_binding : forall sig d d' id,
    pair_verify sig d id = true -> pair_verify sig d' id = true -> d = d';
}.

Class DigestInjective `{MessageCodecs} : Prop := {
  vote_digest_inj : forall v v', Vote_digest v = Vote_digest v' ->
    vote_proposal_hash v = vote_proposal_hash v' /\ vote_view v = vote_view v';
  timeout_digest_inj : forall t t', Timeout_digest t = Timeout_digest t' ->
    timeout_view t = timeout_view t' /\
    qc_view (timeout_high_qc t) = qc_view (timeout_high_qc t');
}.

(** The digest of a proposal determines its payload, view and parent, and is not
    the default hash. *)
Class ProposalDigests `{MessageCodecs} : Prop := {
  proposal_digest_inj : forall p p', Proposal_digest p = Proposal_digest p' ->
    proposal_payload p = proposal_payload p' /\ proposal_view p = proposal_view p' /\
    Proposal_parent_hash p = Proposal_parent_hash p';
  proposal_digest_default : forall p, Proposal_digest p <> Hash_default;
}.

(** ** What verification accepts *)

Section verify_facts.
Context `{MessageCodecs}.
Implicit Types (A : AuthorityList) (qc : QC) (tc : TC).

Lemma count_votes_ok used n voters m :
  count_votes used n voters = Ok m <->
  NoDup voters /\ Forall (fun id => id ∉ used) voters /\ m = (n + length voters)%nat.
Proof.
  revert used n. induction voters as [|id rest IH]; intros used n; cbn.
  - split; [intros [= <-]; repeat constructor; lia | intros (_ & _ & ->); f_equal; lia].
  - rewrite NoDup_cons, Forall_cons. case_decide as Hin; [naive_solver|].
    rewrite IH, !Forall_forall. split.
    + intros (Hnd & Hf & ->). repeat split; try done; [set_solver..|lia].
    + intros ((Hnin & Hnd) & (_ & Hf) & ->). repeat split; try done; [set_solver|lia].
Qed.

Lemma count_votes_err used n voters e :
  count_votes used n voters = Err e <->
  exists pre id post, voters = pre ++ id :: post /\ e = AuthorityReuse id /\
    NoDup pre /\ Forall (fun x => x ∉ used) pre /\ (id ∈ used \/ id ∈ pre).
Proof.
  revert used n. induction voters as [|a rest IH]; intros used n; cbn.
  - split; [done|]. intros (pre & id & post & Hl & _). by destruct pre.
  - case_decide as Hin.
    + split.
      * intros [= <-]. exists [], a, rest. repeat split; try constructor; done.
      * intros (pre & id & post & Hl & -> & Hnd & Hf & Hid).
        destruct pre as [|b pre]; simplify_eq/=; [done|]. by apply Forall_cons in Hf as [? _].
    + rewrite IH. split.
      * intros (pre & id & post & -> & -> & Hnd & Hf & Hid).
        exists (a :: pre), id, post. rewrite NoDup_cons, Forall_cons, elem_of_cons.
        rewrite !Forall_forall in *. set_solver.
      * intros (pre & id & post & Hl & -> & Hnd & Hf & Hid).
        destruct pre as [|b pre]; simplify_eq/=; [set_solver|].
        exists pre, id, post. rewrite NoDup_cons, Forall_cons, elem_of_cons in *.
        rewrite !Forall_forall in *. set_solver.
Qed.

Lemma check_qc_signatures_ok d votes :
  check_qc_signatures d votes = Ok tt <->
  Forall (fun '(voter, sig) => pair_verify sig d voter = true) votes.
Proof.
  induction votes as [|[voter sig] rest IH]; cbn; [by split|].
  rewrite Forall_cons. destruct (pair_verify _ _ _); cbn; naive_solver.
Qed.

Lemma check_tc_signatures_ok tc votes :
  check_tc_signatures tc votes = Ok tt <->
  Forall (fun '(voter, sig, view) => pair_verify sig (TC_vote_digest tc view) voter = true) votes.
Proof.
  induction votes as [|[[voter sig] view] rest IH]; cbn; [by split|].
  rewrite Forall_cons. destruct (pair_verify _ _ _); cbn; naive_solver.
Qed.

Lemma check_qc_signatures_err d votes e :
  check_qc_signatures d votes = Err e <->
  exists pre voter sig post, votes = pre ++ (voter, sig) :: post /\ e = InvalidSignature voter /\
    Forall (fun '(voter, sig) => pair_verify sig d voter = true) pre /\ pair_verify sig d voter = false.
Proof.
  induction votes as [|[v s] rest IH]; cbn.
  - split; [done|]. intros (pre & ? & ? & ? & Hl & _). by destruct pre.
  - destruct (pair_verify s d v) eqn:Hv; cbn.
    + rewrite IH. split.
      * intros (pre & voter & sig & post & -> & -> & Hp & Hs).
        exists ((v, s) :: pre), voter, sig, post. by rewrite Forall_cons.
      * intros (pre & voter & sig & post & Hl & -> & Hp & Hs).
        destruct pre as [|b pre]; simplify_eq/=; [congruence|]. apply Forall_cons in Hp as [_ Hp]. naive_solver.
    + split.
      * intros [= <-]. by exists [], v, s, rest.
      * intros (pre & voter & sig & post & Hl & -> & Hp & Hs).
        destruct pre as [|b pre]; simplify_eq/=; [done|]. apply Forall_cons in Hp as [? _]. congruence.
Qed.

(** A certificate of quorum size, as the verifier sees it. *)
Definition quorum_of (A : AuthorityList) (voters : list AuthorityId) : Prop :=
  NoDup voters /\ (two_thirds A < length voters)%nat.

Lemma count_votes_quorum A voters :
  (exists n, count_votes ∅ 0 voters = Ok n /\ (n <=? two_thirds A)%nat = false) <->
  quorum_of A voters.
Proof.
  unfold quorum_of. setoid_rewrite count_votes_ok. setoid_rewrite Nat.leb_gt. split.
  - naive_solver.
  - intros [Hnd Hlt]. exists (length voters). repeat split; try done.
    apply Forall_forall. set_solver.
Qed.

(** [QC::verify] accepts exactly the certificates of distinct voters, more than
    two thirds of the authority count, each with a valid signature of the digest. *)
Lemma QC_verify_ok qc A :
  QC_verify qc A = Ok tt <->
  quorum_of A (qc_votes qc).*1 /\
  Forall (fun '(voter, sig) => pair_verify sig (QC_digest qc) voter = true) (qc_votes qc).
Proof.
  unfold QC_verify. rewrite bind_ok, <- count_votes_quorum, <- check_qc_signatures_ok. split.
  - intros (n & Hc & Hk). destruct (n <=? two_thirds A)%nat eqn:Hn; naive_solver.
  - intros [(n & Hc & Hn) Hs]. exists n. by rewrite Hn.
Qed.

Lemma TC_verify_ok tc A :
  TC_verify tc A = Ok tt <->
  quorum_of A (tc_votes tc).*1.*1 /\
  Forall (fun '(voter, sig, view) => pair_verify sig (TC_vote_digest tc view) voter = true) (tc_votes tc).
Proof.
  unfold TC_verify. rewrite bind_ok, <- count_votes_quorum, <- check_tc_signatures_ok. split.
  - intros (n & Hc & Hk). destruct (n <=? two_thirds A)%nat eqn:Hn; naive_solver.
  - intros [(n & Hc & Hn) Hs]. exists n. by rewrite Hn.
Qed.

Lemma find_authority_some A id :
  is_Some (find_authority A id) <-> id ∈ ids A.
Proof.
  unfold find_authority, ids. rewrite list_elem_of_fmap. split.
  - intros [[i w] Hf]. apply List.find_some in Hf as [Hin Heq].
    apply bool_decide_eq_true in Heq. exists (i, w). by rewrite list_elem_of_In.
  - intros ([i w] & -> & Hin%list_elem_of_In).
    destruct (List.find _ A) eqn:Hf; [done|].
    apply (List.find_none _ _ Hf) in Hin. by rewrite bool_decide_eq_false in Hin.
Qed.

Lemma check_signature_ok signature d id :
  check_signature signature d id = Ok tt <->
  exists sig, signature = Some sig /\ pair_verify sig d id = true.
Proof.
  unfold check_signature. rewrite bind_ok. setoid_rewrite ok_or_ok. split.
  - intros (sig & -> & Hc). exists sig. by destruct (pair_verify _ _ _).
  - intros (sig & -> & Hc). exists sig. by rewrite Hc.
Qed.

Lemma known_authority_ok A id :
  (exists a, ok_or (find_authority A id) (UnknownAuthority id) = Ok a) <-> id ∈ ids A.
Proof. setoid_rewrite ok_or_ok. apply find_authority_some. Qed.

Lemma Vote_verify_ok v A :
  Vote_verify v A = Ok tt <->
  vote_voter v ∈ ids A /\
  exists sig, vote_signature v = Some sig /\ pair_verify sig (Vote_digest v) (vote_voter v) = true.
Proof.
  unfold Vote_verify. rewrite bind_ok, <- check_signature_ok, <- known_authority_ok. naive_solver.
Qed.

(** The embedded certificate of a proposal or a timeout: the default one passes
    unchecked, any other is verified. *)
Definition qc_accepted (A : AuthorityList) (qc : QC) : Prop :=
  QC_eqb qc QC_default = true \/ QC_verify qc A = Ok tt.

Lemma qc_guard_ok A qc :
  (if negb (QC_eqb qc QC_default) then QC_verify qc A else Ok tt) = Ok tt <-> qc_accepted A qc.
Proof. unfold qc_accepted. destruct (QC_eqb qc QC_default); cbn; naive_solver. Qed.

Lemma Proposal_verify_ok p A :
  Proposal_verify p A = Ok tt <->
  proposal_author p ∈ ids A /\
  (exists sig, proposal_signature p = Some sig /\
               pair_verify sig (Proposal_digest p) (proposal_author p) = true) /\
  qc_accepted A (proposal_qc p).
Proof.
  unfold Proposal_verify. rewrite bind_ok, <- qc_guard_ok, <- check_signature_ok, <- known_authority_ok.
  split.
  - intros (a & Ha & ([] & Hs & Hq)%bind_ok). eauto.
  - intros ([a Ha] & Hs & Hq). exists a. split; [done|]. apply bind_ok. by exists tt.
Qed.

Lemma Timeout_verify_ok t A :
  Timeout_verify t A = Ok tt <->
  timeout_voter t ∈ ids A /\
  (exists sig, timeout_signature t = Some sig /\
               pair_verify sig (Timeout_digest t) (timeout_voter t) = true) /\
  qc_accepted A (timeout_high_qc t).
Proof.
  unfold Timeout_verify. rewrite bind_ok, <- qc_guard_ok, <- check_signature_ok, <- known_authority_ok.
  split.
  - intros (a & Ha & ([] & Hs & Hq)%bind_ok). eauto.
  - intros ([a Ha] & Hs & Hq). exists a. split; [done|]. apply bind_ok. by exists tt.
Qed.

End verify_facts.
