(* ===== verification/Concrete.v ===== *)
(** * Concrete

    A concrete platform on which the generic definitions run: hashing keeps its
    input, a signature is the pair of its signer and the signed digest, and the
    codecs are prefix-free byte encodings. It shows that what is assumed of the
    platform can hold, and it is where the definitions are evaluated. *)

From S2P Require Import Prelude Primitives Messages.
From Stdlib.Strings Require Import Byte.

(** ** Prefix-free encodings *)

Class PCodec (A : Type) := {
  penc : A -> bytes;
  pdec : bytes -> option (A * bytes);
  pdec_penc : forall a rest, pdec (penc a ++ rest) = Some (a, rest);
}.

Fixpoint enc_pos (p : positive) : bytes :=
  match p with
  | xH => [x00]
  | xO q => x01 :: enc_pos q
  | xI q => x02 :: enc_pos q
  end.

Fixpoint dec_pos (bs : bytes) : option (positive * bytes) :=
  match bs with
  | x00 :: rest => Some (xH, rest)
  | x01 :: rest => match dec_pos rest with Some (q, r) => Some (xO q, r) | None => None end
  | x02 :: rest => match dec_pos rest with Some (q, r) => Some (xI q, r) | None => None end
  | _ => None
  end.

Lemma dec_enc_pos p rest : dec_pos (enc_pos p ++ rest) = Some (p, rest).
Proof. induction p as [p IH|p IH|]; cbn; by rewrite ?IH. Qed.

Definition pcodec_N : PCodec N.
Proof.
  refine {|
  penc n := match n with N0 => [x00] | Npos p => x01 :: enc_pos p end;
  pdec bs := match bs with
             | x00 :: rest => Some (N0, rest)
             | x01 :: rest => match dec_pos rest with Some (p, r) => Some (Npos p, r) | None => None end
             | _ => None
             end;
|}.
 intros [|p] rest; cbn; by rewrite ?dec_enc_pos. Defined.

Fixpoint enc_bytes (l : bytes) : bytes :=
  match l with [] => [x00] | b :: l => x01 :: b :: enc_bytes l end.

Fixpoint dec_bytes (bs : bytes) : option (bytes * bytes) :=
  match bs with
  | x00 :: rest => Some ([], rest)
  | x01 :: b :: rest => match dec_bytes rest with Some (l, r) => Some (b :: l, r) | None => None end
  | _ => None
  end.

Definition pcodec_bytes : PCodec bytes.
Proof.
  refine {| penc := enc_bytes; pdec := dec_bytes |}.
 intros l rest. induction l as [|b l IH]; cbn; by rewrite ?IH. Defined.

Definition pcodec_pair {A B} (ca : PCodec A) (cb : PCodec B) : PCodec (A * B).
Proof.
  refine {|
  penc ab := @penc A ca ab.1 ++ @penc B cb ab.2;
  pdec bs := match @pdec A ca bs with
             | Some (a, r) => match @pdec B cb r with Some (b, r') => Some ((a, b), r') | None => None end
             | None => None
             end;
|}.
 intros [a b] rest; cbn. by rewrite <- app_assoc, !pdec_penc. Defined.

Definition pcodec_option {A} (ca : PCodec A) : PCodec (option A).
Proof.
  refine {|
  penc o := match o with None => [x00] | Some a => x01 :: penc a end;
  pdec bs := match bs with
             | x00 :: rest => Some (None, rest)
             | x01 :: rest => match @pdec A ca rest with Some (a, r) => Some (Some a, r) | None => None end
             | _ => None
             end;
|}.
 intros [a|] rest; cbn; by rewrite ?pdec_penc. Defined.

Fixpoint dec_list {A} (ca : PCodec A) (fuel : nat) (bs : bytes) : option (list A * bytes) :=
  match fuel, bs with
  | S fuel, x00 :: rest => Some ([], rest)
  | S fuel, x01 :: rest =>
      match @pdec A ca rest with
      | Some (a, r) => match dec_list ca fuel r with Some (l, r') => Some (a :: l, r') | None => None end
      | None => None
      end
  | _, _ => None
  end.

Definition enc_list {A} (ca : PCodec A) : list A -> bytes :=
  fix go l := match l with [] => [x00] | a :: l => x01 :: penc a ++ go l end.

Lemma dec_enc_list {A} (ca : PCodec A) l rest fuel :
  length l < fuel -> dec_list ca fuel (enc_list ca l ++ rest) = Some (l, rest).
Proof.
  revert fuel. induction l as [|a l IH]; intros [|fuel] Hf; cbn in *; try lia; [done|].
  rewrite <- app_assoc, pdec_penc, IH by lia. done.
Qed.

Lemma enc_list_length {A} (ca : PCodec A) l : length l < length (enc_list ca l).
Proof. induction l as [|a l IH]; cbn; rewrite ?length_app; lia. Qed.

Definition pcodec_list {A} (ca : PCodec A) : PCodec (list A).
Proof.
  refine {|
  penc := enc_list ca;
  pdec bs := dec_list ca (length bs) bs;
|}.

  intros l rest; cbn. apply dec_enc_list. rewrite length_app. pose proof (enc_list_length ca l). lia.
Defined.

(** Transport along an embedding. *)
Definition pcodec_iso {A B} (f : A -> B) (g : B -> A) (gf : forall a, g (f a) = a)
    (cb : PCodec B) : PCodec A.
Proof.
  refine {|
  penc a := penc (f a);
  pdec bs := match @pdec B cb bs with Some (b, r) => Some (g b, r) | None => None end;
|}.
 intros a rest; cbn. by rewrite pdec_penc, gf. Defined.

Definition pcodec_sum_enc {A B} (ca : PCodec A) (cb : PCodec B) (s : A + B) : bytes :=
  match s with inl a => x00 :: penc a | inr b => x01 :: penc b end.

Definition pcodec_sum {A B} (ca : PCodec A) (cb : PCodec B) : PCodec (A + B).
Proof.
  refine {|
  penc := pcodec_sum_enc ca cb;
  pdec bs := match bs with
             | x00 :: rest => match @pdec A ca rest with Some (a, r) => Some (inl a, r) | None => None end
             | x01 :: rest => match @pdec B cb rest with Some (b, r) => Some (inr b, r) | None => None end
             | _ => None
             end;
|}.
 intros [a|b] rest; cbn; by rewrite pdec_penc. Defined.

Definition codec_of {A} (c : PCodec A) : Codec A :=
  {| encode := penc;
     decode bs := match pdec bs with Some (a, _) => Ok a | None => Err "malformed"%string end |}.

Lemma codec_of_laws {A} (c : PCodec A) : @CodecLaws A (codec_of c).
Proof. constructor. intros a. cbn. rewrite <- (app_nil_r (penc a)). by rewrite pdec_penc. Qed.

(** ** The platform *)

#[export] Instance concrete_block : BlockT := {|
  Hash := bytes;
  Hash_default := [];
  hash bs := bs;
  hash_of bs := bs;
  hash_as_ref h := h;
|}.

Definition concrete_signature_codec : PCodec (N * bytes) := pcodec_pair pcodec_N pcodec_bytes.

#[export] Instance concrete_crypto : Crypto := {|
  AuthorityId := N;
  AuthoritySignature := N * bytes;
  pair_verify sig d id := bool_decide (sig = (id, d));
  Keystore := list N;
  has_keys ks id := bool_decide (id ∈ ks);
  sign_with ks id d :=
    if decide (id ∈ ks) then Ok (Some (@penc _ concrete_signature_codec (id, d))) else Ok None;
  signature_try_from raw := option_map fst (@pdec _ concrete_signature_codec raw);
|}.

#[export] Instance concrete_keystore_laws : KeystoreLaws.
Proof.
  constructor. intros ks id d Hk%bool_decide_eq_true.
  exists (@penc _ concrete_signature_codec (id, d)), (id, d).
  change (sign_with ks id d) with (if decide (id ∈ ks)
    then @Ok string _ (Some (@penc _ concrete_signature_codec (id, d))) else Ok None).
  rewrite decide_True by done. split; [done|split].
  - unfold signature_try_from; cbn [concrete_crypto]. rewrite <- (app_nil_r (penc _)).
    by rewrite pdec_penc.
  - by apply bool_decide_eq_true.
Qed.

Definition pc_qc : PCodec QC :=
  pcodec_iso (fun q => (qc_proposal_hash q, qc_view q, qc_votes q))
    (fun '(h, v, l) => mkQC h v l) (fun q => match q with mkQC _ _ _ => eq_refl end)
    (pcodec_pair (pcodec_pair pcodec_bytes pcodec_N) (pcodec_list (pcodec_pair pcodec_N concrete_signature_codec))).

Definition pc_payload : PCodec Payload :=
  pcodec_iso (fun p => (block_hash p, block_number p)) (fun '(h, n) => mkPayload h n)
    (fun p => match p with mkPayload _ _ => eq_refl end) (pcodec_pair pcodec_bytes pcodec_N).

Definition pc_tc : PCodec TC :=
  pcodec_iso (fun t => (tc_view t, tc_votes t)) (fun '(v, l) => mkTC v l)
    (fun t => match t with mkTC _ _ => eq_refl end)
    (pcodec_pair pcodec_N (pcodec_list (pcodec_pair (pcodec_pair pcodec_N concrete_signature_codec) pcodec_N))).

Definition pc_proposal : PCodec Proposal :=
  pcodec_iso
    (fun p => (proposal_qc p, proposal_tc p, proposal_payload p, proposal_view p, proposal_author p,
               proposal_signature p))
    (fun '(q, t, pl, v, a, s) => mkProposal q t pl v a s)
    (fun p => match p with mkProposal _ _ _ _ _ _ => eq_refl end)
    (pcodec_pair (pcodec_pair (pcodec_pair (pcodec_pair (pcodec_pair pc_qc (pcodec_option pc_tc)) pc_payload)
      pcodec_N) pcodec_N) (pcodec_option concrete_signature_codec)).

Definition pc_vote : PCodec Vote :=
  pcodec_iso (fun v => (vote_proposal_hash v, vote_view v, vote_voter v, vote_signature v))
    (fun '(h, v, i, s) => mkVote h v i s) (fun v => match v with mkVote _ _ _ _ => eq_refl end)
    (pcodec_pair (pcodec_pair (pcodec_pair pcodec_bytes pcodec_N) pcodec_N)
      (pcodec_option concrete_signature_codec)).

Definition pc_timeout : PCodec Timeout :=
  pcodec_iso (fun t => (timeout_high_qc t, timeout_view t, timeout_voter t, timeout_signature t))
    (fun '(q, v, i, s) => mkTimeout q v i s) (fun t => match t with mkTimeout _ _ _ _ => eq_refl end)
    (pcodec_pair (pcodec_pair (pcodec_pair pc_qc pcodec_N) pcodec_N)
      (pcodec_option concrete_signature_codec)).

Definition msg_to_sum (m : ConsensusMessage) :
    Proposal + (Vote + (Timeout + (TC + option (bytes * N)))) :=
  match m with
  | MsgPropose p => inl p
  | MsgVote v => inr (inl v)
  | MsgTimeout t => inr (inr (inl t))
  | MsgTC t => inr (inr (inr (inl t)))
  | MsgSyncRequest h i => inr (inr (inr (inr (Some (h, i)))))
  | MsgPhantom => inr (inr (inr (inr None)))
  end.

Definition msg_of_sum (s : Proposal + (Vote + (Timeout + (TC + option (bytes * N)))))
    : ConsensusMessage :=
  match s with
  | inl p => MsgPropose p
  | inr (inl v) => MsgVote v
  | inr (inr (inl t)) => MsgTimeout t
  | inr (inr (inr (inl t))) => MsgTC t
  | inr (inr (inr (inr (Some (h, i))))) => MsgSyncRequest h i
  | inr (inr (inr (inr None))) => MsgPhantom
  end.

Definition pc_message : PCodec ConsensusMessage :=
  pcodec_iso msg_to_sum msg_of_sum (fun m => match m with MsgPropose _ => eq_refl | _ => eq_refl end)
    (pcodec_sum pc_proposal (pcodec_sum pc_vote (pcodec_sum pc_timeout (pcodec_sum pc_tc
      (pcodec_option (pcodec_pair pcodec_bytes pcodec_N)))))).

#[export] Instance concrete_codecs : MessageCodecs := {|
  hash_codec := codec_of pcodec_bytes;
  view_codec := codec_of pcodec_N;
  id_codec := codec_of pcodec_N;
  payload_codec := codec_of pc_payload;
  proposal_codec := codec_of pc_proposal;
  message_codec := codec_of pc_message;
|}.

(** ** The idealised laws hold here *)

#[export] Instance concrete_binding : SignatureBinding.
Proof.
  constructor. intros sig d d' id Hd%bool_decide_eq_true Hd'%bool_decide_eq_true. congruence.
Qed.

Lemma penc_app_inj {A} (c : PCodec A) (a a' : A) r r' :
  penc a ++ r = penc a' ++ r' -> a = a' /\ r = r'.
Proof. intros Heq%(f_equal (@pdec A c)). rewrite !pdec_penc in Heq. by simplify_eq. Qed.

#[export] Instance concrete_digests : DigestInjective.
Proof.
  constructor.
  - intros v v' Heq. apply (penc_app_inj pcodec_bytes) in Heq as [Hh Hr]. split; [done|].
    rewrite <- (app_nil_r (encode _)), <- (app_nil_r (encode (vote_view v'))) in Hr.
    by apply (penc_app_inj pcodec_N) in Hr as [? _].
  - intros t t' Heq. apply (penc_app_inj pcodec_N) in Heq as [Hh Hr]. split; [done|].
    rewrite <- (app_nil_r (encode _)), <- (app_nil_r (encode (qc_view (timeout_high_qc t')))) in Hr.
    by apply (penc_app_inj pcodec_N) in Hr as [? _].
Qed.

#[export] Instance concrete_proposal_digests : ProposalDigests.
Proof.
  constructor.
  - intros p p' Heq. apply (penc_app_inj pcodec_N) in Heq as [_ Hr].
    apply (penc_app_inj pc_payload) in Hr as [Hp Hr]. apply (penc_app_inj pcodec_N) in Hr as [Hv Hr].
    rewrite <- (app_nil_r (encode _)), <- (app_nil_r (encode (qc_proposal_hash (proposal_qc p')))) in Hr.
    by apply (penc_app_inj pcodec_bytes) in Hr as [Hh _].
  - intros p Hd. apply (f_equal length) in Hd. unfold Proposal_digest in Hd. cbn -[penc] in Hd.
    rewrite length_app in Hd. destruct (proposal_author p); cbn in Hd; lia.
Qed.

#[export] Instance concrete_proposal_laws : CodecLaws Proposal := codec_of_laws pc_proposal.
#[export] Instance concrete_message_laws : CodecLaws ConsensusMessage := codec_of_laws pc_message.
