(* ===== verification/Quorum.v ===== *)
(** * Quorum

    The quorum arithmetic behind the two-thirds threshold of [QC::verify] and
    [TC::verify]: two verified certificates over the authority list share an
    honest voter. *)

From S2P Require Import Prelude Primitives Messages Concrete.

Section quorum.
Context `{MessageCodecs}.
Implicit Types (A : AuthorityList) (l : list AuthorityId).

(** The largest number of faulty authorities tolerated: [f] with [3f + 1 <= n]. *)
Definition max_faulty (A : AuthorityList) : nat := ((length A - 1) / 3)%nat.

(** The authorities whose keys are among those of the adversary. *)
Definition faulty (A : AuthorityList) (byz : list AuthorityId) : list AuthorityId := filter (fun id => id ∈ byz) (ids A).

(** The authorities among the voters of a certificate. [QC::verify] does not ask
    that they are a quorum: it counts every key that signed. *)
Definition authority_voters (A : AuthorityList) (q : QC) : list AuthorityId :=
  filter (fun id => id ∈ ids A) (qc_votes q).*1.

Definition authority_quorum (A : AuthorityList) (q : QC) : Prop := (two_thirds A < length (authority_voters A q))%nat.

(** A key of the adversary that belongs to no authority signed the certificate. *)
Definition outsider_signed (A : AuthorityList) (byz : list AuthorityId) (q : QC) : Prop :=
  exists id, id ∈ (qc_votes q).*1 /\ id ∈ byz /\ id ∉ ids A.

(** The voters that two lists share. *)
Definition common_voters (l1 l2 : list AuthorityId) : list AuthorityId :=
  filter (fun id => id ∈ l1) l2.

Lemma length_filter_split (l1 l2 : list AuthorityId) :
  (length (common_voters l1 l2) + length (filter (fun id => id ∉ l1) l2))%nat = length l2.
Proof.
  unfold common_voters. induction l2 as [|x l2 IH]; [done|].
  rewrite !filter_cons. repeat case_decide; try done; cbn; lia.
Qed.

Lemma NoDup_incl_length' (l u : list AuthorityId) : NoDup l -> l ⊆ u -> (length l <= length u)%nat.
Proof.
  intros Hnd Hsub. apply submseteq_length, NoDup_submseteq; [done|]. intros x Hx. by apply Hsub.
Qed.

Lemma common_voters_length (l1 l2 u : list AuthorityId) :
  NoDup l1 -> NoDup l2 -> l1 ⊆ u -> l2 ⊆ u ->
  (length l1 + length l2 <= length u + length (common_voters l1 l2))%nat.
Proof.
  intros Hn1 Hn2 Hs1 Hs2.
  assert (length (l1 ++ filter (fun id => id ∉ l1) l2) <= length u)%nat as Hle.
  { apply NoDup_incl_length'.
    - apply NoDup_app. split_and!; [done| |by apply NoDup_filter].
      intros x Hx Hf. by apply list_elem_of_filter in Hf as [Hf _].
    - intros x [Hx|Hx]%elem_of_app; [by apply Hs1|].
      apply list_elem_of_filter in Hx as [_ Hx]. by apply Hs2. }
  rewrite length_app in Hle. pose proof (length_filter_split l1 l2). lia.
Qed.

(** Two quorums over the authority list share more voters than can be faulty. *)
Lemma quorum_overlap A l1 l2 :
  quorum_of A l1 -> quorum_of A l2 -> l1 ⊆ ids A -> l2 ⊆ ids A ->
  (max_faulty A < length (common_voters l1 l2))%nat.
Proof.
  intros [Hn1 Hq1] [Hn2 Hq2] Hs1 Hs2.
  pose proof (common_voters_length l1 l2 (ids A) Hn1 Hn2 Hs1 Hs2) as Hc.
  unfold ids in Hc. rewrite length_fmap in Hc.
  unfold max_faulty, two_thirds in *. lia.
Qed.

(** Some voter of the overlap is correct when at most [max_faulty] authorities are
    faulty. *)
Lemma quorum_overlap_honest A l1 l2 byz :
  quorum_of A l1 -> quorum_of A l2 -> l1 ⊆ ids A -> l2 ⊆ ids A ->
  (length (faulty A byz) <= max_faulty A)%nat ->
  exists id, (id ∉ byz) /\ id ∈ l1 /\ id ∈ l2.
Proof.
  intros Hq1 Hq2 Hs1 Hs2 Hb.
  pose proof (quorum_overlap A l1 l2 Hq1 Hq2 Hs1 Hs2) as Hc.
  destruct (decide (Forall (fun id => id ∈ byz) (common_voters l1 l2))) as [Hall|Hnot].
  - rewrite Forall_forall in Hall.
    assert (length (common_voters l1 l2) <= length (faulty A byz))%nat; [|lia].
    apply NoDup_incl_length'; [apply NoDup_filter; by destruct Hq2|]. intros id Hin. apply list_elem_of_filter.
    split; [by apply Hall|]. apply list_elem_of_filter in Hin as [_ Hin]. by apply Hs2.
  - apply not_Forall_Exists in Hnot; [|apply _].
    apply Exists_exists in Hnot as (id & Hin & Hid).
    apply list_elem_of_filter in Hin as [? ?]. by exists id.
Qed.

(** The authorities among the voters of a verified certificate, when they are a
    quorum. *)
Lemma authority_quorum_of A q :
  QC_verify q A = Ok tt -> authority_quorum A q -> quorum_of A (authority_voters A q) /\ authority_voters A q ⊆ ids A.
Proof.
  intros [[Hnd _] _]%QC_verify_ok Hq. split; [split; [by apply NoDup_filter|done]|].
  by intros id [Hid _]%list_elem_of_filter.
Qed.

Lemma authority_voters_in A q id : id ∈ authority_voters A q -> id ∈ (qc_votes q).*1.
Proof. by intros [_ Hin]%list_elem_of_filter. Qed.

(** A verified certificate has a quorum of authorities, or a voter that is none. *)
Lemma authority_quorum_or A q :
  QC_verify q A = Ok tt -> authority_quorum A q \/ exists id, id ∈ (qc_votes q).*1 /\ id ∉ ids A.
Proof.
  intros [[_ Hlen] _]%QC_verify_ok. destruct (decide (Forall (fun id => id ∈ ids A) (qc_votes q).*1)) as [Hall|Hnot].
  - left. unfold authority_quorum, authority_voters.
    assert (filter (fun id => id ∈ ids A) (qc_votes q).*1 = (qc_votes q).*1) as ->; [|done].
    clear Hlen. induction Hall as [|id l Hid Hall IH]; [done|]. by rewrite filter_cons_True, IH.
  - right. apply not_Forall_Exists in Hnot; [|apply _]. apply Exists_exists in Hnot as (id & Hin & Hid). by exists id.
Qed.

Lemma qc_vote_verifies qc A id :
  QC_verify qc A = Ok tt -> id ∈ (qc_votes qc).*1 ->
  exists sig, (id, sig) ∈ qc_votes qc /\ pair_verify sig (QC_digest qc) id = true.
Proof.
  intros [_ Hs]%QC_verify_ok ([i sig] & -> & Hin)%list_elem_of_fmap.
  exists sig. split; [done|]. rewrite Forall_forall in Hs. by apply (Hs _ Hin).
Qed.

(** The first repeated voter is what the counting loop reports. *)
Lemma count_votes_reuse voters e :
  count_votes ∅ 0 voters = Err e <->
  exists pre id post, voters = pre ++ id :: post /\ e = AuthorityReuse id /\ NoDup pre /\ id ∈ pre.
Proof.
  rewrite count_votes_err. split.
  - intros (pre & id & post & Hl & -> & Hnd & _ & [Hin|Hin]); [set_solver|by exists pre, id, post].
  - intros (pre & id & post & Hl & -> & Hnd & Hin). exists pre, id, post. split_and!; try done; [|by right].
    apply Forall_forall. set_solver.
Qed.

End quorum.

(** ** Certificates *)

Section certificates.
Context `{MessageCodecs}.

(** C28: The verdict of [QC::verify] on every branch. The first voter that is
    repeated is reported; without one, too few voters is an insufficient quorum;
    with a quorum, the first signature that does not verify is reported; and the
    certificate passes exactly when none of this happens. *)
Theorem QC_verify_exact (qc : QC) (A : AuthorityList) :
  (forall id, QC_verify qc A = Err (AuthorityReuse id) <->
     exists pre post, (qc_votes qc).*1 = pre ++ id :: post /\ NoDup pre /\ id ∈ pre) /\
  (QC_verify qc A = Err InsufficientQuorum <->
     NoDup (qc_votes qc).*1 /\ (length (qc_votes qc) <= two_thirds A)%nat) /\
  (forall id, QC_verify qc A = Err (InvalidSignature id) <->
     quorum_of A (qc_votes qc).*1 /\ exists pre sig post, qc_votes qc = pre ++ (id, sig) :: post /\
       Forall (fun '(voter, sig) => pair_verify sig (QC_digest qc) voter = true) pre /\
       pair_verify sig (QC_digest qc) id = false) /\
  (QC_verify qc A = Ok tt <->
     quorum_of A (qc_votes qc).*1 /\
     Forall (fun '(voter, sig) => pair_verify sig (QC_digest qc) voter = true) (qc_votes qc)).
Proof.
  pose proof (count_votes_reuse (qc_votes qc).*1) as Hc.
  split_and!; [intros id| |intros id|apply QC_verify_ok].
  - unfold QC_verify. split.
    + destruct (count_votes _ _ _) as [n|e] eqn:Hn; cbn.
      * destruct (_ <=? _)%nat; [done|]. intros (? & ? & ? & ? & _ & [=] & _)%check_qc_signatures_err.
      * intros [= ->]. destruct (proj1 (Hc _) eq_refl) as (pre & id' & post & Hl & [= <-] & Hnd & Hin).
        by exists pre, post.
    + intros (pre & post & Hl & Hnd & Hin).
      by rewrite (proj2 (Hc (AuthorityReuse id))) by (by exists pre, id, post).
  - rewrite <- (length_fmap fst (qc_votes qc)). unfold QC_verify. split.
    + destruct (count_votes _ _ _) as [n|e] eqn:Hn; cbn.
      * apply count_votes_ok in Hn as (Hnd & _ & ->). destruct (Nat.leb_spec (0 + length (qc_votes qc).*1) (two_thirds A)); [done|].
        intros (? & ? & ? & ? & _ & [=] & _)%check_qc_signatures_err.
      * intros [= ->]. by destruct (proj1 (Hc _) eq_refl) as (? & ? & ? & _ & [=] & _).
    + intros [Hnd Hle]. rewrite (proj2 (count_votes_ok ∅ 0 _ (length (qc_votes qc).*1))).
      * cbn. by rewrite (proj2 (Nat.leb_le _ _)).
      * split_and!; [done| |done]. apply Forall_forall. set_solver.
  - unfold QC_verify. split.
    + destruct (count_votes _ _ _) as [n|e] eqn:Hn; cbn.
      * destruct (n <=? two_thirds A)%nat eqn:Hle; [done|]. intros Hs. split.
        { apply count_votes_quorum. by exists n. }
        apply check_qc_signatures_err in Hs as (pre & voter & sig & post & Hl & [= ->] & Hp & Hf).
        by exists pre, sig, post.
      * intros [= ->]. by destruct (proj1 (Hc _) eq_refl) as (? & ? & ? & _ & [=] & _).
    + intros [(n & Hn & Hle)%count_votes_quorum (pre & sig & post & Hl & Hp & Hf)]. rewrite Hn. cbn.
      rewrite Hle. apply check_qc_signatures_err. by exists pre, id, sig, post.
Qed.

(** Two verified certificates whose voters are authorities: when at most
    [max_faulty] authorities are faulty, another one signed the digests of both. *)
Theorem qc_overlap_honest (A : AuthorityList) (q1 q2 : QC) (byz : list AuthorityId) :
  QC_verify q1 A = Ok tt -> QC_verify q2 A = Ok tt ->
  (qc_votes q1).*1 ⊆ ids A -> (qc_votes q2).*1 ⊆ ids A ->
  (length (faulty A byz) <= max_faulty A)%nat ->
  exists id s1 s2, (id ∉ byz) /\ id ∈ ids A /\
    (id, s1) ∈ qc_votes q1 /\ pair_verify s1 (QC_digest q1) id = true /\
    (id, s2) ∈ qc_votes q2 /\ pair_verify s2 (QC_digest q2) id = true.
Proof.
  intros Hv1 Hv2 Hs1 Hs2 Hb.
  pose proof (proj1 (proj1 (QC_verify_ok q1 A) Hv1)) as Hq1.
  pose proof (proj1 (proj1 (QC_verify_ok q2 A) Hv2)) as Hq2.
  destruct (quorum_overlap_honest A _ _ byz Hq1 Hq2 Hs1 Hs2 Hb) as (id & Hid & Hi1 & Hi2).
  destruct (qc_vote_verifies q1 A id Hv1 Hi1) as (s1 & Hin1 & Hp1).
  destruct (qc_vote_verifies q2 A id Hv2 Hi2) as (s2 & Hin2 & Hp2).
  exists id, s1, s2. split_and!; try done. by apply Hs1.
Qed.

(** [QC::verify] looks at the authority list only through its length: replacing
    the authorities by any other list of that length changes no verdict. *)
Theorem QC_verify_membership_blind (qc : QC) (A B : AuthorityList) :
  length A = length B -> QC_verify qc A = QC_verify qc B.
Proof. intros Hl. unfold QC_verify, two_thirds. by rewrite Hl. Qed.

End certificates.

(** ** Examples on the concrete platform *)

(** Four authorities, of weight 1. *)
Definition four : AuthorityList := [(0, 1); (1, 1); (2, 1); (3, 1)]%N.

(** A single authority. *)
Definition solo : AuthorityList := [(0, 1)]%N.

(** A certificate of the given voters for a hash and a view. *)
Definition certificate (h : bytes) (view : N) (voters : list N) : QC :=
  mkQC h view ((fun id => (id, (id, QC_digest (mkQC h view [])))) <$> voters).

Lemma qc_overlap_honest_witness :
  exists id s1 s2, (id ∉ [1%N]) /\ id ∈ ids four /\
    (id, s1) ∈ qc_votes (certificate [] 5 [0; 1; 2]%N) /\
    pair_verify s1 (QC_digest (certificate [] 5 [0; 1; 2]%N)) id = true /\
    (id, s2) ∈ qc_votes (certificate [] 5 [1; 2; 3]%N) /\
    pair_verify s2 (QC_digest (certificate [] 5 [1; 2; 3]%N)) id = true.
Proof.
  apply (qc_overlap_honest four); [vm_refl..|vm_decide|vm_decide|vm_decide].
Defined.

Lemma QC_verify_membership_blind_witness :
  QC_verify (certificate [] 5 [7; 8; 9]%N) four = Ok tt.
Proof.
  rewrite (QC_verify_membership_blind _ four [(7, 1); (8, 1); (9, 1); (10, 1)]%N) by reflexivity.
  vm_refl.
Defined.
