(* ===== verification/Aggregator.v ===== *)
(** * Aggregator

    [consensus/src/aggregator.rs]: votes and timeouts are collected per view
    (and per vote digest) until they make a certificate. *)

From S2P Require Import Prelude Primitives Messages Concrete Quorum.
#[local] Open Scope hs_scope.

Section aggregator.
Context `{MessageCodecs}.

(** [struct QCMaker] *)
Record QCMaker := mkQCMaker {
  qcm_weight : N;
  qcm_votes : list (AuthorityId * AuthoritySignature);
}.

(** [QCMaker::new], also its [Default] *)
Definition QCMaker_new : QCMaker := mkQCMaker 0 [].

(** [struct TCMaker] *)
Record TCMaker := mkTCMaker {
  tcm_weight : N;
  tcm_votes : list (AuthorityId * AuthoritySignature * ViewNumber);
}.

(** [TCMaker::new], also its [Default] *)
Definition TCMaker_new : TCMaker := mkTCMaker 0 [].

(** [struct Aggregator] *)
Record Aggregator := mkAggregator {
  votes_aggregator : gmap ViewNumber (gmap Hash QCMaker);
  timeouts_aggregators : gmap ViewNumber TCMaker;
}.

(** [Aggregator::new] *)
Definition Aggregator_new : Aggregator := mkAggregator ∅ ∅.

(** [(authorities.len() * 2 / 3 + 1) as u64] *)
Definition quorum_weight (authorities : AuthorityList) : N :=
  u64_of_usize (length authorities * 2 / 3 + 1).

(** [QCMaker::append]: the answer and the maker afterwards. *)
Definition QCMaker_append (self : QCMaker) (vote : Vote) (authorities : AuthorityList)
    : result HotstuffError (option QC) * QCMaker :=
  if existsb (fun v => bool_decide (v.1 = vote_voter vote)) (qcm_votes self) then (Ok None, self)
  else
    match vote_signature vote with
    | None => (Err NullSignature, self)
    | Some signature =>
        let self := mkQCMaker (u64_add (qcm_weight self) 1)
                              (qcm_votes self ++ [(vote_voter vote, signature)]) in
        if (qcm_weight self <? quorum_weight authorities)%N then (Ok None, self)
        else (Ok (Some (mkQC (vote_proposal_hash vote) (vote_view vote) (qcm_votes self))), self)
    end.

(** [TCMaker::append] *)
Definition TCMaker_append (self : TCMaker) (timeout : Timeout) (authorities : AuthorityList)
    : result HotstuffError (option TC) * TCMaker :=
  if existsb (fun v => bool_decide (v.1.1 = timeout_voter timeout)) (tcm_votes self) then (Ok None, self)
  else
    match timeout_signature timeout with
    | None => (Err NullSignature, self)
    | Some signature =>
        let self := mkTCMaker (u64_add (tcm_weight self) 1)
                              (tcm_votes self ++ [(timeout_voter timeout, signature, timeout_view timeout)]) in
        if (tcm_weight self <? quorum_weight authorities)%N then (Ok None, self)
        else (Ok (Some (mkTC (timeout_view timeout) (tcm_votes self))), self)
    end.

(** The maker [add_vote] reaches through the two [entry(..).or_default()]. *)
Definition vote_maker (self : Aggregator) (view : ViewNumber) (digest : Hash) : QCMaker :=
  default QCMaker_new (default ∅ (votes_aggregator self !! view) !! digest).

(** [Aggregator::add_vote] *)
Definition Aggregator_add_vote (self : Aggregator) (vote : Vote) (authorities : AuthorityList)
    : result HotstuffError (option QC) * Aggregator :=
  let per_view := default ∅ (votes_aggregator self !! vote_view vote) in
  let '(answer, maker) :=
    QCMaker_append (vote_maker self (vote_view vote) (Vote_digest vote)) vote authorities in
  (answer, mkAggregator
             (<[vote_view vote := <[Vote_digest vote := maker]> per_view]> (votes_aggregator self))
             (timeouts_aggregators self)).

(** The maker [add_timeout] reaches through [entry(..).or_default()]. *)
Definition timeout_maker (self : Aggregator) (view : ViewNumber) : TCMaker :=
  default TCMaker_new (timeouts_aggregators self !! view).

(** [Aggregator::add_timeout] *)
Definition Aggregator_add_timeout (self : Aggregator) (timeout : Timeout) (authorities : AuthorityList)
    : result HotstuffError (option TC) * Aggregator :=
  let '(answer, maker) := TCMaker_append (timeout_maker self (timeout_view timeout)) timeout authorities in
  (answer, mkAggregator (votes_aggregator self)
             (<[timeout_view timeout := maker]> (timeouts_aggregators self))).

(** Adding votes one after the other, with the answer to each. *)
Fixpoint add_votes (self : Aggregator) (votes : list Vote) (authorities : AuthorityList)
    : list (result HotstuffError (option QC)) * Aggregator :=
  match votes with
  | [] => ([], self)
  | vote :: rest =>
      let '(answer, self) := Aggregator_add_vote self vote authorities in
      let '(answers, self) := add_votes self rest authorities in
      (answer :: answers, self)
  end.

Fixpoint add_timeouts (self : Aggregator) (timeouts : list Timeout) (authorities : AuthorityList)
    : list (result HotstuffError (option TC)) * Aggregator :=
  match timeouts with
  | [] => ([], self)
  | timeout :: rest =>
      let '(answer, self) := Aggregator_add_timeout self timeout authorities in
      let '(answers, self) := add_timeouts self rest authorities in
      (answer :: answers, self)
  end.

End aggregator.

#[global] Arguments quorum_weight : simpl never.

(** ** The invariant of the makers *)

Section invariant.
Context `{MessageCodecs}.
Implicit Types (A : AuthorityList).

(** The list length fits the integers the code counts with. *)
Definition authorities_fit (A : AuthorityList) : Prop := (N.of_nat (length A * 2) < u64_modulus)%N.

(** What holds of the votes collected under one digest. *)
Record maker_ok (A : AuthorityList) (digest : Hash) (m : QCMaker) : Prop := {
  maker_nodup : NoDup (qcm_votes m).*1;
  maker_weight : qcm_weight m = u64_of_usize (length (qcm_votes m));
  maker_votes : Forall (fun '(id, sig) => id ∈ ids A /\ pair_verify sig digest id = true) (qcm_votes m);
}.

(** What holds of the timeouts collected for one view: each carries that view,
    and was signed for it with some view of a highest certificate. *)
Record tmaker_ok (A : AuthorityList) (view : ViewNumber) (m : TCMaker) : Prop := {
  tmaker_nodup : NoDup (tcm_votes m).*1.*1;
  tmaker_weight : tcm_weight m = u64_of_usize (length (tcm_votes m));
  tmaker_votes : Forall (fun '(id, sig, v) => id ∈ ids A /\ v = view /\
    exists high, pair_verify sig (TC_vote_digest (mkTC view []) high) id = true) (tcm_votes m);
}.

(** The whole aggregator. *)
Record aggregator_ok (A : AuthorityList) (agg : Aggregator) : Prop := {
  aggregator_votes_ok : forall view digest, maker_ok A digest (vote_maker agg view digest);
  aggregator_timeouts_ok : forall view, tmaker_ok A view (timeout_maker agg view);
}.

Lemma existsb_id_false {V} (f : V -> AuthorityId) (l : list V) id :
  existsb (fun v => bool_decide (f v = id)) l = false <-> id ∉ f <$> l.
Proof.
  rewrite <- not_true_iff_false, existsb_exists, list_elem_of_fmap.
  setoid_rewrite bool_decide_eq_true. setoid_rewrite <- list_elem_of_In. naive_solver.
Qed.

Lemma quorum_weight_fits A n :
  authorities_fit A -> (n <= length A)%nat ->
  (u64_of_usize n <? quorum_weight A)%N = (n <=? two_thirds A)%nat.
Proof.
  unfold authorities_fit, u64_of_usize, quorum_weight, two_thirds, u64_modulus. intros Hf Hn.
  apply eq_bool_prop_intro. rewrite !Is_true_true, N.ltb_lt, Nat.leb_le.
  unfold u64_of_usize, u64_modulus. lia.
Qed.

Lemma u64_of_usize_S n : u64_add (u64_of_usize n) 1 = u64_of_usize (S n).
Proof. unfold u64_add, u64_of_usize, u64_modulus. lia. Qed.

Lemma maker_ok_new A digest : maker_ok A digest QCMaker_new.
Proof. constructor; cbn; constructor. Qed.

Lemma tmaker_ok_new A view : tmaker_ok A view TCMaker_new.
Proof. constructor; cbn; constructor. Qed.

Lemma aggregator_ok_new A : aggregator_ok A Aggregator_new.
Proof.
  constructor; intros; unfold vote_maker, timeout_maker; cbn; rewrite ?lookup_empty; cbn;
    rewrite ?lookup_empty; [apply maker_ok_new|apply tmaker_ok_new].
Qed.

#[local] Hint Resolve maker_ok_new tmaker_ok_new aggregator_ok_new : hotstuff.

Lemma maker_length A digest m :
  maker_ok A digest m -> (length (qcm_votes m) <= length A)%nat.
Proof.
  intros [Hnd _ Hv]. rewrite <- (length_fmap fst (qcm_votes m)), <- (length_fmap fst A).
  apply NoDup_incl_length'; [done|]. intros x ([id sig] & -> & Hin)%list_elem_of_fmap.
  rewrite Forall_forall in Hv. by apply (Hv _ Hin).
Qed.

(** The weight test is the comparison [QC::verify] makes on the vote count. *)
Lemma maker_threshold A digest m :
  authorities_fit A -> maker_ok A digest m ->
  (qcm_weight m <? quorum_weight A)%N = (length (qcm_votes m) <=? two_thirds A)%nat.
Proof.
  intros Hfit Hok. rewrite (maker_weight _ _ _ Hok). apply quorum_weight_fits; [done|].
  by eapply maker_length.
Qed.

Lemma tmaker_length A view m :
  tmaker_ok A view m -> (length (tcm_votes m) <= length A)%nat.
Proof.
  intros [Hnd _ Hv]. rewrite <- (length_fmap fst (tcm_votes m)), <- (length_fmap fst (tcm_votes m).*1).
  rewrite <- (length_fmap fst A).
  apply NoDup_incl_length'; [done|]. intros x ([id sig] & -> & Hin)%list_elem_of_fmap.
  apply list_elem_of_fmap in Hin as ([[id' sig'] v] & [= -> ->] & Hin).
  rewrite Forall_forall in Hv. by apply (Hv _ Hin).
Qed.

Lemma tmaker_threshold A view m :
  authorities_fit A -> tmaker_ok A view m ->
  (tcm_weight m <? quorum_weight A)%N = (length (tcm_votes m) <=? two_thirds A)%nat.
Proof.
  intros Hfit Hok. rewrite (tmaker_weight _ _ _ Hok). apply quorum_weight_fits; [done|].
  by eapply tmaker_length.
Qed.

(** The maker after a vote was counted. *)
Lemma maker_ok_push A m v sig :
  maker_ok A (Vote_digest v) m -> Vote_verify v A = Ok tt -> vote_signature v = Some sig ->
  vote_voter v ∉ (qcm_votes m).*1 ->
  maker_ok A (Vote_digest v)
    (mkQCMaker (u64_add (qcm_weight m) 1) (qcm_votes m ++ [(vote_voter v, sig)])).
Proof.
  intros [Hnd Hw Hv] (Hin & sig' & Hs & Hp)%Vote_verify_ok Hsig Hnew. simplify_eq.
  constructor; cbn.
  - rewrite fmap_app, NoDup_app. cbn. split_and!; [done| |apply NoDup_singleton].
    intros x Hx ->%list_elem_of_singleton. done.
  - rewrite Hw, u64_of_usize_S, length_app. cbn. f_equal. lia.
  - apply Forall_app. split; [done|]. by repeat constructor.
Qed.

Lemma tmaker_ok_push A m t sig :
  tmaker_ok A (timeout_view t) m -> Timeout_verify t A = Ok tt -> timeout_signature t = Some sig ->
  timeout_voter t ∉ (tcm_votes m).*1.*1 ->
  tmaker_ok A (timeout_view t)
    (mkTCMaker (u64_add (tcm_weight m) 1) (tcm_votes m ++ [(timeout_voter t, sig, timeout_view t)])).
Proof.
  intros [Hnd Hw Hv] (Hin & (sig' & Hs & Hp) & _)%Timeout_verify_ok Hsig Hnew. simplify_eq.
  constructor; cbn.
  - rewrite !fmap_app, NoDup_app. cbn. split_and!; [done| |apply NoDup_singleton].
    intros x Hx ->%list_elem_of_singleton. done.
  - rewrite Hw, u64_of_usize_S, length_app. cbn. f_equal. lia.
  - apply Forall_app. split; [done|]. repeat constructor; try done. by eexists.
Qed.

(** What one [QCMaker::append] of a verified vote does. *)
Lemma QCMaker_append_spec A m v :
  maker_ok A (Vote_digest v) m -> authorities_fit A -> Vote_verify v A = Ok tt ->
  let '(answer, m') := QCMaker_append m v A in
  maker_ok A (Vote_digest v) m' /\
  exists o, answer = Ok o /\
    (is_Some o <-> (vote_voter v ∉ (qcm_votes m).*1) /\ (two_thirds A <= length (qcm_votes m))%nat) /\
    forall qc, o = Some qc -> qc = mkQC (vote_proposal_hash v) (vote_view v) (qcm_votes m') /\
      (two_thirds A < length (qcm_votes m'))%nat.
Proof.
  intros Hok Hfit Hver. pose proof Hver as (_ & sig & Hsig & _)%Vote_verify_ok.
  unfold QCMaker_append. destruct (existsb _ _) eqn:Hex.
  - split; [done|]. exists None. split_and!; [done| |done]. split; [by intros []|].
    intros [Hn _]. apply (existsb_id_false fst) in Hn. congruence.
  - apply (existsb_id_false fst) in Hex. rewrite Hsig. cbn.
    pose proof (maker_ok_push A m v sig Hok Hver Hsig Hex) as Hok'.
    pose proof (maker_threshold _ _ _ Hfit Hok') as Ht. cbn in Ht. rewrite Ht.
    destruct (_ <=? two_thirds A)%nat eqn:Hle; [apply Nat.leb_le in Hle|apply Nat.leb_gt in Hle];
      rewrite length_app in Hle; cbn in Hle.
    + split; [done|]. exists None. split_and!; [done| |done]. split; [by intros []|intros [_ ?]; lia].
    + split; [done|]. eexists. split; [done|]. split.
      * split; [intros _; split; [done|lia]|done].
      * intros qc [= <-]. split; [done|]. cbn. rewrite length_app. cbn. lia.
Qed.

End invariant.

(** ** Certificates out of the aggregator *)

Section certificates.
Context `{MessageCodecs}.
Implicit Types (A : AuthorityList) (agg : Aggregator).

Lemma vote_maker_add agg v A view digest :
  vote_maker (Aggregator_add_vote agg v A).2 view digest =
  if decide (view = vote_view v /\ digest = Vote_digest v)
  then (QCMaker_append (vote_maker agg (vote_view v) (Vote_digest v)) v A).2
  else vote_maker agg view digest.
Proof.
  unfold Aggregator_add_vote. destruct (QCMaker_append _ _ _) as [answer m]. unfold vote_maker; cbn.
  destruct (decide (vote_view v = view)) as [<-|Hne].
  - rewrite lookup_insert_eq. cbn. destruct (decide (Vote_digest v = digest)) as [<-|Hne].
    + by rewrite lookup_insert_eq, decide_True.
    + rewrite lookup_insert_ne by done. by rewrite decide_False by naive_solver.
  - rewrite lookup_insert_ne by done. by rewrite decide_False by naive_solver.
Qed.

Lemma timeout_maker_add_vote agg v A view :
  timeout_maker (Aggregator_add_vote agg v A).2 view = timeout_maker agg view.
Proof. unfold Aggregator_add_vote. by destruct (QCMaker_append _ _ _). Qed.

Lemma vote_maker_add_timeout agg t A view digest :
  vote_maker (Aggregator_add_timeout agg t A).2 view digest = vote_maker agg view digest.
Proof. unfold Aggregator_add_timeout. by destruct (TCMaker_append _ _ _). Qed.

Lemma timeout_maker_add agg t A view :
  timeout_maker (Aggregator_add_timeout agg t A).2 view =
  if decide (view = timeout_view t)
  then (TCMaker_append (timeout_maker agg (timeout_view t)) t A).2
  else timeout_maker agg view.
Proof.
  unfold Aggregator_add_timeout. destruct (TCMaker_append _ _ _) as [answer m].
  unfold timeout_maker; cbn. rewrite lookup_insert. repeat case_decide; naive_solver.
Qed.

Lemma add_vote_answer agg v A :
  (Aggregator_add_vote agg v A).1 =
  (QCMaker_append (vote_maker agg (vote_view v) (Vote_digest v)) v A).1.
Proof. unfold Aggregator_add_vote. by destruct (QCMaker_append _ _ _). Qed.

Lemma add_timeout_answer agg t A :
  (Aggregator_add_timeout agg t A).1 = (TCMaker_append (timeout_maker agg (timeout_view t)) t A).1.
Proof. unfold Aggregator_add_timeout. by destruct (TCMaker_append _ _ _). Qed.

Lemma add_vote_ok A agg v :
  aggregator_ok A agg -> authorities_fit A -> Vote_verify v A = Ok tt ->
  aggregator_ok A (Aggregator_add_vote agg v A).2.
Proof.
  intros [Hv Ht] Hfit Hver. constructor; intros; rewrite ?timeout_maker_add_vote; [|apply Ht].
  rewrite vote_maker_add. case_decide as Heq; [|apply Hv]. destruct Heq as [-> ->].
  pose proof (QCMaker_append_spec A _ v (Hv (vote_view v) (Vote_digest v)) Hfit Hver) as Hs.
  destruct (QCMaker_append _ _ _) as [answer m]. apply Hs.
Qed.

(** What one [TCMaker::append] of a verified timeout does. *)
Lemma TCMaker_append_spec A m t :
  tmaker_ok A (timeout_view t) m -> authorities_fit A -> Timeout_verify t A = Ok tt ->
  let '(answer, m') := TCMaker_append m t A in
  tmaker_ok A (timeout_view t) m' /\
  exists o, answer = Ok o /\
    (is_Some o <-> (timeout_voter t ∉ (tcm_votes m).*1.*1) /\ (two_thirds A <= length (tcm_votes m))%nat) /\
    forall tc, o = Some tc -> tc = mkTC (timeout_view t) (tcm_votes m') /\
      (two_thirds A < length (tcm_votes m'))%nat.
Proof.
  intros Hok Hfit Hver. pose proof Hver as (_ & (sig & Hsig & _) & _)%Timeout_verify_ok.
  assert (forall l : list (AuthorityId * AuthoritySignature * ViewNumber), (fun x => x.1.1) <$> l = l.*1.*1)
    as Hfst by (intros l; by rewrite <- list_fmap_compose).
  unfold TCMaker_append. destruct (existsb _ _) eqn:Hex.
  - split; [done|]. exists None. split_and!; [done| |done]. split; [by intros []|].
    intros [Hn _]. rewrite <- Hfst in Hn. apply existsb_id_false in Hn. congruence.
  - apply existsb_id_false in Hex. rewrite Hfst in Hex. rewrite Hsig. cbn.
    pose proof (tmaker_ok_push A m t sig Hok Hver Hsig Hex) as Hok'.
    pose proof (tmaker_threshold _ _ _ Hfit Hok') as Ht. cbn in Ht. rewrite Ht.
    destruct (_ <=? two_thirds A)%nat eqn:Hle; [apply Nat.leb_le in Hle|apply Nat.leb_gt in Hle];
      rewrite length_app in Hle; cbn in Hle.
    + split; [done|]. exists None. split_and!; [done| |done]. split; [by intros []|intros [_ ?]; lia].
    + split; [done|]. eexists. split; [done|]. split.
      * split; [intros _; split; [done|lia]|done].
      * intros tc [= <-]. split; [done|]. cbn. rewrite length_app. cbn. lia.
Qed.

Lemma add_timeout_ok A agg t :
  aggregator_ok A agg -> authorities_fit A -> Timeout_verify t A = Ok tt ->
  aggregator_ok A (Aggregator_add_timeout agg t A).2.
Proof.
  intros [Hv Ht] Hfit Hver. constructor; intros; rewrite ?vote_maker_add_timeout; [apply Hv|].
  rewrite timeout_maker_add. case_decide as Heq; [|apply Ht]. subst view.
  pose proof (TCMaker_append_spec A _ t (Ht (timeout_view t)) Hfit Hver) as Hs.
  destruct (TCMaker_append _ _ _) as [answer m]. apply Hs.
Qed.

(** A certificate built from votes collected under its own digest verifies. *)
Lemma maker_qc_verifies A m h view :
  maker_ok A (QC_digest (mkQC h view [])) m -> (two_thirds A < length (qcm_votes m))%nat ->
  QC_verify (mkQC h view (qcm_votes m)) A = Ok tt.
Proof.
  intros [Hnd _ Hv] Hlen. apply QC_verify_ok. cbn. split.
  - split; [done|]. by rewrite length_fmap.
  - eapply Forall_impl; [exact Hv|]. by intros [id sig] [_ ?].
Qed.

Lemma add_vote_qc A agg v qc :
  aggregator_ok A agg -> authorities_fit A -> Vote_verify v A = Ok tt ->
  (Aggregator_add_vote agg v A).1 = Ok (Some qc) ->
  QC_verify qc A = Ok tt /\ (qc_votes qc).*1 ⊆ ids A /\
  qc_view qc = vote_view v /\ qc_proposal_hash qc = vote_proposal_hash v.
Proof.
  intros [Hv Ht] Hfit Hver. rewrite add_vote_answer.
  pose proof (QCMaker_append_spec A _ v (Hv (vote_view v) (Vote_digest v)) Hfit Hver) as Hs.
  destruct (QCMaker_append _ _ _) as [answer m]. destruct Hs as (Hok & o & -> & _ & Hqc).
  cbn. intros [= ->]. destruct (Hqc qc eq_refl) as [-> Hlen]. split_and!; try done.
  - by apply maker_qc_verifies.
  - intros x ([id sig] & -> & Hin)%list_elem_of_fmap. cbn in Hin.
    pose proof (maker_votes _ _ _ Hok) as Hf. rewrite Forall_forall in Hf. by apply (Hf _ Hin).
Qed.

End certificates.

(** ** Runs of the aggregator *)

Section runs.
Context `{MessageCodecs}.
Implicit Types (A : AuthorityList) (agg : Aggregator).

Lemma add_votes_sound A agg vs qc :
  aggregator_ok A agg -> authorities_fit A -> Forall (fun v => Vote_verify v A = Ok tt) vs ->
  Ok (Some qc) ∈ (add_votes agg vs A).1 ->
  QC_verify qc A = Ok tt /\ (qc_votes qc).*1 ⊆ ids A /\
  exists v, v ∈ vs /\ qc_view qc = vote_view v /\ qc_proposal_hash qc = vote_proposal_hash v.
Proof.
  intros Hok Hfit. revert agg Hok. induction vs as [|v vs IH]; intros agg Hok Hvs Hin.
  - by apply elem_of_nil in Hin.
  - apply Forall_cons in Hvs as [Hv Hvs]. cbn in Hin.
    pose proof (add_vote_ok A agg v Hok Hfit Hv) as Hok'.
    pose proof (add_vote_qc A agg v qc Hok Hfit Hv) as Hqc.
    destruct (Aggregator_add_vote agg v A) as [answer agg']. cbn in *.
    specialize (IH agg' Hok' Hvs). destruct (add_votes agg' vs A) as [answers agg'']. cbn in *.
    apply elem_of_cons in Hin as [Heq|Hin].
    + destruct (Hqc (eq_sym Heq)) as (? & ? & ? & ?). split_and!; try done. exists v. by split; [left|].
    + destruct (IH Hin) as (? & ? & w & ? & ? & ?). split_and!; try done. exists w. by split; [right|].
Qed.

Lemma QCMaker_append_new A m v sig :
  vote_signature v = Some sig -> vote_voter v ∉ (qcm_votes m).*1 ->
  qcm_votes (QCMaker_append m v A).2 = qcm_votes m ++ [(vote_voter v, sig)].
Proof.
  intros Hsig Hnew%(existsb_id_false fst). unfold QCMaker_append. rewrite Hnew, Hsig.
  by destruct (_ <? _)%N.
Qed.

(** The votes an aggregator holds for a proposal in a view. *)
Definition collected (agg : Aggregator) (h : Hash) (view : ViewNumber)
    : list (AuthorityId * AuthoritySignature) :=
  qcm_votes (vote_maker agg view (QC_digest (mkQC h view []))).

(** One vote of a new voter. *)
Lemma add_vote_new A agg v :
  aggregator_ok A agg -> authorities_fit A -> Vote_verify v A = Ok tt ->
  vote_voter v ∉ (collected agg (vote_proposal_hash v) (vote_view v)).*1 ->
  let '(answer, agg') := Aggregator_add_vote agg v A in
  let n := length (collected agg (vote_proposal_hash v) (vote_view v)) in
  (exists sig, collected agg' (vote_proposal_hash v) (vote_view v) =
     collected agg (vote_proposal_hash v) (vote_view v) ++ [(vote_voter v, sig)]) /\
  ((n < two_thirds A)%nat -> answer = Ok None) /\
  ((two_thirds A <= n)%nat ->
     exists qc, answer = Ok (Some qc) /\ length (qc_votes qc) = S n /\ QC_verify qc A = Ok tt).
Proof.
  intros Hok Hfit Hv Hnew. pose proof Hv as (_ & sig & Hsig & _)%Vote_verify_ok.
  pose proof (QCMaker_append_spec A _ v (aggregator_votes_ok _ _ Hok (vote_view v) (Vote_digest v)) Hfit Hv) as Hs.
  pose proof (QCMaker_append_new A _ v sig Hsig Hnew) as Hvotes.
  pose proof (add_vote_answer agg v A) as Hans.
  pose proof (fun q => add_vote_qc A agg v q Hok Hfit Hv) as Hqc.
  pose proof (vote_maker_add agg v A (vote_view v) (Vote_digest v)) as Hm.
  rewrite decide_True in Hm by done.
  destruct (Aggregator_add_vote agg v A) as [ans agg']. cbn in Hans, Hqc, Hm.
  unfold collected in *. change (QC_digest (mkQC (vote_proposal_hash v) (vote_view v) []))
    with (Vote_digest v) in *. rewrite Hm, Hvotes. clear Hm.
  destruct (QCMaker_append _ _ _) as [ans' m']. cbn in *. subst ans'.
  destruct Hs as (_ & o & -> & Hiff & Hsome). split; [by eexists|split].
  - intros Hlt. f_equal. destruct o; [|done]. destruct Hiff as [Hiff _].
    destruct Hiff as [_ ?]; [by eexists|lia].
  - intros Hle. destruct (proj2 Hiff (conj Hnew Hle)) as [qc ->]. exists qc.
    split_and!; [done| |by apply Hqc]. destruct (Hsome qc eq_refl) as [-> _]. cbn.
    rewrite Hvotes, length_app. cbn. lia.
Qed.

(** Adding distinct voters' votes for one proposal, one after the other. *)
Lemma add_votes_answers A h view vs agg :
  aggregator_ok A agg -> authorities_fit A ->
  Forall (fun v => Vote_verify v A = Ok tt /\ vote_proposal_hash v = h /\ vote_view v = view) vs ->
  NoDup ((collected agg h view).*1 ++ (vote_voter <$> vs)) ->
  forall i answer, (add_votes agg vs A).1 !! i = Some answer ->
  let n := (length (collected agg h view) + i)%nat in
  ((n < two_thirds A)%nat -> answer = Ok None) /\
  ((two_thirds A <= n)%nat ->
     exists qc, answer = Ok (Some qc) /\ length (qc_votes qc) = S n /\ QC_verify qc A = Ok tt).
Proof.
  intros Hok Hfit. revert agg Hok. induction vs as [|v vs IH]; intros agg Hok Hvs Hnd i answer Hi; [done|].
  apply Forall_cons in Hvs as [(Hv & <- & <-) Hvs].
  assert (vote_voter v ∉ (collected agg (vote_proposal_hash v) (vote_view v)).*1) as Hnew.
  { apply NoDup_app in Hnd as (_ & Hx & _). intros Hin. by apply (Hx _ Hin); left. }
  pose proof (add_vote_ok A agg v Hok Hfit Hv) as Hok'.
  pose proof (add_vote_new A agg v Hok Hfit Hv Hnew) as Hone.
  cbn in Hi. destruct (Aggregator_add_vote agg v A) as [ans agg']. cbn in Hok', Hone.
  destruct Hone as ((sig & Hc) & Hlt & Hle).
  assert (NoDup ((collected agg' (vote_proposal_hash v) (vote_view v)).*1 ++ (vote_voter <$> vs))) as Hnd'.
  { by rewrite Hc, fmap_app, <- app_assoc. }
  specialize (IH agg' Hok' Hvs Hnd'). destruct (add_votes agg' vs A) as [answers agg'']. cbn in Hi, IH.
  destruct i as [|i]; cbn in Hi.
  - injection Hi as <-. rewrite Nat.add_0_r. by split.
  - specialize (IH i answer Hi). rewrite Hc, length_app in IH. cbn in IH. cbn zeta.
    replace (length (collected agg (vote_proposal_hash v) (vote_view v)) + S i)%nat
      with (length (collected agg (vote_proposal_hash v) (vote_view v)) + 1 + i)%nat by lia. exact IH.
Qed.

(** The entry of the last timeout in a certificate the aggregator answers. *)
Lemma add_timeout_entry A agg t tc :
  (Aggregator_add_timeout agg t A).1 = Ok (Some tc) ->
  tc_view tc = timeout_view t /\
  exists sig, timeout_signature t = Some sig /\ (timeout_voter t, sig, timeout_view t) ∈ tc_votes tc.
Proof.
  rewrite add_timeout_answer. unfold TCMaker_append.
  destruct (existsb _ _); [done|]. destruct (timeout_signature t) as [sig|]; [|done]. cbn.
  destruct (_ <? _)%N; [done|]. cbn. intros [= <-]. split; [done|]. exists sig. split; [done|].
  apply elem_of_app. right. by left.
Qed.

(** The certificate answered to a verified timeout. *)
Lemma add_timeout_tc A agg t tc :
  aggregator_ok A agg -> authorities_fit A -> Timeout_verify t A = Ok tt ->
  (Aggregator_add_timeout agg t A).1 = Ok (Some tc) ->
  tc_view tc = timeout_view t /\ quorum_of A (tc_votes tc).*1.*1 /\ (tc_votes tc).*1.*1 ⊆ ids A /\
  Forall (fun x => x.2 = timeout_view t) (tc_votes tc).
Proof.
  intros [_ Ht] Hfit Hver. rewrite add_timeout_answer.
  pose proof (TCMaker_append_spec A _ t (Ht (timeout_view t)) Hfit Hver) as Hs.
  destruct (TCMaker_append _ _ _) as [answer m]. destruct Hs as (Hok & o & -> & _ & Hsome).
  cbn. intros [= ->]. destruct (Hsome tc eq_refl) as [-> Hlen]. cbn in *.
  pose proof (tmaker_votes _ _ _ Hok) as Hf. rewrite Forall_forall in Hf. split_and!; [done| | |].
  - split; [apply Hok|]. by rewrite !length_fmap.
  - intros x ([id sig] & -> & ([[id' sig'] v] & [= -> ->] & Hin)%list_elem_of_fmap)%list_elem_of_fmap.
    by apply (Hf _ Hin).
  - apply Forall_forall. intros [[id sig] v] Hin. by destruct (Hf _ Hin) as (_ & -> & _).
Qed.

End runs.

#[export] Hint Resolve maker_ok_new tmaker_ok_new aggregator_ok_new add_vote_ok add_timeout_ok : hotstuff.

(** ** Properties *)

Section properties.
Context `{MessageCodecs}.

(** C10: Every certificate that a fresh aggregator answers to a sequence of
    verified votes passes [QC::verify]: distinct voters, all of them
    authorities, more than two thirds, every signature valid for the digest of
    the certificate; and it is for the proposal and view of one of the votes. *)
Theorem aggregated_qc_sound (A : AuthorityList) (votes : list Vote) (qc : QC) :
  authorities_fit A ->
  Forall (fun v => Vote_verify v A = Ok tt) votes ->
  Ok (Some qc) ∈ (add_votes Aggregator_new votes A).1 ->
  QC_verify qc A = Ok tt /\ (qc_votes qc).*1 ⊆ ids A /\
  exists v, v ∈ votes /\ qc_view qc = vote_view v /\ qc_proposal_hash qc = vote_proposal_hash v.
Proof. intros. apply (add_votes_sound A Aggregator_new); auto with hotstuff. Qed.

(** C11: When distinct authorities vote for one proposal in one view, the first
    [2n/3] votes are answered with no certificate and every later vote with a
    certificate that holds all the votes so far and verifies. *)
Theorem aggregated_qc_complete (A : AuthorityList) (h : Hash) (view : ViewNumber) (votes : list Vote)
    (i : nat) (answer : result HotstuffError (option QC)) :
  authorities_fit A ->
  Forall (fun v => Vote_verify v A = Ok tt /\ vote_proposal_hash v = h /\ vote_view v = view) votes ->
  NoDup (vote_voter <$> votes) ->
  (add_votes Aggregator_new votes A).1 !! i = Some answer ->
  ((i < two_thirds A)%nat -> answer = Ok None) /\
  ((two_thirds A <= i)%nat ->
     exists qc, answer = Ok (Some qc) /\ length (qc_votes qc) = S i /\ QC_verify qc A = Ok tt).
Proof.
  intros Hfit Hvs Hnd Hi.
  assert (collected Aggregator_new h view = []) as Hc.
  { unfold collected, vote_maker. cbn. rewrite lookup_empty. cbn. by rewrite lookup_empty. }
  pose proof (add_votes_answers A h view votes Aggregator_new (aggregator_ok_new A) Hfit Hvs) as Hall.
  rewrite Hc in Hall. by apply (Hall Hnd i answer).
Qed.

(** C29: A timeout certificate built by the aggregator records the view of each
    timeout where [TC::verify] expects the view of its highest certificate. So
    as soon as the last timeout counted was signed with a highest certificate of
    another view, every verifier refuses the certificate. *)
Theorem aggregated_tc_rejected `{!SignatureBinding, !DigestInjective}
    (A B : AuthorityList) (agg : Aggregator) (t : Timeout) (tc : TC) :
  Timeout_verify t A = Ok tt ->
  (Aggregator_add_timeout agg t A).1 = Ok (Some tc) ->
  qc_view (timeout_high_qc t) <> timeout_view t ->
  TC_verify tc B <> Ok tt.
Proof.
  intros (_ & (sig & Hs & Hp) & _)%Timeout_verify_ok Ha Hne [_ Hall]%TC_verify_ok.
  destruct (add_timeout_entry A agg t tc Ha) as (Hv & sig' & Hs' & Hin). simplify_eq.
  rewrite Forall_forall in Hall. specialize (Hall _ Hin). cbn in Hall.
  pose proof (signature_binding _ _ _ _ Hp Hall) as Hd. unfold TC_vote_digest in Hd. rewrite Hv in Hd.
  change (Timeout_digest t = Timeout_digest
    (mkTimeout (mkQC Hash_default (timeout_view t) []) (timeout_view t) (timeout_voter t) None)) in Hd.
  by apply timeout_digest_inj in Hd as [_ ?].
Qed.

(** For the certificate the aggregator answers to a verified timeout,
    [TC::verify] accepts exactly when every collected signature is over the view
    paired with itself; the quorum part always holds. *)
Theorem aggregated_tc_verdict (A : AuthorityList) (agg : Aggregator) (t : Timeout) (tc : TC) :
  aggregator_ok A agg -> authorities_fit A -> Timeout_verify t A = Ok tt ->
  (Aggregator_add_timeout agg t A).1 = Ok (Some tc) ->
  tc_view tc = timeout_view t /\ quorum_of A (tc_votes tc).*1.*1 /\
  (TC_verify tc A = Ok tt <->
   Forall (fun '(id, sig, _) => pair_verify sig (TC_vote_digest tc (tc_view tc)) id = true) (tc_votes tc)).
Proof.
  intros Hagg Hfit Hver Ha. destruct (add_timeout_tc A agg t tc Hagg Hfit Hver Ha) as (Hv & Hq & _ & Hall).
  split_and!; try done. rewrite TC_verify_ok, Hv. rewrite !Forall_forall in *. split.
  - intros [_ Hs] [[id sig] v] Hin. specialize (Hs _ Hin). specialize (Hall _ Hin). cbn in *. by subst v.
  - intros Hs. split; [done|]. intros [[id sig] v] Hin. specialize (Hs _ Hin). specialize (Hall _ Hin).
    cbn in *. by subst v.
Qed.

End properties.

(** ** Witnesses on the concrete platform *)

(** The vote of an authority, signed. *)
Definition signed_vote (h : bytes) (view : N) (id : N) : Vote :=
  mkVote h view id (Some (id, QC_digest (mkQC h view []))).

(** The timeout of an authority in [view] whose highest certificate is [qc], signed. *)
Definition signed_timeout (qc : QC) (view : N) (id : N) : Timeout :=
  mkTimeout qc view id (Some (id, Timeout_digest (mkTimeout qc view id None))).

Lemma aggregated_qc_sound_witness :
  QC_verify (certificate [] 5 [0; 1; 2]%N) four = Ok tt /\
  (qc_votes (certificate [] 5 [0; 1; 2]%N)).*1 ⊆ ids four /\
  exists v, v ∈ (signed_vote [] 5 <$> [0; 1; 2]%N) /\ qc_view (certificate [] 5 [0; 1; 2]%N) = vote_view v /\
    qc_proposal_hash (certificate [] 5 [0; 1; 2]%N) = vote_proposal_hash v.
Proof.
  apply (aggregated_qc_sound four); [vm_refl| |].
  - repeat constructor; vm_refl.
  - apply (list_elem_of_lookup_2 _ 2). vm_refl.
Defined.

Lemma aggregated_qc_complete_witness :
  ((2 < two_thirds four)%nat -> @Ok HotstuffError _ (Some (certificate [] 5 [0; 1; 2]%N)) = Ok None) /\
  ((two_thirds four <= 2)%nat ->
     exists qc, @Ok HotstuffError _ (Some (certificate [] 5 [0; 1; 2]%N)) = Ok (Some qc) /\
       length (qc_votes qc) = 3%nat /\ QC_verify qc four = Ok tt).
Proof.
  apply (aggregated_qc_complete four [] 5 (signed_vote [] 5 <$> [0; 1; 2]%N) 2);
    [vm_refl|repeat constructor; vm_refl|vm_decide|vm_refl].
Defined.

Lemma aggregated_tc_rejected_witness :
  TC_verify (mkTC 5 ((fun id => (id, (id, Timeout_digest (mkTimeout QC_default 5 0%N None)), 5%N)) <$> [0; 1; 2]%N))
    four <> Ok tt.
Proof.
  apply (aggregated_tc_rejected four four
    (add_timeouts Aggregator_new (signed_timeout QC_default 5 <$> [0; 1]%N) four).2
    (signed_timeout QC_default 5 2)); [vm_refl|vm_refl|done].
Defined.

Lemma aggregated_tc_verdict_witness :
  let tc := mkTC 0 ((fun id => (id, (id, Timeout_digest (mkTimeout QC_default 0 0%N None)), 0%N)) <$> [0]%N) in
  tc_view tc = 0%N /\ quorum_of solo (tc_votes tc).*1.*1 /\
  (TC_verify tc solo = Ok tt <->
   Forall (fun '(id, sig, _) => pair_verify sig (TC_vote_digest tc (tc_view tc)) id = true) (tc_votes tc)).
Proof.
  apply (aggregated_tc_verdict solo Aggregator_new (signed_timeout QC_default 0 0));
    [apply aggregator_ok_new|vm_refl|vm_refl|vm_refl].
Defined.
