(* ===== verification/Synchronizer.v ===== *)
(** * Synchronizer

    The client interface of [consensus/src/client.rs], the key-value store of
    [consensus/src/store.rs] and the proposal storage of
    [consensus/src/synchronizer.rs]. *)

From S2P Require Import Prelude Primitives Messages Concrete.
#[local] Open Scope hs_scope.

(** ** The client *)

(** [sp_blockchain::BlockStatus] *)
Inductive BlockStatus : Type := InChain | Unknown.

#[global] Instance BlockStatus_eq_dec : EqDecision BlockStatus.
Proof. solve_decision. Defined.

(** The part of [sp_blockchain::Info] the code reads. *)
Record ChainInfo `{BlockT} := mkChainInfo {
  best_number : N;
  genesis_hash : Hash;
  finalized_hash : Hash;
  finalized_number : N;
}.

(** [trait ClientForHotstuff]: the functions the consensus calls on the client,
    which is code of another crate. An error is the text the code makes of it.
    Operations that write answer the client afterwards. *)
Class ClientForHotstuff `{BlockT} := {
  Client : Type;
  client_info : Client -> ChainInfo;
  client_status : Client -> Hash -> result string BlockStatus;
  client_block_hash_from_id : Client -> N -> result string (option Hash);
  client_finalize_block : Client -> Hash -> result string unit * Client;
  client_get_aux : Client -> bytes -> result string (option bytes);
  client_insert_aux : Client -> list (bytes * bytes) -> list bytes -> result string unit * Client;
}.

(** What is relied on of the client: the auxiliary store behaves as a map whose
    writes are seen by later reads and whose failed writes change nothing,
    finalizing a block does not touch it, and the bytes of a hash determine it. *)
Class AuxStoreLaws `{ClientForHotstuff} : Prop := {
  insert_aux_get : forall c k v c' k',
    client_insert_aux c [(k, v)] [] = (Ok tt, c') ->
    client_get_aux c' k' = if decide (k = k') then Ok (Some v) else client_get_aux c k';
  insert_aux_err : forall c k v e c' k',
    client_insert_aux c [(k, v)] [] = (Err e, c') -> client_get_aux c' k' = client_get_aux c k';
  finalize_block_get : forall c h k, client_get_aux (client_finalize_block c h).2 k = client_get_aux c k;
  hash_as_ref_inj : forall h h' : Hash, hash_as_ref h = hash_as_ref h' -> h = h';
}.

Section store.
Context `{ClientForHotstuff}.

(** [Store::get] *)
Definition Store_get (backend : Client) (key : bytes) : result string (option bytes) :=
  client_get_aux backend key.

(** [Store::set] *)
Definition Store_set (backend : Client) (key value : bytes) : result string unit * Client :=
  client_insert_aux backend [(key, value)] [].

End store.

(** ** Proposals *)

Section synchronizer.
Context `{MessageCodecs} `{!ClientForHotstuff}.

(** [Synchronizer::save_proposal] *)
Definition save_proposal (store : Client) (proposal : Proposal) : result HotstuffError unit * Client :=
  let value := encode proposal in
  let key := Proposal_digest proposal in
  let '(r, store) := Store_set store (hash_as_ref key) value in
  (map_err SaveProposal r, store).

(** [Synchronizer::get_proposal_parent] *)
Definition get_proposal_parent (store : Client) (proposal : Proposal) : result HotstuffError Proposal :=
  let? res := map_err Other (Store_get store (hash_as_ref (Proposal_parent_hash proposal))) in
  match res with
  | Some data => map_err Other (decode data)
  | None => Err ProposalNoParent
  end.

(** [Synchronizer::get_proposal_ancestors] *)
Definition get_proposal_ancestors (store : Client) (proposal : Proposal)
    : result HotstuffError (Proposal * Proposal) :=
  let? parent := get_proposal_parent store proposal in
  let? grandpa := get_proposal_parent store parent in
  Ok (parent, grandpa).

End synchronizer.

(** ** Facts *)

Section facts.
Context `{MessageCodecs} `{!ClientForHotstuff} `{!AuxStoreLaws} `{!CodecLaws Proposal}.
Implicit Types (c : Client) (p : Proposal).

(** What a store holds under the digest of a proposal. *)
Definition stored (c : Client) (h : Hash) (p : Proposal) : Prop :=
  client_get_aux c (hash_as_ref h) = Ok (Some (encode p)).

Lemma save_proposal_stored c p c' :
  save_proposal c p = (Ok tt, c') -> stored c' (Proposal_digest p) p.
Proof.
  unfold save_proposal, Store_set, stored.
  destruct (client_insert_aux _ _ _) as [[[]|e] c''] eqn:Hi; cbn; [|done]. intros [= <-].
  by rewrite (insert_aux_get _ _ _ _ _ Hi), decide_True.
Qed.

Lemma save_proposal_other c p c' h q :
  save_proposal c p = (Ok tt, c') -> h <> Proposal_digest p -> stored c h q -> stored c' h q.
Proof.
  unfold save_proposal, Store_set, stored.
  destruct (client_insert_aux _ _ _) as [[[]|e] c''] eqn:Hi; cbn; [|done]. intros [= <-] Hne Hs.
  rewrite (insert_aux_get _ _ _ _ _ Hi), decide_False; [done|].
  by intros ?%hash_as_ref_inj.
Qed.

Lemma get_proposal_parent_stored c child p :
  stored c (Proposal_parent_hash child) p -> get_proposal_parent c child = Ok p.
Proof.
  unfold stored, get_proposal_parent, Store_get. intros ->. cbn. by rewrite decode_encode.
Qed.

(** A saved proposal is what its child finds as its parent, and a saved
    grandparent and parent are what [get_proposal_ancestors] answers, in the
    order they were saved. *)
Theorem saved_ancestors_found c c1 c2 grandpa parent child :
  save_proposal c grandpa = (Ok tt, c1) -> save_proposal c1 parent = (Ok tt, c2) ->
  Proposal_parent_hash parent = Proposal_digest grandpa ->
  Proposal_parent_hash child = Proposal_digest parent ->
  Proposal_digest grandpa <> Proposal_digest parent ->
  get_proposal_ancestors c2 child = Ok (parent, grandpa).
Proof.
  intros Hg Hp Hpg Hcp Hne.
  pose proof (save_proposal_stored _ _ _ Hg) as Sg. pose proof (save_proposal_stored _ _ _ Hp) as Sp.
  pose proof (save_proposal_other _ _ _ _ _ Hp Hne Sg) as Sg'.
  unfold get_proposal_ancestors.
  rewrite (get_proposal_parent_stored c2 child parent) by by rewrite Hcp. cbn.
  by rewrite (get_proposal_parent_stored c2 parent grandpa) by by rewrite Hpg.
Qed.

(** Asking for the ancestors answers a pair only when both links were
    found in the store; with no entry under the parent hash of the proposal the
    answer is the error [ProposalNoParent]. *)
Theorem get_proposal_ancestors_exact c p :
  (forall parent grandpa, get_proposal_ancestors c p = Ok (parent, grandpa) <->
    get_proposal_parent c p = Ok parent /\ get_proposal_parent c parent = Ok grandpa) /\
  (client_get_aux c (hash_as_ref (Proposal_parent_hash p)) = Ok None ->
   get_proposal_ancestors c p = Err ProposalNoParent).
Proof.
  unfold get_proposal_ancestors. split.
  - intros parent grandpa. rewrite bind_ok. split.
    + intros (q & Hq & (r & Hr & [= <- <-])%bind_ok). done.
    + intros [Hp Hg]. exists parent. split; [done|]. apply bind_ok. by exists grandpa.
  - unfold get_proposal_parent, Store_get. by intros ->.
Qed.

End facts.

(** ** A concrete client *)

(** Known blocks with their numbers, the auxiliary store, and the chain info. *)
Record concrete_client := mkConcreteClient {
  cc_aux : gmap bytes bytes;
  cc_blocks : gmap bytes N;
  cc_info : ChainInfo;
}.

#[export] Instance concrete_client_ops : ClientForHotstuff := {|
  Client := concrete_client;
  client_info := cc_info;
  client_status c h := Ok (match cc_blocks c !! h with Some _ => InChain | None => Unknown end);
  client_block_hash_from_id c n :=
    Ok (fst <$> List.find (fun kv => (kv.2 =? n)%N) (map_to_list (cc_blocks c)));
  client_finalize_block c h :=
    match cc_blocks c !! h with
    | Some n => (Ok tt, mkConcreteClient (cc_aux c) (cc_blocks c)
                          (mkChainInfo _ (best_number (cc_info c)) (genesis_hash (cc_info c)) h n))
    | None => (Err "unknown block"%string, c)
    end;
  client_get_aux c k := Ok (cc_aux c !! k);
  client_insert_aux c kvs ks :=
    (Ok tt, mkConcreteClient (foldr delete (foldl (fun m kv => <[kv.1 := kv.2]> m) (cc_aux c) kvs) ks)
              (cc_blocks c) (cc_info c));
|}.

#[export] Instance concrete_aux_laws : AuxStoreLaws.
Proof.
  constructor.
  - intros c k v c' k' [= <-]. cbn -[insert lookup]. rewrite lookup_insert. by case_decide.
  - by intros c k v e c' k' [= ].
  - intros c h k. cbn -[lookup]. by case_match.
  - done.
Qed.

(** A client that knows the blocks [1..n], numbered so, the first being the
    genesis block 0. *)
Definition sample_client (blocks : list (bytes * N)) : Client :=
  mkConcreteClient ∅ (list_to_map blocks) (mkChainInfo _ 0 [] [] 0).

Definition sample_grandpa : Proposal := mkProposal QC_default None (mkPayload [] 1) 1 1%N None.
Definition sample_parent : Proposal :=
  mkProposal (mkQC (Proposal_digest sample_grandpa) 1 []) None (mkPayload [] 2) 2 2%N None.
Definition sample_child : Proposal :=
  mkProposal (mkQC (Proposal_digest sample_parent) 2 []) None (mkPayload [] 3) 3 3%N None.

Lemma saved_ancestors_found_witness :
  get_proposal_ancestors
    (save_proposal (save_proposal (sample_client []) sample_grandpa).2 sample_parent).2 sample_child =
  Ok (sample_parent, sample_grandpa).
Proof.
  apply (saved_ancestors_found (sample_client []) (save_proposal (sample_client []) sample_grandpa).2);
    [vm_refl..|vm_decide].
Defined.

(** The test of [consensus/src/store.rs]. *)
Definition key0 : bytes := String.list_byte_of_string "key0".
Definition value0 : bytes := String.list_byte_of_string "value0".

Example store_works : Store_get (Store_set (sample_client []) key0 value0).2 key0 = Ok (Some value0).
Proof. vm_refl. Qed.
