(* ===== verification/State.v ===== *)
(** * State

    [ConsensusState] of [consensus/src/consensus.rs]: the view, the last view
    voted in, the highest certificate and the aggregator of a replica. *)

From S2P Require Import Prelude Primitives Messages Concrete Quorum Aggregator.
#[local] Open Scope hs_scope.

Section state.
Context `{MessageCodecs}.

(** [struct ConsensusState] *)
Record ConsensusState := mkConsensusState {
  cs_keystore : Keystore;
  cs_authorities : AuthorityList;
  cs_view : ViewNumber;
  cs_last_voted_view : ViewNumber;
  cs_high_qc : QC;
  cs_aggregator : Aggregator;
}.

(** Field updates. *)
Definition set_cs_view (v : ViewNumber) (s : ConsensusState) : ConsensusState :=
  mkConsensusState (cs_keystore s) (cs_authorities s) v (cs_last_voted_view s) (cs_high_qc s) (cs_aggregator s).
Definition set_cs_last_voted_view (v : ViewNumber) (s : ConsensusState) : ConsensusState :=
  mkConsensusState (cs_keystore s) (cs_authorities s) (cs_view s) v (cs_high_qc s) (cs_aggregator s).
Definition set_cs_high_qc (q : QC) (s : ConsensusState) : ConsensusState :=
  mkConsensusState (cs_keystore s) (cs_authorities s) (cs_view s) (cs_last_voted_view s) q (cs_aggregator s).
Definition set_cs_aggregator (a : Aggregator) (s : ConsensusState) : ConsensusState :=
  mkConsensusState (cs_keystore s) (cs_authorities s) (cs_view s) (cs_last_voted_view s) (cs_high_qc s) a.

(** [ConsensusState::new] *)
Definition ConsensusState_new (keystore : Keystore) (authorities : AuthorityList) : ConsensusState :=
  mkConsensusState keystore authorities 0 0 QC_default Aggregator_new.

(** [local_authority_id] *)
Definition local_authority_id (s : ConsensusState) : option AuthorityId :=
  option_map fst (List.find (fun p => has_keys (cs_keystore s) p.1) (cs_authorities s)).

(** [increase_last_voted_view] *)
Definition increase_last_voted_view (s : ConsensusState) : ConsensusState :=
  set_cs_last_voted_view (N.max (cs_last_voted_view s) (cs_view s)) s.

(** [make_timeout] *)
Definition make_timeout (s : ConsensusState) : result HotstuffError Timeout :=
  let? authority_id := ok_or (local_authority_id s) NotAuthority in
  let tc := mkTimeout (cs_high_qc s) (cs_view s) authority_id None in
  let? raw := map_err Other (sign_with (cs_keystore s) authority_id (Timeout_digest tc)) in
  Ok (mkTimeout (cs_high_qc s) (cs_view s) authority_id (raw ≫= signature_try_from)).

(** [make_proposal] *)
Definition make_proposal (s : ConsensusState) (payload : Payload) (tc : option TC)
    : result HotstuffError Proposal :=
  let? author_id := ok_or (local_authority_id s) NotAuthority in
  let block := mkProposal (cs_high_qc s) tc payload (cs_view s) author_id None in
  let? raw := map_err Other (sign_with (cs_keystore s) author_id (Proposal_digest block)) in
  Ok (mkProposal (cs_high_qc s) tc payload (cs_view s) author_id (raw ≫= signature_try_from)).

(** [make_vote] *)
Definition make_vote (s : ConsensusState) (proposal : Proposal) : option Vote * ConsensusState :=
  match local_authority_id s with
  | None => (None, s)
  | Some author_id =>
      if (proposal_view proposal <=? cs_last_voted_view s)%N then (None, s)
      else
        let s := set_cs_last_voted_view (N.max (cs_last_voted_view s) (proposal_view proposal)) s in
        let vote := Vote_new (Proposal_digest proposal) (proposal_view proposal) author_id in
        match sign_with (cs_keystore s) author_id (Vote_digest vote) with
        | Err _ => (None, s)
        | Ok raw =>
            (Some (mkVote (vote_proposal_hash vote) (vote_view vote) author_id (raw ≫= signature_try_from)), s)
        end
  end.

(** [view_leader]: [None] is the panic of the remainder by zero or of the index. *)
Definition view_leader (s : ConsensusState) (view : ViewNumber) : option AuthorityId :=
  let len := u64_of_usize (length (cs_authorities s)) in
  if (len =? 0)%N then None else option_map fst (cs_authorities s !! N.to_nat (view mod len)%N).

(** [is_leader] *)
Definition is_leader (s : ConsensusState) : option bool :=
  match view_leader s (cs_view s) with
  | None => None
  | Some leader_id =>
      Some (match local_authority_id s with
            | Some id => bool_decide (id = leader_id)
            | None => false
            end)
  end.

(** [verify_timeout] *)
Definition verify_timeout (s : ConsensusState) (timeout : Timeout) : result HotstuffError unit :=
  Timeout_verify timeout (cs_authorities s).

(** [verify_proposal]; [None] is the panic of [view_leader]. *)
Definition verify_proposal (s : ConsensusState) (proposal : Proposal) : option (result HotstuffError unit) :=
  match view_leader s (proposal_view proposal) with
  | None => None
  | Some leader =>
      Some (if negb (bool_decide (proposal_author proposal = leader)) then Err WrongProposer
            else Proposal_verify proposal (cs_authorities s))
  end.

(** [verify_vote] *)
Definition verify_vote (s : ConsensusState) (vote : Vote) : result HotstuffError unit :=
  if (vote_view vote <? cs_view s)%N then Err ExpiredVote else Vote_verify vote (cs_authorities s).

(** [verify_tc] *)
Definition verify_tc (s : ConsensusState) (tc : TC) : result HotstuffError unit :=
  if (tc_view tc <? cs_view s)%N then Err InvalidTC else TC_verify tc (cs_authorities s).

(** [add_timeout] *)
Definition add_timeout (s : ConsensusState) (timeout : Timeout)
    : result HotstuffError (option TC) * ConsensusState :=
  let '(r, agg) := Aggregator_add_timeout (cs_aggregator s) timeout (cs_authorities s) in
  (r, set_cs_aggregator agg s).

(** [add_vote] *)
Definition add_vote (s : ConsensusState) (vote : Vote) : result HotstuffError (option QC) * ConsensusState :=
  let '(r, agg) := Aggregator_add_vote (cs_aggregator s) vote (cs_authorities s) in
  (r, set_cs_aggregator agg s).

(** [update_high_qc] *)
Definition update_high_qc (s : ConsensusState) (qc : QC) : ConsensusState :=
  if (qc_view (cs_high_qc s) <? qc_view qc)%N then set_cs_high_qc qc s else s.

(** [advance_view_from_target] *)
Definition advance_view_from_target (s : ConsensusState) (view : ViewNumber) : ConsensusState :=
  if (view <=? cs_view s)%N then set_cs_view (u64_add view 1) s else s.

(** The operations of the state that change it, for sequences of calls. *)
Inductive StateOp : Type :=
| OpIncreaseLastVoted
| OpMakeVote (p : Proposal)
| OpAddVote (v : Vote)
| OpAddTimeout (t : Timeout)
| OpUpdateHighQC (q : QC)
| OpAdvance (v : ViewNumber).

(** One call: the vote it makes, if any, and the state afterwards. *)
Definition state_op (s : ConsensusState) (op : StateOp) : option Vote * ConsensusState :=
  match op with
  | OpIncreaseLastVoted => (None, increase_last_voted_view s)
  | OpMakeVote p => make_vote s p
  | OpAddVote v => (None, (add_vote s v).2)
  | OpAddTimeout t => (None, (add_timeout s t).2)
  | OpUpdateHighQC q => (None, update_high_qc s q)
  | OpAdvance v => (None, advance_view_from_target s v)
  end.

(** A sequence of calls: the votes made, in order. *)
Fixpoint state_ops (s : ConsensusState) (ops : list StateOp) : list Vote * ConsensusState :=
  match ops with
  | [] => ([], s)
  | op :: rest =>
      let '(o, s) := state_op s op in
      let '(votes, s) := state_ops s rest in
      (option_list o ++ votes, s)
  end.

End state.

(** ** Facts *)

Section facts.
Context `{MessageCodecs}.
Implicit Types (s : ConsensusState) (A : AuthorityList).

Lemma local_authority_id_some s id :
  local_authority_id s = Some id -> id ∈ ids (cs_authorities s) /\ has_keys (cs_keystore s) id = true.
Proof.
  unfold local_authority_id. destruct (List.find _ _) as [[i w]|] eqn:Hf; [|done]. intros [= <-].
  apply List.find_some in Hf as [Hin Hk]. split; [|done].
  apply list_elem_of_fmap. exists (i, w). by rewrite list_elem_of_In.
Qed.

Lemma view_leader_some s view :
  authorities_fit (cs_authorities s) -> cs_authorities s <> [] ->
  exists id, view_leader s view = Some id /\
    ids (cs_authorities s) !! N.to_nat (view mod N.of_nat (length (cs_authorities s))) = Some id.
Proof.
  unfold authorities_fit, view_leader, u64_of_usize, u64_modulus, ids. intros Hfit Hne.
  destruct (cs_authorities s) as [|a A] eqn:HA; [done|]. rewrite <- HA in *.
  assert (0 < length (cs_authorities s))%nat by (rewrite HA; cbn; lia).
  rewrite (N.mod_small (N.of_nat (length (cs_authorities s)))) by lia.
  rewrite (proj2 (N.eqb_neq _ _)) by lia.
  destruct (lookup_lt_is_Some_2 (cs_authorities s)
    (N.to_nat (view mod N.of_nat (length (cs_authorities s))))) as [[i w] Hi].
  { pose proof (N.mod_lt view (N.of_nat (length (cs_authorities s)))). lia. }
  exists i. rewrite list_lookup_fmap, !Hi. by split.
Qed.

Lemma view_leader_none s view :
  authorities_fit (cs_authorities s) -> view_leader s view = None <-> cs_authorities s = [].
Proof.
  intros Hfit. split.
  - intros Hn. destruct (cs_authorities s) eqn:HA; [done|].
    destruct (view_leader_some s view) as (id & Hid & _); [by rewrite HA|by rewrite HA|congruence].
  - unfold view_leader. by intros ->.
Qed.

(** The leader only depends on the authority list. *)
Lemma view_leader_ext s s' view :
  cs_authorities s = cs_authorities s' -> view_leader s view = view_leader s' view.
Proof. unfold view_leader. by intros ->. Qed.

Lemma verify_proposal_ext s s' p :
  cs_authorities s = cs_authorities s' -> verify_proposal s p = verify_proposal s' p.
Proof. unfold verify_proposal. intros Ha. by rewrite (view_leader_ext s s' _ Ha), Ha. Qed.

Lemma local_authority_id_ext s s' :
  cs_authorities s = cs_authorities s' -> cs_keystore s = cs_keystore s' ->
  local_authority_id s = local_authority_id s'.
Proof. unfold local_authority_id. by intros -> ->. Qed.

(** Consecutive views have different leaders when there are two authorities. *)
Lemma consecutive_leaders s view id :
  authorities_fit (cs_authorities s) -> NoDup (ids (cs_authorities s)) ->
  (2 <= length (cs_authorities s))%nat ->
  view_leader s view = Some id -> view_leader s (view + 1) <> Some id.
Proof.
  intros Hfit Hnd Hlen Hl Hl'.
  assert (cs_authorities s <> []) as Hne by (by intros HA; rewrite HA in Hlen; cbn in Hlen; lia).
  destruct (view_leader_some s view Hfit Hne) as (i & Hi & Hidx).
  destruct (view_leader_some s (view + 1) Hfit Hne) as (j & Hj & Hjdx). simplify_eq.
  pose proof (NoDup_lookup _ _ _ _ Hnd Hidx Hjdx) as Heq.
  apply N2Nat.inj in Heq. by apply mod_succ_ne in Heq; [|lia].
Qed.

(** ** Votes *)

Lemma make_vote_some s p v s' :
  make_vote s p = (Some v, s') ->
  exists id raw, local_authority_id s = Some id /\
  (cs_last_voted_view s < proposal_view p)%N /\
  sign_with (cs_keystore s) id (Vote_digest (Vote_new (Proposal_digest p) (proposal_view p) id)) = Ok raw /\
  v = mkVote (Proposal_digest p) (proposal_view p) id (raw ≫= signature_try_from) /\
  s' = set_cs_last_voted_view (proposal_view p) s.
Proof.
  unfold make_vote. destruct (local_authority_id s) as [id|]; [|done].
  destruct (N.leb_spec (proposal_view p) (cs_last_voted_view s)); [done|]. cbn.
  destruct (sign_with _ _ _) as [raw|e] eqn:Hs; [|done]. intros [= <- <-].
  exists id, raw. split_and!; try done. by rewrite N.max_r by lia.
Qed.

Lemma make_vote_state s p :
  let s' := (make_vote s p).2 in
  s' = set_cs_last_voted_view (cs_last_voted_view s') s /\
  (cs_last_voted_view s <= cs_last_voted_view s')%N.
Proof.
  unfold make_vote. destruct s as [ks A view lvv hq agg]; cbn.
  destruct (local_authority_id _) as [id|]; [|done]. cbn.
  destruct (N.leb_spec (proposal_view p) lvv); [done|].
  destruct (sign_with _ _ _) as [raw|e]; cbn; (split; [done|lia]).
Qed.

(** The state a vote leaves: the view of every vote is recorded and no later
    vote is at or below it. *)
Lemma state_op_last_voted s op :
  (cs_last_voted_view s <= cs_last_voted_view (state_op s op).2)%N /\
  forall v, (state_op s op).1 = Some v ->
    (cs_last_voted_view s < vote_view v)%N /\ cs_last_voted_view (state_op s op).2 = vote_view v.
Proof.
  destruct op; cbn; try (split; [|done]).
  - lia.
  - split; [apply make_vote_state|]. intros v Hv.
    destruct (make_vote s p) as [o s'] eqn:Hm. cbn in *. subst o.
    apply make_vote_some in Hm as (id & raw & _ & Hlt & _ & -> & ->). by cbn.
  - unfold add_vote. by destruct (Aggregator_add_vote _ _ _).
  - unfold add_timeout. by destruct (Aggregator_add_timeout _ _ _).
  - unfold update_high_qc. by destruct (_ <? _)%N.
  - unfold advance_view_from_target. by destruct (_ <=? _)%N.
Qed.

Lemma state_ops_votes s ops :
  Forall (fun v => cs_last_voted_view s < vote_view v)%N (state_ops s ops).1 /\
  StronglySorted (fun a b => vote_view a < vote_view b)%N (state_ops s ops).1.
Proof.
  revert s. induction ops as [|op ops IH]; intros s; cbn; [split; constructor|].
  pose proof (state_op_last_voted s op) as [Hmono Hvote].
  destruct (state_op s op) as [o s']. cbn in *. destruct (IH s') as [Hf Hs].
  destruct (state_ops s' ops) as [votes s'']. cbn in *.
  assert (Forall (fun v => cs_last_voted_view s < vote_view v)%N votes) as Hf'.
  { eapply Forall_impl; [exact Hf|]. cbn. lia. }
  destruct o as [v|]; cbn; [|done]. destruct (Hvote v eq_refl) as [Hlt Heq]. split.
  - by constructor.
  - constructor; [done|]. eapply Forall_impl; [exact Hf|]. cbn. lia.
Qed.

End facts.

(** ** Own messages *)

Section own_messages.
Context `{MessageCodecs} `{!KeystoreLaws}.
Implicit Types (s : ConsensusState).

(** Signing with the local authority key. *)
Lemma local_sign s id d :
  local_authority_id s = Some id ->
  exists raw sig, sign_with (cs_keystore s) id d = Ok (Some raw) /\
    signature_try_from raw = Some sig /\ pair_verify sig d id = true.
Proof. intros [_ Hk]%local_authority_id_some. by apply sign_with_verifies. Qed.

Lemma make_timeout_verifies s id :
  local_authority_id s = Some id -> qc_accepted (cs_authorities s) (cs_high_qc s) ->
  exists t, make_timeout s = Ok t /\ verify_timeout s t = Ok tt /\
    timeout_view t = cs_view s /\ timeout_high_qc t = cs_high_qc s /\ timeout_voter t = id.
Proof.
  intros Hid Hqc. pose proof (local_authority_id_some _ _ Hid) as [Hin _].
  unfold make_timeout. rewrite Hid. cbn.
  destruct (local_sign s id (Timeout_digest (mkTimeout (cs_high_qc s) (cs_view s) id None)) Hid)
    as (raw & sig & -> & Hsig & Hv). cbn. rewrite Hsig. eexists. split_and!; try done.
  apply Timeout_verify_ok. cbn. split_and!; [done| |done]. by exists sig.
Qed.

Lemma make_proposal_verifies s id payload tc :
  local_authority_id s = Some id -> qc_accepted (cs_authorities s) (cs_high_qc s) ->
  exists p, make_proposal s payload tc = Ok p /\ Proposal_verify p (cs_authorities s) = Ok tt /\
    proposal_qc p = cs_high_qc s /\ proposal_tc p = tc /\ proposal_payload p = payload /\
    proposal_view p = cs_view s /\ proposal_author p = id.
Proof.
  intros Hid Hqc. pose proof (local_authority_id_some _ _ Hid) as [Hin _].
  unfold make_proposal. rewrite Hid. cbn.
  destruct (local_sign s id (Proposal_digest (mkProposal (cs_high_qc s) tc payload (cs_view s) id None)) Hid)
    as (raw & sig & -> & Hsig & Hv). cbn. rewrite Hsig. eexists. split_and!; try done.
  apply Proposal_verify_ok. cbn. split_and!; [done| |done]. by exists sig.
Qed.

Lemma make_vote_verifies s p v s' :
  make_vote s p = (Some v, s') -> Vote_verify v (cs_authorities s) = Ok tt.
Proof.
  intros (id & raw & Hid & _ & Hs & -> & _)%make_vote_some.
  pose proof (local_authority_id_some _ _ Hid) as [Hin _].
  destruct (local_sign s id (Vote_digest (Vote_new (Proposal_digest p) (proposal_view p) id)) Hid)
    as (raw' & sig & Hs' & Hsig & Hv).
  rewrite Hs' in Hs. injection Hs as <-. cbn. rewrite Hsig.
  apply Vote_verify_ok. cbn. split; [done|]. by exists sig.
Qed.

End own_messages.

(** ** Properties *)

Section properties.
Context `{MessageCodecs}.

(** Whatever sequence of calls is made on a replica's state, the votes it
    makes are for strictly increasing views: it never votes twice in a view and
    never for an older one. *)
Theorem votes_strictly_increase (s : ConsensusState) (ops : list StateOp) :
  StronglySorted (fun a b => vote_view a < vote_view b)%N (state_ops s ops).1.
Proof. apply state_ops_votes. Qed.

(** Once the local timer called [increase_last_voted_view], no vote made
    afterwards is for a view the replica had reached by then. *)
Theorem no_vote_after_timeout (s : ConsensusState) (ops : list StateOp) :
  Forall (fun v => cs_view s < vote_view v)%N (state_ops (increase_last_voted_view s) ops).1.
Proof.
  eapply Forall_impl; [apply state_ops_votes|]. cbn. lia.
Qed.

(** Leadership rotates: among any [n] consecutive views every one of the [n]
    authorities leads exactly one. *)
Theorem leader_rotation (s : ConsensusState) (id : AuthorityId) (v0 : ViewNumber) :
  authorities_fit (cs_authorities s) -> NoDup (ids (cs_authorities s)) -> id ∈ ids (cs_authorities s) ->
  exists v, (v0 <= v < v0 + N.of_nat (length (cs_authorities s)))%N /\ view_leader s v = Some id /\
    forall v', (v0 <= v' < v0 + N.of_nat (length (cs_authorities s)))%N ->
      view_leader s v' = Some id -> v' = v.
Proof.
  intros Hfit Hnd Hin. apply list_elem_of_lookup in Hin as (k & Hk).
  assert (k < length (cs_authorities s))%nat as Hlt.
  { apply lookup_lt_Some in Hk. unfold ids in Hk. by rewrite length_fmap in Hk. }
  assert (cs_authorities s <> []) as Hne by (intros Heq; rewrite Heq in Hlt; cbn in Hlt; lia).
  assert (forall v, view_leader s v = Some id <->
    (v mod N.of_nat (length (cs_authorities s)) = N.of_nat k)%N) as Hlead.
  { intros v. destruct (view_leader_some s v Hfit Hne) as (i & -> & Hi). split.
    - intros [= ->]. pose proof (NoDup_lookup _ _ _ _ Hnd Hi Hk). lia.
    - intros Hm. rewrite Hm, Nat2N.id in Hi. congruence. }
  destruct (window_residue v0 (N.of_nat (length (cs_authorities s))) (N.of_nat k)) as (v & Hv & Hm & Hu);
    [lia|]. exists v. split_and!; [lia|lia|by apply Hlead|]. intros v' Hv' Hl. apply Hu; [done|]. by apply Hlead.
Qed.

(** C30: [verify_proposal] panics exactly for an empty authority list, and
    accepts exactly the proposals signed by the leader of their view whose
    certificate is the default one or verifies. *)
Theorem verify_proposal_exact (s : ConsensusState) (p : Proposal) :
  authorities_fit (cs_authorities s) ->
  (verify_proposal s p = None <-> cs_authorities s = []) /\
  (verify_proposal s p = Some (Ok tt) <->
   view_leader s (proposal_view p) = Some (proposal_author p) /\
   proposal_author p ∈ ids (cs_authorities s) /\
   (exists sig, proposal_signature p = Some sig /\
                pair_verify sig (Proposal_digest p) (proposal_author p) = true) /\
   qc_accepted (cs_authorities s) (proposal_qc p)).
Proof.
  intros Hfit. unfold verify_proposal. rewrite <- Proposal_verify_ok. split.
  - rewrite <- (view_leader_none s (proposal_view p)) by done. by destruct (view_leader _ _).
  - destruct (view_leader s (proposal_view p)) as [l|]; [|by split; [|intros [? _]]].
    case_bool_decide as Hl; cbn.
    + split; [intros [= Hv]; by subst|by intros [_ ->]].
    + split; [done|]. intros [[= Hl'] _]. by subst.
Qed.

(** The messages a replica with an authority key makes pass the checks of
    every replica with the same authorities: its timeouts, its votes, and its
    proposals in the views it leads. *)
Theorem own_messages_verify `{!KeystoreLaws} (s : ConsensusState) (id : AuthorityId) :
  local_authority_id s = Some id -> qc_accepted (cs_authorities s) (cs_high_qc s) ->
  (exists t, make_timeout s = Ok t /\ verify_timeout s t = Ok tt) /\
  (forall p v s', make_vote s p = (Some v, s') ->
     Vote_verify v (cs_authorities s) = Ok tt /\ vote_proposal_hash v = Proposal_digest p) /\
  (forall payload tc, view_leader s (cs_view s) = Some id ->
     exists p, make_proposal s payload tc = Ok p /\ verify_proposal s p = Some (Ok tt)).
Proof.
  intros Hid Hqc. split_and!.
  - destruct (make_timeout_verifies s id Hid Hqc) as (t & ? & ? & _). by exists t.
  - intros p v s' Hm. split; [by eapply make_vote_verifies|].
    by apply make_vote_some in Hm as (? & ? & _ & _ & _ & -> & _).
  - intros payload tc Hl.
    destruct (make_proposal_verifies s id payload tc Hid Hqc) as (p & Hp & Hv & _ & _ & _ & Hpv & Ha).
    exists p. split; [done|]. unfold verify_proposal. rewrite Hpv, Hl, Ha, bool_decide_true by done. cbn.
    by rewrite Hv.
Qed.

End properties.

(** ** Witnesses on the concrete platform *)

(** A replica of the four authorities that holds the key of [id]. *)
Definition replica (id : N) : ConsensusState := ConsensusState_new [id] four.

Lemma leader_rotation_witness :
  exists v, (5 <= v < 5 + 4)%N /\ view_leader (replica 0) v = Some 2%N /\
    forall v', (5 <= v' < 5 + 4)%N -> view_leader (replica 0) v' = Some 2%N -> v' = v.
Proof. apply (leader_rotation (replica 0) 2%N 5); [vm_refl|vm_decide|vm_decide]. Defined.

Lemma verify_proposal_exact_witness :
  let p := mkProposal QC_default None (mkPayload [] 1) 1 1%N None in
  (verify_proposal (replica 0) p = None <-> four = []) /\
  (verify_proposal (replica 0) p = Some (Ok tt) <->
   view_leader (replica 0) 1 = Some 1%N /\ 1%N ∈ ids four /\
   (exists sig, None = Some sig /\ pair_verify sig (Proposal_digest p) 1%N = true) /\
   qc_accepted four QC_default).
Proof. apply (verify_proposal_exact (replica 0)). vm_refl. Defined.

Lemma own_messages_verify_witness :
  (exists t, make_timeout (replica 0) = Ok t /\ verify_timeout (replica 0) t = Ok tt) /\
  (forall p v s', make_vote (replica 0) p = (Some v, s') ->
     Vote_verify v four = Ok tt /\ vote_proposal_hash v = Proposal_digest p) /\
  (forall payload tc, view_leader (replica 0) 0 = Some 0%N ->
     exists p, make_proposal (replica 0) payload tc = Ok p /\ verify_proposal (replica 0) p = Some (Ok tt)).
Proof. apply (own_messages_verify (replica 0) 0%N); [vm_refl|left; vm_refl]. Defined.
