(* ===== verification/Network.v ===== *)
(** * Network

    [consensus/src/network.rs]: the gossip validator that keeps, expires and
    forwards messages by their view; and the hand-over of gossiped messages to
    the worker of [ConsensusNetwork] in [consensus/src/consensus.rs]. *)

From S2P Require Import Prelude Primitives Messages Concrete Quorum Aggregator.
From stdpp Require Import pretty.
#[local] Open Scope hs_scope.

Section validator.
Context `{MessageCodecs}.

(** [struct GossipValidator]: the view behind the lock. *)
Record GossipValidator := mkGossipValidator { gv_view : ViewNumber }.

(** [GossipValidator::new] *)
Definition GossipValidator_new : GossipValidator := mkGossipValidator 0.

(** [GossipValidator::set_view], also [HotstuffNetworkBridge::set_view] *)
Definition set_view (self : GossipValidator) (new_view : ViewNumber) : GossipValidator :=
  mkGossipValidator new_view.

(** [GossipValidator::get_view] *)
Definition get_view (self : GossipValidator) : ViewNumber := gv_view self.

(** [sc_network_gossip::ValidationResult], the outcomes the code answers. *)
Inductive ValidationResult : Type :=
| Discard
| ProcessAndKeep (topic : Hash).

(** The view of a message, as the three filters compute it. *)
Definition message_view (message : ConsensusMessage) : ViewNumber :=
  match message with
  | MsgPropose proposal => proposal_view proposal
  | MsgVote vote => vote_view vote
  | MsgTimeout timeout => timeout_view timeout
  | MsgTC tc => tc_view tc
  | _ => 0%N
  end.

(** [Validator::validate] *)
Definition validate (self : GossipValidator) (data : bytes) : ValidationResult :=
  match decode data : result string ConsensusMessage with
  | Ok message =>
      let current_view := get_view self in
      if (1 <? current_view)%N && (message_view message <? current_view - 1)%N then Discard
      else ProcessAndKeep gossip_topic
  | Err _ => Discard
  end.

(** The closure of [Validator::message_expired] *)
Definition message_expired (self : GossipValidator) (topic : Hash) (data : bytes) : bool :=
  match decode data : result string ConsensusMessage with
  | Ok message =>
      let current_view := get_view self in
      (1 <=? current_view)%N && (message_view message <? current_view - 1)%N
  | Err _ => true
  end.

(** The closure of [Validator::message_allowed] *)
Definition message_allowed (self : GossipValidator) (topic : Hash) (data : bytes) : bool :=
  if negb (bool_decide (topic = gossip_topic)) then false
  else
    match decode data : result string ConsensusMessage with
    | Ok message =>
        let current_view := get_view self in
        if (1 <=? current_view)%N && (message_view message <? current_view - 1)%N then false else true
    | Err _ => false
    end.

(** The channel between [ConsensusNetwork] and the worker, with the capacity
    [start_hotstuff] gives it; [send_error] is the text of a full channel. *)
Definition channel_capacity : nat := 1000.

(** [ConsensusNetwork::incoming_message_handler]: decode, then [try_send]. *)
Definition incoming_message_handler (send_error : string) (channel : list ConsensusMessage) (data : bytes)
    : result HotstuffError unit * list ConsensusMessage :=
  match decode data : result string ConsensusMessage with
  | Err e => (Err (Other e), channel)
  | Ok message =>
      if (length channel <? channel_capacity)%nat then (Ok tt, channel ++ [message])
      else (Err (Other send_error), channel)
  end.

(** The first loop of [ConsensusNetwork::poll] on the notifications at hand;
    an error is only logged. *)
Definition poll_messages (send_error : string) (channel : list ConsensusMessage) (notifications : list bytes)
    : list ConsensusMessage :=
  foldl (fun channel data => (incoming_message_handler send_error channel data).2) channel notifications.

End validator.

#[global] Arguments channel_capacity : simpl never.

Section properties.
Context `{MessageCodecs}.

(** C32: The three gossip filters agree and depend on the view only: for data
    that decodes, a message is kept, not expired and allowed out on the topic of
    the protocol exactly when its view is at most one behind the current view;
    data that does not decode is dropped, expired and never sent. *)
Theorem gossip_filters_agree (gv : GossipValidator) (data : bytes) :
  (forall m, decode data = Ok m ->
    (validate gv data = ProcessAndKeep gossip_topic <-> (get_view gv <= message_view m + 1)%N) /\
    (message_expired gv gossip_topic data = false <-> (get_view gv <= message_view m + 1)%N) /\
    (message_allowed gv gossip_topic data = true <-> (get_view gv <= message_view m + 1)%N)) /\
  (forall e, (decode data : result string ConsensusMessage) = Err e ->
    validate gv data = Discard /\ message_expired gv gossip_topic data = true /\
    message_allowed gv gossip_topic data = false).
Proof.
  unfold validate, message_expired, message_allowed. rewrite bool_decide_true by done. cbn. split.
  - intros m ->.
    destruct (N.ltb_spec 1 (get_view gv)), (N.leb_spec 1 (get_view gv)),
      (N.ltb_spec (message_view m) (get_view gv - 1)); cbn; try lia;
      split_and!; split; intros; try done; lia.
  - by intros e ->.
Qed.

Lemma poll_messages_eq `{!CodecLaws ConsensusMessage} send_error channel messages :
  (length channel <= channel_capacity)%nat ->
  poll_messages send_error channel (encode <$> messages) =
    channel ++ take (channel_capacity - length channel) messages.
Proof.
  revert channel. induction messages as [|m messages IH]; intros channel Hlen.
  - unfold poll_messages. cbn. by rewrite take_nil, app_nil_r.
  - unfold poll_messages in *. cbn [fmap list_fmap foldl].
    unfold incoming_message_handler at 2. rewrite decode_encode.
    destruct (Nat.ltb_spec (length channel) channel_capacity) as [Hlt|Hge]; cbn [snd].
    + rewrite IH by (rewrite length_app; cbn; lia). rewrite length_app. cbn [length].
      replace (channel_capacity - length channel)%nat
        with (S (channel_capacity - (length channel + 1)))%nat by lia.
      cbn [take]. by rewrite <- app_assoc.
    + rewrite IH by done.
      replace (channel_capacity - length channel)%nat with 0%nat by lia. by rewrite !take_0.
Qed.

(** Messages encoded for gossip reach the worker's channel unchanged and in
    order as long as the channel has room; the channel never holds more than its
    capacity. *)
Theorem poll_messages_fifo `{!CodecLaws ConsensusMessage} (send_error : string)
    (channel messages : list ConsensusMessage) :
  (length channel <= channel_capacity)%nat ->
  poll_messages send_error channel (encode <$> messages) =
    channel ++ take (channel_capacity - length channel) messages /\
  (length (poll_messages send_error channel (encode <$> messages)) <= channel_capacity)%nat.
Proof.
  intros Hlen. rewrite poll_messages_eq by done. split; [done|].
  rewrite length_app, length_take. lia.
Qed.

End properties.

(** ** The bridge *)

(** [sc_network_gossip::GossipEngine]: made for a protocol with the validator that
    is shared with it, and polled; [messages_for] subscribes to a topic, with the
    messages that wait for the subscriber. *)
Class GossipEngines `{BlockT} := {
  GossipEngine : Type;
  GossipEngine_new : string -> GossipValidator -> GossipEngine;
  engine_validator : GossipEngine -> GossipValidator;
  engine_set_validator : GossipValidator -> GossipEngine -> GossipEngine;
  engine_poll : GossipEngine -> bool * GossipEngine;
  messages_for : Hash -> GossipEngine -> list bytes;
}.

(** What is relied on of the engine: it asks the validator it was given, which is
    shared, so that a change of the view reaches it. *)
Class GossipEngineLaws `{GossipEngines} : Prop := {
  engine_validator_new : forall protocol gv, engine_validator (GossipEngine_new protocol gv) = gv;
  engine_validator_set : forall gv e, engine_validator (engine_set_validator gv e) = gv;
  engine_validator_poll : forall e, engine_validator (engine_poll e).2 = engine_validator e;
  messages_for_new : forall topic protocol gv, messages_for topic (GossipEngine_new protocol gv) = [];
}.

Section bridge.
Context `{GossipEngines}.

(** [struct HotstuffNetworkBridge]: the engine and the validator it shares. *)
Record HotstuffNetworkBridge := mkBridge { bridge_engine : GossipEngine; gossip_validator : GossipValidator }.

(** [HotstuffNetworkBridge::new] *)
Definition HotstuffNetworkBridge_new (protocol_name : string) : HotstuffNetworkBridge :=
  let validator := GossipValidator_new in
  mkBridge (GossipEngine_new protocol_name validator) validator.

(** [HotstuffNetworkBridge::set_view], through the shared validator. *)
Definition bridge_set_view (view : ViewNumber) (self : HotstuffNetworkBridge) : HotstuffNetworkBridge :=
  let validator := set_view (gossip_validator self) view in
  mkBridge (engine_set_validator validator (bridge_engine self)) validator.

(** [Future for HotstuffNetworkBridge]: ready when the engine is. *)
Definition bridge_poll (self : HotstuffNetworkBridge) : bool * HotstuffNetworkBridge :=
  let '(ready, engine) := engine_poll (bridge_engine self) in (ready, mkBridge engine (gossip_validator self)).

Context `{!GossipEngineLaws}.

(** The calls a bridge takes after it is made. *)
Inductive BridgeCall : Type := SetView (view : ViewNumber) | PollBridge.

Definition bridge_call (self : HotstuffNetworkBridge) (c : BridgeCall) : HotstuffNetworkBridge :=
  match c with SetView view => bridge_set_view view self | PollBridge => (bridge_poll self).2 end.

(** The engine filters by the view of the worker: whatever the calls, the validator
    of the engine is the one of the bridge, at the last view that was set. *)
Lemma bridge_shares_view (protocol_name : string) (calls : list BridgeCall) :
  let self := foldl bridge_call (HotstuffNetworkBridge_new protocol_name) calls in
  engine_validator (bridge_engine self) = gossip_validator self /\
  get_view (gossip_validator self) =
    foldl (fun view c => match c with SetView view' => view' | PollBridge => view end) 0%N calls.
Proof.
  cbn zeta. assert (engine_validator (bridge_engine (HotstuffNetworkBridge_new protocol_name)) =
    gossip_validator (HotstuffNetworkBridge_new protocol_name) /\
    get_view (gossip_validator (HotstuffNetworkBridge_new protocol_name)) = 0%N) as Hini.
  { split; [apply engine_validator_new|done]. }
  revert Hini. generalize (HotstuffNetworkBridge_new protocol_name) 0%N.
  induction calls as [|c calls IH]; intros b view [He Hv]; [done|]. cbn [foldl]. apply IH. destruct c as [view'|]; cbn.
  - split; [apply engine_validator_set|done].
  - unfold bridge_poll. pose proof (engine_validator_poll (bridge_engine b)) as Hp.
    destruct (engine_poll (bridge_engine b)) as [ready e]. cbn in *. split; congruence.
Qed.

End bridge.

(** ** Topics *)

(** [round_topic] *)
Definition round_topic `{BlockT} (round set_id : N) : Hash :=
  hash (list_byte_of_string (pretty set_id +:+ "-" +:+ pretty round)).

(** Decimal numbers have no dash, so the first one ends the set id. *)
Fixpoint no_dash (s : string) : Prop :=
  match s with EmptyString => True | String a s => a <> Ascii.Ascii true false true true false true false false /\ no_dash s end.

Lemma pretty_no_dash (n : N) : no_dash (pretty n).
Proof.
  assert (forall s, no_dash s -> no_dash (pretty_N_go n s)) as Hgo.
  { induction (N.lt_wf_0 n) as [n _ IH]. intros s Hs. destruct (decide (0 < n)%N) as [Hpos|].
    - rewrite pretty_N_go_step by done. apply IH; [apply N.div_lt; lia|]. split; [|done].
      unfold pretty_N_char. by repeat case_match.
    - replace n with 0%N by lia. by rewrite pretty_N_go_0. }
  unfold pretty, pretty_N. case_decide; [done|]. by apply Hgo.
Qed.

Lemma dash_splits a a' b b' :
  no_dash a -> no_dash a' -> a +:+ "-" +:+ b = a' +:+ "-" +:+ b' -> a = a' /\ b = b'.
Proof.
  revert a'. induction a as [|c a IH]; intros [|c' a'] Ha Ha'; cbn; intros Heq; simplify_eq.
  - done.
  - by destruct Ha'.
  - by destruct Ha.
  - destruct Ha, Ha'. destruct (IH a') as [-> ->]; done.
Qed.

(** The topic of a round tells the round and the set, as far as hashes tell what
    they are of. *)
Theorem round_topic_unique `{BlockT} (round round' set_id set_id' : N) :
  (forall a b, hash a = hash b -> a = b) -> round_topic round set_id = round_topic round' set_id' ->
  round = round' /\ set_id = set_id'.
Proof.
  intros Hh Ht%Hh. apply (f_equal string_of_list_byte) in Ht. rewrite !string_of_list_byte_of_string in Ht.
  apply dash_splits in Ht as [Hs%(inj pretty) Hr%(inj pretty)]; auto using pretty_no_dash.
Qed.

(** The hypotheses at a concrete channel. *)
Lemma poll_messages_fifo_witness :
  poll_messages "full" [MsgPhantom] (encode <$> [MsgVote (signed_vote [] 5 0); MsgPhantom]) =
    [MsgPhantom; MsgVote (signed_vote [] 5 0); MsgPhantom] /\
  (length (poll_messages "full" [MsgPhantom] (encode <$> [MsgVote (signed_vote [] 5 0); MsgPhantom]))
     <= channel_capacity)%nat.
Proof.
  apply (poll_messages_fifo "full" [MsgPhantom] [MsgVote (signed_vote [] 5 0); MsgPhantom]).
  unfold channel_capacity. cbn. lia.
Defined.

Lemma round_topic_unique_witness : exists r r' s s' : N, round_topic r s = round_topic r' s' /\ r = r' /\ s = s'.
Proof.
  exists 12%N, 12%N, 3%N, 3%N. split; [done|]. apply (round_topic_unique 12 12 3 3); [by intros a b|done].
Defined.
