(* ===== verification/BlockImport.v ===== *)
(** * BlockImport

    [consensus/src/import.rs]: the queue of blocks waiting to be finalized,
    which is shared with the worker, and the block import wrapper. *)

From S2P Require Import Prelude Primitives Messages Concrete Synchronizer.
#[local] Open Scope hs_scope.

(** ** The pending queue *)

Section queue.
Context `{Crypto} `{!ClientForHotstuff}.

(** [struct BlockInfo] *)
Record BlockInfo := mkBlockInfo {
  info_hash : option Hash;
  info_number : N;
}.

(** [Arc<Mutex<VecDeque<BlockInfo>>>]: the queue, and whether a panic under the
    lock has poisoned it. *)
Record SharedQueue := mkSharedQueue {
  queue_poisoned : bool;
  queue_items : list BlockInfo;
}.

(** [Mutex::lock], up to the guard *)
Definition queue_lock (q : SharedQueue) : option (list BlockInfo) :=
  if queue_poisoned q then None else Some (queue_items q).

(** What the streams of the client deliver. *)
Record ImportNotification := mkImportNotification {
  in_hash : Hash;
  in_number : N;
  in_is_new_best : bool;
}.
Record FinalityNotification := mkFinalityNotification { fn_number : N }.

(** The loop of [PendingFinalizeBlockQueue::new]: the blocks from [block_number]
    to the best one, with the error of the first lookup that fails. *)
Fixpoint unfinalized_blocks (client : Client) (best block_number : N) (fuel : nat)
    : option (result HotstuffError (list (option Hash * N))) :=
  match fuel with
  | O => None
  | S fuel =>
      if (block_number <=? best)%N then
        match client_block_hash_from_id client block_number with
        | Err e => Some (Err (ClientError e))
        | Ok block_hash =>
            match unfinalized_blocks client best (block_number + 1) fuel with
            | Some (Ok rest) => Some (Ok ((block_hash, block_number) :: rest))
            | r => r
            end
        end
      else Some (Ok [])
  end.

(** Iterations of that loop, counting the last test. *)
Definition unfinalized_fuel (client : Client) : nat :=
  S (N.to_nat (best_number (client_info client) - finalized_number (client_info client))).

(** [PendingFinalizeBlockQueue::new]: the queue is collected, then a fresh empty
    one is installed. [None]: out of fuel. *)
Definition PendingFinalizeBlockQueue_new (client : Client) : option (result HotstuffError SharedQueue) :=
  let chain_info := client_info client in
  match unfinalized_blocks client (best_number chain_info) (finalized_number chain_info + 1)
          (unfinalized_fuel client) with
  | Some (Ok queue) => Some (Ok (mkSharedQueue false []))
  | Some (Err e) => Some (Err e)
  | None => None
  end.

(** The first loop of [poll]: every notification of a new best block is pushed. *)
Definition poll_imports (q : SharedQueue) (notifications : list ImportNotification) : SharedQueue :=
  foldl (fun q n =>
    if negb (in_is_new_best n) then q
    else match queue_lock q with
         | Some pending => mkSharedQueue false (pending ++ [mkBlockInfo (Some (in_hash n)) (in_number n)])
         | None => q
         end) q notifications.

(** The inner loop of the second one: drop the front while it is not above the
    finalized number; [None] is the panic of [b.hash.unwrap()], an argument of a
    debug log line and so evaluated when that level is on. *)
Fixpoint pop_finalized (finalized : N) (pending : list BlockInfo) : option (list BlockInfo) :=
  match pending with
  | [] => Some []
  | elem :: rest =>
      if (finalized <? info_number elem)%N then Some pending
      else match info_hash elem with
           | Some _ => pop_finalized finalized rest
           | None => None
           end
  end.

(** The second loop of [poll]: [None] when it panics, with the lock held. *)
Fixpoint poll_finality (q : SharedQueue) (notifications : list FinalityNotification) : option SharedQueue :=
  match notifications with
  | [] => Some q
  | n :: rest =>
      match queue_lock q with
      | Some pending =>
          match pop_finalized (fn_number n) pending with
          | Some pending => poll_finality (mkSharedQueue false pending) rest
          | None => None
          end
      | None => poll_finality q rest
      end
  end.

(** [PendingFinalizeBlockQueue::poll] on the notifications that are ready. *)
Definition poll_queue (q : SharedQueue) (imports : list ImportNotification)
    (finalities : list FinalityNotification) : option SharedQueue :=
  poll_finality (poll_imports q imports) finalities.

End queue.

(** ** Facts of the queue *)

Section queue_facts.
Context `{Crypto} `{!ClientForHotstuff}.

(** Every queued block has its hash and the lock is not poisoned. *)
Definition queue_ok (q : SharedQueue) : Prop :=
  queue_poisoned q = false /\ Forall (fun b => is_Some (info_hash b)) (queue_items q).

(** The blocks an import run queues. *)
Definition new_best_blocks (notifications : list ImportNotification) : list BlockInfo :=
  (fun n => mkBlockInfo (Some (in_hash n)) (in_number n)) <$> filter (fun n => in_is_new_best n = true) notifications.

Lemma poll_imports_eq q notifications :
  queue_poisoned q = false ->
  poll_imports q notifications = mkSharedQueue false (queue_items q ++ new_best_blocks notifications).
Proof.
  unfold poll_imports, new_best_blocks. revert q.
  induction notifications as [|n notifications IH]; intros [b items] Hp; cbn -[filter] in *; subst b.
  - by rewrite app_nil_r.
  - destruct (in_is_new_best n) eqn:Hb; cbn -[filter].
    + rewrite IH by done. rewrite filter_cons_True by done. cbn -[filter]. by rewrite <- app_assoc.
    + rewrite IH by done. by rewrite filter_cons_False by congruence.
Qed.

Lemma new_best_blocks_hash notifications :
  Forall (fun b => is_Some (info_hash b)) (new_best_blocks notifications).
Proof. unfold new_best_blocks. apply Forall_fmap, Forall_true. intros n. by eexists. Qed.

Lemma pop_finalized_ok finalized pending :
  Forall (fun b => is_Some (info_hash b)) pending ->
  exists dropped rest, pending = dropped ++ rest /\ pop_finalized finalized pending = Some rest /\
    Forall (fun b => info_number b <= finalized)%N dropped /\
    forall b, head rest = Some b -> (finalized < info_number b)%N.
Proof.
  induction pending as [|b pending IH]; intros Hh; cbn.
  - by exists [], [].
  - apply Forall_cons in Hh as [[h Hb] Hh]. destruct (N.ltb_spec finalized (info_number b)) as [Hlt|Hle].
    + exists [], (b :: pending). split_and!; try done. by intros ? [= <-].
    + rewrite Hb. destruct (IH Hh) as (dropped & rest & -> & Hp & Hd & Hr).
      exists (b :: dropped), rest. split_and!; try done. by constructor.
Qed.

Lemma pop_finalized_filter finalized pending :
  Forall (fun b => is_Some (info_hash b)) pending ->
  StronglySorted (fun a b => info_number a <= info_number b)%N pending ->
  pop_finalized finalized pending = Some (filter (fun b => finalized < info_number b)%N pending).
Proof.
  induction pending as [|b pending IH]; intros Hh Hs; cbn -[filter]; [done|].
  apply Forall_cons in Hh as [[h Hb] Hh]. inversion Hs as [|? ? Hs' Hf]; subst.
  destruct (N.ltb_spec finalized (info_number b)) as [Hlt|Hle].
  - f_equal. symmetry. rewrite filter_cons_True by done. f_equal. apply filter_all.
    rewrite Forall_forall in *. intros x Hx. specialize (Hf x Hx). lia.
  - rewrite Hb, IH by done. by rewrite filter_cons_False by lia.
Qed.

Lemma poll_finality_ok q notifications :
  queue_ok q -> exists q', poll_finality q notifications = Some q' /\ queue_ok q'.
Proof.
  revert q. induction notifications as [|n notifications IH]; intros q [Hp Hh]; cbn; [by exists q|].
  unfold queue_lock. rewrite Hp.
  destruct (pop_finalized_ok (fn_number n) (queue_items q) Hh) as (dropped & rest & Heq & -> & _ & _).
  apply IH. split; [done|]. cbn. rewrite Heq in Hh. by apply Forall_app in Hh as [_ ?].
Qed.

Lemma unfinalized_blocks_total client best n fuel :
  (N.to_nat (best + 1 - n) < fuel)%nat -> unfinalized_blocks client best n fuel <> None.
Proof.
  revert n. induction fuel as [|fuel IH]; intros n Hf; cbn; [lia|].
  destruct (N.leb_spec n best); [|done].
  destruct (client_block_hash_from_id client n); [|done].
  specialize (IH (n + 1)%N ltac:(lia)). by destruct (unfinalized_blocks _ _ _ _) as [[|]|].
Qed.

Lemma poll_queue_ok q imports finalities :
  queue_ok q -> exists q', poll_queue q imports finalities = Some q' /\ queue_ok q'.
Proof.
  intros [Hp Hh]. unfold poll_queue. rewrite poll_imports_eq by done.
  apply poll_finality_ok. split; [done|]. cbn. apply Forall_app. split; [done|]. apply new_best_blocks_hash.
Qed.

(** C31: The task that maintains the queue never panics and never poisons the
    lock: from a sound queue, any run of import and finality notifications ends
    in a sound queue, and with no finality it appends exactly the new best
    blocks in the order they came. *)
Theorem poll_queue_sound (q : SharedQueue) (imports : list ImportNotification)
    (finalities : list FinalityNotification) :
  queue_ok q ->
  (exists q', poll_queue q imports finalities = Some q' /\ queue_ok q') /\
  poll_queue q imports [] = Some (mkSharedQueue false (queue_items q ++ new_best_blocks imports)).
Proof.
  intros Hq. split; [by apply poll_queue_ok|]. unfold poll_queue. by rewrite poll_imports_eq by apply Hq.
Qed.

(** A finality notification removes a prefix of the queue: only blocks at or
    below the finalized number go, the block now in front is above it, and when
    the queue is ordered by number what stays is exactly the blocks above it. *)
Theorem finality_prunes_queue (q : SharedQueue) (finalized : N) :
  queue_ok q ->
  exists dropped rest, queue_items q = dropped ++ rest /\
    poll_queue q [] [mkFinalityNotification finalized] = Some (mkSharedQueue false rest) /\
    Forall (fun b => info_number b <= finalized)%N dropped /\
    (forall b, head rest = Some b -> (finalized < info_number b)%N) /\
    (StronglySorted (fun a b => info_number a <= info_number b)%N (queue_items q) ->
     rest = filter (fun b => finalized < info_number b)%N (queue_items q)).
Proof.
  intros [Hp Hh]. destruct (pop_finalized_ok finalized _ Hh) as (dropped & rest & Heq & Hpop & Hd & Hr).
  exists dropped, rest. split_and!; try done.
  - unfold poll_queue. cbn. unfold queue_lock. by rewrite Hp, Hpop.
  - intros Hs. pose proof (pop_finalized_filter finalized _ Hh Hs). congruence.
Qed.

(** The constructor always terminates, and whatever blocks the client has
    between the finalized and the best one, the queue it answers is empty: the
    blocks it collected are dropped. *)
Theorem pending_queue_starts_empty (client : Client) :
  exists r, PendingFinalizeBlockQueue_new client = Some r /\
    forall q, r = Ok q -> queue_items q = [] /\ queue_poisoned q = false.
Proof.
  unfold PendingFinalizeBlockQueue_new.
  pose proof (unfinalized_blocks_total client (best_number (client_info client))
    (finalized_number (client_info client) + 1) (unfinalized_fuel client)) as Ht.
  destruct (unfinalized_blocks _ _ _ _) as [[l|e]|].
  - eexists. split; [done|]. by intros q [= <-].
  - eexists. split; [done|]. by intros q [= ].
  - exfalso. apply Ht; [|done]. unfold unfinalized_fuel. lia.
Qed.

End queue_facts.

(** ** Block import *)

(** [sc_consensus::ImportResult] *)
Inductive ImportResult (Aux : Type) : Type :=
| Imported (aux : Aux)
| AlreadyInChain
| KnownBad
| UnknownParent
| MissingState.
Arguments Imported {Aux} aux.
Arguments AlreadyInChain {Aux}.
Arguments KnownBad {Aux}.
Arguments UnknownParent {Aux}.
Arguments MissingState {Aux}.

(** The wrapped block import of the client, and the parts of the parameters
    that the wrapper looks at. Errors of type [ConsensusError] are those of
    another crate; [ClientImport] wraps a text into one. *)
Class BlockImportClient `{ClientForHotstuff} := {
  BlockImportParams : Type;
  Justifications : Type;
  ImportedAux : Type;
  ConsensusError : Type;
  ClientImport : string -> ConsensusError;
  consensus_error_to_string : ConsensusError -> string;
  post_hash : BlockImportParams -> Hash;
  justifications : BlockImportParams -> option Justifications;
  without_justifications : BlockImportParams -> BlockImportParams;
  client_import_block : Client -> BlockImportParams -> result ConsensusError (ImportResult ImportedAux) * Client;
  BlockCheckParams : Type;
  client_check_block : Client -> BlockCheckParams -> result ConsensusError (ImportResult ImportedAux);
}.

(** [struct HotstuffBlockImport] and its [new]: a handle to the client. *)
Record HotstuffBlockImport `{ClientForHotstuff} := mkHotstuffBlockImport { import_inner : Client }.
Definition HotstuffBlockImport_new `{ClientForHotstuff} (inner : Client) : HotstuffBlockImport := {| import_inner := inner |}.

Section block_import.
Context `{BlockImportClient}.

(** [HotstuffBlockImport::check_block] *)
Definition check_block (inner : Client) (block : BlockCheckParams) : result ConsensusError (ImportResult ImportedAux) :=
  client_check_block inner block.

(** [JustificationImport::on_start]: no justification is asked for. *)
Definition on_start (inner : Client) : list (Hash * N) :=
  let _chain_info := client_info inner in [].

(** [HotstuffBlockImport::import_block] *)
Definition import_block (inner : Client) (block : BlockImportParams)
    : result ConsensusError (ImportResult ImportedAux) * Client :=
  match client_status inner (post_hash block) with
  | Ok InChain => client_import_block inner (without_justifications block)
  | Err e => (Err (ClientImport e), inner)
  | Ok Unknown =>
      let '(import_result, inner) := client_import_block inner block in
      match import_result with
      | Ok (Imported aux) => (Ok (Imported aux), inner)
      | Ok r => (Ok r, inner)
      | Err e => (Err (ClientImport (consensus_error_to_string e)), inner)
      end
  end.

(** [HotstuffBlockImport::import_justification], the method of the
    [JustificationImport] trait and the function it calls: the block is
    finalized, the outcome is only printed. *)
Definition import_justification (inner : Client) (hash : Hash) (number : N) (justification : Justifications)
    : result ConsensusError unit * Client :=
  let '(res, inner) := client_finalize_block inner hash in
  match res with
  | Ok _ => (Ok tt, inner)
  | Err _ => (Ok tt, inner)
  end.

(** Importing a justification finalizes the block without looking at the
    justification or the number, and answers success even when the client
    refused to finalize. *)
Theorem import_justification_unchecked (c : Client) (h : Hash) (n n' : N) (j j' : Justifications) :
  import_justification c h n j = (Ok tt, (client_finalize_block c h).2) /\
  import_justification c h n j = import_justification c h n' j'.
Proof.
  unfold import_justification. by destruct (client_finalize_block c h) as [[|] c'].
Qed.

(** Importing a block: a block already in the chain is re-imported with its
    justifications stripped and the answer of the client passed on unchanged; an
    unknown block is imported as it is, with every non-error answer passed on
    and an error wrapped; when the status cannot be read nothing is imported. *)
Theorem import_block_exact (c : Client) (b : BlockImportParams) :
  (client_status c (post_hash b) = Ok InChain ->
     import_block c b = client_import_block c (without_justifications b)) /\
  (client_status c (post_hash b) = Ok Unknown ->
     (import_block c b).2 = (client_import_block c b).2 /\
     (forall r, (client_import_block c b).1 = Ok r -> (import_block c b).1 = Ok r) /\
     (forall e, (client_import_block c b).1 = Err e ->
        (import_block c b).1 = Err (ClientImport (consensus_error_to_string e)))) /\
  (forall e, client_status c (post_hash b) = Err e -> import_block c b = (Err (ClientImport e), c)).
Proof.
  unfold import_block. split_and!.
  - by intros ->.
  - intros ->. destruct (client_import_block c b) as [[[]|e] c']; cbn; naive_solver.
  - by intros e ->.
Qed.

End block_import.

(** ** Witnesses *)

Definition two_blocks : SharedQueue :=
  mkSharedQueue false [mkBlockInfo (Some [Byte.x01]) 1; mkBlockInfo (Some [Byte.x02]) 2].

Definition third_block : ImportNotification := mkImportNotification [Byte.x03] 3 true.

Lemma two_blocks_ok : queue_ok two_blocks.
Proof. split; [done|]. repeat constructor; by eexists. Qed.

Lemma poll_queue_sound_witness :
  (exists q', poll_queue two_blocks [third_block] [mkFinalityNotification 2] = Some q' /\
     queue_ok q') /\
  poll_queue two_blocks [third_block] [] =
    Some (mkSharedQueue false (queue_items two_blocks ++ [mkBlockInfo (Some [Byte.x03]) 3])).
Proof.
  apply (poll_queue_sound two_blocks [third_block] [mkFinalityNotification 2]).
  apply two_blocks_ok.
Defined.

Lemma finality_prunes_queue_witness :
  exists dropped rest, queue_items two_blocks = dropped ++ rest /\
    poll_queue two_blocks [] [mkFinalityNotification 1] = Some (mkSharedQueue false rest) /\
    Forall (fun b => info_number b <= 1)%N dropped /\
    (forall b, head rest = Some b -> (1 < info_number b)%N) /\
    (StronglySorted (fun a b => info_number a <= info_number b)%N (queue_items two_blocks) ->
     rest = filter (fun b => 1 < info_number b)%N (queue_items two_blocks)).
Proof. apply (finality_prunes_queue two_blocks 1). apply two_blocks_ok. Defined.
