(* ===== verification/Worker.v ===== *)
(** * Worker

    [ConsensusWorker] of [consensus/src/consensus.rs]: the handlers of the local
    timer and of the messages, as they mutate the worker, and the event loop. *)

From S2P Require Import Prelude Primitives Messages Concrete Quorum Aggregator Synchronizer State Network BlockImport.
#[local] Open Scope hs_scope.

Section worker.
Context `{MessageCodecs} `{!ClientForHotstuff}.

(** What the worker does to the outside: messages gossiped (with the force
    flag), votes signed by the keystore, resets of its timer, requests to sync a
    block, calls that finalize. A signed vote is recorded apart from its gossip:
    one that the replica itself collects is never sent. *)
Inductive Effect : Type :=
| Gossip (m : ConsensusMessage) (force : bool)
| SignVote (v : Vote)
| TimerReset
| SyncForkRequest (h : Hash) (number : N)
| FinalizeCall (h : Hash).

(** [struct ConsensusWorker]: its own state, the gossip validator of the network
    bridge, the client (behind which the synchronizer stores proposals), the
    shared queue, and the effects so far, oldest first. *)
Record Worker := mkWorker {
  w_state : ConsensusState;
  w_network : GossipValidator;
  w_client : Client;
  w_processing_block : option BlockInfo;
  w_queue : SharedQueue;
  w_proposal_hash_queue : list Hash;
  w_effects : list Effect;
}.

(** Field updates. *)
Definition set_w_state (s : ConsensusState) (w : Worker) : Worker :=
  mkWorker s (w_network w) (w_client w) (w_processing_block w) (w_queue w) (w_proposal_hash_queue w) (w_effects w).
Definition set_w_network (n : GossipValidator) (w : Worker) : Worker :=
  mkWorker (w_state w) n (w_client w) (w_processing_block w) (w_queue w) (w_proposal_hash_queue w) (w_effects w).
Definition set_w_client (c : Client) (w : Worker) : Worker :=
  mkWorker (w_state w) (w_network w) c (w_processing_block w) (w_queue w) (w_proposal_hash_queue w) (w_effects w).
Definition set_w_processing_block (b : option BlockInfo) (w : Worker) : Worker :=
  mkWorker (w_state w) (w_network w) (w_client w) b (w_queue w) (w_proposal_hash_queue w) (w_effects w).
Definition set_w_queue (q : SharedQueue) (w : Worker) : Worker :=
  mkWorker (w_state w) (w_network w) (w_client w) (w_processing_block w) q (w_proposal_hash_queue w) (w_effects w).
Definition set_w_proposal_hash_queue (l : list Hash) (w : Worker) : Worker :=
  mkWorker (w_state w) (w_network w) (w_client w) (w_processing_block w) (w_queue w) l (w_effects w).
Definition add_w_effect (e : Effect) (w : Worker) : Worker :=
  mkWorker (w_state w) (w_network w) (w_client w) (w_processing_block w) (w_queue w) (w_proposal_hash_queue w)
    (w_effects w ++ [e]).

(** [ConsensusWorker::new] *)
Definition ConsensusWorker_new (consensus_state : ConsensusState) (client : Client)
    (network : GossipValidator) (pending_finalize_queue : SharedQueue) : Worker :=
  let pending_block := queue_lock pending_finalize_queue ≫= head in
  mkWorker consensus_state network client pending_block pending_finalize_queue [] [].

Definition W (A : Type) : Type := M Worker HotstuffError A.

(** [empty_payload_hash]: the hash of [EMPTY_PAYLOAD]. *)
Definition EMPTY_PAYLOAD : bytes := String.list_byte_of_string "hotstuff/empty_payload".
Definition empty_payload_hash : Hash := hash EMPTY_PAYLOAD.

Definition emit (e : Effect) : W unit := st_modify (add_w_effect e).

(** [local_timer.reset()] *)
Definition timer_reset : W unit := emit TimerReset.

(** [gossip_engine.lock().gossip_message(topic, message.encode(), force)] *)
Definition gossip_message (m : ConsensusMessage) (force : bool) : W unit := emit (Gossip m force).

(** A method of [self.state] that mutates it. *)
Definition on_state {A} (f : ConsensusState -> A * ConsensusState) : W A :=
  st_update (fun w => let '(a, s) := f (w_state w) in (a, set_w_state s w)).

(** [advance_view] *)
Definition advance_view (view : ViewNumber) : W unit :=
  st_modify (fun w =>
    let s := advance_view_from_target (w_state w) view in
    set_w_network (set_view (w_network w) (cs_view s)) (set_w_state s w)).

(** [handle_qc] *)
Definition handle_qc (qc : QC) : W unit :=
  let! view := st_get (fun w => cs_view (w_state w)) in
  if (view <=? qc_view qc)%N then
    advance_view (qc_view qc) ;!
    st_modify (fun w => set_w_state (update_high_qc (w_state w) qc) w) ;!
    timer_reset
  else st_ret tt.

(** [get_proposal_payload] *)
Definition get_proposal_payload (w : Worker) : option Payload * Worker :=
  match queue_lock (w_queue w) with
  | None => (None, w)
  | Some queue =>
      match w_processing_block w with
      | Some processing =>
          let finalized_number := finalized_number (client_info (w_client w)) in
          if (finalized_number <? info_number processing)%N then
            (Some (mkPayload empty_payload_hash (info_number processing)), w)
          else
            match List.find (fun elem => (finalized_number <? info_number elem)%N) queue with
            | Some found =>
                (Some (mkPayload (default empty_payload_hash (info_hash found)) (info_number found)),
                 set_w_processing_block (Some found) w)
            | None => (Some (mkPayload empty_payload_hash (info_number processing)), w)
            end
      | None =>
          match queue with
          | info :: _ =>
              (Some (mkPayload (default empty_payload_hash (info_hash info)) (info_number info)),
               set_w_processing_block (Some info) w)
          | [] => (None, w)
          end
      end
  end.

(** The closure of [handle_proposal] on the ancestors of the proposal, with the
    lookup before it: finalize the grandparent when the parent directly follows
    it. The outcome is only logged. *)
Definition try_finalize (proposal : Proposal) (w : Worker) : result HotstuffError unit * Worker :=
  match get_proposal_ancestors (w_client w) proposal with
  | Err e => (Err e, w)
  | Ok (parent, grandpa) =>
      if (proposal_view parent =? u64_add (proposal_view grandpa) 1)%N then
        let h := block_hash (proposal_payload grandpa) in
        if negb (bool_decide (h = empty_payload_hash)) &&
           negb (bool_decide (h = finalized_hash (client_info (w_client w)))) then
          let '(r, client) := client_finalize_block (w_client w) h in
          (map_err FinalizeBlock r, add_w_effect (FinalizeCall h) (set_w_client client w))
        else (Ok tt, w)
      else (Ok tt, w)
  end.

(** [self.state.local_authority_id().map_or(false, |id| id == leader)] *)
Definition is_local (s : ConsensusState) (leader : AuthorityId) : bool :=
  match local_authority_id s with Some id => bool_decide (id = leader) | None => false end.

(** The first part of [handle_proposal]: [false] when the block of the payload
    is unknown to the client and the handler returns early. *)
Definition check_payload (proposal : Proposal) : W bool :=
  let h := block_hash (proposal_payload proposal) in
  if negb (bool_decide (h = empty_payload_hash)) then
    let! status := st_get (fun w => client_status (w_client w) h) in
    match status with
    | Ok block_status =>
        if decide (block_status = Unknown) then
          emit (SyncForkRequest h (block_number (proposal_payload proposal))) ;! st_ret false
        else st_ret true
    | Err e => st_throw (ClientError e)
    end
  else st_ret true.

(** [verify_proposal] of the state, with its panic. *)
Definition check_proposal (proposal : Proposal) : W unit :=
  let! r := st_get (fun w => verify_proposal (w_state w) proposal) in
  let! r := st_expect r in
  st_lift r.

(** [synchronizer.save_proposal] *)
Definition save (proposal : Proposal) : W unit :=
  let! r := st_update (fun w => let '(r, c) := save_proposal (w_client w) proposal in (r, set_w_client c w)) in
  st_lift r.

(** The step of [handle_proposal] on the timeout certificate of the proposal. *)
Definition handle_proposal_tc (proposal : Proposal) : W unit :=
  match proposal_tc proposal with
  | Some tc =>
      let! view := st_get (fun w => cs_view (w_state w)) in
      if (view <? tc_view tc)%N then advance_view (tc_view tc) ;! timer_reset else st_ret tt
  | None => st_ret tt
  end.

(** The last part of [handle_proposal]: vote (the signature [make_vote] asks of
    the keystore is an effect), and hand the vote to the next leader. *)
Definition vote_on (handle_vote : Vote -> W unit) (proposal : Proposal) : W unit :=
  let! vote := on_state (fun s => make_vote s proposal) in
  match vote with
  | None => st_ret tt
  | Some vote =>
      emit (SignVote vote) ;!
      st_modify (fun w => set_w_proposal_hash_queue
        (w_proposal_hash_queue w ++ [block_hash (proposal_payload proposal)]) w) ;!
      st_modify (set_w_processing_block
        (Some (mkBlockInfo (Some (block_hash (proposal_payload proposal)))
                           (block_number (proposal_payload proposal))))) ;!
      let! next := st_get (fun w => view_leader (w_state w) (u64_add (cs_view (w_state w)) 1)) in
      let! next_leader_id := st_expect next in
      let! local := st_get (fun w => is_local (w_state w) next_leader_id) in
      if local then handle_vote vote else gossip_message (MsgVote vote) false
  end.

(** [handle_proposal], around the handler of votes it may call. *)
Definition handle_proposal_body (handle_vote : Vote -> W unit) (proposal : Proposal) : W unit :=
  let! known := check_payload proposal in
  if negb known then st_ret tt
  else
    check_proposal proposal ;!
    handle_qc (proposal_qc proposal) ;!
    handle_proposal_tc proposal ;!
    save proposal ;!
    let! _ := st_update (try_finalize proposal) in
    let! view := st_get (fun w => cs_view (w_state w)) in
    if negb (proposal_view proposal =? view)%N then st_ret tt
    else vote_on handle_vote proposal.

(** The loop of [handle_vote] over the proposed hashes, newest first: whether it
    meets a second empty payload in a row while the new one is empty too. *)
Fixpoint empty_run (payload_empty : bool) (count : nat) (hashes : list Hash) : bool :=
  match hashes with
  | [] => false
  | item :: rest =>
      if negb (bool_decide (item = empty_payload_hash)) then false
      else
        let count := S count in
        if (count =? 2)%nat && payload_empty then true else empty_run payload_empty count rest
  end.

(** The part of [handle_vote] where the new leader proposes. *)
Definition propose_next (handle_proposal : Proposal -> W unit) (payload : Payload) : W unit :=
  let! hashes := st_get w_proposal_hash_queue in
  if empty_run (bool_decide (block_hash payload = empty_payload_hash)) 0 (rev hashes) then st_ret tt
  else
    st_modify (fun w =>
      if (3 <? length (w_proposal_hash_queue w))%nat then set_w_proposal_hash_queue [] w else w) ;!
    st_modify (fun w => set_w_proposal_hash_queue (w_proposal_hash_queue w ++ [block_hash payload]) w) ;!
    let! r := st_get (fun w => make_proposal (w_state w) payload None) in
    let! proposal := st_lift r in
    gossip_message (MsgPropose proposal) false ;!
    handle_proposal proposal.

(** [handle_vote], around the handler of proposals it may call. *)
Definition handle_vote_body (handle_proposal : Proposal -> W unit) (vote : Vote) : W unit :=
  let! r := st_get (fun w => verify_vote (w_state w) vote) in
  st_lift r ;!
  let! r := on_state (fun s => add_vote s vote) in
  let! o := st_lift r in
  match o with
  | None => st_ret tt
  | Some qc =>
      handle_qc qc ;!
      let! leader := st_get (fun w => view_leader (w_state w) (cs_view (w_state w))) in
      let! current_leader := st_expect leader in
      let! local := st_get (fun w => is_local (w_state w) current_leader) in
      if local then
        let! o := st_update get_proposal_payload in
        match o with
        | Some payload => propose_next handle_proposal payload
        | None => st_ret tt
        end
      else st_ret tt
  end.

(** [handle_proposal] and [handle_vote] call each other. *)
Fixpoint handle_proposal (fuel : nat) (proposal : Proposal) : W unit :=
  match fuel with
  | O => st_nofuel
  | S fuel => handle_proposal_body (handle_vote fuel) proposal
  end
with handle_vote (fuel : nat) (vote : Vote) : W unit :=
  match fuel with
  | O => st_nofuel
  | S fuel => handle_vote_body (handle_proposal fuel) vote
  end.

(** [generate_proposal] *)
Definition generate_proposal (fuel : nat) (tc : option TC) : W unit :=
  let! o := st_update get_proposal_payload in
  match o with
  | Some payload =>
      let! r := st_get (fun w => make_proposal (w_state w) payload tc) in
      let! proposal := st_lift r in
      gossip_message (MsgPropose proposal) false ;!
      handle_proposal fuel proposal
  | None => st_ret tt
  end.

(** [handle_timeout] *)
Definition handle_timeout (fuel : nat) (timeout : Timeout) : W unit :=
  let! view := st_get (fun w => cs_view (w_state w)) in
  if (timeout_view timeout <? view)%N then st_ret tt
  else
    let! r := st_get (fun w => verify_timeout (w_state w) timeout) in
    st_lift r ;!
    handle_qc (timeout_high_qc timeout) ;!
    let! r := on_state (fun s => add_timeout s timeout) in
    let! o := st_lift r in
    match o with
    | None => st_ret tt
    | Some tc =>
        let! view := st_get (fun w => cs_view (w_state w)) in
        (if (view <=? tc_view tc)%N then advance_view (tc_view tc) ;! timer_reset else st_ret tt) ;!
        gossip_message (MsgTC tc) true ;!
        let! leads := st_get (fun w => is_leader (w_state w)) in
        let! leads := st_expect leads in
        if leads then
          st_modify (set_w_processing_block None) ;!
          generate_proposal fuel (Some tc)
        else st_ret tt
    end.

(** [handle_local_timer] *)
Definition handle_local_timer (fuel : nat) : W unit :=
  timer_reset ;!
  st_modify (fun w => set_w_state (increase_last_voted_view (w_state w)) w) ;!
  let! r := st_get (fun w => make_timeout (w_state w)) in
  let! timeout := st_lift r in
  gossip_message (MsgTimeout timeout) true ;!
  handle_timeout fuel timeout.

(** [handle_tc] *)
Definition handle_tc (fuel : nat) (tc : TC) : W unit :=
  let! r := st_get (fun w => verify_tc (w_state w) tc) in
  st_lift r ;!
  advance_view (tc_view tc) ;!
  timer_reset ;!
  st_modify (set_w_processing_block None) ;!
  let! leads := st_get (fun w => is_leader (w_state w)) in
  let! leads := st_expect leads in
  if leads then generate_proposal fuel None else st_ret tt.

(** What [run] selects on: the local timer, or a message from the channel. *)
Inductive Event : Type :=
| LocalTimer
| Message (m : ConsensusMessage).

(** The branch of [run] that serves an event. *)
Definition handle_event (fuel : nat) (event : Event) : W unit :=
  match event with
  | LocalTimer => handle_local_timer fuel
  | Message (MsgPropose proposal) => handle_proposal fuel proposal
  | Message (MsgVote vote) => handle_vote fuel vote
  | Message (MsgTimeout timeout) => handle_timeout fuel timeout
  | Message (MsgTC tc) => handle_tc fuel tc
  | Message _ => st_ret tt
  end.

(** One turn of the loop of [run]: an error is logged and dropped; [None] when
    the task panics (or fuel runs out). *)
Definition run_event (fuel : nat) (w : Worker) (event : Event) : option Worker :=
  match handle_event fuel event w with
  | (Val _, w) => Some w
  | (Abort (Fail _), w) => Some w
  | (Abort Panicked, _) => None
  | (Abort NoFuel, _) => None
  end.

End worker.
