(* ===== verification/WorkerFacts.v ===== *)
(** * WorkerFacts

    The invariant of the worker and what its handlers do to it, whatever the
    outcome: a program logic of triples over [ConsensusWorker]'s handlers. *)

From S2P Require Import Prelude Primitives Messages Concrete Quorum Aggregator Synchronizer State Network BlockImport Worker.
#[local] Open Scope hs_scope.

(** ** The invariant *)

Section invariant.
Context `{MessageCodecs} `{!ClientForHotstuff}.
Variables (A : AuthorityList) (ks : Keystore).

(** The identity of a replica, for the leader schedule and the local key. *)
Definition identity : ConsensusState := ConsensusState_new ks A.

(** A proposal that passes the checks of a replica with these authorities. *)
Definition valid_proposal (p : Proposal) : Prop := verify_proposal identity p = Some (Ok tt).

(** Every proposal in the store was checked and is filed under its digest. *)
Definition store_ok (c : Client) : Prop :=
  forall h data p, client_get_aux c (hash_as_ref h) = Ok (Some data) -> decode data = Ok p ->
    valid_proposal p /\ Proposal_digest p = h.

Record worker_ok (w : Worker) : Prop := {
  wo_authorities : cs_authorities (w_state w) = A;
  wo_keystore : cs_keystore (w_state w) = ks;
  wo_aggregator : aggregator_ok A (cs_aggregator (w_state w));
  wo_high_qc : qc_accepted A (cs_high_qc (w_state w));
  wo_network : gv_view (w_network w) = cs_view (w_state w);
  wo_store : store_ok (w_client w);
}.

(** A block a worker may finalize: that of a checked proposal which has a
    checked child in the next view, itself the parent of a checked proposal. *)
Definition finalizable (h : Hash) : Prop :=
  exists child parent grandpa,
    valid_proposal child /\ valid_proposal parent /\ valid_proposal grandpa /\
    Proposal_parent_hash child = Proposal_digest parent /\
    Proposal_parent_hash parent = Proposal_digest grandpa /\
    proposal_view parent = u64_add (proposal_view grandpa) 1 /\
    h = block_hash (proposal_payload grandpa) /\ h <> empty_payload_hash.

(** What holds of everything the worker sends or asks for. *)
Definition effect_ok (e : Effect) : Prop :=
  match e with
  | Gossip (MsgPropose p) _ =>
      valid_proposal p /\ local_authority_id identity = Some (proposal_author p)
  | Gossip (MsgVote v) _ => Vote_verify v A = Ok tt /\ local_authority_id identity = Some (vote_voter v)
  | Gossip (MsgTimeout t) _ =>
      Timeout_verify t A = Ok tt /\ local_authority_id identity = Some (timeout_voter t)
  | Gossip (MsgTC tc) _ => quorum_of A (tc_votes tc).*1.*1 /\ (tc_votes tc).*1.*1 ⊆ ids A
  | Gossip _ _ => False
  | SignVote v => Vote_verify v A = Ok tt /\ local_authority_id identity = Some (vote_voter v)
  | TimerReset => True
  | SyncForkRequest h _ => h <> empty_payload_hash
  | FinalizeCall h => finalizable h
  end.

(** The votes signed, gossiped or not. *)
Definition signed_votes (effects : list Effect) : list Vote :=
  omap (fun e => match e with SignVote v => Some v | _ => None end) effects.

(** [since w k w']: how a worker moves from [w] to [w'], with at most [k]
    advances of the view. *)
Record since (w : Worker) (k : nat) (w' : Worker) : Prop := {
  since_view : exists j, (j <= k)%nat /\
    cs_view (w_state w') = Nat.iter j (fun v => u64_add v 1) (cs_view (w_state w));
  since_last_voted : (cs_last_voted_view (w_state w) <= cs_last_voted_view (w_state w'))%N;
  since_high_qc : (qc_view (cs_high_qc (w_state w)) <= qc_view (cs_high_qc (w_state w')))%N;
  since_queue : w_queue w' = w_queue w;
  since_effects : exists new, w_effects w' = w_effects w ++ new /\ Forall effect_ok new /\
    StronglySorted (fun a b => vote_view a < vote_view b)%N (signed_votes new) /\
    Forall (fun v => cs_last_voted_view (w_state w) < vote_view v <= cs_last_voted_view (w_state w'))%N
      (signed_votes new);
}.

Definition reached (w : Worker) (k : nat) (w' : Worker) : Prop := since w k w' /\ worker_ok w'.

(** The ways to end early: with an error value; with a panic, which needs an
    empty authority list; out of fuel, which needs [F]. *)
Definition early_ok (F : Prop) (x : abort HotstuffError) : Prop :=
  match x with Fail _ => True | Panicked => A = [] | NoFuel => F end.

(** From a worker that satisfies the invariant, [m] ends, with a value or early,
    in a worker that satisfies it, having moved along [since]; a value comes
    with [P]. *)
Definition triple {X} (F : Prop) (k : nat) (m : W X) (P : X -> Worker -> Prop) (w : Worker) : Prop :=
  worker_ok w ->
  wp m (fun x w' => reached w k w' /\ P x w') (fun x w' => reached w k w' /\ early_ok F x) w.

End invariant.

(** ** Moving *)

Section moving.
Context `{MessageCodecs} `{!ClientForHotstuff}.
Context {A : AuthorityList} {ks : Keystore}.
#[local] Abbreviation since := (since A ks).
#[local] Abbreviation reached := (reached A ks).
#[local] Abbreviation triple := (triple A ks).

Lemma signed_votes_app l1 l2 : signed_votes (l1 ++ l2) = signed_votes l1 ++ signed_votes l2.
Proof. apply omap_app. Qed.

Lemma since_refl w k : since w k w.
Proof.
  constructor; try done; [exists 0%nat; split; [lia|done]|].
  exists []. rewrite app_nil_r. repeat split; constructor.
Qed.

Lemma since_weaken w k k' w' : since w k w' -> (k <= k')%nat -> since w k' w'.
Proof. intros [(j & ? & ?) ? ? ? ?] ?. constructor; try done. exists j. split; [lia|done]. Qed.

Lemma since_trans w k w1 j w2 : since w k w1 -> since w1 j w2 -> since w (k + j) w2.
Proof.
  intros [(j1 & Hj1 & Hv1) Hl1 Hq1 Hu1 (n1 & He1 & Hf1 & Hs1 & Hb1)]
         [(j2 & Hj2 & Hv2) Hl2 Hq2 Hu2 (n2 & He2 & Hf2 & Hs2 & Hb2)].
  constructor; try lia; try congruence.
  - exists (j2 + j1)%nat. split; [lia|]. rewrite Hv2, Hv1. unfold Nat.iter. by rewrite nat_rect_plus.
  - exists (n1 ++ n2). rewrite signed_votes_app, He2, He1, app_assoc.
    split_and!; [done|by apply Forall_app| |].
    + apply StronglySorted_app_intro; try done. rewrite Forall_forall in *.
      intros x y Hx Hy. specialize (Hb1 x Hx). specialize (Hb2 y Hy). lia.
    + apply Forall_app. split; (eapply Forall_impl; [eassumption|]); cbn; lia.
Qed.

(** A move that leaves the state alone up to its aggregator, and the effects. *)
Lemma since_frame w w' :
  cs_view (w_state w') = cs_view (w_state w) ->
  (cs_last_voted_view (w_state w) <= cs_last_voted_view (w_state w'))%N ->
  cs_high_qc (w_state w') = cs_high_qc (w_state w) ->
  w_queue w' = w_queue w -> w_effects w' = w_effects w -> since w 0 w'.
Proof.
  intros Hv Hl Hq Hu He. constructor; try done; [exists 0%nat; split; [lia|done]|by rewrite Hq|].
  exists []. rewrite app_nil_r. repeat split; try done; constructor.
Qed.

Lemma reached_refl w k : worker_ok A ks w -> reached w k w.
Proof. split; [apply since_refl|done]. Qed.

Lemma reached_trans w k w1 j w2 : reached w k w1 -> reached w1 j w2 -> reached w (k + j) w2.
Proof. intros [Hs _] [Hs' Ho]. split; [by eapply since_trans|done]. Qed.

Lemma reached_weaken w k k' w' : reached w k w' -> (k <= k')%nat -> reached w k' w'.
Proof. intros [Hs Ho] Hk. split; [by eapply since_weaken|done]. Qed.

#[local] Hint Resolve since_refl reached_refl : hotstuff.

Context {F : Prop}.

Lemma triple_weaken {X} k k' (m : W X) P Q w :
  triple F k m P w -> (k <= k')%nat -> (forall x w', P x w' -> Q x w') -> triple F k' m Q w.
Proof.
  intros Hm Hk HPQ Hok. eapply wp_mono; [by apply Hm|..]; cbn.
  - intros x w' [Hr HP]. split; [by eapply reached_weaken|by apply HPQ].
  - intros x w' [Hr HX]. split; [by eapply reached_weaken|done].
Qed.

Lemma triple_bind {X Y} k j (m : W X) (f : X -> W Y) P Q w :
  triple F k m P w -> (forall x w1, P x w1 -> reached w k w1 -> triple F j (f x) Q w1) ->
  triple F (k + j) (let! x := m in f x) Q w.
Proof.
  intros Hm Hf Hok. apply wp_bind. eapply wp_mono; [by apply Hm|..]; cbn.
  - intros x w1 [Hr HP]. eapply wp_mono; [apply (Hf x w1 HP Hr); by apply Hr|..]; cbn.
    + intros y w2 [Hr2 HQ]. split; [by eapply reached_trans|done].
    + intros y w2 [Hr2 HX]. split; [by eapply reached_trans|done].
  - intros x w1 [Hr HX]. split; [|done]. eapply reached_weaken; [done|lia].
Qed.

(** The rules for steps that do not change the worker. *)
Lemma triple_ret {X} (x : X) (P : X -> Worker -> Prop) k w : P x w -> triple F k (st_ret x) P w.
Proof. intros HP Hok. split; [by apply reached_refl|done]. Qed.

Lemma triple_throw {X} e (P : X -> Worker -> Prop) k w : triple F k (st_throw e) P w.
Proof. intros Hok. split; [by apply reached_refl|done]. Qed.

Lemma triple_bind_get {X Y} j (f : Worker -> X) (k : X -> W Y) Q w :
  triple F j (k (f w)) Q w -> triple F j (let! x := st_get f in k x) Q w.
Proof. done. Qed.

Lemma triple_bind_lift {X Y} j (r : result HotstuffError X) (k : X -> W Y) Q w :
  (forall x, r = Ok x -> triple F j (k x) Q w) -> triple F j (let! x := st_lift r in k x) Q w.
Proof.
  intros Hk Hok. destruct r as [x|e]; [by apply (Hk x)|]. split; [by apply reached_refl|done].
Qed.

Lemma triple_lift {X} (r : result HotstuffError X) (P : X -> Worker -> Prop) k w :
  (forall x, r = Ok x -> P x w) -> triple F k (st_lift r) P w.
Proof.
  intros HP. destruct r as [x|e]; [|apply triple_throw]. apply triple_ret. by apply HP.
Qed.

Lemma triple_bind_expect {X Y} j (o : option X) (k : X -> W Y) Q w :
  (worker_ok A ks w -> o = None -> A = []) ->
  (forall x, o = Some x -> triple F j (k x) Q w) -> triple F j (let! x := st_expect o in k x) Q w.
Proof.
  intros Hn Hk Hok. destruct o as [x|]; [by apply (Hk x)|].
  split; [by apply reached_refl|by apply Hn].
Qed.

(** The rules for steps that do. *)
Lemma triple_update {X} k (f : Worker -> X * Worker) (P : X -> Worker -> Prop) w :
  (worker_ok A ks w -> reached w k (f w).2 /\ P (f w).1 (f w).2) -> triple F k (st_update f) P w.
Proof. intros Hr Hok. apply wp_update. by apply Hr. Qed.

Lemma triple_modify k (f : Worker -> Worker) (P : unit -> Worker -> Prop) w :
  (worker_ok A ks w -> reached w k (f w) /\ P tt (f w)) -> triple F k (st_modify f) P w.
Proof. intros Hr Hok. apply wp_modify. by apply Hr. Qed.

(** With the invariant at hand. *)
Lemma triple_ok {X} k (m : W X) P w :
  (worker_ok A ks w -> triple F k m P w) -> triple F k m P w.
Proof. intros Hm Hok. by apply Hm. Qed.

End moving.

#[export] Hint Resolve since_refl since_frame reached_refl : hotstuff.

(** ** The handlers *)

Section handlers.
Context `{MessageCodecs} `{!ClientForHotstuff}.
Context `{!AuxStoreLaws} `{!CodecLaws Proposal} `{!KeystoreLaws}.
Context {A : AuthorityList} {ks : Keystore} (Hfit : authorities_fit A).
#[local] Abbreviation since := (since A ks).
#[local] Abbreviation reached := (reached A ks).
#[local] Abbreviation triple := (triple A ks).
#[local] Abbreviation worker_ok := (worker_ok A ks).
#[local] Abbreviation identity := (identity A ks).

(** The local authority leads view [v]. *)
Definition leads (v : ViewNumber) : Prop :=
  exists id, local_authority_id identity = Some id /\ view_leader identity v = Some id.

Lemma ok_leader w v : worker_ok w -> view_leader (w_state w) v = view_leader identity v.
Proof. intros Hok. apply view_leader_ext. cbn. by apply Hok. Qed.

Lemma ok_local w : worker_ok w -> local_authority_id (w_state w) = local_authority_id identity.
Proof. intros Hok. apply local_authority_id_ext; cbn; by apply Hok. Qed.

Lemma ok_verify_proposal w p : worker_ok w -> verify_proposal (w_state w) p = verify_proposal identity p.
Proof.
  intros Hok. unfold verify_proposal. rewrite (ok_leader w) by done. cbn.
  by rewrite (wo_authorities _ _ _ Hok).
Qed.

Lemma ok_leader_none w v : worker_ok w -> view_leader (w_state w) v = None -> A = [].
Proof.
  intros Hok Hn. rewrite <- (wo_authorities _ _ _ Hok). apply (view_leader_none _ v); [|done].
  by rewrite (wo_authorities _ _ _ Hok).
Qed.

Lemma is_local_leads w v id :
  worker_ok w -> view_leader (w_state w) v = Some id -> is_local (w_state w) id = true -> leads v.
Proof.
  unfold is_local. intros Hok. rewrite (ok_local w), (ok_leader w) by done. intros Hl Hi. exists id.
  destruct (local_authority_id identity); [|done]. by apply bool_decide_eq_true in Hi as ->.
Qed.

Lemma is_leader_leads w : worker_ok w -> is_leader (w_state w) = Some true -> leads (cs_view (w_state w)).
Proof.
  unfold is_leader. intros Hok Hl. destruct (view_leader _ _) as [id|] eqn:Hv; [|done].
  apply (is_local_leads w _ id Hok Hv). by injection Hl as Hl.
Qed.

Context {F : Prop}.

(** An effect that is not a vote. *)
Lemma emit_triple e P w :
  effect_ok A ks e -> signed_votes [e] = [] -> P tt (add_w_effect e w) -> triple F 0 (emit e) P w.
Proof.
  intros He Hg HP. apply triple_modify. intros Hok. split; [|done]. split.
  - constructor; try done; [by exists 0%nat|]. exists [e]. rewrite Hg. cbn.
    split_and!; [done|by constructor|constructor|constructor].
  - destruct Hok. by constructor.
Qed.

(** A move inside the parts that the invariant does not speak of. *)
Lemma frame_triple f P w :
  w_state (f w) = w_state w -> w_network (f w) = w_network w -> w_client (f w) = w_client w ->
  w_queue (f w) = w_queue w -> w_effects (f w) = w_effects w -> P tt (f w) ->
  triple F 0 (st_modify f) P w.
Proof.
  intros Hs Hn Hc Hq He HP. apply triple_modify. intros [? ? ? ? ? ?]. split; [|done]. split.
  - apply since_frame; by rewrite ?Hs.
  - constructor; rewrite ?Hs, ?Hn, ?Hc; done.
Qed.

(** The callers of [advance_view] pass a view that is not behind: one step
    forward, or none when the target is ahead. *)
Lemma advance_view_triple v w :
  (cs_view (w_state w) <= v)%N ->
  triple F (if (v =? cs_view (w_state w))%N then 1 else 0) (advance_view v)
    (fun _ w' => w_state w' = if (v =? cs_view (w_state w))%N
                              then set_cs_view (u64_add v 1) (w_state w) else w_state w) w.
Proof.
  intros Hle. apply triple_modify. intros Hok. unfold advance_view_from_target.
  destruct (N.eqb_spec v (cs_view (w_state w))) as [->|Hne].
  - rewrite N.leb_refl. split; [|done]. split.
    + constructor; try done; [by exists 1%nat|]. exists []. rewrite app_nil_r. repeat split; constructor.
    + destruct Hok. by constructor.
  - rewrite (proj2 (N.leb_gt _ _)) by lia. split; [|by destruct w]. split.
    + by apply since_frame.
    + destruct Hok. by constructor.
Qed.

Lemma update_high_qc_triple qc P w :
  qc_accepted A qc -> (forall w', P tt w') ->
  triple F 0 (st_modify (fun w => set_w_state (update_high_qc (w_state w) qc) w)) P w.
Proof.
  intros Hqc HP. apply triple_modify. intros Hok. split; [|done]. unfold update_high_qc.
  destruct (N.ltb_spec (qc_view (cs_high_qc (w_state w))) (qc_view qc)) as [Hlt|Hge].
  - split; [|by destruct Hok; constructor].
    constructor; cbn; try done; [by exists 0%nat|lia|]. exists []. rewrite app_nil_r. repeat split; constructor.
  - split; [by apply since_frame|by destruct Hok; constructor].
Qed.

Lemma handle_qc_triple qc w :
  qc_accepted A qc -> triple F 1 (handle_qc qc) (fun _ _ => True) w.
Proof.
  intros Hqc. unfold handle_qc. apply triple_bind_get.
  destruct (N.leb_spec (cs_view (w_state w)) (qc_view qc)) as [Hle|Hgt]; [|by apply triple_ret].
  eapply (triple_bind 1 0).
  { eapply triple_weaken; [by apply advance_view_triple|case_match; lia|done]. }
  intros [] w1 _ _. eapply (triple_bind 0 0); [by apply (update_high_qc_triple qc (fun _ _ => True))|].
  intros [] w2 _ _. by apply emit_triple.
Qed.

(** *** The parts of [handle_proposal] *)

Lemma check_payload_triple p w :
  triple F 0 (check_payload p) (fun _ w' => w_state w' = w_state w) w.
Proof.
  unfold check_payload. case_bool_decide as He; cbn [negb]; [by apply triple_ret|].
  apply triple_bind_get. destruct (client_status _ _) as [st|e]; [|apply triple_throw].
  destruct (decide (st = Unknown)); [|by apply triple_ret].
  eapply (triple_bind 0 0); [by apply (emit_triple _ (fun _ w' => w_state w' = w_state w))|].
  intros [] w1 Hs _. by apply triple_ret.
Qed.

Lemma check_proposal_triple p w :
  triple F 0 (check_proposal p) (fun _ w' => w' = w /\ valid_proposal A ks p) w.
Proof.
  apply triple_ok. intros Hok. unfold check_proposal. apply triple_bind_get, triple_bind_expect.
  - intros _. unfold verify_proposal. destruct (view_leader _ _) eqn:Hl; [done|].
    intros _. by eapply ok_leader_none.
  - intros r Hr. apply triple_lift. intros [] ->. split; [done|].
    unfold valid_proposal. by rewrite <- (ok_verify_proposal w).
Qed.

Lemma valid_proposal_qc p : valid_proposal A ks p -> qc_accepted A (proposal_qc p).
Proof.
  unfold valid_proposal, verify_proposal. destruct (view_leader _ _); [|done].
  destruct (negb _); [done|]. intros [= Hv]. apply Proposal_verify_ok in Hv as (_ & _ & Hq). exact Hq.
Qed.

Lemma handle_proposal_tc_triple p w :
  triple F 0 (handle_proposal_tc p) (fun _ w' => w_state w' = w_state w) w.
Proof.
  unfold handle_proposal_tc. destruct (proposal_tc p) as [tc|]; [|by apply triple_ret].
  apply triple_bind_get. destruct (N.ltb_spec (cs_view (w_state w)) (tc_view tc)); [|by apply triple_ret].
  pose proof (advance_view_triple (tc_view tc) w ltac:(lia)) as Ha.
  rewrite (proj2 (N.eqb_neq _ _)) in Ha by lia.
  eapply (triple_bind 0 0); [exact Ha|]. intros [] w1 Hs _. by apply emit_triple.
Qed.

(** The store after a save. *)
Lemma save_proposal_store c p r c' :
  save_proposal c p = (r, c') -> valid_proposal A ks p -> store_ok A ks c -> store_ok A ks c'.
Proof.
  unfold save_proposal, Store_set. destruct (client_insert_aux _ _ _) as [[[]|e] c1] eqn:Hi;
    cbn; intros [= <- <-] Hp Hs h data q Hget Hdec.
  - rewrite (insert_aux_get _ _ _ _ _ Hi) in Hget. case_decide as Hk; [|by eapply Hs].
    apply hash_as_ref_inj in Hk as <-. simplify_eq. rewrite decode_encode in Hdec. by simplify_eq.
  - rewrite (insert_aux_err _ _ _ _ _ _ Hi) in Hget. by eapply Hs.
Qed.

Lemma client_triple {X} (f : Client -> X * Client) (P : X -> Worker -> Prop) w :
  (store_ok A ks (w_client w) -> store_ok A ks (f (w_client w)).2) ->
  P (f (w_client w)).1 (set_w_client (f (w_client w)).2 w) ->
  triple F 0 (st_update (fun w => let '(r, c) := f (w_client w) in (r, set_w_client c w))) P w.
Proof.
  intros Hs HP. apply triple_update. intros [? ? ? ? ? Hst].
  destruct (f (w_client w)) as [r c]. cbn in *. split; [|done]. split; [by apply since_frame|].
  constructor; cbn; auto.
Qed.

Lemma save_triple p w :
  valid_proposal A ks p -> triple F 0 (save p) (fun _ w' => w_state w' = w_state w) w.
Proof.
  intros Hp. unfold save. eapply (triple_bind 0 0).
  - apply (client_triple (fun c => save_proposal c p) (fun _ w' => w_state w' = w_state w)); [|done].
    destruct (save_proposal _ _) eqn:Hs. by eapply save_proposal_store.
  - intros r w1 Hs _. by apply triple_lift.
Qed.

(** What the ancestors found in a checked store are. *)
Lemma ancestors_valid c p parent grandpa :
  store_ok A ks c -> get_proposal_ancestors c p = Ok (parent, grandpa) ->
  valid_proposal A ks parent /\ valid_proposal A ks grandpa /\
  Proposal_parent_hash p = Proposal_digest parent /\ Proposal_parent_hash parent = Proposal_digest grandpa.
Proof.
  assert (forall q r, store_ok A ks c -> get_proposal_parent c q = Ok r ->
    valid_proposal A ks r /\ Proposal_parent_hash q = Proposal_digest r) as Hone.
  { intros q r Hs ([data|] & Hg & Hr)%bind_ok; [|done].
    unfold Store_get in Hg. destruct (client_get_aux _ _) eqn:Hget; cbn in Hg; [|done]. simplify_eq.
    destruct (decode data) eqn:Hdec; cbn in Hr; [|done]. simplify_eq.
    by destruct (Hs _ _ _ Hget Hdec). }
  intros Hs (q & Hq & (r & Hr & [= -> ->])%bind_ok)%bind_ok.
  destruct (Hone _ _ Hs Hq), (Hone _ _ Hs Hr). done.
Qed.

Lemma finalize_store c h : store_ok A ks c -> store_ok A ks (client_finalize_block c h).2.
Proof. intros Hs h' data q. rewrite finalize_block_get. apply Hs. Qed.

Lemma try_finalize_triple p w :
  valid_proposal A ks p ->
  triple F 0 (st_update (try_finalize p)) (fun _ w' => w_state w' = w_state w) w.
Proof.
  intros Hp. apply triple_update. intros Hok. unfold try_finalize.
  destruct (get_proposal_ancestors _ _) as [[parent grandpa]|e] eqn:Ha;
    [|by split; auto with hotstuff].
  destruct (ancestors_valid _ _ _ _ (wo_store _ _ _ Hok) Ha) as (Hvp & Hvg & Hl1 & Hl2).
  destruct (N.eqb_spec (proposal_view parent) (u64_add (proposal_view grandpa) 1)) as [Hv|];
    [|by split; auto with hotstuff].
  case_bool_decide as He; cbn [negb andb]; [by split; auto with hotstuff|].
  destruct (bool_decide (_ = finalized_hash _)); cbn [negb]; [by split; auto with hotstuff|].
  pose proof (finalize_store _ (block_hash (proposal_payload grandpa)) (wo_store _ _ _ Hok)) as Hst.
  destruct (client_finalize_block _ _) as [r c] eqn:Hf. cbn in *. split; [|done]. split.
  - constructor; try done; [by exists 0%nat|].
    exists [FinalizeCall (block_hash (proposal_payload grandpa))]. cbn.
    split_and!; [done| |constructor|constructor]. constructor; [|constructor].
    exists p, parent, grandpa. done.
  - destruct Hok. by constructor.
Qed.

(** The move of a vote: made and kept, or made and gossiped. *)
Lemma vote_reached p w v s w' :
  worker_ok w -> make_vote (w_state w) p = (Some v, s) ->
  w_state w' = s -> w_network w' = w_network w -> w_client w' = w_client w -> w_queue w' = w_queue w ->
  w_effects w' = w_effects w ++ [SignVote v] -> reached w 0 w'.
Proof.
  intros Hok Hm Hs Hn Hc Hq He.
  pose proof (make_vote_verifies _ _ _ _ Hm) as Hver. rewrite (wo_authorities _ _ _ Hok) in Hver.
  apply make_vote_some in Hm as (id & raw & Hid & Hlt & _ & Hv & ->).
  rewrite (ok_local w) in Hid by done.
  assert (worker_ok w') as Hok' by (destruct Hok; constructor; rewrite ?Hs, ?Hn, ?Hc; done).
  split; [|done]. constructor; rewrite ?Hs; cbn; try done; [by exists 0%nat|lia|].
  exists [SignVote v]. rewrite He. split_and!; [done| |by repeat constructor|].
  - constructor; [|constructor]. cbn. split; [done|]. by rewrite Hid, Hv.
  - constructor; [|constructor]. rewrite Hv. cbn. lia.
Qed.

Lemma make_vote_none_reached p w s :
  worker_ok w -> make_vote (w_state w) p = (None, s) -> reached w 0 (set_w_state s w).
Proof.
  intros Hok Hm. pose proof (make_vote_state (w_state w) p) as [Hs Hl]. rewrite Hm in Hs, Hl. cbn in Hs, Hl.
  generalize dependent (cs_last_voted_view s). intros l -> Hl.
  split; [by apply since_frame|]. destruct Hok. by constructor.
Qed.

Lemma vote_on_triple j (hv : Vote -> W unit) p w :
  (forall v w1, vote_view v = proposal_view p -> leads (u64_add (cs_view (w_state w)) 1) ->
    cs_view (w_state w1) = cs_view (w_state w) -> triple F j (hv v) (fun _ _ => True) w1) ->
  triple F j (vote_on hv p) (fun _ _ => True) w.
Proof.
  intros Hhv Hok. unfold vote_on, on_state. apply wp_bind, wp_update.
  destruct (make_vote (w_state w) p) as [[v|] s] eqn:Hm; cbn [fst snd].
  2:{ apply wp_ret. split; [|done]. eapply reached_weaken; [by eapply make_vote_none_reached|lia]. }
  apply wp_bind, wp_modify, wp_bind, wp_modify, wp_bind, wp_modify.
  match goal with |- wp _ _ _ ?w' => set (w1 := w') end.
  assert (reached w 0 w1) as Hkeep by (by apply (vote_reached p w v s w1 Hok Hm)). assert (worker_ok w1) as Hok1 by apply Hkeep.
  apply make_vote_some in Hm as Hm'. destruct Hm' as (id & raw & _ & _ & _ & Hv & Hs).
  assert (cs_view (w_state w1) = cs_view (w_state w)) as Hview by (by cbn; rewrite Hs).
  apply wp_bind. apply wp_get. apply wp_bind. apply wp_expect.
  2:{ intros Hn%(ok_leader_none w1); [|done]. split; [|done]. eapply reached_weaken; [done|lia]. }
  intros leader Hl. apply wp_bind. apply wp_get. destruct (is_local (w_state w1) leader) eqn:Hloc.
  - eapply wp_mono; [apply (Hhv v w1); [by rewrite Hv| |done|done]|..].
    + rewrite <- Hview. by eapply is_local_leads.
    + cbn. intros x w2 [Hr _]. split; [by apply (reached_trans w 0 w1 j)|done].
    + cbn. intros x w2 [Hr HX]. split; [by apply (reached_trans w 0 w1 j)|done].
  - eapply wp_mono; [apply (emit_triple (Gossip (MsgVote v) false) (fun _ _ => True) w1)|..]; try done.
    + cbn. apply make_vote_verifies in Hm as Hver. rewrite (wo_authorities _ _ _ Hok) in Hver.
      split; [done|]. apply make_vote_some in Hm as (id' & raw' & Hid & _ & _ & -> & _).
      by rewrite (ok_local w) in Hid.
    + cbn. intros x w2 [Hr _]. split; [|done]. eapply reached_weaken; [by apply (reached_trans w 0 w1 0)|lia].
    + cbn. intros x w2 [Hr HX]. split; [|done]. eapply reached_weaken; [by apply (reached_trans w 0 w1 0)|lia].
Qed.

Lemma handle_proposal_body_triple j (hv : Vote -> W unit) p w :
  (forall v w1 w2, vote_view v = proposal_view p -> leads (u64_add (proposal_view p) 1) ->
    reached w 1 w1 -> cs_view (w_state w1) = proposal_view p ->
    cs_view (w_state w2) = proposal_view p -> triple F j (hv v) (fun _ _ => True) w2) ->
  triple F (1 + j) (handle_proposal_body hv p) (fun _ _ => True) w.
Proof.
  intros Hhv. unfold handle_proposal_body.
  eapply (triple_bind 0 (1 + j)); [apply check_payload_triple|]. intros known w1 _ R1.
  destruct known; cbn [negb]; [|by apply triple_ret].
  eapply (triple_bind 0 (1 + j)); [apply check_proposal_triple|]. intros [] w1' [-> Hp] _.
  eapply (triple_bind 1 j); [by apply handle_qc_triple, valid_proposal_qc|]. intros [] w2 _ R2.
  eapply (triple_bind 0 j); [apply handle_proposal_tc_triple|]. intros [] w3 _ R3.
  eapply (triple_bind 0 j); [by apply save_triple|]. intros [] w4 _ R4.
  eapply (triple_bind 0 j); [by apply try_finalize_triple|]. intros _ w5 _ R5.
  apply triple_bind_get.
  destruct (N.eqb_spec (proposal_view p) (cs_view (w_state w5))) as [Hv|]; cbn [negb]; [|by apply triple_ret].
  assert (reached w 1 w5) as R.
  { apply (reached_trans w 0 w1 1 w5 R1), (reached_trans w1 1 w2 0 w5 R2),
      (reached_trans w2 0 w3 0 w5 R3), (reached_trans w3 0 w4 0 w5 R4), R5. }
  apply vote_on_triple. intros v w6 Hvv Hl Hw6. apply (Hhv v w5 w6); try done; by rewrite Hv || rewrite Hw6.
Qed.

(** *** Proposing *)

(** What a leader proposes is valid. *)
Lemma leader_proposal w payload tc p :
  worker_ok w -> leads (cs_view (w_state w)) -> make_proposal (w_state w) payload tc = Ok p ->
  valid_proposal A ks p /\ local_authority_id identity = Some (proposal_author p) /\
  proposal_view p = cs_view (w_state w).
Proof.
  intros Hok (id & Hid & Hl) Hm. rewrite <- (ok_local w) in Hid by done.
  assert (qc_accepted (cs_authorities (w_state w)) (cs_high_qc (w_state w))) as Hq.
  { rewrite (wo_authorities _ _ _ Hok). apply Hok. }
  destruct (make_proposal_verifies (w_state w) id payload tc Hid Hq)
    as (p' & Hp' & Hv & _ & _ & _ & Hpv & Ha). rewrite Hp' in Hm. injection Hm as <-. subst id.
  split_and!; [|by rewrite <- (ok_local w), Hid by done|done].
  unfold valid_proposal. rewrite <- (ok_verify_proposal w) by done. unfold verify_proposal.
  rewrite (ok_leader w), Hpv, Hl, bool_decide_true by done. cbn. by rewrite Hv.
Qed.

Lemma propose_triple j (hp : Proposal -> W unit) payload tc w :
  leads (cs_view (w_state w)) ->
  (forall p w1, proposal_view p = cs_view (w_state w) -> cs_view (w_state w1) = cs_view (w_state w) ->
    triple F j (hp p) (fun _ _ => True) w1) ->
  triple F j (let! r := st_get (fun w => make_proposal (w_state w) payload tc) in
              let! proposal := st_lift r in
              gossip_message (MsgPropose proposal) false ;! hp proposal) (fun _ _ => True) w.
Proof.
  intros Hl Hhp. apply triple_ok. intros Hok. apply triple_bind_get, triple_bind_lift. intros p Hm.
  destruct (leader_proposal w payload tc p Hok Hl Hm) as (Hv & Hloc & Hpv).
  eapply (triple_bind 0 j).
  - apply (emit_triple _ (fun _ w' => w_state w' = w_state w)); by cbn.
  - intros [] w1 Hs _. apply Hhp; [done|by rewrite Hs].
Qed.

Lemma get_proposal_payload_state w :
  let w' := (get_proposal_payload w).2 in
  w' = set_w_processing_block (w_processing_block w') w.
Proof.
  unfold get_proposal_payload. destruct w as [s n c pb q hs es]. cbn.
  repeat (case_match; cbn; try done).
Qed.

Lemma get_proposal_payload_triple w :
  triple F 0 (st_update get_proposal_payload) (fun _ w' => w_state w' = w_state w) w.
Proof.
  apply triple_update. intros Hok. pose proof (get_proposal_payload_state w) as Hs. cbn in Hs.
  destruct (get_proposal_payload w) as [o w']. cbn in *.
  generalize dependent (w_processing_block w'). intros pb ->.
  split; [|done]. split; [by apply since_frame|]. destruct Hok. by constructor.
Qed.

Lemma propose_next_triple j (hp : Proposal -> W unit) payload w :
  leads (cs_view (w_state w)) ->
  (forall p w1, proposal_view p = cs_view (w_state w) -> cs_view (w_state w1) = cs_view (w_state w) ->
    triple F j (hp p) (fun _ _ => True) w1) ->
  triple F j (propose_next hp payload) (fun _ _ => True) w.
Proof.
  intros Hl Hhp. unfold propose_next. apply triple_bind_get.
  destruct (empty_run _ _ _); [by apply triple_ret|].
  eapply (triple_bind 0 j).
  { apply (frame_triple _ (fun _ w' => w_state w' = w_state w)); by destruct (_ <? _)%nat. }
  intros [] w1 Hs1 _. eapply (triple_bind 0 j).
  { by apply (frame_triple _ (fun _ w' => w_state w' = w_state w1)). }
  intros [] w2 Hs2 _. rewrite Hs1 in Hs2. rewrite <- Hs2 in Hl. apply propose_triple; [done|].
  intros p w3 Hp Hw3. rewrite Hs2 in Hp, Hw3. by apply Hhp.
Qed.

(** *** [handle_vote] *)

Lemma add_vote_triple v w :
  Vote_verify v A = Ok tt ->
  triple F 0 (on_state (fun s => add_vote s v))
    (fun r w' => cs_view (w_state w') = cs_view (w_state w) /\
       forall qc, r = Ok (Some qc) -> QC_verify qc A = Ok tt) w.
Proof.
  intros Hv. apply triple_update. intros Hok. unfold add_vote. rewrite (wo_authorities _ _ _ Hok).
  pose proof (add_vote_ok A _ v (wo_aggregator _ _ _ Hok) Hfit Hv) as Hagg.
  pose proof (fun qc => add_vote_qc A _ v qc (wo_aggregator _ _ _ Hok) Hfit Hv) as Hqc.
  destruct (Aggregator_add_vote _ _ _) as [r agg]. cbn in *. split; [|split; [done|]].
  - split; [by apply since_frame|]. destruct Hok. by constructor.
  - intros qc Hr. by apply Hqc.
Qed.

Lemma handle_vote_body_triple j (hp : Proposal -> W unit) v w :
  (forall p w1 w2, leads (proposal_view p) -> reached w 1 w1 -> proposal_view p = cs_view (w_state w1) ->
    cs_view (w_state w2) = cs_view (w_state w1) -> triple F j (hp p) (fun _ _ => True) w2) ->
  triple F (1 + j) (handle_vote_body hp v) (fun _ _ => True) w.
Proof.
  intros Hhp. apply triple_ok. intros Hok. unfold handle_vote_body. apply triple_bind_get, triple_bind_lift.
  intros [] Hv. unfold verify_vote in Hv. destruct (_ <? _)%N; [done|].
  rewrite (wo_authorities _ _ _ Hok) in Hv.
  eapply (triple_bind 0 (1 + j)); [by apply add_vote_triple|]. intros r w1 [Hw1 Hqc] R1.
  apply triple_bind_lift. intros [qc|] ->; [|by apply triple_ret].
  eapply (triple_bind 1 j); [apply handle_qc_triple; right; by apply Hqc|]. intros [] w2 _ R2.
  apply triple_bind_get, triple_bind_expect; [intros Hok2; by apply ok_leader_none|].
  intros leader Hl. apply triple_ok. intros Hok2. apply triple_bind_get.
  destruct (is_local (w_state w2) leader) eqn:Hloc; [|by apply triple_ret].
  apply (is_local_leads w2 _ leader Hok2 Hl) in Hloc.
  eapply (triple_bind 0 j); [apply get_proposal_payload_triple|]. intros [payload|] w3 Hs3 R3;
    [|by apply triple_ret].
  apply propose_next_triple; rewrite Hs3; [done|]. intros p w4 Hp Hw4.
  apply (Hhp p w2 w4); try done; [by rewrite Hp|]. by apply (reached_trans w 0 w1 1 w2).
Qed.

(** *** The remaining handlers, around [handle_proposal] *)

Definition proposal_handler (fuel j : nat) (w : Worker) : Prop :=
  forall p w1, leads (proposal_view p) -> proposal_view p = cs_view (w_state w) ->
    cs_view (w_state w1) = cs_view (w_state w) -> triple F j (handle_proposal fuel p) (fun _ _ => True) w1.

Lemma generate_proposal_triple fuel j tc w :
  leads (cs_view (w_state w)) -> proposal_handler fuel j w ->
  triple F j (generate_proposal fuel tc) (fun _ _ => True) w.
Proof.
  intros Hl Hhp. unfold generate_proposal.
  eapply (triple_bind 0 j); [apply get_proposal_payload_triple|].
  intros [payload|] w1 Hs _; [|by apply triple_ret].
  apply propose_triple; rewrite Hs; [done|]. intros p w2 Hp Hw2. apply Hhp; try done. by rewrite Hp.
Qed.

Lemma add_timeout_triple t w :
  Timeout_verify t A = Ok tt ->
  triple F 0 (on_state (fun s => add_timeout s t))
    (fun r w' => cs_view (w_state w') = cs_view (w_state w) /\
       forall tc, r = Ok (Some tc) ->
         tc_view tc = timeout_view t /\ quorum_of A (tc_votes tc).*1.*1 /\ (tc_votes tc).*1.*1 ⊆ ids A) w.
Proof.
  intros Hv. apply triple_update. intros Hok. unfold add_timeout. rewrite (wo_authorities _ _ _ Hok).
  pose proof (add_timeout_ok A _ t (wo_aggregator _ _ _ Hok) Hfit Hv) as Hagg.
  pose proof (fun tc => add_timeout_tc A _ t tc (wo_aggregator _ _ _ Hok) Hfit Hv) as Htc.
  destruct (Aggregator_add_timeout _ _ _) as [r agg]. cbn in *. split; [|split; [done|]].
  - split; [by apply since_frame|]. destruct Hok. by constructor.
  - intros tc Hr. by destruct (Htc tc Hr) as (? & ? & ? & _).
Qed.

Lemma handle_timeout_triple fuel j t w :
  (forall w1, reached w 2 w1 -> proposal_handler fuel j w1) ->
  triple F (2 + j) (handle_timeout fuel t) (fun _ _ => True) w.
Proof.
  intros Hhp. apply triple_ok. intros Hok. unfold handle_timeout. apply triple_bind_get.
  destruct (_ <? _)%N; [by apply triple_ret|].
  apply triple_bind_get, triple_bind_lift. intros [] Hv.
  unfold verify_timeout in Hv. rewrite (wo_authorities _ _ _ Hok) in Hv.
  eapply (triple_bind 1 (1 + j)).
  { apply handle_qc_triple. by apply Timeout_verify_ok in Hv as (_ & _ & ?). }
  intros [] w1 _ R1. eapply (triple_bind 0 (1 + j)); [by apply add_timeout_triple|].
  intros r w2 [_ Htc] R2. apply triple_bind_lift. intros [tc|] ->; [|by apply triple_ret].
  destruct (Htc tc eq_refl) as (_ & Hq & Hin).
  apply triple_bind_get. eapply (triple_bind 1 j).
  { destruct (N.leb_spec (cs_view (w_state w2)) (tc_view tc)); [|by apply (triple_ret tt (fun _ _ => True))].
    eapply (triple_bind 1 0).
    - eapply triple_weaken; [by apply advance_view_triple|case_match; lia|intros ? ? Hx; exact Hx].
    - intros [] w3 _ _. by apply (emit_triple _ (fun _ _ => True)). }
  intros [] w3 _ R3. eapply (triple_bind 0 j); [by apply (emit_triple _ (fun _ _ => True))|].
  intros [] w4 _ R4. apply triple_bind_get, triple_bind_expect.
  { intros Hok4. unfold is_leader. destruct (view_leader _ _) eqn:Hl; [done|]. intros _.
    by eapply ok_leader_none. }
  intros l Hl. apply triple_ok. intros Hok4. destruct l; [|by apply triple_ret].
  apply (is_leader_leads w4 Hok4) in Hl.
  eapply (triple_bind 0 j); [by apply (frame_triple _ (fun _ w' => w_state w' = w_state w4))|].
  intros [] w5 Hs5 R5. apply generate_proposal_triple; [by rewrite Hs5|]. apply Hhp.
  apply (reached_trans w 1 w1 1 w5 R1), (reached_trans w1 0 w2 1 w5 R2), (reached_trans w2 1 w3 0 w5 R3),
    (reached_trans w3 0 w4 0 w5 R4), R5.
Qed.

(** The second half of [handle_local_timer]. *)
Lemma send_timeout_triple fuel j w :
  (forall w1, reached w 2 w1 -> proposal_handler fuel j w1) ->
  triple F (2 + j) (let! r := st_get (fun w => make_timeout (w_state w)) in
                    let! timeout := st_lift r in
                    gossip_message (MsgTimeout timeout) true ;!
                    handle_timeout fuel timeout) (fun _ _ => True) w.
Proof.
  intros Hhp. apply triple_ok. intros Hok. apply triple_bind_get, triple_bind_lift.
  intros t Ht. eapply (triple_bind 0 (2 + j)).
  - apply (emit_triple _ (fun _ _ => True)); try done. cbn.
    destruct (local_authority_id (w_state w)) as [id|] eqn:Hid; [|by unfold make_timeout in Ht; rewrite Hid in Ht].
    assert (qc_accepted (cs_authorities (w_state w)) (cs_high_qc (w_state w))) as Hq.
    { rewrite (wo_authorities _ _ _ Hok). apply Hok. }
    destruct (make_timeout_verifies (w_state w) id Hid Hq) as (t' & Ht' & Hv & _ & _ & Hvoter).
    rewrite Ht' in Ht. injection Ht as <-. unfold verify_timeout in Hv.
    rewrite (wo_authorities _ _ _ Hok) in Hv. rewrite (ok_local w) in Hid by done.
    rewrite Hvoter. done.
  - intros [] w1 _ R1. apply handle_timeout_triple. intros w2 R2. apply Hhp. exact (reached_trans w 0 w1 2 w2 R1 R2).
Qed.

(** The worker after the first half. *)
Definition timer_fired (w : Worker) : Worker :=
  let w := add_w_effect TimerReset w in set_w_state (increase_last_voted_view (w_state w)) w.

Lemma timer_fired_reached w : worker_ok w -> reached w 0 (timer_fired w).
Proof.
  intros Hok. split; [|by destruct Hok; constructor].
  constructor; cbn; try done; [by exists 0%nat|lia|]. exists [TimerReset]. cbn.
  split_and!; [done|by repeat constructor|constructor|constructor].
Qed.

Lemma handle_local_timer_from fuel j w :
  worker_ok w -> (forall w1, reached w 2 w1 -> proposal_handler fuel j w1) ->
  wp (handle_local_timer fuel) (fun _ => reached (timer_fired w) (2 + j))
    (fun x w' => reached (timer_fired w) (2 + j) w' /\ early_ok A F x) w.
Proof.
  intros Hok Hhp. pose proof (timer_fired_reached w Hok) as R.
  eapply wp_mono; [apply (send_timeout_triple fuel j (timer_fired w)); [|apply R]|by intros ? ? [? _]|done].
  intros w1 R1. apply Hhp. exact (reached_trans w 0 _ 2 w1 R R1).
Qed.

Lemma handle_local_timer_triple fuel j w :
  (forall w1, reached w 2 w1 -> proposal_handler fuel j w1) ->
  triple F (2 + j) (handle_local_timer fuel) (fun _ _ => True) w.
Proof.
  intros Hhp Hok. pose proof (timer_fired_reached w Hok) as R.
  eapply wp_mono; [by apply (handle_local_timer_from fuel j)|..]; cbn.
  - intros x w' R'. split; [exact (reached_trans w 0 _ (2 + j) w' R R')|done].
  - intros x w' [R' HX]. split; [exact (reached_trans w 0 _ (2 + j) w' R R')|done].
Qed.

Lemma handle_tc_triple fuel j tc w :
  (forall w1, reached w 1 w1 -> proposal_handler fuel j w1) ->
  triple F (1 + j) (handle_tc fuel tc) (fun _ _ => True) w.
Proof.
  intros Hhp. unfold handle_tc. apply triple_bind_get, triple_bind_lift. intros [] Hv.
  unfold verify_tc in Hv. destruct (N.ltb_spec (tc_view tc) (cs_view (w_state w))); [done|].
  eapply (triple_bind 1 j).
  { eapply triple_weaken; [by apply advance_view_triple|case_match; lia|intros ? ? Hx; exact Hx]. }
  intros [] w1 _ R1. eapply (triple_bind 0 j); [by apply (emit_triple _ (fun _ _ => True))|].
  intros [] w2 _ R2. eapply (triple_bind 0 j); [by apply (frame_triple _ (fun _ _ => True))|].
  intros [] w3 _ R3. apply triple_bind_get, triple_bind_expect.
  { intros Hok3. unfold is_leader. destruct (view_leader _ _) eqn:Hl; [done|]. intros _.
    by eapply ok_leader_none. }
  intros l Hl. apply triple_ok. intros Hok3. destruct l; [|by apply triple_ret].
  apply generate_proposal_triple; [by apply is_leader_leads|]. apply Hhp.
  apply (reached_trans w 1 w1 0 w3 R1), (reached_trans w1 0 w2 0 w3 R2), R3.
Qed.

(** The loop body, around the recursive handlers. *)
Lemma handle_event_triple fuel j event w :
  (forall w1, reached w 2 w1 -> proposal_handler fuel j w1) ->
  (forall p, triple F (2 + j) (handle_proposal fuel p) (fun _ _ => True) w) ->
  (forall v, triple F (2 + j) (handle_vote fuel v) (fun _ _ => True) w) ->
  triple F (2 + j) (handle_event fuel event) (fun _ _ => True) w.
Proof.
  intros Hhp Hp Hv. destruct event as [|[p|v|t|tc|h id|]]; cbn.
  - by apply handle_local_timer_triple.
  - apply Hp.
  - apply Hv.
  - by apply handle_timeout_triple.
  - eapply triple_weaken; [apply (handle_tc_triple fuel j)| |done]; [|lia].
    intros w1 R1. apply Hhp. eapply reached_weaken; [done|lia].
  - by apply triple_ret.
  - by apply triple_ret.
Qed.

End handlers.

(** ** Fuel *)

Section fuel.
Context `{MessageCodecs} `{!ClientForHotstuff}.
Context `{!AuxStoreLaws} `{!CodecLaws Proposal} `{!KeystoreLaws}.
Context {A : AuthorityList} {ks : Keystore} (Hfit : authorities_fit A).
#[local] Abbreviation triple := (triple A ks).
#[local] Abbreviation reached := (reached A ks).

(** With any fuel, including too little, the handlers move along [since]. *)
Lemma handlers_any fuel :
  (forall p w, triple True fuel (handle_proposal fuel p) (fun _ _ => True) w) /\
  (forall v w, triple True fuel (handle_vote fuel v) (fun _ _ => True) w).
Proof.
  induction fuel as [|fuel [IHp IHv]]; cbn [handle_proposal handle_vote].
  - by split; intros ? w Hok; (split; [apply reached_refl|]).
  - split; intros x w.
    + apply (handle_proposal_body_triple Hfit fuel). intros. apply IHv.
    + apply (handle_vote_body_triple Hfit fuel). intros. apply IHp.
Qed.

(** How far the view is after a move, below the overflow. *)
Lemma reached_view w k w' :
  reached w k w' -> (cs_view (w_state w) + N.of_nat k < u64_modulus)%N ->
  (cs_view (w_state w) <= cs_view (w_state w') <= cs_view (w_state w) + N.of_nat k)%N.
Proof.
  intros [[(j & Hj & Hv) _ _ _ _] _] Hlt. rewrite Hv. clear Hv w'.
  assert (forall v, (v + N.of_nat j < u64_modulus)%N ->
    Nat.iter j (fun v => u64_add v 1) v = (v + N.of_nat j)%N) as Hiter.
  { clear Hj Hlt. induction j as [|j IH]; intros v Hb; cbn [Nat.iter nat_rect]; [lia|].
    unfold Nat.iter in IH. rewrite IH by lia. unfold u64_add, u64_modulus in *. lia. }
  rewrite Hiter by lia. lia.
Qed.

Context (Hnd : NoDup (ids A)) (Htwo : (2 <= length A)%nat).

Lemma leads_next v : (v + 1 < u64_modulus)%N -> leads (A := A) (ks := ks) v ->
  ~ leads (A := A) (ks := ks) (u64_add v 1).
Proof.
  intros Hv (id & Hid & Hl) (id' & Hid' & Hl'). simplify_eq.
  replace (u64_add v 1) with (v + 1)%N in Hl' by (unfold u64_add, u64_modulus in *; lia).
  exact (consecutive_leaders (identity A ks) v _ Hfit Hnd Htwo Hl Hl').
Qed.

(** A leader's own proposal goes out with a vote to somebody else. *)
Lemma leader_handle_proposal n p w :
  leads (A := A) (ks := ks) (proposal_view p) -> (proposal_view p + 1 < u64_modulus)%N ->
  triple False 1 (handle_proposal (S n) p) (fun _ _ => True) w.
Proof.
  intros Hl Hlt. apply (handle_proposal_body_triple Hfit 0). intros v w1 w2 _ Hl' _ _ _.
  by destruct (leads_next (proposal_view p)).
Qed.

Lemma enough_handle_vote n v w :
  (cs_view (w_state w) + 2 < u64_modulus)%N ->
  triple False 2 (handle_vote (S (S n)) v) (fun _ _ => True) w.
Proof.
  intros Hlt. apply (handle_vote_body_triple Hfit 1). intros p w1 w2 Hl R Hp _.
  apply leader_handle_proposal; [done|]. pose proof (reached_view w 1 w1 R ltac:(lia)). lia.
Qed.

Lemma enough_handle_proposal n p w :
  (cs_view (w_state w) + 3 < u64_modulus)%N ->
  triple False 3 (handle_proposal (S (S (S n))) p) (fun _ _ => True) w.
Proof.
  intros Hlt. apply (handle_proposal_body_triple Hfit 2). intros v w1 w2 _ _ R Hw1 Hw2.
  apply enough_handle_vote. pose proof (reached_view w 1 w1 R ltac:(lia)). lia.
Qed.

(** Serving an event needs no more than three nested calls, and advances the
    view at most three times. *)
Lemma enough_handle_event n event w :
  (cs_view (w_state w) + 3 < u64_modulus)%N ->
  triple False 3 (handle_event (S (S (S n))) event) (fun _ _ => True) w.
Proof.
  intros Hlt. apply (handle_event_triple Hfit _ 1).
  - intros w1 R p w2 Hl Hp _. apply leader_handle_proposal; [done|].
    pose proof (reached_view w 2 w1 R ltac:(lia)). lia.
  - intros p. by apply enough_handle_proposal.
  - intros v. eapply triple_weaken; [apply enough_handle_vote; lia|lia|done].
Qed.

End fuel.

(** ** More fuel changes nothing once there is enough *)

Section approx.
Context `{MessageCodecs} `{!ClientForHotstuff}.

(** [m'] does what [m] does, unless [m] runs out of fuel. *)
Definition approx {X} (m m' : W X) : Prop := forall w, m w = m' w \/ (m w).1 = Abort NoFuel.

#[global] Instance approx_refl {X} : Reflexive (@approx X).
Proof. intros m w. by left. Qed.

Lemma approx_bind {X Y} (m m' : W X) (k k' : X -> W Y) :
  approx m m' -> (forall x, approx (k x) (k' x)) -> approx (st_bind m k) (st_bind m' k').
Proof.
  intros Hm Hk w. unfold st_bind. destruct (Hm w) as [<-|Hn].
  - destruct (m w) as [[x|x] w1]; [apply Hk|by left].
  - right. destruct (m w) as [[x|x] w1]; cbn in *; [done|]. by injection Hn as ->.
Qed.

Lemma approx_handlers n :
  (forall p, approx (handle_proposal n p) (handle_proposal (S n) p)) /\
  (forall v, approx (handle_vote n v) (handle_vote (S n) v)).
Proof.
  induction n as [|n [IHp IHv]]; [by split; intros ? w; right|].
  split; intros x; cbn [handle_proposal handle_vote];
    unfold handle_proposal_body, handle_vote_body, vote_on, propose_next;
    repeat (first [reflexivity | apply IHp | apply IHv | apply approx_bind; [reflexivity|intros ?]
                  | case_match]).
Qed.

Lemma approx_generate n tc : approx (generate_proposal n tc) (generate_proposal (S n) tc).
Proof.
  unfold generate_proposal.
  repeat (first [reflexivity | apply approx_handlers | apply approx_bind; [reflexivity|intros ?] | case_match]).
Qed.

Lemma approx_event n event : approx (handle_event n event) (handle_event (S n) event).
Proof.
  destruct event as [|[p|v|t|tc|h id|]]; cbn [handle_event]; try reflexivity; try apply approx_handlers;
    unfold handle_local_timer, handle_timeout, handle_tc;
    repeat (first [reflexivity | apply approx_generate | apply approx_bind; [reflexivity|intros ?] | case_match]).
Qed.

Lemma approx_event_le n n' event w :
  (n <= n')%nat -> (handle_event n event w).1 <> Abort NoFuel -> handle_event n' event w = handle_event n event w.
Proof.
  induction 1 as [|n' Hle IH]; [done|]. intros Hne. rewrite <- IH by done.
  destruct (approx_event n' event w) as [Heq|Hn]; [done|]. by rewrite IH in Hn.
Qed.

End approx.
