(* ===== verification/Replica.v ===== *)
(** * Replica

    A worker over time: it serves events one after the other while the queue
    task and the client change what it shares with them. The theorems are about
    every such run. *)

From S2P Require Import Prelude Primitives Messages Concrete Quorum Aggregator Synchronizer State Network BlockImport Worker WorkerFacts.
#[local] Open Scope hs_scope.

(** The depth of nested handlers an event needs. *)
Definition event_fuel : nat := 3.

Section runs.
Context `{MessageCodecs} `{!ClientForHotstuff}.

(** A step of a replica: the loop of [run] serves an event, or the environment
    moves on: the queue task updates the shared queue, the client imports and
    finalizes blocks. Only the worker writes proposals to the store. With two or
    more distinct authorities every event is a step, below the overflow of the view
    ([event_always_served]); with a single one, which proposes, votes and certifies
    alone, an event can nest more handlers than [event_fuel] and is then none. *)
Inductive step : Worker -> Worker -> Prop :=
| step_event event w w' : run_event event_fuel w event = Some w' -> step w w'
| step_environment queue client w :
    (forall k, client_get_aux client k = client_get_aux (w_client w) k) ->
    step w (set_w_queue queue (set_w_client client w)).

(** The loop of [run] on a sequence of events; [None] when the task stops. *)
Fixpoint run_events (fuel : nat) (w : Worker) (events : list Event) : option Worker :=
  match events with
  | [] => Some w
  | event :: rest =>
      match run_event fuel w event with
      | Some w' => run_events fuel w' rest
      | None => None
      end
  end.

(** The effects a run adds. *)
Definition new_effects (w w' : Worker) : list Effect := drop (length (w_effects w)) (w_effects w').

End runs.

(** ** Facts of runs *)

Lemma run_events_steps `{MessageCodecs} `{!ClientForHotstuff} w events w' :
  run_events event_fuel w events = Some w' -> nsteps step (length events) w w'.
Proof.
  revert w. induction events as [|event rest IH]; intros w; cbn [run_events length].
  - intros [= <-]. constructor.
  - destruct (run_event event_fuel w event) as [w1|] eqn:Hr; [|done]. intros Hs.
    econstructor; [by eapply step_event|by apply IH].
Qed.

Section facts.
Context `{MessageCodecs} `{!ClientForHotstuff}.
Context `{!AuxStoreLaws} `{!CodecLaws Proposal} `{!KeystoreLaws}.
Context (A : AuthorityList) (ks : Keystore) (Hfit : authorities_fit A).
#[local] Abbreviation since := (since A ks).
#[local] Abbreviation worker_ok := (worker_ok A ks).

(** [since] up to the shared queue. *)
Definition moved (w : Worker) (k : nat) (w' : Worker) : Prop := since (set_w_queue (w_queue w') w) k w'.

Lemma since_set_queue w k w' q : since w k w' -> since (set_w_queue q w) k (set_w_queue q w').
Proof. intros [? ? ? ? ?]. by constructor. Qed.

Lemma moved_refl w k : moved w k w.
Proof. unfold moved. replace (set_w_queue (w_queue w) w) with w by (by destruct w). apply since_refl. Qed.

Lemma moved_trans w k w1 j w2 : moved w k w1 -> moved w1 j w2 -> moved w (k + j) w2.
Proof.
  unfold moved. intros Hs1 Hs2. apply (since_set_queue _ _ _ (w_queue w2)) in Hs1.
  eapply since_trans; [exact Hs1|exact Hs2].
Qed.

Lemma since_moved w k w' : since w k w' -> moved w k w'.
Proof.
  intros Hs. unfold moved. rewrite (since_queue _ _ _ _ _ Hs).
  replace (set_w_queue (w_queue w) w) with w by (by destruct w). done.
Qed.

(** Any event, with the fuel of the loop: at most five advances of the view. *)
Lemma handle_event_any event w :
  triple A ks True 5 (handle_event event_fuel event) (fun _ _ => True) w.
Proof.
  apply (handle_event_triple Hfit _ 3).
  - intros w1 _ p w2 _ _ _. apply (handlers_any Hfit 3).
  - intros p. eapply triple_weaken; [apply (handlers_any Hfit 3)|lia|done].
  - intros v. eapply triple_weaken; [apply (handlers_any Hfit 3)|lia|done].
Qed.

Lemma run_event_reached event w w' :
  worker_ok w -> run_event event_fuel w event = Some w' -> since w 5 w' /\ worker_ok w'.
Proof.
  intros Hok. pose proof (handle_event_any event w Hok) as Ht. unfold wp, run_event in *.
  destruct (handle_event _ _ _) as [[x|[e| |]] w1]; intros [= <-]; apply Ht.
Qed.

Lemma step_moved w w' : worker_ok w -> step w w' -> moved w 5 w' /\ worker_ok w'.
Proof.
  intros Hok Hs. destruct Hs as [event w w' Hr|queue client w Hc].
  - destruct (run_event_reached event w w' Hok Hr) as [Hs Ho]. split; [by apply since_moved|done].
  - split.
    + eapply since_weaken; [by apply since_frame|lia].
    + destruct Hok as [? ? ? ? ? Hst]. constructor; try done.
      intros h data p. cbn. rewrite Hc. apply Hst.
Qed.

Lemma nsteps_moved n w w' : worker_ok w -> nsteps step n w w' -> moved w (5 * n) w' /\ worker_ok w'.
Proof.
  intros Hok Hn. induction Hn as [w|n w w1 w2 Hs Hn IH]; [by split; [apply moved_refl|]|].
  destruct (step_moved w w1 Hok Hs) as [Hm1 Hok1]. destruct (IH Hok1) as [Hm2 Hok2]. split; [|done].
  replace (5 * S n)%nat with (5 + 5 * n)%nat by lia. by eapply moved_trans.
Qed.

Lemma moved_effects w k w' :
  moved w k w' ->
  w_effects w' = w_effects w ++ new_effects w w' /\ Forall (effect_ok A ks) (new_effects w w') /\
  StronglySorted (fun a b => vote_view a < vote_view b)%N (signed_votes (new_effects w w')) /\
  Forall (fun v => cs_last_voted_view (w_state w) < vote_view v <= cs_last_voted_view (w_state w'))%N
    (signed_votes (new_effects w w')).
Proof.
  intros [_ _ _ _ (new & He & Hrest)]. cbn in *. unfold new_effects. rewrite He, drop_app_length. done.
Qed.

(** The worker [start_hotstuff] makes. *)
Lemma worker_ok_new client queue :
  store_ok A ks client ->
  worker_ok (ConsensusWorker_new (ConsensusState_new ks A) client GossipValidator_new queue).
Proof.
  intros Hs. constructor; cbn; auto with hotstuff.
  left. unfold QC_eqb. by rewrite bool_decide_true, N.eqb_refl.
Qed.

(** The local timer leaves the worker with its view counted as voted. *)
Lemma timer_last_voted w w' :
  worker_ok w -> run_event event_fuel w LocalTimer = Some w' ->
  (cs_view (w_state w) <= cs_last_voted_view (w_state w'))%N.
Proof.
  intros Hok Hr.
  pose proof (handle_local_timer_from Hfit event_fuel 3 w (F := True) Hok) as Ht.
  unfold wp, run_event in *. cbn [handle_event] in Hr.
  destruct (handle_local_timer event_fuel w) as [x w1].
  assert (reached A ks (timer_fired w) 5 w1) as [Hs _].
  { destruct x as [x|x]; apply Ht; intros w2 _ p w3 _ _ _; apply (handlers_any Hfit 3). }
  destruct x as [x|[e| |]]; simplify_eq; pose proof (since_last_voted _ _ _ _ _ Hs); cbn in *; lia.
Qed.

End facts.

(** ** Properties *)

Section properties.
Context `{MessageCodecs} `{!ClientForHotstuff}.
Context `{!AuxStoreLaws} `{!CodecLaws Proposal} `{!KeystoreLaws}.

(** C6: The invariant of a replica holds from its start, when the proposals in
    the client's store are valid, and along every run, whatever messages it is
    sent: its collected votes and timeouts are of distinct authorities with
    valid signatures, its highest certificate passes the checks, the proposals
    in its store are valid and filed under their digest, and the gossip
    validator is at its view. *)
Theorem replica_invariant (A : AuthorityList) (ks : Keystore) (client : Client) (queue : SharedQueue)
    (n : nat) (w : Worker) :
  authorities_fit A -> store_ok A ks client ->
  nsteps step n (ConsensusWorker_new (ConsensusState_new ks A) client GossipValidator_new queue) w ->
  worker_ok A ks w.
Proof. intros Hfit Hs Hn. by apply (nsteps_moved A ks Hfit) in Hn as [_ ?]; [|apply worker_ok_new]. Qed.

(** C4: Along any run of a replica, the votes it signs, whether it gossips or
    collects them, are for strictly increasing views, above the last view it had
    voted in: it never votes twice in one view, whatever it is sent. *)
Theorem replica_votes_increase (A : AuthorityList) (ks : Keystore) (n : nat) (w w' : Worker) :
  authorities_fit A -> worker_ok A ks w -> nsteps step n w w' ->
  StronglySorted (fun a b => vote_view a < vote_view b)%N (signed_votes (new_effects w w')) /\
  Forall (fun v => cs_last_voted_view (w_state w) < vote_view v)%N (signed_votes (new_effects w w')).
Proof.
  intros Hfit Hok Hn. destruct (nsteps_moved A ks Hfit n w w' Hok Hn) as [Hm _].
  apply moved_effects in Hm as (_ & _ & Hs & Hf). split; [done|].
  eapply Forall_impl; [exact Hf|]. cbn. lia.
Qed.

(** C5: A replica asks its client to finalize a block only when it has three
    valid proposals in a chain of certificates, the block being that of the
    oldest one, with the first two in consecutive views; and never the empty
    payload. *)
Theorem replica_finalizes_certified (A : AuthorityList) (ks : Keystore) (n : nat) (w w' : Worker) (h : Hash) :
  authorities_fit A -> worker_ok A ks w -> nsteps step n w w' ->
  FinalizeCall h ∈ new_effects w w' ->
  h <> empty_payload_hash /\
  exists child parent grandpa,
    valid_proposal A ks child /\ valid_proposal A ks parent /\ valid_proposal A ks grandpa /\
    h = block_hash (proposal_payload grandpa) /\
    proposal_view parent = u64_add (proposal_view grandpa) 1 /\
    qc_accepted A (proposal_qc child) /\ qc_proposal_hash (proposal_qc child) = Proposal_digest parent /\
    qc_accepted A (proposal_qc parent) /\ qc_proposal_hash (proposal_qc parent) = Proposal_digest grandpa.
Proof.
  intros Hfit Hok Hn Hin. destruct (nsteps_moved A ks Hfit n w w' Hok Hn) as [Hm _].
  apply moved_effects in Hm as (_ & He & _). rewrite Forall_forall in He.
  destruct (He _ Hin) as (child & parent & grandpa & Hc & Hp & Hg & Hcp & Hpg & Hv & Hh & Hne).
  split; [done|]. exists child, parent, grandpa. split_and!; try done; by apply (valid_proposal_qc (ks := ks)).
Qed.

(** C9: What a replica gossips: its proposals are signed by it, the leader of
    their view, and pass the checks of its peers; so do its votes and timeouts;
    its timeout certificates hold more than two thirds of the authorities, each
    once (their signatures are another matter); and nothing else is sent. *)
Theorem replica_messages_valid (A : AuthorityList) (ks : Keystore) (n : nat) (w w' : Worker)
    (m : ConsensusMessage) (force : bool) :
  authorities_fit A -> worker_ok A ks w -> nsteps step n w w' ->
  Gossip m force ∈ new_effects w w' ->
  match m with
  | MsgPropose p => verify_proposal (identity A ks) p = Some (Ok tt) /\
                    local_authority_id (identity A ks) = Some (proposal_author p)
  | MsgVote v => Vote_verify v A = Ok tt /\ local_authority_id (identity A ks) = Some (vote_voter v)
  | MsgTimeout t => Timeout_verify t A = Ok tt /\ local_authority_id (identity A ks) = Some (timeout_voter t)
  | MsgTC tc => quorum_of A (tc_votes tc).*1.*1 /\ (tc_votes tc).*1.*1 ⊆ ids A
  | MsgSyncRequest _ _ => False
  | MsgPhantom => False
  end.
Proof.
  intros Hfit Hok Hn Hin. destruct (nsteps_moved A ks Hfit n w w' Hok Hn) as [Hm _].
  apply moved_effects in Hm as (_ & He & _). rewrite Forall_forall in He.
  specialize (He _ Hin). by destruct m.
Qed.

(** C26: Below the overflow of [u64], a replica's view, last voted view and
    highest certificate never go back, and [n] steps take the view at most [5n]
    further. *)
Theorem replica_view_monotone (A : AuthorityList) (ks : Keystore) (n : nat) (w w' : Worker) :
  authorities_fit A -> worker_ok A ks w -> nsteps step n w w' ->
  (cs_view (w_state w) + N.of_nat (5 * n) < u64_modulus)%N ->
  (cs_view (w_state w) <= cs_view (w_state w') <= cs_view (w_state w) + N.of_nat (5 * n))%N /\
  (cs_last_voted_view (w_state w) <= cs_last_voted_view (w_state w'))%N /\
  (qc_view (cs_high_qc (w_state w)) <= qc_view (cs_high_qc (w_state w')))%N.
Proof.
  intros Hfit Hok Hn Hlt. destruct (nsteps_moved A ks Hfit n w w' Hok Hn) as [Hm Hok'].
  split; [|by destruct Hm].
  apply (reached_view (set_w_queue (w_queue w') w) (5 * n) w' (A := A) (ks := ks)); [by split|done].
Qed.

(** Two or more distinct authorities serve every event with the fuel of the loop. *)
Lemma event_served (A : AuthorityList) (ks : Keystore) (w : Worker) (event : Event) (fuel : nat) :
  authorities_fit A -> NoDup (ids A) -> (2 <= length A)%nat -> worker_ok A ks w ->
  (cs_view (w_state w) + 3 < u64_modulus)%N -> (event_fuel <= fuel)%nat ->
  exists w', run_event fuel w event = Some w' /\ run_event event_fuel w event = Some w' /\ worker_ok A ks w'.
Proof.
  intros Hfit Hnd Htwo Hok Hlt Hfuel.
  pose proof (enough_handle_event Hfit Hnd Htwo 0 event w Hlt Hok) as Ht. unfold wp in Ht.
  assert (A <> []) as Hne by (by destruct A; cbn in Htwo; [lia|]).
  unfold run_event. rewrite (approx_event_le event_fuel fuel event w Hfuel).
  2:{ unfold event_fuel. destruct (handle_event 3 event w) as [[x|x] w1]; cbn; [done|].
      intros [= ->]. by destruct Ht as [_ []]. }
  unfold event_fuel. destruct (handle_event 3 event w) as [[x|[e| |]] w1].
  - exists w1. by destruct Ht as [[_ ?] _].
  - exists w1. by destruct Ht as [[_ ?] _].
  - by destruct Ht as [_ ?].
  - by destruct Ht as [_ []].
Qed.

(** C7: Serving an event always ends, and never by a panic: with two or more
    distinct authorities and the view below the overflow, three nested handlers
    are enough, any larger bound gives the same worker, and the loop goes on. *)
Theorem event_always_served (A : AuthorityList) (ks : Keystore) (w : Worker) (event : Event) (fuel : nat) :
  authorities_fit A -> NoDup (ids A) -> (2 <= length A)%nat -> worker_ok A ks w ->
  (cs_view (w_state w) + 3 < u64_modulus)%N -> (event_fuel <= fuel)%nat ->
  exists w', run_event fuel w event = Some w' /\ run_event event_fuel w event = Some w' /\ worker_ok A ks w'.
Proof. apply event_served. Qed.

(** C24: Once the local timer has fired in a view, the replica signs no vote for
    that view or an older one, in any run from there. *)
Theorem timer_stops_votes (A : AuthorityList) (ks : Keystore) (n : nat) (w w1 w2 : Worker) :
  authorities_fit A -> worker_ok A ks w -> run_event event_fuel w LocalTimer = Some w1 ->
  nsteps step n w1 w2 ->
  Forall (fun v => cs_view (w_state w) < vote_view v)%N (signed_votes (new_effects w1 w2)).
Proof.
  intros Hfit Hok Hr Hn. pose proof (timer_last_voted A ks Hfit w w1 Hok Hr) as Hl.
  destruct (run_event_reached A ks Hfit _ w w1 Hok Hr) as [_ Hok1].
  destruct (nsteps_moved A ks Hfit n w1 w2 Hok1 Hn) as [Hm _].
  apply moved_effects in Hm as (_ & _ & _ & Hf). eapply Forall_impl; [exact Hf|]. cbn. lia.
Qed.

End properties.

(** ** Witnesses: three proposals of consecutive views *)

Definition block1 : Hash := [Byte.x01].

Definition signed_proposal (qc : QC) (payload : Payload) (view : N) (id : N) : Proposal :=
  mkProposal qc None payload view id (Some (id, Proposal_digest (mkProposal qc None payload view id None))).

Definition proposal1 : Proposal := signed_proposal QC_default (mkPayload block1 1) 1 1.
Definition proposal2 : Proposal :=
  signed_proposal (certificate (Proposal_digest proposal1) 1 [0; 1; 2]%N) (mkPayload empty_payload_hash 1) 2 2.
Definition proposal3 : Proposal :=
  signed_proposal (certificate (Proposal_digest proposal2) 2 [0; 1; 3]%N) (mkPayload empty_payload_hash 1) 3 3.

(** The worker of authority [id], whose client knows the first block. *)
Definition worker (id : N) : Worker :=
  ConsensusWorker_new (replica id) (sample_client [(block1, 1%N)]) GossipValidator_new
    (mkSharedQueue false [mkBlockInfo (Some block1) 1]).

Definition chain_events : list Event :=
  [Message (MsgPropose proposal1); Message (MsgPropose proposal2); Message (MsgPropose proposal3)].

Definition worker_after (events : list Event) (w : Worker) : Worker :=
  default w (run_events event_fuel w events).

(** Whether a run gets through. *)
Definition gets_through (events : list Event) (w : Worker) : bool :=
  match run_events event_fuel w events with Some _ => true | None => false end.

Lemma worker_after_steps events w :
  gets_through events w = true -> nsteps step (length events) w (worker_after events w).
Proof.
  unfold gets_through, worker_after. destruct (run_events _ _ _) eqn:Hr; [|done]. intros _.
  by apply run_events_steps.
Qed.

Lemma worker_after_event event w :
  gets_through [event] w = true -> run_event event_fuel w event = Some (worker_after [event] w).
Proof.
  unfold gets_through, worker_after. cbn [run_events]. by destruct (run_event _ _ _).
Qed.

Lemma sample_store_ok A ks blocks : store_ok A ks (sample_client blocks).
Proof.
  intros h data p Hg. exfalso. change (@Ok string _ ((∅ : gmap bytes bytes) !! h) = Ok (Some data)) in Hg.
  rewrite lookup_empty in Hg. done.
Qed.

Lemma worker_is_ok id : worker_ok four [id] (worker id).
Proof. apply worker_ok_new, sample_store_ok. Qed.

Lemma replica_invariant_witness : worker_ok four [0%N] (worker_after chain_events (worker 0)).
Proof.
  apply (replica_invariant four [0%N] (sample_client [(block1, 1%N)])
    (mkSharedQueue false [mkBlockInfo (Some block1) 1]) 3); [vm_refl|apply sample_store_ok|].
  apply (worker_after_steps chain_events); vm_refl.
Defined.

Lemma replica_votes_increase_witness :
  let w' := worker_after chain_events (worker 0) in
  StronglySorted (fun a b => vote_view a < vote_view b)%N (signed_votes (new_effects (worker 0) w')) /\
  Forall (fun v => 0 < vote_view v)%N (signed_votes (new_effects (worker 0) w')).
Proof.
  apply (replica_votes_increase four [0%N] 3); [vm_refl|apply worker_is_ok|].
  apply (worker_after_steps chain_events); vm_refl.
Defined.

Lemma replica_finalizes_certified_witness :
  block1 <> empty_payload_hash /\
  exists child parent grandpa,
    valid_proposal four [0%N] child /\ valid_proposal four [0%N] parent /\ valid_proposal four [0%N] grandpa /\
    block1 = block_hash (proposal_payload grandpa) /\
    proposal_view parent = u64_add (proposal_view grandpa) 1 /\
    qc_accepted four (proposal_qc child) /\ qc_proposal_hash (proposal_qc child) = Proposal_digest parent /\
    qc_accepted four (proposal_qc parent) /\ qc_proposal_hash (proposal_qc parent) = Proposal_digest grandpa.
Proof.
  apply (replica_finalizes_certified four [0%N] 3 (worker 0) (worker_after chain_events (worker 0)));
    [vm_refl|apply worker_is_ok|apply (worker_after_steps chain_events); vm_refl|].
  apply (list_elem_of_lookup_2 _ 7). vm_refl.
Defined.

Lemma replica_messages_valid_witness :
  let v := signed_vote (Proposal_digest proposal1) 1 0 in
  Vote_verify v four = Ok tt /\ local_authority_id (identity four [0%N]) = Some (vote_voter v).
Proof.
  apply (replica_messages_valid four [0%N] 3 (worker 0) (worker_after chain_events (worker 0))
    (MsgVote (signed_vote (Proposal_digest proposal1) 1 0)) false);
    [vm_refl|apply worker_is_ok|apply (worker_after_steps chain_events); vm_refl|].
  apply (list_elem_of_lookup_2 _ 2). vm_refl.
Defined.

Lemma replica_view_monotone_witness :
  let w' := worker_after chain_events (worker 0) in
  (0 <= cs_view (w_state w') <= 0 + N.of_nat (5 * 3))%N /\ (0 <= cs_last_voted_view (w_state w'))%N /\
  (0 <= qc_view (cs_high_qc (w_state w')))%N.
Proof.
  apply (replica_view_monotone four [0%N] 3 (worker 0));
    [vm_refl|apply worker_is_ok|apply (worker_after_steps chain_events); vm_refl|vm_refl].
Defined.

Lemma event_always_served_witness :
  exists w', run_event 7 (worker 0) LocalTimer = Some w' /\
    run_event event_fuel (worker 0) LocalTimer = Some w' /\ worker_ok four [0%N] w'.
Proof.
  apply (event_always_served four [0%N] (worker 0) LocalTimer 7);
    [vm_refl|vm_decide|cbn; lia|apply worker_is_ok|vm_refl|unfold event_fuel; lia].
Defined.

Lemma timer_stops_votes_witness :
  let w1 := worker_after [LocalTimer] (worker 0) in
  Forall (fun v => 0 < vote_view v)%N (signed_votes (new_effects w1 (worker_after chain_events w1))).
Proof.
  apply (timer_stops_votes four [0%N] 3 (worker 0) (worker_after [LocalTimer] (worker 0)));
    [vm_refl|apply worker_is_ok|apply worker_after_event; vm_refl|apply (worker_after_steps chain_events); vm_refl].
Defined.
