(* ===== verification/Handlers.v ===== *)
(** * Handlers

    What the handlers of the worker do on each of their branches. *)

From S2P Require Import Prelude Primitives Messages Concrete Quorum Aggregator Synchronizer State Network BlockImport Worker WorkerFacts Replica.
#[local] Open Scope hs_scope.

Section handlers.
Context `{MessageCodecs} `{!ClientForHotstuff}.

(** [handle_qc] always returns; what it does to the state. *)
Definition after_qc (qc : QC) (s : ConsensusState) : ConsensusState :=
  if (qc_view qc <? cs_view s)%N then s
  else update_high_qc (if (qc_view qc =? cs_view s)%N then set_cs_view (u64_add (cs_view s) 1) s else s) qc.

Lemma handle_qc_run w qc :
  exists w', handle_qc qc w = (Val tt, w') /\ w_state w' = after_qc qc (w_state w) /\
    w_client w' = w_client w /\ w_queue w' = w_queue w /\
    w_processing_block w' = w_processing_block w /\ w_proposal_hash_queue w' = w_proposal_hash_queue w.
Proof.
  unfold handle_qc, st_bind, st_get, after_qc. cbn -[update_high_qc advance_view_from_target].
  destruct (N.leb_spec (cs_view (w_state w)) (qc_view qc)) as [Hle|Hgt].
  - eexists. split; [done|]. rewrite (proj2 (N.ltb_ge _ _)) by lia. split; [|done].
    cbn -[update_high_qc advance_view_from_target]. unfold advance_view_from_target.
    destruct (N.eqb_spec (qc_view qc) (cs_view (w_state w))) as [->|Hne]; [by rewrite N.leb_refl|].
    by rewrite (proj2 (N.leb_gt _ _)) by lia.
  - exists w. by rewrite (proj2 (N.ltb_lt _ _)) by lia.
Qed.

Lemma after_qc_frame qc s :
  cs_authorities (after_qc qc s) = cs_authorities s /\ cs_keystore (after_qc qc s) = cs_keystore s /\
  cs_last_voted_view (after_qc qc s) = cs_last_voted_view s /\ cs_aggregator (after_qc qc s) = cs_aggregator s /\
  cs_view (after_qc qc s) = if (qc_view qc =? cs_view s)%N then u64_add (cs_view s) 1 else cs_view s.
Proof.
  unfold after_qc, update_high_qc. destruct (N.ltb_spec (qc_view qc) (cs_view s)).
  - by rewrite (proj2 (N.eqb_neq _ _)) by lia.
  - destruct (_ =? _)%N; by destruct (_ <? _)%N.
Qed.

(** [handle_qc] on its three branches. A certificate of an older view
    changes nothing; one of the current view moves the replica, and its gossip
    filter, to the next view; one of a later view is kept as the highest
    certificate but leaves the replica in its view. *)
Theorem handle_qc_exact (w : Worker) (qc : QC) :
  exists w', handle_qc qc w = (Val tt, w') /\
  ((qc_view qc < cs_view (w_state w))%N -> w' = w) /\
  (qc_view qc = cs_view (w_state w) ->
     w_state w' = update_high_qc (set_cs_view (u64_add (cs_view (w_state w)) 1) (w_state w)) qc /\
     gv_view (w_network w') = u64_add (cs_view (w_state w)) 1) /\
  ((cs_view (w_state w) < qc_view qc)%N ->
     w_state w' = update_high_qc (w_state w) qc /\ gv_view (w_network w') = cs_view (w_state w)) /\
  ((cs_view (w_state w) <= qc_view qc)%N ->
     w_effects w' = w_effects w ++ [TimerReset] /\ w_client w' = w_client w /\ w_queue w' = w_queue w).
Proof.
  unfold handle_qc, st_bind, st_get. cbn -[update_high_qc advance_view_from_target].
  destruct (N.leb_spec (cs_view (w_state w)) (qc_view qc)) as [Hle|Hgt].
  - eexists. split; [done|]. cbn -[update_high_qc advance_view_from_target].
    unfold advance_view_from_target. split_and!; try done; [lia| |].
    + intros ->. rewrite N.leb_refl. done.
    + intros Hlt. rewrite (proj2 (N.leb_gt _ _)) by lia. done.
  - exists w. split; [done|]. split_and!; [done|lia..].
Qed.

(** [handle_tc] accepts a timeout certificate only of the current view or a
    later one. One of the current view moves the replica to the next view; one
    of a later view verifies and still leaves it where it is. *)
Theorem tc_ahead_keeps_view (w w' : Worker) (fuel : nat) (tc : TC) x :
  handle_tc fuel tc w = (x, w') -> is_leader (w_state w) = Some false ->
  (cs_view (w_state w) < tc_view tc)%N ->
  cs_view (w_state w') = cs_view (w_state w) /\
  (TC_verify tc (cs_authorities (w_state w)) = Ok tt -> x = Val tt).
Proof.
  unfold handle_tc, verify_tc, st_bind, st_get. intros Hh Hlead Hlt.
  rewrite (proj2 (N.ltb_ge _ _)) in Hh by lia.
  destruct (TC_verify _ _) as [[]|e]; cbn -[advance_view_from_target is_leader] in Hh; [|by simplify_eq].
  unfold advance_view_from_target in Hh. rewrite (proj2 (N.leb_gt _ _)) in Hh by lia.
  rewrite Hlead in Hh. by injection Hh as <- <-.
Qed.

(** ** Payloads *)

(** What a leader proposes: nothing when the lock is poisoned, or when no
    block is being processed and the queue is empty; the empty payload while the
    block being processed is not finalized or the queue has nothing newer; else
    the first queued block above the finalized one, which becomes the block
    being processed. *)
Theorem get_proposal_payload_exact (w : Worker) :
  let finalized := finalized_number (client_info (w_client w)) in
  let '(o, w') := get_proposal_payload w in
  match queue_lock (w_queue w), w_processing_block w with
  | None, _ => o = None /\ w' = w
  | Some queue, None =>
      match queue with
      | [] => o = None /\ w' = w
      | b :: _ => o = Some (mkPayload (default empty_payload_hash (info_hash b)) (info_number b)) /\
                  w' = set_w_processing_block (Some b) w
      end
  | Some queue, Some processing =>
      ((finalized < info_number processing)%N \/ Forall (fun b => info_number b <= finalized)%N queue ->
         o = Some (mkPayload empty_payload_hash (info_number processing)) /\ w' = w) /\
      (forall before b after, queue = before ++ b :: after ->
         (info_number processing <= finalized)%N -> Forall (fun b => info_number b <= finalized)%N before ->
         (finalized < info_number b)%N ->
         o = Some (mkPayload (default empty_payload_hash (info_hash b)) (info_number b)) /\
         w' = set_w_processing_block (Some b) w)
  end.
Proof.
  cbn zeta. unfold get_proposal_payload. destruct (queue_lock (w_queue w)) as [queue|]; [|done].
  destruct (w_processing_block w) as [processing|]; [|by destruct queue].
  destruct (N.ltb_spec (finalized_number (client_info (w_client w))) (info_number processing)) as [Hlt|Hge].
  { split; [done|]. intros. lia. }
  destruct (List.find _ queue) as [found|] eqn:Hf.
  - split.
    + intros [?|Hall]; [lia|]. apply List.find_some in Hf as [Hin%list_elem_of_In Hlt%N.ltb_lt].
      rewrite Forall_forall in Hall. specialize (Hall _ Hin). lia.
    + intros before b after -> _ Hb Hlt. assert (found = b) as ->; [|done].
      clear Hge. induction Hb as [|x before Hx Hb IH]; cbn in Hf.
      * rewrite (proj2 (N.ltb_lt _ _)) in Hf by lia. by injection Hf.
      * rewrite (proj2 (N.ltb_ge _ _)) in Hf by lia. by apply IH.
  - split; [done|]. intros before b after -> _ _ Hlt.
    assert (In b (before ++ b :: after)) as Hin by (apply in_elt).
    apply (List.find_none _ _ Hf) in Hin. apply N.ltb_ge in Hin. lia.
Qed.

(** The leader holds back an empty proposal exactly when the last two hashes
    it recorded are empty too. *)
Theorem empty_run_exact (payload_empty : bool) (hashes : list Hash) :
  empty_run payload_empty 0 (rev hashes) = true <->
  payload_empty = true /\ exists rest, hashes = rest ++ [empty_payload_hash; empty_payload_hash].
Proof.
  assert (forall n l, (2 <= n)%nat -> empty_run payload_empty n l = false) as Hlate.
  { intros n l. revert n. induction l as [|x l IH]; intros n Hn; cbn [empty_run]; [done|].
    destruct (negb _); [done|]. rewrite (proj2 (Nat.eqb_neq _ _)) by lia. cbn. apply IH. lia. }
  assert (empty_run payload_empty 0 (rev hashes) = true <->
    payload_empty = true /\ exists rest, rev hashes = [empty_payload_hash; empty_payload_hash] ++ rest) as ->.
  { destruct (rev hashes) as [|x [|y l]]; cbn [empty_run].
    - split; [done|]. by intros [_ [rest ?]].
    - case_bool_decide; cbn; (split; [done|]); by intros [_ [rest ?]].
    - repeat case_bool_decide; cbn [negb Nat.eqb andb]; subst; try (split; [done|]; intros [_ [rest ?]]; simplify_eq/=; done).
      destruct payload_empty; [split; [|done]; by eauto|].
      rewrite Hlate by lia. split; [done|]. by intros [? _]. }
  split; (intros [Hp [rest Hr]]; split; [done|]).
  - exists (rev rest). rewrite <- (rev_involutive hashes), Hr, rev_app_distr. done.
  - exists (rev rest). rewrite Hr, rev_app_distr. done.
Qed.

(** ** Refused messages *)

(** A message that does not pass its check leaves the replica as it was: the
    handler answers the error of the check (or nothing, for an old timeout) with
    no change of state and nothing sent; for a proposal, at most a request to
    sync its unknown block goes out. *)
Theorem refused_messages_ignored (w : Worker) (fuel : nat) (e : HotstuffError) :
  (forall v, verify_vote (w_state w) v = Err e -> handle_vote (S fuel) v w = (Abort (Fail e), w)) /\
  (forall t, (timeout_view t < cs_view (w_state w))%N -> handle_timeout fuel t w = (Val tt, w)) /\
  (forall t, (cs_view (w_state w) <= timeout_view t)%N -> verify_timeout (w_state w) t = Err e ->
     handle_timeout fuel t w = (Abort (Fail e), w)) /\
  (forall tc, verify_tc (w_state w) tc = Err e -> handle_tc fuel tc w = (Abort (Fail e), w)) /\
  (forall p, verify_proposal (w_state w) p = Some (Err e) ->
     let h := block_hash (proposal_payload p) in
     let w' := (handle_proposal (S fuel) p w).2 in
     w' = w \/ w' = add_w_effect (SyncForkRequest h (block_number (proposal_payload p))) w /\
               client_status (w_client w) h = Ok Unknown).
Proof.
  split_and!.
  - intros v Hv. cbn [handle_vote]. unfold handle_vote_body, st_bind, st_get. by rewrite Hv.
  - intros t Hlt. unfold handle_timeout, st_bind, st_get. by rewrite (proj2 (N.ltb_lt _ _)).
  - intros t Hle Hv. unfold handle_timeout, st_bind, st_get. rewrite (proj2 (N.ltb_ge _ _)) by done.
    by rewrite Hv.
  - intros tc Hv. unfold handle_tc, st_bind, st_get. by rewrite Hv.
  - intros p Hv h. cbn [handle_proposal].
    assert (check_proposal p w = (Abort (Fail e), w)) as Hc.
    { unfold check_proposal, st_bind, st_get. by rewrite Hv. }
    unfold handle_proposal_body, check_payload. fold h. unfold st_bind, st_get.
    destruct (negb _); cbn -[check_proposal]; [|rewrite Hc; by left].
    destruct (client_status (w_client w) h) as [st|err] eqn:Hst; [|by left].
    destruct (decide (st = Unknown)) as [->|]; cbn -[check_proposal]; [by right|]. rewrite Hc. by left.
Qed.

End handlers.

(** ** The normal path *)

Section normal.
Context `{MessageCodecs} `{!ClientForHotstuff}.
Context `{!AuxStoreLaws} `{!CodecLaws Proposal} `{!KeystoreLaws}.

(** The client knows the block of the payload, or there is none. *)
Definition payload_known (w : Worker) (p : Proposal) : Prop :=
  block_hash (proposal_payload p) = empty_payload_hash \/
  client_status (w_client w) (block_hash (proposal_payload p)) = Ok InChain.

Lemma check_payload_run w p : payload_known w p -> check_payload p w = (Val true, w).
Proof.
  unfold check_payload, payload_known. case_bool_decide as He; [done|]. intros [?|Hst]; [done|].
  cbn [negb]. unfold st_bind, st_get. by rewrite Hst.
Qed.

Lemma check_proposal_run w p :
  verify_proposal (w_state w) p = Some (Ok tt) -> check_proposal p w = (Val tt, w).
Proof. unfold check_proposal, st_bind, st_get. by intros ->. Qed.

Lemma handle_proposal_tc_run w p :
  exists w', handle_proposal_tc p w = (Val tt, w') /\ w_state w' = w_state w /\ w_client w' = w_client w.
Proof.
  unfold handle_proposal_tc, st_bind, st_get. destruct (proposal_tc p) as [tc|]; [|by exists w].
  destruct (N.ltb_spec (cs_view (w_state w)) (tc_view tc)); [|by exists w].
  eexists. split; [done|]. cbn -[advance_view_from_target]. unfold advance_view_from_target.
  by rewrite (proj2 (N.leb_gt _ _)) by lia.
Qed.

Lemma save_run w p c :
  save_proposal (w_client w) p = (Ok tt, c) -> save p w = (Val tt, set_w_client c w).
Proof. unfold save, st_bind, st_update. by intros ->. Qed.

Lemma try_finalize_frame w p :
  w_state (try_finalize p w).2 = w_state w /\
  forall k, client_get_aux (w_client (try_finalize p w).2) k = client_get_aux (w_client w) k.
Proof.
  unfold try_finalize. destruct (get_proposal_ancestors _ _) as [[parent grandpa]|e]; [|done].
  destruct (_ =? _)%N; [|done]. destruct (_ && _); [|done].
  pose proof (finalize_block_get (w_client w) (block_hash (proposal_payload grandpa))) as Hg.
  by destruct (client_finalize_block _ _) as [r c].
Qed.

(** The part of [handle_proposal] before the vote, on a proposal that passes. *)
Lemma handle_proposal_prefix hv w p c :
  payload_known w p -> verify_proposal (w_state w) p = Some (Ok tt) ->
  save_proposal (w_client w) p = (Ok tt, c) ->
  exists w1, w_state w1 = after_qc (proposal_qc p) (w_state w) /\
    stored (w_client w1) (Proposal_digest p) p /\
    handle_proposal_body hv p w =
      (if negb (proposal_view p =? cs_view (w_state w1))%N then st_ret tt else vote_on hv p) w1.
Proof.
  intros Hk Hv Hs. unfold handle_proposal_body, st_bind at 1. rewrite check_payload_run by done. cbn [negb].
  unfold st_bind at 1. rewrite check_proposal_run by done.
  destruct (handle_qc_run w (proposal_qc p)) as (w1 & Hq & Hs1 & Hc1 & _). unfold st_bind at 1. rewrite Hq.
  destruct (handle_proposal_tc_run w1 p) as (w2 & Ht & Hs2 & Hc2). unfold st_bind at 1. rewrite Ht.
  unfold st_bind at 1. rewrite (save_run w2 p c) by (by rewrite Hc2, Hc1).
  pose proof (try_finalize_frame (set_w_client c w2) p) as [Hs3 Hg3].
  unfold st_bind at 1, st_update. destruct (try_finalize p (set_w_client c w2)) as [r w3]. cbn [snd] in *.
  exists w3. split_and!.
  - rewrite Hs3. cbn. by rewrite Hs2, Hs1.
  - unfold stored. rewrite Hg3. cbn. by eapply save_proposal_stored.
  - done.
Qed.

(** The vote of a replica that may vote. *)
Lemma make_vote_run s p id :
  local_authority_id s = Some id -> (cs_last_voted_view s < proposal_view p)%N ->
  exists v, make_vote s p = (Some v, set_cs_last_voted_view (proposal_view p) s) /\
    vote_proposal_hash v = Proposal_digest p /\ vote_view v = proposal_view p /\ vote_voter v = id /\
    Vote_verify v (cs_authorities s) = Ok tt.
Proof.
  intros Hid Hlt.
  destruct (local_sign s id (Vote_digest (Vote_new (Proposal_digest p) (proposal_view p) id)) Hid)
    as (raw & sig & Hs & Hsig & Hv).
  destruct (make_vote s p) as [[v|] s'] eqn:Hm.
  - pose proof (make_vote_verifies _ _ _ _ Hm). apply make_vote_some in Hm as (id' & raw' & ? & _ & _ & -> & ->).
    simplify_eq. by eexists.
  - exfalso. unfold make_vote in Hm. rewrite Hid, (proj2 (N.leb_gt _ _)) in Hm by lia. cbn in Hm.
    by rewrite Hs in Hm.
Qed.

(** C25: A replica that has not voted in the view votes for every proposal that
    passes its checks: when the certificate of the proposal brings it to the
    proposal's view, its block is known and the next leader is another
    authority, the handler succeeds, files the proposal under its digest,
    gossips a vote that verifies, for that proposal and view, and remembers the
    view as voted. *)
Theorem handle_proposal_votes (w : Worker) (p : Proposal) (c : Client) (id next : AuthorityId) (fuel : nat) :
  payload_known w p -> verify_proposal (w_state w) p = Some (Ok tt) ->
  save_proposal (w_client w) p = (Ok tt, c) ->
  proposal_view p = cs_view (after_qc (proposal_qc p) (w_state w)) ->
  (cs_last_voted_view (w_state w) < proposal_view p)%N ->
  local_authority_id (w_state w) = Some id ->
  view_leader (w_state w) (u64_add (proposal_view p) 1) = Some next -> id <> next ->
  exists w' v, handle_proposal (S fuel) p w = (Val tt, w') /\
    last (w_effects w') = Some (Gossip (MsgVote v) false) /\
    vote_proposal_hash v = Proposal_digest p /\ vote_view v = proposal_view p /\ vote_voter v = id /\
    Vote_verify v (cs_authorities (w_state w)) = Ok tt /\
    stored (w_client w') (Proposal_digest p) p /\
    cs_last_voted_view (w_state w') = proposal_view p /\ cs_view (w_state w') = proposal_view p.
Proof.
  intros Hk Hv Hs Hpv Hlt Hid Hnext Hne.
  destruct (handle_proposal_prefix (handle_vote fuel) w p c Hk Hv Hs) as (w1 & Hs1 & Hst & Hrun).
  destruct (after_qc_frame (proposal_qc p) (w_state w)) as (Ha & Hks & Hl & _ & _).
  rewrite <- Hs1 in Ha, Hks, Hl, Hpv. change (handle_proposal (S fuel) p w) with (handle_proposal_body (handle_vote fuel) p w).
  rewrite Hrun, Hpv, N.eqb_refl. cbn [negb].
  destruct (make_vote_run (w_state w1) p id) as (v & Hm & Hvh & Hvv & Hvi & Hver).
  { by rewrite (local_authority_id_ext _ (w_state w)). }
  { by rewrite Hl. }
  unfold vote_on, on_state, st_bind, st_update, st_modify, st_get. rewrite Hm. cbn -[view_leader is_local].
  rewrite (view_leader_ext _ (w_state w)) by done. rewrite <- Hpv, Hnext. cbn -[is_local].
  assert (forall s, cs_authorities s = cs_authorities (w_state w) -> cs_keystore s = cs_keystore (w_state w) ->
    is_local s next = false) as Hloc.
  { intros s Has Hkss. unfold is_local. rewrite (local_authority_id_ext s (w_state w)) by done.
    rewrite Hid. by apply bool_decide_eq_false. }
  rewrite Hloc by done. eexists _, v. split; [done|]. cbn. rewrite last_snoc, <- Ha.
  split_and!; try done.
Qed.

(** Effects are only added, whatever happens. *)
Definition effects_grow (w w' : Worker) : Prop := w_effects w `prefix_of` w_effects w'.

#[global] Instance effects_grow_refl : Reflexive effects_grow.
Proof. intros w. unfold effects_grow. reflexivity. Qed.
#[global] Instance effects_grow_trans : Transitive effects_grow.
Proof. intros w1 w2 w3. unfold effects_grow. apply transitivity. Qed.

Lemma guar_same {X} (m : W X) : (forall w, w_effects (m w).2 = w_effects w) -> guar effects_grow m.
Proof. intros Hm w. unfold effects_grow. by rewrite Hm. Qed.

Lemma guar_emit e : guar effects_grow (emit e).
Proof. intros w. by exists [e]. Qed.

Lemma guar_lift {X} (r : result HotstuffError X) : guar effects_grow (st_lift r).
Proof. apply guar_same. by destruct r. Qed.

Lemma guar_expect {X} (o : option X) : guar effects_grow (st_expect o : W X).
Proof. apply guar_same. by destruct o. Qed.

Lemma guar_try_finalize p : guar effects_grow (st_update (try_finalize p) : W _).
Proof.
  intros w. unfold effects_grow, st_update, try_finalize.
  destruct (get_proposal_ancestors _ _) as [[parent grandpa]|e]; [|done].
  destruct (_ =? _)%N; [|done]. destruct (_ && _); [|done].
  destruct (client_finalize_block _ _) as [r c]. by eexists.
Qed.

Lemma guar_save p : guar effects_grow (save p).
Proof.
  apply guar_same. intros w. unfold save, st_bind, st_update.
  destruct (save_proposal _ _) as [[]]; done.
Qed.

Lemma guar_on_state {X} (f : ConsensusState -> X * ConsensusState) : guar effects_grow (on_state f).
Proof. apply guar_same. intros w. unfold on_state, st_update. by destruct (f (w_state w)). Qed.

Lemma guar_payload : guar effects_grow (st_update get_proposal_payload : W _).
Proof.
  apply guar_same. intros w. unfold st_update. pose proof (get_proposal_payload_state w) as Hs. cbn in Hs.
  destruct (get_proposal_payload w) as [o w']. cbn in *. by rewrite Hs.
Qed.

Ltac guar_step :=
  first [ apply guar_emit | apply guar_lift | apply guar_expect | apply guar_try_finalize | apply guar_save
        | apply guar_on_state | apply guar_payload
        | apply guar_same; by intros [] | apply guar_same; intros w; cbn; by case_match
        | apply guar_bind; [apply _| |intros ?] | apply guar_bind; [|intros ?] ].

Lemma guar_handle_qc qc : guar effects_grow (handle_qc qc).
Proof. unfold handle_qc. repeat first [guar_step | case_match]. Qed.

Lemma guar_handlers fuel :
  (forall p, guar effects_grow (handle_proposal fuel p)) /\ (forall v, guar effects_grow (handle_vote fuel v)).
Proof.
  induction fuel as [|fuel [IHp IHv]]; [by split; intros ? w|].
  split; intros x.
  - change (guar effects_grow (handle_proposal_body (handle_vote fuel) x)).
    unfold handle_proposal_body, check_payload, check_proposal, handle_qc, handle_proposal_tc, vote_on.
    repeat first [apply IHv | guar_step | case_match].
  - change (guar effects_grow (handle_vote_body (handle_proposal fuel) x)).
    unfold handle_vote_body, handle_qc, propose_next. repeat first [apply IHp | guar_step | case_match].
Qed.

Lemma guar_handle_event fuel event : guar effects_grow (handle_event fuel event).
Proof.
  destruct (guar_handlers fuel) as [Hp Hv].
  assert (forall tc, guar effects_grow (generate_proposal fuel tc)) as Hg
    by (intros tc; unfold generate_proposal; repeat first [apply Hp | guar_step | case_match]).
  assert (forall t, guar effects_grow (handle_timeout fuel t)) as Ht
    by (intros t; unfold handle_timeout; repeat first [apply Hg | guar_step | case_match]).
  destruct event as [|[p|v|t|tc|h id|]]; cbn [handle_event]; [|apply Hp|apply Hv|apply Ht| |guar_step|guar_step].
  - unfold handle_local_timer. repeat first [apply Ht | guar_step].
  - unfold handle_tc. repeat first [apply Hg | guar_step | case_match].
Qed.

Lemma run_event_grow fuel w event w' : run_event fuel w event = Some w' -> effects_grow w w'.
Proof.
  unfold run_event. pose proof (guar_handle_event fuel event w) as Hg.
  destruct (handle_event fuel event w) as [[x|[e| |]] w1]; try done; by intros [= <-].
Qed.

Lemma get_proposal_payload_ext w w' :
  w_queue w' = w_queue w -> w_client w' = w_client w -> w_processing_block w' = w_processing_block w ->
  (get_proposal_payload w').1 = (get_proposal_payload w).1.
Proof.
  unfold get_proposal_payload. intros -> -> ->. repeat (case_match; cbn; try done); by simplify_eq.
Qed.

(** The leader's part of [handle_vote]. *)
Lemma propose_next_gossips hp payload w id :
  (forall p, guar effects_grow (hp p)) ->
  local_authority_id (w_state w) = Some id -> qc_accepted (cs_authorities (w_state w)) (cs_high_qc (w_state w)) ->
  empty_run (bool_decide (block_hash payload = empty_payload_hash)) 0 (rev (w_proposal_hash_queue w)) = false ->
  exists p, Gossip (MsgPropose p) false ∈ w_effects (propose_next hp payload w).2 /\
    proposal_qc p = cs_high_qc (w_state w) /\ proposal_view p = cs_view (w_state w) /\
    proposal_payload p = payload /\ proposal_author p = id /\
    Proposal_verify p (cs_authorities (w_state w)) = Ok tt.
Proof.
  intros Hhp Hid Hqc Hrun.
  destruct (make_proposal_verifies (w_state w) id payload None Hid Hqc)
    as (p & Hp & Hv & Hq & _ & Hpl & Hpv & Ha).
  exists p. split; [|done]. unfold propose_next, st_bind at 1, st_get at 1. rewrite Hrun.
  unfold st_bind at 1, st_modify at 1. unfold st_bind at 1, st_modify at 1.
  set (w1 := set_w_proposal_hash_queue _ _). assert (w_state w1 = w_state w) as Hs1.
  { subst w1. by destruct (_ <? _)%nat. }
  unfold st_bind at 1, st_get at 1. rewrite Hs1, Hp. unfold st_bind at 1, st_lift, st_ret, st_bind at 1.
  unfold gossip_message, emit, st_modify. destruct (Hhp p (add_w_effect (Gossip (MsgPropose p) false) w1)) as [l Hl].
  rewrite Hl. apply elem_of_app. left. cbn. apply elem_of_app. right. by left.
Qed.

(** The vote that completes a certificate for the current view makes the
    leader of the next view propose: it moves to that view and gossips a
    proposal for it, with the payload at hand, which carries the new certificate
    as its highest one and verifies, unless the run of empty payloads holds it
    back. *)
Theorem handle_vote_proposes (w : Worker) (v : Vote) (qc : QC) (s : ConsensusState) (w1 : Worker)
    (payload : Payload) (id : AuthorityId) (fuel : nat) :
  verify_vote (w_state w) v = Ok tt -> add_vote (w_state w) v = (Ok (Some qc), s) ->
  QC_verify qc (cs_authorities (w_state w)) = Ok tt ->
  qc_view qc = cs_view (w_state w) -> (qc_view (cs_high_qc (w_state w)) < qc_view qc)%N ->
  local_authority_id (w_state w) = Some id ->
  view_leader (w_state w) (u64_add (cs_view (w_state w)) 1) = Some id ->
  get_proposal_payload w = (Some payload, w1) ->
  empty_run (bool_decide (block_hash payload = empty_payload_hash)) 0 (rev (w_proposal_hash_queue w)) = false ->
  exists p, Gossip (MsgPropose p) false ∈ w_effects (handle_vote (S fuel) v w).2 /\
    proposal_qc p = qc /\ proposal_view p = u64_add (cs_view (w_state w)) 1 /\
    proposal_payload p = payload /\ proposal_author p = id /\
    Proposal_verify p (cs_authorities (w_state w)) = Ok tt.
Proof.
  intros Hv Hadd Hqcv Hview Hhigh Hid Hlead Hpay Hrun.
  change (handle_vote (S fuel) v w) with (handle_vote_body (handle_proposal fuel) v w).
  unfold handle_vote_body, on_state. unfold st_bind at 1, st_get at 1. rewrite Hv. unfold st_bind at 1. cbn [st_lift st_ret].
  unfold st_bind at 1, st_update at 1. rewrite Hadd. unfold st_bind at 1. cbn [st_lift st_ret].
  assert (exists agg, s = set_cs_aggregator agg (w_state w)) as [agg ->].
  { unfold add_vote in Hadd. destruct (Aggregator_add_vote _ _ _). simplify_eq. by eexists. }
  destruct (handle_qc_run (set_w_state (set_cs_aggregator agg (w_state w)) w) qc)
    as (w2 & Hq & Hs2 & Hc2 & Hu2 & Hp2 & Hh2). unfold st_bind at 1. rewrite Hq.
  cbn [w_state set_w_state] in *. unfold after_qc, update_high_qc in Hs2. cbn [cs_view set_cs_aggregator] in Hs2.
  rewrite Hview, N.ltb_irrefl, N.eqb_refl in Hs2. cbn [cs_high_qc set_cs_view set_cs_aggregator] in Hs2.
  rewrite (proj2 (N.ltb_lt _ _)) in Hs2 by lia.
  assert (local_authority_id (w_state w2) = Some id) as Hid2.
  { rewrite <- Hid. apply local_authority_id_ext; by rewrite Hs2. }
  unfold st_bind at 1, st_get at 1. rewrite (view_leader_ext _ (w_state w)) by (by rewrite Hs2).
  replace (cs_view (w_state w2)) with (u64_add (cs_view (w_state w)) 1) by (by rewrite Hs2). rewrite Hlead.
  unfold st_bind at 1. cbn [st_expect st_ret]. unfold st_bind at 1, st_get at 1.
  unfold is_local. rewrite Hid2, bool_decide_true by done.
  pose proof (get_proposal_payload_ext w w2 Hu2 Hc2 Hp2) as Hpe.
  pose proof (get_proposal_payload_state w2) as Hps. cbn in Hps. unfold st_bind at 1, st_update at 1.
  destruct (get_proposal_payload w2) as [o w3]. rewrite Hpay in Hpe. cbn in Hpe, Hps. subst o.
  destruct (propose_next_gossips (handle_proposal fuel) payload w3 id) as (p & Hin & Hpq & Hpv & Hpp & Hpa & Hver).
  - apply guar_handlers.
  - by rewrite Hps.
  - rewrite Hps. cbn. rewrite Hs2. cbn. by right.
  - rewrite Hps. cbn. by rewrite Hh2.
  - exists p. rewrite Hps in Hpq, Hpv, Hver. cbn in Hpq, Hpv, Hver. rewrite Hs2 in Hpq, Hpv, Hver. done.
Qed.

End normal.

(** ** Witnesses *)

Lemma tc_ahead_keeps_view_witness :
  let tc := mkTC 5 ((fun id => (id, (id, TC_vote_digest (mkTC 5 []) 0), 0%N)) <$> [0; 1; 2]%N) in
  let r := handle_tc 3 tc (worker 2) in
  cs_view (w_state r.2) = 0%N /\ (TC_verify tc four = Ok tt -> r.1 = Val tt).
Proof.
  intros tc r. apply (tc_ahead_keeps_view (worker 2) r.2 3 tc r.1); [apply surjective_pairing|vm_refl|vm_refl].
Defined.

Lemma handle_proposal_votes_witness :
  exists w' v, handle_proposal 1 proposal1 (worker 0) = (Val tt, w') /\
    last (w_effects w') = Some (Gossip (MsgVote v) false) /\
    vote_proposal_hash v = Proposal_digest proposal1 /\ vote_view v = 1%N /\ vote_voter v = 0%N /\
    Vote_verify v four = Ok tt /\ stored (w_client w') (Proposal_digest proposal1) proposal1 /\
    cs_last_voted_view (w_state w') = 1%N /\ cs_view (w_state w') = 1%N.
Proof.
  apply (handle_proposal_votes (worker 0) proposal1 (save_proposal (w_client (worker 0)) proposal1).2 0%N 2%N 0);
    [right; vm_refl|vm_refl|apply pair_of_fst; vm_refl|vm_refl|vm_refl|vm_refl|vm_refl|done].
Defined.

(** The leader of view 2 with the votes of two authorities for the first proposal. *)
Definition next_leader : Worker :=
  worker_after [Message (MsgPropose proposal1); Message (MsgVote (signed_vote (Proposal_digest proposal1) 1 0))]
    (worker 2).

Lemma handle_vote_proposes_witness :
  let v := signed_vote (Proposal_digest proposal1) 1 1 in
  exists p, Gossip (MsgPropose p) false ∈ w_effects (handle_vote 1 v next_leader).2 /\
    proposal_qc p = certificate (Proposal_digest proposal1) 1 [2; 0; 1]%N /\ proposal_view p = 2%N /\
    proposal_payload p = mkPayload empty_payload_hash 1 /\ proposal_author p = 2%N /\
    Proposal_verify p four = Ok tt.
Proof.
  intros v.
  apply (handle_vote_proposes next_leader v (certificate (Proposal_digest proposal1) 1 [2; 0; 1]%N)
    (add_vote (w_state next_leader) v).2 (get_proposal_payload next_leader).2
    (mkPayload empty_payload_hash 1) 2%N 0);
    [vm_refl|apply pair_of_fst; vm_refl|vm_refl|vm_refl|vm_refl|vm_refl|vm_refl|apply pair_of_fst; vm_refl|vm_refl].
Defined.
