(* ===== verification/Rounds.v ===== *)
(** * Rounds

    What the handlers of a worker do in an undisturbed round, in full: a proposal
    that passes is saved, may finalize its grandparent and is voted for; votes
    are collected; the vote that completes the certificate makes the next leader
    propose and vote for its own proposal. *)

From S2P Require Import Prelude Primitives Messages Concrete Quorum Aggregator Synchronizer State Network BlockImport Worker WorkerFacts Replica Handlers.
#[local] Open Scope hs_scope.

Section rounds.
Context `{MessageCodecs} `{!ClientForHotstuff}.
Context `{!AuxStoreLaws} `{!CodecLaws Proposal} `{!KeystoreLaws}.

(** ** Finalizing *)

(** The block that [try_finalize] asks the client to finalize, if any. *)
Definition finalizing (p : Proposal) (c : Client) : option Hash :=
  match get_proposal_ancestors c p with
  | Err _ => None
  | Ok (parent, grandpa) =>
      if (proposal_view parent =? u64_add (proposal_view grandpa) 1)%N then
        let h := block_hash (proposal_payload grandpa) in
        if negb (bool_decide (h = empty_payload_hash)) && negb (bool_decide (h = finalized_hash (client_info c)))
        then Some h else None
      else None
  end.

(** The client after it saved a proposal and finalized what that brings. *)
Definition client_after (p : Proposal) (c : Client) : Client :=
  let c := (save_proposal c p).2 in
  match finalizing p c with Some h => (client_finalize_block c h).2 | None => c end.

Lemma try_finalize_run p w :
  (try_finalize p w).2 =
  match finalizing p (w_client w) with
  | Some h => add_w_effect (FinalizeCall h) (set_w_client (client_finalize_block (w_client w) h).2 w)
  | None => w
  end.
Proof.
  unfold try_finalize, finalizing. destruct (get_proposal_ancestors _ _) as [[parent grandpa]|e]; [|done].
  destruct (_ =? _)%N; [|done]. destruct (_ && _); [|done]. by destruct (client_finalize_block _ _).
Qed.

Lemma client_after_get p c k :
  client_get_aux (client_after p c) k = client_get_aux (save_proposal c p).2 k.
Proof. unfold client_after. destruct (finalizing _ _); [|done]. apply finalize_block_get. Qed.

Lemma client_after_stored p c :
  (save_proposal c p).1 = Ok tt -> stored (client_after p c) (Proposal_digest p) p.
Proof.
  intros Hok. unfold stored. rewrite client_after_get. apply (save_proposal_stored c).
  destruct (save_proposal c p). cbn in Hok. by subst.
Qed.

Lemma client_after_other p c h q :
  (save_proposal c p).1 = Ok tt -> h <> Proposal_digest p -> stored c h q -> stored (client_after p c) h q.
Proof.
  intros Hok Hne Hst. unfold stored. rewrite client_after_get. apply (save_proposal_other c p); [|done..].
  destruct (save_proposal c p). cbn in Hok. by subst.
Qed.

(** A chain of two saved ancestors is finalized. *)
Lemma finalizing_chain p parent grandpa c :
  stored c (Proposal_parent_hash p) parent -> stored c (Proposal_parent_hash parent) grandpa ->
  proposal_view parent = u64_add (proposal_view grandpa) 1 ->
  block_hash (proposal_payload grandpa) <> empty_payload_hash ->
  block_hash (proposal_payload grandpa) <> finalized_hash (client_info c) ->
  finalizing p c = Some (block_hash (proposal_payload grandpa)).
Proof.
  intros Hp Hg Hv Hne Hnf. unfold finalizing, get_proposal_ancestors.
  rewrite (get_proposal_parent_stored c p parent Hp). cbn. rewrite (get_proposal_parent_stored c parent grandpa Hg).
  cbn. rewrite Hv, N.eqb_refl, !bool_decide_false by done. done.
Qed.

(** ** Handling a proposal *)

(** A worker that handled [p] and voted for it, before its vote is passed on. *)
Record voted (p : Proposal) (w w' : Worker) : Prop := {
  voted_state : w_state w' = set_cs_last_voted_view (proposal_view p) (after_qc (proposal_qc p) (w_state w));
  voted_client : w_client w' = client_after p (w_client w);
  voted_queue : w_queue w' = w_queue w;
  voted_processing : w_processing_block w' =
    Some (mkBlockInfo (Some (block_hash (proposal_payload p))) (block_number (proposal_payload p)));
  voted_hashes : w_proposal_hash_queue w' = w_proposal_hash_queue w ++ [block_hash (proposal_payload p)];
  voted_effects : effects_grow w w';
  voted_finalizes : forall h, finalizing p (save_proposal (w_client w) p).2 = Some h ->
    FinalizeCall h ∈ w_effects w';
}.

(** The vote for [p] by [id]. *)
Record vote_of (A : AuthorityList) (p : Proposal) (id : AuthorityId) (v : Vote) : Prop := {
  vote_of_hash : vote_proposal_hash v = Proposal_digest p;
  vote_of_view : vote_view v = proposal_view p;
  vote_of_voter : vote_voter v = id;
  vote_of_verify : Vote_verify v A = Ok tt;
}.

(** What a worker needs to vote for [p]. *)
Record can_vote (p : Proposal) (w : Worker) : Prop := {
  cv_known : payload_known w p;
  cv_verify : verify_proposal (w_state w) p = Some (Ok tt);
  cv_save : (save_proposal (w_client w) p).1 = Ok tt;
  cv_view : cs_view (after_qc (proposal_qc p) (w_state w)) = proposal_view p;
  cv_last : (cs_last_voted_view (w_state w) < proposal_view p)%N;
}.

(** [handle_qc] and the step on the timeout certificate, with what they leave. *)
Lemma handle_qc_run_full w qc :
  exists w', handle_qc qc w = (Val tt, w') /\ w_state w' = after_qc qc (w_state w) /\
    w_client w' = w_client w /\ w_queue w' = w_queue w /\
    w_processing_block w' = w_processing_block w /\ w_proposal_hash_queue w' = w_proposal_hash_queue w /\
    effects_grow w w'.
Proof.
  destruct (handle_qc_run w qc) as (w' & Hq & Hs & Hc & Hu & Hp & Hh). exists w'. split_and!; try done.
  pose proof (guar_handle_qc qc w) as Hg. by rewrite Hq in Hg.
Qed.

Lemma handle_proposal_tc_run_full w p :
  exists w', handle_proposal_tc p w = (Val tt, w') /\ w_state w' = w_state w /\ w_client w' = w_client w /\
    w_queue w' = w_queue w /\ w_processing_block w' = w_processing_block w /\
    w_proposal_hash_queue w' = w_proposal_hash_queue w /\ effects_grow w w'.
Proof.
  unfold handle_proposal_tc, st_bind, st_get. destruct (proposal_tc p) as [tc|]; [|by exists w].
  destruct (N.ltb_spec (cs_view (w_state w)) (tc_view tc)); [|by exists w].
  eexists. split; [done|]. cbn -[advance_view_from_target]. unfold advance_view_from_target.
  rewrite (proj2 (N.leb_gt _ _)) by lia. split_and!; try done. by eexists.
Qed.

(** [handle_proposal] up to its vote, which goes to the local handler or out. *)
Lemma handle_proposal_run (hv : Vote -> W unit) p w id next :
  can_vote p w -> local_authority_id (w_state w) = Some id ->
  view_leader (w_state w) (u64_add (proposal_view p) 1) = Some next ->
  exists w1 v, voted p w w1 /\ vote_of (cs_authorities (w_state w)) p id v /\
    handle_proposal_body hv p w =
      (if bool_decide (id = next) then hv v else gossip_message (MsgVote v) false) w1.
Proof.
  intros [Hk Hv Hs Hview Hlast] Hid Hnext. destruct (save_proposal (w_client w) p) as [r c] eqn:Hsave. cbn in Hs. subst r.
  unfold handle_proposal_body, st_bind at 1. rewrite check_payload_run by done. cbn [negb].
  unfold st_bind at 1. rewrite check_proposal_run by done.
  destruct (handle_qc_run_full w (proposal_qc p)) as (w1 & Hq & Hs1 & Hc1 & Hu1 & Hp1 & Hh1 & Hg1).
  unfold st_bind at 1. rewrite Hq.
  destruct (handle_proposal_tc_run_full w1 p) as (w2 & Ht & Hs2 & Hc2 & Hu2 & Hp2 & Hh2 & Hg2).
  unfold st_bind at 1. rewrite Ht. unfold st_bind at 1. rewrite (save_run w2 p c) by (by rewrite Hc2, Hc1).
  unfold st_bind at 1, st_update at 1. pose proof (try_finalize_run p (set_w_client c w2)) as Hf.
  destruct (try_finalize p (set_w_client c w2)) as [r w3]. cbn [snd w_client set_w_client] in Hf.
  assert (w_state w3 = after_qc (proposal_qc p) (w_state w) /\ w_queue w3 = w_queue w /\
    w_processing_block w3 = w_processing_block w /\ w_proposal_hash_queue w3 = w_proposal_hash_queue w /\
    w_client w3 = client_after p (w_client w) /\ effects_grow w w3 /\
    (forall h, finalizing p c = Some h -> FinalizeCall h ∈ w_effects w3)) as (Hs3 & Hu3 & Hp3 & Hh3 & Hc3 & Hg3 & Hfin).
  { assert (effects_grow w (set_w_client c w2)) as Hg by (etrans; [exact Hg1|]; etrans; [exact Hg2|]; by exists []; rewrite app_nil_r).
    unfold client_after. rewrite Hsave. cbn [snd]. subst w3. destruct (finalizing p c) as [h|]; cbn; rewrite ?Hs2, ?Hs1, ?Hu2, ?Hu1, ?Hp2, ?Hp1, ?Hh2, ?Hh1.
    - split_and!; try done.
      + etrans; [exact Hg|]. by exists [FinalizeCall h].
      + intros h' [= <-]. apply elem_of_app. right. by left.
    - by split_and!. }
  destruct (after_qc_frame (proposal_qc p) (w_state w)) as (Ha & Hks & Hl & _ & _). rewrite <- Hs3 in Ha, Hks, Hl.
  unfold st_bind at 1, st_get at 1. rewrite <- Hs3 in Hview. rewrite Hview, N.eqb_refl. cbn [negb].
  destruct (make_vote_run (w_state w3) p id) as (v & Hm & Hvh & Hvv & Hvi & Hver).
  { by rewrite (local_authority_id_ext _ (w_state w)). }
  { by rewrite Hl. }
  unfold vote_on, on_state. unfold st_bind at 1, st_update at 1. rewrite Hm.
  unfold emit. unfold st_bind at 1, st_modify at 1. unfold st_bind at 1, st_modify at 1. unfold st_bind at 1, st_modify at 1.
  set (w4 := set_w_processing_block _ _). exists w4, v.
  assert (w_state w4 = set_cs_last_voted_view (proposal_view p) (w_state w3)) as Hs4 by done.
  split_and!.
  - constructor; unfold w4; cbn; rewrite ?Hs3, ?Hh3; try done.
    + etrans; [exact Hg3|]. by exists [SignVote v].
    + intros h Hh. apply elem_of_app. left. apply Hfin. by rewrite Hsave in Hh.
  - constructor; try done. by rewrite <- Ha.
  - unfold st_bind at 1, st_get at 1. rewrite (view_leader_ext _ (w_state w)) by (by rewrite Hs4).
    replace (cs_view (w_state w4)) with (proposal_view p) by (by rewrite Hs4). rewrite Hnext.
    unfold st_bind at 1. cbn [st_expect st_ret]. unfold st_bind at 1, st_get at 1. unfold is_local.
    rewrite (local_authority_id_ext _ (w_state w)), Hid by (by rewrite Hs4). by case_bool_decide.
Qed.

(** ** Handling a vote *)

Lemma handle_vote_none_run fuel v w s :
  verify_vote (w_state w) v = Ok tt -> add_vote (w_state w) v = (Ok None, s) ->
  handle_vote (S fuel) v w = (Val tt, set_w_state s w).
Proof.
  intros Hv Hadd. change (handle_vote (S fuel) v w) with (handle_vote_body (handle_proposal fuel) v w).
  unfold handle_vote_body, on_state, st_bind, st_get, st_update. rewrite Hv. cbn. by rewrite Hadd.
Qed.

(** A leader whose last block is not finalized proposes the empty payload. *)
Lemma get_proposal_payload_pending w b :
  is_Some (queue_lock (w_queue w)) -> w_processing_block w = Some b ->
  (finalized_number (client_info (w_client w)) < info_number b)%N ->
  get_proposal_payload w = (Some (mkPayload empty_payload_hash (info_number b)), w).
Proof.
  intros [q Hq] Hb Hlt. unfold get_proposal_payload. by rewrite Hq, Hb, (proj2 (N.ltb_lt _ _)).
Qed.

(** The own proposal of a leader, as it reaches [handle_proposal]. *)
Lemma propose_next_run hp payload w id :
  local_authority_id (w_state w) = Some id -> qc_accepted (cs_authorities (w_state w)) (cs_high_qc (w_state w)) ->
  view_leader (w_state w) (cs_view (w_state w)) = Some id ->
  empty_run (bool_decide (block_hash payload = empty_payload_hash)) 0 (rev (w_proposal_hash_queue w)) = false ->
  exists p w1, propose_next hp payload w = hp p w1 /\
    proposal_qc p = cs_high_qc (w_state w) /\ proposal_view p = cs_view (w_state w) /\ proposal_payload p = payload /\
    verify_proposal (w_state w) p = Some (Ok tt) /\
    w_state w1 = w_state w /\ w_client w1 = w_client w /\ w_queue w1 = w_queue w /\ effects_grow w w1 /\
    Gossip (MsgPropose p) false ∈ w_effects w1.
Proof.
  intros Hid Hqc Hlead Hrun.
  destruct (make_proposal_verifies (w_state w) id payload None Hid Hqc) as (p & Hp & Hv & Hq & _ & Hpl & Hpv & Ha).
  unfold propose_next. unfold st_bind at 1, st_get at 1. rewrite Hrun.
  unfold st_bind at 1, st_modify at 1. unfold st_bind at 1, st_modify at 1.
  set (w1 := set_w_proposal_hash_queue _ _).
  assert (w_state w1 = w_state w /\ w_client w1 = w_client w /\ w_queue w1 = w_queue w /\ w_effects w1 = w_effects w)
    as (Hs1 & Hc1 & Hu1 & He1) by (subst w1; by destruct (_ <? _)%nat).
  clearbody w1. unfold st_bind at 1, st_get at 1. rewrite Hs1, Hp. unfold st_bind at 1. cbn [st_lift st_ret].
  unfold st_bind at 1, gossip_message, emit, st_modify.
  exists p, (add_w_effect (Gossip (MsgPropose p) false) w1). split; [done|]. split_and!; try done.
  - unfold verify_proposal. rewrite Hpv, Hlead, Ha, bool_decide_true by done. cbn. by rewrite Hv.
  - exists [Gossip (MsgPropose p) false]. cbn. by rewrite He1.
  - cbn. apply elem_of_app. right. by left.
Qed.

(** The leader of the next view, after the vote that completes the certificate:
    it proposed [p] and voted for it. *)
Lemma handle_vote_lead fuel v qc agg w id next b :
  let view := u64_add (cs_view (w_state w)) 1 in
  verify_vote (w_state w) v = Ok tt ->
  add_vote (w_state w) v = (Ok (Some qc), set_cs_aggregator agg (w_state w)) ->
  QC_verify qc (cs_authorities (w_state w)) = Ok tt ->
  qc_view qc = cs_view (w_state w) -> (qc_view (cs_high_qc (w_state w)) < qc_view qc)%N ->
  local_authority_id (w_state w) = Some id ->
  view_leader (w_state w) view = Some id -> view_leader (w_state w) (u64_add view 1) = Some next -> id <> next ->
  is_Some (queue_lock (w_queue w)) -> w_processing_block w = Some b ->
  (finalized_number (client_info (w_client w)) < info_number b)%N ->
  empty_run true 0 (rev (w_proposal_hash_queue w)) = false ->
  (forall p, (save_proposal (w_client w) p).1 = Ok tt) ->
  (cs_view (w_state w) < view)%N -> (cs_last_voted_view (w_state w) < view)%N ->
  exists p w1 w2 v',
    handle_vote (S (S fuel)) v w = (Val tt, add_w_effect (Gossip (MsgVote v') false) w2) /\
    voted p w1 w2 /\ vote_of (cs_authorities (w_state w)) p id v' /\
    w_state w1 = set_cs_high_qc qc (set_cs_view view (set_cs_aggregator agg (w_state w))) /\
    w_client w1 = w_client w /\ w_queue w1 = w_queue w /\ effects_grow w w1 /\
    Gossip (MsgPropose p) false ∈ w_effects w1 /\
    proposal_qc p = qc /\ proposal_view p = view /\
    proposal_payload p = mkPayload empty_payload_hash (info_number b) /\
    verify_proposal (w_state w) p = Some (Ok tt).
Proof.
  intros view Hv Hadd Hqcv Hview Hhigh Hid Hlead Hnext Hne Hq Hb Hfin Hrun Hsave Hgt Hlast.
  change (handle_vote (S (S fuel)) v w) with (handle_vote_body (handle_proposal (S fuel)) v w).
  unfold handle_vote_body, on_state. unfold st_bind at 1, st_get at 1. rewrite Hv. unfold st_bind at 1. cbn [st_lift st_ret].
  unfold st_bind at 1, st_update at 1. rewrite Hadd. unfold st_bind at 1. cbn [st_lift st_ret].
  destruct (handle_qc_run_full (set_w_state (set_cs_aggregator agg (w_state w)) w) qc)
    as (w2 & Hqr & Hs2 & Hc2 & Hu2 & Hp2 & Hh2 & Hg2). unfold st_bind at 1. rewrite Hqr.
  cbn [w_state set_w_state w_client w_queue w_processing_block w_proposal_hash_queue] in *.
  unfold after_qc, update_high_qc in Hs2. cbn [cs_view set_cs_aggregator] in Hs2.
  rewrite Hview, N.ltb_irrefl, N.eqb_refl in Hs2. cbn [cs_high_qc set_cs_view set_cs_aggregator] in Hs2.
  rewrite (proj2 (N.ltb_lt _ _)) in Hs2 by lia. fold view in Hs2.
  assert (local_authority_id (w_state w2) = Some id) as Hid2.
  { rewrite <- Hid. apply local_authority_id_ext; by rewrite Hs2. }
  unfold st_bind at 1, st_get at 1. rewrite (view_leader_ext _ (w_state w)) by (by rewrite Hs2).
  replace (cs_view (w_state w2)) with view by (by rewrite Hs2). rewrite Hlead.
  unfold st_bind at 1. cbn [st_expect st_ret]. unfold st_bind at 1, st_get at 1.
  unfold is_local. rewrite Hid2, bool_decide_true by done.
  unfold st_bind at 1, st_update at 1. rewrite (get_proposal_payload_pending w2 b) by (rewrite ?Hu2, ?Hp2, ?Hc2; done).
  destruct (propose_next_run (handle_proposal (S fuel)) (mkPayload empty_payload_hash (info_number b)) w2 id)
    as (p & w3 & -> & Hpq & Hpv & Hpp & Hver & Hs3 & Hc3 & Hu3 & Hg3 & Hin); try done.
  { rewrite Hs2. by right. }
  { rewrite (view_leader_ext _ (w_state w)) by (by rewrite Hs2). rewrite Hs2. done. }
  { cbn [block_hash]. by rewrite bool_decide_true, Hh2. }
  rewrite Hs2 in Hpq, Hpv. cbn in Hpq, Hpv.
  assert (after_qc (proposal_qc p) (w_state w3) = w_state w3) as Hsame.
  { unfold after_qc. rewrite Hs3, Hs2, Hpq. cbn. by rewrite (proj2 (N.ltb_lt _ _)) by lia. }
  destruct (handle_proposal_run (handle_vote fuel) p w3 id next) as (w4 & v' & Hvd & Hvo & Hrun4).
  { constructor; [left; by rewrite Hpp|by rewrite (verify_proposal_ext _ (w_state w2)); rewrite ?Hs3| | |].
    - rewrite Hc3, Hc2. apply Hsave.
    - rewrite Hsame, Hs3, Hs2, Hpv. done.
    - rewrite Hs3, Hs2, Hpv. done. }
  { by rewrite Hs3. }
  { rewrite Hs3, (view_leader_ext _ (w_state w)), Hpv by (by rewrite Hs2). done. }
  exists p, w3, w4, v'. change (handle_proposal (S fuel) p w3) with (handle_proposal_body (handle_vote fuel) p w3).
  rewrite Hrun4, bool_decide_false by done. rewrite Hs3, Hs2 in Hvo. split_and!; try done.
  - by rewrite Hs3, Hs2.
  - by rewrite Hc3, Hc2.
  - by rewrite Hu3, Hu2.
  - etrans; [|exact Hg3]. exact Hg2.
  - rewrite <- Hver. apply verify_proposal_ext. by rewrite Hs2.
Qed.

(** ** Collecting votes *)

(** The gossip validator of the worker keeps the message. *)
Definition accepts (w : Worker) (m : ConsensusMessage) : Prop :=
  validate (w_network w) (encode m) = ProcessAndKeep gossip_topic.

Lemma accepts_view `{!CodecLaws ConsensusMessage} w m :
  (gv_view (w_network w) <= message_view m + 1)%N -> accepts w m.
Proof.
  intros Hle. unfold accepts, validate, get_view. rewrite decode_encode.
  rewrite (proj2 (N.ltb_ge (message_view m) _)) by lia. by rewrite andb_false_r.
Qed.

(** Messages that are accepted and served one after the other. *)
Inductive serves : Worker -> list ConsensusMessage -> Worker -> Prop :=
| serves_nil w : serves w [] w
| serves_cons w m w1 ms w2 :
    accepts w m -> run_event event_fuel w (Message m) = Some w1 -> serves w1 ms w2 -> serves w (m :: ms) w2.

Context {A : AuthorityList} (Hfit : authorities_fit A).

(** A vote for the current view, counted. *)
Lemma add_vote_counted s p id v :
  cs_authorities s = A -> aggregator_ok A (cs_aggregator s) -> vote_of A p id v ->
  cs_view s = proposal_view p -> id ∉ (collected (cs_aggregator s) (Proposal_digest p) (proposal_view p)).*1 ->
  let n := length (collected (cs_aggregator s) (Proposal_digest p) (proposal_view p)) in
  verify_vote s v = Ok tt /\
  exists agg, aggregator_ok A agg /\
    (forall view d, view <> proposal_view p -> vote_maker agg view d = vote_maker (cs_aggregator s) view d) /\
    (exists sig, collected agg (Proposal_digest p) (proposal_view p) =
       collected (cs_aggregator s) (Proposal_digest p) (proposal_view p) ++ [(id, sig)]) /\
    ((n < two_thirds A)%nat -> add_vote s v = (Ok None, set_cs_aggregator agg s)) /\
    ((two_thirds A <= n)%nat -> exists qc, add_vote s v = (Ok (Some qc), set_cs_aggregator agg s) /\
       QC_verify qc A = Ok tt /\ qc_view qc = proposal_view p /\ qc_proposal_hash qc = Proposal_digest p).
Proof.
  intros HA Hok [Hh Hv Hid Hver] Hview Hnew. cbn zeta. split.
  { unfold verify_vote. by rewrite Hv, Hview, N.ltb_irrefl, HA. }
  rewrite <- Hh, <- Hv, <- Hid in *. exists (Aggregator_add_vote (cs_aggregator s) v A).2.
  pose proof (add_vote_new A (cs_aggregator s) v Hok Hfit Hver Hnew) as Hone.
  pose proof (fun q => add_vote_qc A (cs_aggregator s) v q Hok Hfit Hver) as Hqc.
  pose proof (fun view d => vote_maker_add (cs_aggregator s) v A view d) as Hother.
  split; [by apply add_vote_ok|]. unfold add_vote. rewrite HA.
  destruct (Aggregator_add_vote (cs_aggregator s) v A) as [ans agg]. cbn [fst snd] in *.
  destruct Hone as (Hcol & Hlt & Hle). split_and!.
  - intros view d Hne. by rewrite Hother, decide_False by naive_solver.
  - done.
  - intros Hn. by rewrite (Hlt Hn).
  - intros Hn. destruct (Hle Hn) as (qc & -> & _ & Hqv). exists qc. by destruct (Hqc qc eq_refl) as (? & ? & ? & ?).
Qed.

(** The next leader with some votes for [p], served the votes that are left to
    complete the certificate. *)
Record leading (p : Proposal) (id next : AuthorityId) (b : BlockInfo) (w : Worker) : Prop := {
  ld_authorities : cs_authorities (w_state w) = A;
  ld_aggregator : aggregator_ok A (cs_aggregator (w_state w));
  ld_view : cs_view (w_state w) = proposal_view p;
  ld_network : gv_view (w_network w) = proposal_view p;
  ld_high : (qc_view (cs_high_qc (w_state w)) < proposal_view p)%N;
  ld_local : local_authority_id (w_state w) = Some id;
  ld_leader : view_leader (w_state w) (u64_add (proposal_view p) 1) = Some id;
  ld_next : view_leader (w_state w) (u64_add (u64_add (proposal_view p) 1) 1) = Some next;
  ld_other : id <> next;
  ld_queue : is_Some (queue_lock (w_queue w));
  ld_processing : w_processing_block w = Some b;
  ld_unfinalized : (finalized_number (client_info (w_client w)) < info_number b)%N;
  ld_run : empty_run true 0 (rev (w_proposal_hash_queue w)) = false;
  ld_save : forall q, (save_proposal (w_client w) q).1 = Ok tt;
  ld_room : (proposal_view p < u64_add (proposal_view p) 1)%N;
  ld_last : (cs_last_voted_view (w_state w) <= proposal_view p)%N;
}.

(** The leader has proposed: [w1] is it before it handles its own proposal [p']. *)
Record proposed (p p' : Proposal) (id : AuthorityId) (b : BlockInfo) (v' : Vote) (w w1 w2 : Worker) : Prop := {
  pr_voted : voted p' w1 w2;
  pr_vote : vote_of A p' id v';
  pr_state : exists qc agg, w_state w1 = set_cs_high_qc qc (set_cs_view (u64_add (proposal_view p) 1)
      (set_cs_aggregator agg (w_state w))) /\ proposal_qc p' = qc /\
    aggregator_ok A agg /\
    (forall view d, view <> proposal_view p -> vote_maker agg view d = vote_maker (cs_aggregator (w_state w)) view d);
  pr_client : w_client w1 = w_client w;
  pr_queue : w_queue w1 = w_queue w;
  pr_effects : effects_grow w w1;
  pr_gossip : Gossip (MsgPropose p') false ∈ w_effects w1;
  pr_parent : Proposal_parent_hash p' = Proposal_digest p;
  pr_qc_view : qc_view (proposal_qc p') = proposal_view p;
  pr_view : proposal_view p' = u64_add (proposal_view p) 1;
  pr_payload : proposal_payload p' = mkPayload empty_payload_hash (info_number b);
  pr_verify : verify_proposal (w_state w) p' = Some (Ok tt);
}.

Lemma collect_votes `{!CodecLaws ConsensusMessage} p id next b vs w :
  leading p id next b w ->
  Forall (fun v => vote_of A p (vote_voter v) v) vs ->
  NoDup ((collected (cs_aggregator (w_state w)) (Proposal_digest p) (proposal_view p)).*1 ++ (vote_voter <$> vs)) ->
  (length (collected (cs_aggregator (w_state w)) (Proposal_digest p) (proposal_view p)) + length vs =
   S (two_thirds A))%nat -> vs <> [] ->
  exists p' w1 w2 v', serves w (MsgVote <$> vs) (add_w_effect (Gossip (MsgVote v') false) w2) /\
    proposed p p' id b v' w w1 w2.
Proof.
  intros Hld Hvs. revert w Hld. induction Hvs as [|v vs Hv Hvs IH]; intros w Hld Hnd Hlen Hne; [done|].
  assert (vote_voter v ∉ (collected (cs_aggregator (w_state w)) (Proposal_digest p) (proposal_view p)).*1) as Hnew.
  { apply NoDup_app in Hnd as (_ & Hx & _). intros Hin. by apply (Hx _ Hin); left. }
  destruct (add_vote_counted (w_state w) p (vote_voter v) v) as (Hver & agg & Hagg & Hoth & (sig & Hcol) & Hlt & Hge);
    [by apply Hld..|done|by apply Hld|done|].
  assert (accepts w (MsgVote v)) as Hacc.
  { apply accepts_view. cbn. rewrite (ld_network _ _ _ _ _ Hld), (vote_of_view _ _ _ _ Hv). lia. }
  destruct vs as [|v2 vs].
  - destruct Hge as (qc & Hadd & Hqv & Hqview & Hqh); [cbn in Hlen; lia|].
    destruct (handle_vote_lead 1 v qc agg w id next b) as (p' & w1 & w2 & v' & Hrun & Hvd & Hvo & Hs1 & Hc1 & Hu1 & Hg1 & Hin & Hpq & Hpv & Hpp & Hpver);
      try (by apply Hld || by rewrite ?(ld_view _ _ _ _ _ Hld); apply Hld); try done.
    + by rewrite (ld_authorities _ _ _ _ _ Hld).
    + rewrite Hqview. symmetry. apply Hld.
    + rewrite Hqview. apply Hld.
    + rewrite (ld_view _ _ _ _ _ Hld). pose proof (ld_last _ _ _ _ _ Hld). pose proof (ld_room _ _ _ _ _ Hld). lia.
    + exists p', w1, w2, v'. rewrite (ld_view _ _ _ _ _ Hld) in Hs1, Hpv. rewrite (ld_authorities _ _ _ _ _ Hld) in Hvo.
      split; [|constructor; try done].
      * econstructor; [done| |constructor]. unfold run_event. cbn [handle_event]. change event_fuel with 3%nat. by rewrite Hrun.
      * by exists qc, agg.
      * unfold Proposal_parent_hash. by rewrite Hpq.
      * by rewrite Hpq.
  - assert (add_vote (w_state w) v = (Ok None, set_cs_aggregator agg (w_state w))) as Hadd by (apply Hlt; cbn in Hlen; lia).
    set (w' := set_w_state (set_cs_aggregator agg (w_state w)) w).
    destruct (IH w') as (p' & w1 & w2 & v' & Hserve & Hp).
    + destruct Hld. by constructor.
    + cbn. by rewrite Hcol, fmap_app, <- app_assoc.
    + cbn [w' w_state set_w_state cs_aggregator set_cs_aggregator]. rewrite Hcol, length_app. cbn in *. lia.
    + done.
    + exists p', w1, w2, v'. split.
      * econstructor; [done| |exact Hserve]. unfold run_event. cbn [handle_event]. change event_fuel with 3%nat.
        by rewrite (handle_vote_none_run 2 v w (set_cs_aggregator agg (w_state w))).
      * destruct Hp as [? ? (qc & agg' & Hs1 & ? & ? & Ho) ? ? Hg ? ? ? ? ? ?]. constructor; try done.
        exists qc, agg'. split_and!; try done. intros view d Hn. rewrite Ho by done. cbn. by apply Hoth.
Qed.

(** ** Serving a proposal *)

(** A replica that is not the next leader gossips its vote. *)
Lemma serve_proposal p w id next :
  can_vote p w -> local_authority_id (w_state w) = Some id ->
  view_leader (w_state w) (u64_add (proposal_view p) 1) = Some next -> id <> next ->
  exists w1 v, voted p w w1 /\ vote_of (cs_authorities (w_state w)) p id v /\
    run_event event_fuel w (Message (MsgPropose p)) = Some (add_w_effect (Gossip (MsgVote v) false) w1).
Proof.
  intros Hcv Hid Hnext Hne. destruct (handle_proposal_run (handle_vote 2) p w id next Hcv Hid Hnext) as (w1 & v & Hvd & Hvo & Hr).
  exists w1, v. split_and!; [done..|]. rewrite bool_decide_false in Hr by done. unfold run_event. cbn [handle_event].
  change (handle_proposal event_fuel p w) with (handle_proposal_body (handle_vote 2) p w). by rewrite Hr.
Qed.

(** The next leader counts its own vote, the first for [p]. *)
Lemma serve_proposal_leader p w id :
  (0 < two_thirds A)%nat -> cs_authorities (w_state w) = A -> aggregator_ok A (cs_aggregator (w_state w)) ->
  can_vote p w -> local_authority_id (w_state w) = Some id ->
  view_leader (w_state w) (u64_add (proposal_view p) 1) = Some id ->
  collected (cs_aggregator (w_state w)) (Proposal_digest p) (proposal_view p) = [] ->
  exists w1 agg sig, voted p w w1 /\ aggregator_ok A agg /\
    collected agg (Proposal_digest p) (proposal_view p) = [(id, sig)] /\
    (forall view d, view <> proposal_view p -> vote_maker agg view d = vote_maker (cs_aggregator (w_state w)) view d) /\
    run_event event_fuel w (Message (MsgPropose p)) = Some (set_w_state (set_cs_aggregator agg (w_state w1)) w1).
Proof.
  intros Htt HA Hagg Hcv Hid Hnext Hempty.
  destruct (handle_proposal_run (handle_vote 2) p w id id Hcv Hid Hnext) as (w1 & v & Hvd & Hvo & Hr).
  rewrite bool_decide_true in Hr by done. pose proof (voted_state _ _ _ Hvd) as Hs1.
  destruct (after_qc_frame (proposal_qc p) (w_state w)) as (Ha & _ & _ & Hag & _).
  assert (cs_aggregator (w_state w1) = cs_aggregator (w_state w)) as Hag1 by (by rewrite Hs1).
  rewrite HA in Hvo. rewrite <- Hag1 in Hagg, Hempty.
  destruct (add_vote_counted (w_state w1) p id v) as (Hver & agg & Hok & Hoth & (sig & Hcol) & Hlt & _).
  { rewrite Hs1. cbn. by rewrite Ha. }
  { done. }
  { done. }
  { rewrite Hs1. apply Hcv. }
  { rewrite Hempty. apply not_elem_of_nil. }
  rewrite Hempty in Hcol. exists w1, agg, sig. split_and!; try done.
  - intros view d Hne. rewrite <- Hag1. by apply Hoth.
  - unfold run_event. cbn [handle_event]. change (handle_proposal event_fuel p w) with (handle_proposal_body (handle_vote 2) p w).
    rewrite Hr, (handle_vote_none_run 1 v w1 (set_cs_aggregator agg (w_state w1))); [done|done|].
    apply Hlt. by rewrite Hempty.
Qed.

End rounds.
