(* ===== verification/Pacemaker.v ===== *)
(** * Pacemaker

    When a replica leaves its view. Only a certificate, vote or timeout of the
    very view the replica is in moves it: messages of other views, later ones
    too, never do. A replica that missed what ended its view stays in it,
    whatever certificates of later views it is sent. *)

From S2P Require Import Prelude Primitives Messages Concrete Quorum Aggregator Synchronizer State Network BlockImport Worker WorkerFacts Replica Handlers Rounds.
#[local] Open Scope hs_scope.

Section pacemaker.
Context `{MessageCodecs} `{!ClientForHotstuff}.
Context {A : AuthorityList} {ks : Keystore} (Hfit : authorities_fit A) (Hnd : NoDup (ids A)) (Htwo : (2 <= length A)%nat).
Context {v : ViewNumber} (Hroom : (v + 1 < u64_modulus)%N).
#[local] Abbreviation leads := (leads (A := A) (ks := ks)).
Implicit Types (w : Worker).

(** The timeouts collected for view [v] do not become a certificate by the one of
    this replica: that is among them, or they are too few. *)
Definition few_timeouts (agg : Aggregator) : Prop :=
  (exists id, local_authority_id (identity A ks) = Some id /\
     existsb (fun x => bool_decide (x.1.1 = id)) (tcm_votes (timeout_maker agg v)) = true) \/
  (u64_add (tcm_weight (timeout_maker agg v)) 1 < quorum_weight A)%N.

(** A replica in view [v] that holds no certificate of it. *)
Record held (w : Worker) : Prop := {
  held_authorities : cs_authorities (w_state w) = A;
  held_keystore : cs_keystore (w_state w) = ks;
  held_view : cs_view (w_state w) = v;
  held_high_qc : qc_view (cs_high_qc (w_state w)) <> v;
  held_timeouts : few_timeouts (cs_aggregator (w_state w));
}.

(** Moves that keep a replica so. *)
Definition holds (w w' : Worker) : Prop := held w -> held w'.

#[local] Instance holds_refl : Reflexive holds.
Proof. intros w Hw. exact Hw. Qed.

#[local] Instance holds_trans : Transitive holds.
Proof. intros w1 w2 w3 Hm1 Hm2 Hw. by apply Hm2, Hm1. Qed.

Lemma held_ext w w' :
  cs_authorities (w_state w') = cs_authorities (w_state w) -> cs_keystore (w_state w') = cs_keystore (w_state w) ->
  cs_view (w_state w') = cs_view (w_state w) -> qc_view (cs_high_qc (w_state w')) <> v ->
  timeout_maker (cs_aggregator (w_state w')) v = timeout_maker (cs_aggregator (w_state w)) v -> holds w w'.
Proof.
  intros Ha Hk Hv Hq Ht [Ha0 Hk0 Hv0 Hq0 Ht0]. constructor; try congruence. unfold few_timeouts. by rewrite Ht.
Qed.

Lemma holds_same {X} (m : W X) : (forall w, w_state (m w).2 = w_state w) -> guar holds m.
Proof. intros Hm w Hw. apply (held_ext w); rewrite ?Hm; try done. apply Hw. Qed.

Lemma holds_lift {X} (r : result HotstuffError X) : guar holds (st_lift r).
Proof. apply holds_same. by destruct r. Qed.

Lemma holds_expect {X} (o : option X) : guar holds (st_expect o : W X).
Proof. apply holds_same. by destruct o. Qed.

Lemma holds_try_finalize p : guar holds (st_update (try_finalize p) : W _).
Proof.
  apply holds_same. intros w. unfold st_update. pose proof (try_finalize_run p w) as Hf.
  destruct (try_finalize p w) as [r w']. cbn in *. subst w'. by destruct (finalizing _ _).
Qed.

Lemma holds_save p : guar holds (save p).
Proof.
  apply holds_same. intros w. unfold save, st_bind, st_update. by destruct (save_proposal _ _) as [[]].
Qed.

Lemma holds_payload : guar holds (st_update get_proposal_payload : W _).
Proof.
  apply holds_same. intros w. unfold st_update. pose proof (get_proposal_payload_state w) as Hs. cbn in Hs.
  destruct (get_proposal_payload w) as [o w']. cbn in *. by rewrite Hs.
Qed.

(** A certificate of another view is kept at most. *)
Lemma holds_handle_qc qc : qc_view qc <> v -> guar holds (handle_qc qc).
Proof.
  intros Hne w Hw. destruct (handle_qc_run w qc) as (w' & -> & Hs & _). cbn.
  destruct (after_qc_frame qc (w_state w)) as (Ha & Hk & _ & Hag & Hv). rewrite <- Hs in Ha, Hk, Hag, Hv.
  rewrite (held_view w Hw), (proj2 (N.eqb_neq _ _) Hne) in Hv.
  apply (held_ext w); try done; [by rewrite (held_view w Hw)| |by rewrite Hag].
  rewrite Hs. unfold after_qc, update_high_qc. pose proof (held_high_qc w Hw).
  repeat case_match; cbn in *; congruence.
Qed.

Lemma holds_proposal_tc p : guar holds (handle_proposal_tc p).
Proof.
  apply holds_same. intros w. by destruct (handle_proposal_tc_run_full w p) as (w' & -> & Hs & _).
Qed.

(** What is not later does not reach [advance_view]; what is later it ignores. *)
Lemma holds_advance u : (v < u)%N -> guar holds (advance_view u).
Proof.
  intros Hlt w Hw. pose proof (held_view w Hw) as Hv. unfold advance_view, st_bind, st_modify. cbn.
  unfold advance_view_from_target. rewrite Hv, (proj2 (N.leb_gt _ _)) by done.
  apply (held_ext w); try done. apply Hw.
Qed.

Lemma held_leads w u id :
  held w -> view_leader (w_state w) u = Some id -> is_local (w_state w) id = true -> leads u.
Proof.
  intros [Ha Hk _ _ _] Hl Hi. exists id. rewrite <- Hl. unfold is_local in Hi.
  rewrite (local_authority_id_ext _ (identity A ks)) in Hi by done. rewrite (view_leader_ext (identity A ks) (w_state w)) by done.
  destruct (local_authority_id (identity A ks)); [|done]. by apply bool_decide_eq_true in Hi as ->.
Qed.

Lemma held_leader w : held w -> is_leader (w_state w) = Some true -> leads v.
Proof.
  intros Hw. unfold is_leader. rewrite (held_view w Hw). destruct (view_leader _ _) as [id|] eqn:Hl; [|done].
  intros Hi. apply (held_leads w _ id Hw Hl). by injection Hi.
Qed.

(** ** The handlers *)

(** Proposals whose handling keeps the view: their certificate is of another
    view, and the vote for them is not handled by this replica. *)
Definition harmless (p : Proposal) : Prop :=
  qc_view (proposal_qc p) <> v /\ (proposal_view p <> v \/ ~ leads (u64_add v 1)).

Ltac holds_step :=
  first [ apply holds_lift | apply holds_expect | apply holds_try_finalize | apply holds_save | apply holds_payload
        | apply holds_proposal_tc | apply holds_same; by intros [] | apply holds_same; intros w; cbn; by case_match
        | apply guar_bind; [apply _| |intros ?] | apply guar_bind; [|intros ?] ].

Lemma holds_vote_on hv p : ~ leads (u64_add v 1) -> guar holds (vote_on hv p).
Proof.
  intros Hnot w Hw. unfold vote_on, on_state, st_bind at 1, st_update.
  destruct (make_vote_state (w_state w) p) as [Hst _]. destruct (make_vote (w_state w) p) as [o s]. cbn in Hst.
  assert (held (set_w_state s w)) as Hs by (rewrite Hst; apply (held_ext w); try done; apply Hw).
  destruct o as [vote|]; [|exact Hs].
  unfold st_bind at 1, emit at 1, st_modify at 1, st_bind at 1, st_modify at 1, st_bind at 1, st_modify at 1.
  set (w1 := set_w_processing_block _ _). assert (held w1) as Hw1 by (apply (held_ext (set_w_state s w)); try done; apply Hs).
  unfold st_bind at 1, st_get at 1. unfold st_bind at 1. rewrite (held_view w1 Hw1).
  destruct (view_leader _ _) as [leader|] eqn:Hl; [|exact Hw1]. cbn [st_expect st_ret].
  unfold st_bind, st_get. destruct (is_local _ _) eqn:Hi; [by destruct Hnot; eapply held_leads|].
  by apply (holds_same (gossip_message (MsgVote vote) false)).
Qed.

Lemma holds_proposal_body hv p : harmless p -> guar holds (handle_proposal_body hv p).
Proof.
  intros [Hqc Hor]. unfold handle_proposal_body, check_payload, check_proposal.
  apply guar_bind; [apply _|repeat first [holds_step | case_match]|]. intros known. destruct (negb known); [holds_step|].
  do 5 (apply guar_bind; [apply _|first [by apply holds_handle_qc | repeat first [holds_step | case_match]]|intros _]).
  intros w Hw. unfold st_bind, st_get. rewrite (held_view w Hw). destruct (N.eqb_spec (proposal_view p) v); [|exact Hw].
  cbn [negb]. destruct Hor as [|Hnot]; [done|]. by apply holds_vote_on.
Qed.

(** The own proposal of a replica that leads its view. *)
Lemma holds_propose (hp : Proposal -> W unit) payload tc :
  leads v -> (forall p, harmless p -> guar holds (hp p)) ->
  guar holds (let! r := st_get (fun w => make_proposal (w_state w) payload tc) in
              let! proposal := st_lift r in gossip_message (MsgPropose proposal) false ;! hp proposal).
Proof.
  intros Hlead Hhp w Hw. unfold st_bind at 1, st_get at 1. destruct (make_proposal _ _ _) as [p|e] eqn:Hp; [|exact Hw].
  cbn [st_lift]. unfold st_bind at 1, st_ret.
  assert (proposal_qc p = cs_high_qc (w_state w) /\ proposal_view p = v) as [Hq _].
  { rewrite <- (held_view w Hw). unfold make_proposal in Hp. apply bind_ok in Hp as (id & _ & (raw & _ & [= <-])%bind_ok). done. }
  apply (guar_bind holds (gossip_message (MsgPropose p) false) (fun _ => hp p)); [by apply holds_same| |done].
  intros _. apply Hhp. split; [rewrite Hq; apply Hw|]. right. by apply (leads_next Hfit Hnd Htwo).
Qed.

Lemma vote_adds w vote r s :
  held w -> add_vote (w_state w) vote = (r, s) ->
  held (set_w_state s w) /\ forall qc, r = Ok (Some qc) -> qc_view qc = vote_view vote.
Proof.
  intros Hw. unfold add_vote, Aggregator_add_vote. destruct (QCMaker_append _ _ _) as [o m] eqn:Hm. intros [= <- <-]. split.
  - apply (held_ext w); try done; apply Hw.
  - intros qc ->. unfold QCMaker_append in Hm. repeat (case_match; try done). by injection Hm as <- _.
Qed.

Lemma holds_vote_body hp vote :
  vote_view vote <> v -> (forall p, harmless p -> guar holds (hp p)) -> guar holds (handle_vote_body hp vote).
Proof.
  intros Hne Hhp. unfold handle_vote_body. apply guar_bind; [apply _|holds_step|]. intros r.
  apply guar_bind; [apply _|holds_step|]. intros _ w Hw. unfold st_bind at 1, on_state, st_update.
  destruct (add_vote (w_state w) vote) as [r' s] eqn:Hadd. destruct (vote_adds w vote r' s Hw Hadd) as [Hs Hqc].
  unfold st_bind at 1. destruct r' as [[qc|]|e]; cbn [st_lift st_ret]; try exact Hs.
  revert Hs. generalize (set_w_state s w). clear w Hw Hadd.
  refine (guar_bind holds (handle_qc qc) _ _ _); [apply holds_handle_qc; by rewrite (Hqc qc)|].
  intros _ w Hw. unfold st_bind at 1, st_get at 1. rewrite (held_view w Hw).
  unfold st_bind at 1. destruct (view_leader _ _) as [leader|] eqn:Hl; [|exact Hw]. cbn [st_expect st_ret].
  unfold st_bind at 1, st_get at 1. destruct (is_local _ _) eqn:Hi; [|exact Hw].
  pose proof (held_leads w v leader Hw Hl Hi) as Hlead. revert w Hw Hl Hi.
  assert (guar holds (let! o := st_update get_proposal_payload in
    match o with Some payload => propose_next hp payload | None => st_ret tt end)) as Hg; [|intros w Hw _ _; by apply Hg].
  apply guar_bind; [apply _|apply holds_payload|]. intros [payload|]; [|holds_step]. unfold propose_next.
  apply guar_bind; [apply _|holds_step|]. intros hashes. destruct (empty_run _ _ _); [holds_step|].
  do 2 (apply guar_bind; [apply _|holds_step|intros _]). by apply holds_propose.
Qed.

Lemma holds_handlers fuel :
  (forall p, harmless p -> guar holds (handle_proposal fuel p)) /\
  (forall vote, vote_view vote <> v -> guar holds (handle_vote fuel vote)).
Proof.
  induction fuel as [|fuel [IHp IHv]]; [split; intros ? _ w; reflexivity|]. split.
  - intros p Hp. by apply holds_proposal_body.
  - intros vote Hv. by apply holds_vote_body.
Qed.

Lemma holds_generate fuel tc : leads v -> guar holds (generate_proposal fuel tc).
Proof.
  intros Hl. unfold generate_proposal. apply guar_bind; [apply _|apply holds_payload|].
  intros [payload|]; [|holds_step]. apply holds_propose; [done|]. apply holds_handlers.
Qed.

Lemma holds_lead (m : W unit) :
  (leads v -> guar holds m) ->
  guar holds (let! leads := st_get (fun w => is_leader (w_state w)) in
              let! leads := st_expect leads in if leads then m else st_ret tt).
Proof.
  intros Hm w Hw. unfold st_bind at 1, st_get. pose proof (held_leader w Hw) as Hl.
  destruct (is_leader (w_state w)) as [[]|]; try exact Hw. apply Hm; [by apply Hl|done].
Qed.


(** A timeout of another view, or the own one. *)
Definition no_timeout (t : Timeout) : Prop :=
  timeout_view t <> v \/ local_authority_id (identity A ks) = Some (timeout_voter t).

(** The own timeout of view [v] is recorded and completes nothing. *)
Lemma own_timeout agg t m o :
  few_timeouts agg -> local_authority_id (identity A ks) = Some (timeout_voter t) ->
  TCMaker_append (timeout_maker agg v) t A = (o, m) ->
  (forall tc, o <> Ok (Some tc)) /\
  ((exists id, local_authority_id (identity A ks) = Some id /\
      existsb (fun x => bool_decide (x.1.1 = id)) (tcm_votes m) = true) \/
   (u64_add (tcm_weight m) 1 < quorum_weight A)%N).
Proof.
  intros Hfew Hid. unfold TCMaker_append. destruct (existsb _ _) eqn:He.
  - intros [= <- <-]. split; [done|]. left. by exists (timeout_voter t).
  - destruct Hfew as [(id & Hid' & He')|Hlt]; [simplify_eq; congruence|].
    destruct (timeout_signature t) as [sig|]; cbn; [|intros [= <- <-]; split; [done|by right]].
    rewrite (proj2 (N.ltb_lt _ _)) by done. intros [= <- <-]. split; [done|]. left. exists (timeout_voter t).
    split; [done|]. cbn. rewrite existsb_app. cbn. by rewrite bool_decide_true, orb_true_r.
Qed.

Lemma timeout_adds w t r s :
  held w -> no_timeout t -> add_timeout (w_state w) t = (r, s) ->
  held (set_w_state s w) /\ forall tc, r = Ok (Some tc) -> tc_view tc = timeout_view t /\ timeout_view t <> v.
Proof.
  intros Hw Hno. pose proof Hw as [Ha Hk Hv Hq Ht]. unfold add_timeout, Aggregator_add_timeout. rewrite Ha.
  destruct (TCMaker_append _ _ _) as [o m] eqn:Hm. intros [= <- <-].
  destruct (decide (timeout_view t = v)) as [Heq|Hne].
  - destruct Hno as [|Hid]; [done|]. rewrite Heq in Hm. destruct (own_timeout _ t m o Ht Hid Hm) as [Hnone Hfew].
    split; [|by intros tc ->; destruct (Hnone tc)]. constructor; try done. unfold few_timeouts, timeout_maker. cbn.
    by rewrite Heq, lookup_insert_eq.
  - split.
    + apply (held_ext w); try done. unfold timeout_maker. cbn. by rewrite lookup_insert_ne.
    + intros tc ->. split; [|done]. unfold TCMaker_append in Hm. repeat (case_match; try done). by injection Hm as <- _.
Qed.

Lemma holds_timeout fuel t :
  qc_view (timeout_high_qc t) <> v -> no_timeout t -> guar holds (handle_timeout fuel t).
Proof.
  intros Hqc Hno. unfold handle_timeout. apply guar_bind; [apply _|holds_step|]. intros view.
  destruct (_ <? _)%N; [holds_step|]. apply guar_bind; [apply _|holds_step|]. intros r.
  apply guar_bind; [apply _|holds_step|]. intros _. apply guar_bind; [apply _|by apply holds_handle_qc|]. intros _ w Hw.
  unfold st_bind at 1, on_state, st_update.
  destruct (add_timeout (w_state w) t) as [r' s] eqn:Hadd. destruct (timeout_adds w t r' s Hw Hno Hadd) as [Hs Htc].
  unfold st_bind at 1. destruct r' as [[tc|]|e]; cbn [st_lift st_ret]; try exact Hs.
  destruct (Htc tc eq_refl) as [Heq Hne]. rewrite <- Heq in Hne. revert Hs. generalize (set_w_state s w). clear w Hw Hadd.
  intros w Hw. unfold st_bind at 1, st_get at 1. rewrite (held_view w Hw). revert w Hw.
  refine (guar_bind holds _ _ _ _).
  - destruct (N.leb_spec v (tc_view tc)); [|holds_step]. apply guar_bind; [apply _|apply holds_advance; lia|]. intros _. holds_step.
  - intros _. apply guar_bind; [apply _|holds_step|]. intros _. apply holds_lead. intros Hl.
    apply guar_bind; [apply _|holds_step|]. intros _. by apply holds_generate.
Qed.

Lemma holds_local_timer fuel : guar holds (handle_local_timer fuel).
Proof.
  unfold handle_local_timer. apply guar_bind; [apply _|holds_step|]. intros _. apply guar_bind; [apply _| |].
  - intros w Hw. apply (held_ext w); try done. apply Hw.
  - intros _ w Hw. unfold st_bind at 1, st_get at 1. destruct (make_timeout (w_state w)) as [t|e] eqn:Ht; [|exact Hw].
    cbn [st_lift]. unfold st_bind at 1, st_ret.
    apply (guar_bind holds (gossip_message (MsgTimeout t) true) (fun _ => handle_timeout fuel t)); [holds_step|intros _|done].
    unfold make_timeout in Ht. apply bind_ok in Ht as (id & Hid & (raw & _ & [= <-])%bind_ok). apply holds_timeout; [apply Hw|].
    right. cbn. rewrite <- (local_authority_id_ext (w_state w)) by (cbn; apply Hw). by destruct (local_authority_id _); simplify_eq/=.
Qed.

Lemma holds_tc fuel tc : tc_view tc <> v -> guar holds (handle_tc fuel tc).
Proof.
  intros Hne w Hw. unfold handle_tc, st_bind at 1, st_get at 1. destruct (verify_tc _ _) as [[]|e] eqn:Hv; [|exact Hw].
  assert (v < tc_view tc)%N as Hlt.
  { unfold verify_tc in Hv. rewrite (held_view w Hw) in Hv. destruct (N.ltb_spec (tc_view tc) v); [done|lia]. }
  revert w Hw Hv. assert (guar holds (advance_view (tc_view tc) ;! timer_reset ;! st_modify (set_w_processing_block None) ;!
    let! leads := st_get (fun w => is_leader (w_state w)) in
    let! leads := st_expect leads in if leads then generate_proposal fuel None else st_ret tt)) as Hg.
  - apply guar_bind; [apply _|by apply holds_advance|]. intros _. do 2 (apply guar_bind; [apply _|holds_step|intros _]).
    apply holds_lead. by apply holds_generate.
  - intros w Hw _. by apply Hg.
Qed.

(** Events that carry nothing of view [v]. *)
Definition elsewhere (event : Event) : Prop :=
  match event with
  | Message (MsgPropose p) => proposal_view p <> v /\ qc_view (proposal_qc p) <> v
  | Message (MsgVote vote) => vote_view vote <> v
  | Message (MsgTimeout t) => timeout_view t <> v /\ qc_view (timeout_high_qc t) <> v
  | Message (MsgTC tc) => tc_view tc <> v
  | Message _ => True
  | LocalTimer => True
  end.

Lemma holds_event fuel event : elsewhere event -> guar holds (handle_event fuel event).
Proof.
  destruct event as [|[p|vote|t|tc|h id|]]; cbn [handle_event elsewhere].
  - intros _. apply holds_local_timer.
  - intros [Hv Hq]. apply holds_handlers. split; [done|by left].
  - apply holds_handlers.
  - intros [Hv Hq]. apply holds_timeout; [done|by left].
  - apply holds_tc.
  - intros _. holds_step.
  - intros _. holds_step.
Qed.

Lemma run_events_held fuel events w w' :
  held w -> Forall elsewhere events -> run_events fuel w events = Some w' -> held w'.
Proof.
  intros Hw Hev. revert w Hw. induction Hev as [|event events He Hev IH]; intros w Hw; cbn [run_events].
  - by intros [= <-].
  - destruct (run_event fuel w event) as [w1|] eqn:Hr; [|done]. apply IH. pose proof (holds_event fuel event He w Hw) as Hh.
    unfold run_event in Hr. by destruct (handle_event fuel event w) as [[[]|[]] w2]; simplify_eq/=.
Qed.

End pacemaker.

Section staying.
Context `{MessageCodecs} `{!ClientForHotstuff}.
Context `{!AuxStoreLaws} `{!CodecLaws Proposal} `{!KeystoreLaws}.

(** C20: A replica leaves its view only by what is of that view. As long as it
    holds no certificate of its view and too few timeouts of it, it serves any
    sequence of events of other views, verifying certificates of later views and
    its own timer included, and is still in its view at the end: a replica that
    missed what ended its view does not catch up by what comes after. *)
Theorem lagging_replica_stays (A : AuthorityList) (ks : Keystore) (w : Worker) (events : list Event) :
  authorities_fit A -> NoDup (ids A) -> (2 <= length A)%nat -> worker_ok A ks w ->
  (cs_view (w_state w) + 3 < u64_modulus)%N -> qc_view (cs_high_qc (w_state w)) <> cs_view (w_state w) ->
  few_timeouts (A := A) (ks := ks) (v := cs_view (w_state w)) (cs_aggregator (w_state w)) ->
  Forall (elsewhere (v := cs_view (w_state w))) events ->
  exists w', run_events event_fuel w events = Some w' /\ cs_view (w_state w') = cs_view (w_state w) /\
    gv_view (w_network w') = cs_view (w_state w).
Proof.
  intros Hfit Hnd Htwo Hok Hroom Hqc Hfew Hev. set (v := cs_view (w_state w)) in *.
  assert (held (A := A) (ks := ks) (v := v) w) as Hheld by (constructor; try done; apply Hok).
  assert (exists w', run_events event_fuel w events = Some w' /\ worker_ok A ks w') as (w' & Hr & Hok').
  { clearbody v. revert w Hok Hqc Hfew Hheld. induction Hev as [|event events He Hev IH]; intros w Hok Hqc Hfew Hheld.
    - by exists w.
    - pose proof (held_view w Hheld) as Hv.
      destruct (event_served A ks w event event_fuel Hfit Hnd Htwo Hok) as (w1 & _ & Hr1 & Hok1); [by rewrite Hv|done|].
      assert (held (A := A) (ks := ks) (v := v) w1) as Hheld1.
      { apply (run_events_held (v := v) Hfit Hnd Htwo ltac:(lia) event_fuel [event] w); [done|by constructor|].
        cbn [run_events]. by rewrite Hr1. }
      destruct (IH w1 Hok1) as (w' & Hr' & Hok'); [apply Hheld1..|done|]. exists w'. cbn [run_events]. by rewrite Hr1. }
  pose proof (run_events_held (v := v) Hfit Hnd Htwo ltac:(lia) event_fuel events w w' Hheld Hev Hr) as Hh'.
  exists w'. split_and!; [done|apply Hh'|]. rewrite (wo_network _ _ _ Hok'). apply Hh'.
Qed.

End staying.

(** ** Witness *)

(** A replica that voted in view 1 and then is sent the proposal of view 3 with
    the certificate of view 2, and runs into its timer. *)
Definition left_behind : Worker := worker_after [Message (MsgPropose proposal1)] (worker 0).
Definition later_events : list Event := [Message (MsgPropose proposal3); LocalTimer; Message (MsgPropose proposal3); LocalTimer].

Lemma lagging_replica_stays_witness :
  cs_view (w_state left_behind) = 1%N /\
  exists w', run_events event_fuel left_behind later_events = Some w' /\ cs_view (w_state w') = 1%N /\
    gv_view (w_network w') = 1%N.
Proof.
  assert (cs_view (w_state left_behind) = 1%N) as Hv by vm_refl. split; [done|].
  pose proof (lagging_replica_stays four [0%N] left_behind later_events) as Hs. rewrite Hv in Hs. apply Hs.
  - vm_refl.
  - vm_decide.
  - cbn; lia.
  - destruct (run_event_reached four [0%N] ltac:(vm_refl) (Message (MsgPropose proposal1)) (worker 0) left_behind (worker_is_ok 0))
      as [_ Hok]; [by apply worker_after_event; vm_refl|done].
  - done.
  - vm_decide.
  - right. vm_refl.
  - repeat constructor; vm_decide.
Defined.
