(* ===== verification/Safety.v ===== *)
(** * Safety

    The contract of voting, and what it gives the whole network: a worker
    refines the operations of [ConsensusState], so that it votes at most once in
    a view, and two certificates of one view are for the same proposal. *)

From S2P Require Import Prelude Primitives Messages Concrete Quorum Aggregator Synchronizer State Network BlockImport Worker WorkerFacts Replica.
#[local] Open Scope hs_scope.

(** ** Workers refine the operations of the state *)

Section refinement.
Context `{MessageCodecs} `{!ClientForHotstuff}.

Lemma state_ops_app s ops1 ops2 :
  state_ops s (ops1 ++ ops2) =
  ((state_ops s ops1).1 ++ (state_ops (state_ops s ops1).2 ops2).1, (state_ops (state_ops s ops1).2 ops2).2).
Proof.
  revert s. induction ops1 as [|op ops1 IH]; intros s; cbn.
  - by destruct (state_ops s ops2).
  - destruct (state_op s op) as [o s1]. rewrite IH. destruct (state_ops s1 ops1) as [v s2]. cbn.
    by rewrite <- app_assoc.
Qed.

(** The worker moved by calls on its state, and the votes signed on the way are
    those the calls made, in their order. *)
Definition refines (w w' : Worker) : Prop :=
  exists ops new, w_state w' = (state_ops (w_state w) ops).2 /\ w_effects w' = w_effects w ++ new /\
    signed_votes new = (state_ops (w_state w) ops).1.

#[local] Instance refines_refl : Reflexive refines.
Proof. intros w. exists [], []. by rewrite app_nil_r. Qed.

#[local] Instance refines_trans : Transitive refines.
Proof.
  intros w1 w2 w3 (ops1 & n1 & Hs1 & He1 & Hv1) (ops2 & n2 & Hs2 & He2 & Hv2).
  exists (ops1 ++ ops2), (n1 ++ n2). rewrite state_ops_app. cbn. rewrite <- Hs1.
  rewrite He2, He1, app_assoc, signed_votes_app. split_and!; [done|done|by rewrite Hv1, Hv2].
Qed.

Lemma refines_op op w w' :
  state_op (w_state w) op = (None, w_state w') -> w_effects w' = w_effects w -> refines w w'.
Proof. intros Hs He. exists [op], []. cbn [state_ops]. rewrite Hs, He. cbn. by rewrite app_nil_r. Qed.

Lemma refines_same {X} (m : W X) :
  (forall w, w_state (m w).2 = w_state w /\ w_effects (m w).2 = w_effects w) -> guar refines m.
Proof. intros Hm w. destruct (Hm w). exists [], []. by rewrite app_nil_r. Qed.

Lemma refines_emit e : signed_votes [e] = [] -> guar refines (emit e).
Proof. intros He w. exists [], [e]. by rewrite He. Qed.

Lemma refines_lift {X} (r : result HotstuffError X) : guar refines (st_lift r).
Proof. apply refines_same. by destruct r. Qed.

Lemma refines_expect {X} (o : option X) : guar refines (st_expect o : W X).
Proof. apply refines_same. by destruct o. Qed.

Lemma refines_advance v : guar refines (advance_view v).
Proof. intros w. by apply (refines_op (OpAdvance v)). Qed.

Lemma refines_high_qc qc :
  guar refines (st_modify (fun w => set_w_state (update_high_qc (w_state w) qc) w) : W unit).
Proof. intros w. by apply (refines_op (OpUpdateHighQC qc)). Qed.

Lemma refines_last_voted :
  guar refines (st_modify (fun w => set_w_state (increase_last_voted_view (w_state w)) w) : W unit).
Proof. intros w. by apply (refines_op OpIncreaseLastVoted). Qed.

Lemma refines_add_vote v : guar refines (on_state (fun s => add_vote s v)).
Proof.
  intros w. unfold on_state, st_update. destruct (add_vote (w_state w) v) as [r s] eqn:Ha.
  apply (refines_op (OpAddVote v)); cbn; by rewrite ?Ha.
Qed.

Lemma refines_add_timeout t : guar refines (on_state (fun s => add_timeout s t)).
Proof.
  intros w. unfold on_state, st_update. destruct (add_timeout (w_state w) t) as [r s] eqn:Ha.
  apply (refines_op (OpAddTimeout t)); cbn; by rewrite ?Ha.
Qed.

Lemma refines_try_finalize p : guar refines (st_update (try_finalize p) : W _).
Proof.
  intros w. unfold st_update, try_finalize. destruct (get_proposal_ancestors _ _) as [[parent grandpa]|e];
    [|reflexivity].
  destruct (_ =? _)%N; [|reflexivity]. destruct (_ && _); [|reflexivity].
  destruct (client_finalize_block _ _) as [r c]. by eexists [], [_].
Qed.

Lemma refines_save p : guar refines (save p).
Proof.
  apply refines_same. intros w. unfold save, st_bind, st_update. by destruct (save_proposal _ _) as [[]].
Qed.

Lemma refines_payload : guar refines (st_update get_proposal_payload : W _).
Proof.
  apply refines_same. intros w. unfold st_update. pose proof (get_proposal_payload_state w) as Hs. cbn in Hs.
  destruct (get_proposal_payload w) as [o w']. cbn in *. by rewrite Hs.
Qed.

(** A vote is made and signed by one call, and gossiped or handled after it. *)
Lemma refines_vote_on hv p : (forall v, guar refines (hv v)) -> guar refines (vote_on hv p).
Proof.
  intros Hhv w. unfold vote_on, on_state, st_bind at 1, st_update.
  destruct (make_vote (w_state w) p) as [[v|] s] eqn:Hm.
  2:{ apply (refines_op (OpMakeVote p)); cbn; by rewrite ?Hm. }
  unfold st_bind at 1, emit at 1, st_modify at 1, st_bind at 1, st_modify at 1, st_bind at 1, st_modify at 1.
  set (w1 := set_w_processing_block _ _).
  assert (refines w w1) as R1 by (exists [OpMakeVote p], [SignVote v]; cbn; by rewrite Hm).
  unfold st_bind at 1, st_get at 1. unfold st_bind at 1.
  destruct (view_leader _ _) as [leader|]; [|exact R1]. cbn [st_expect st_ret].
  unfold st_bind, st_get. destruct (is_local _ _).
  - etrans; [exact R1|apply Hhv].
  - etrans; [exact R1|by apply refines_emit].
Qed.

Ltac refines_step :=
  first [ by apply refines_emit | apply refines_lift | apply refines_expect | apply refines_try_finalize
        | apply refines_save | apply refines_payload | apply refines_advance | apply refines_high_qc
        | apply refines_last_voted | apply refines_add_vote | apply refines_add_timeout
        | apply refines_same; by intros [] | apply refines_same; intros w; cbn; by case_match
        | apply guar_bind; [apply _| |intros ?] | apply guar_bind; [|intros ?] ].

Lemma refines_handlers fuel :
  (forall p, guar refines (handle_proposal fuel p)) /\ (forall v, guar refines (handle_vote fuel v)).
Proof.
  induction fuel as [|fuel [IHp IHv]]; [by split; intros ? w; reflexivity|].
  split; intros x.
  - change (guar refines (handle_proposal_body (handle_vote fuel) x)).
    unfold handle_proposal_body, check_payload, check_proposal, handle_qc, handle_proposal_tc.
    repeat first [apply refines_vote_on, IHv | refines_step | case_match].
  - change (guar refines (handle_vote_body (handle_proposal fuel) x)).
    unfold handle_vote_body, handle_qc, propose_next. repeat first [apply IHp | refines_step | case_match].
Qed.

Lemma refines_event fuel event : guar refines (handle_event fuel event).
Proof.
  destruct event as [|[p|v|t|tc|h id|]]; cbn [handle_event]; try apply refines_handlers;
    unfold handle_local_timer, handle_timeout, handle_tc, handle_qc, generate_proposal;
    repeat first [apply refines_handlers | refines_step | case_match].
Qed.

Lemma refines_step_ w w' : step w w' -> refines w w'.
Proof.
  intros Hs. destruct Hs as [event w w' Hr|queue client w Hc].
  - pose proof (refines_event event_fuel event w) as Hw. unfold run_event in Hr.
    destruct (handle_event _ _ _) as [[x|[e| |]] w1]; by simplify_eq.
  - exists [], []. by rewrite app_nil_r.
Qed.

Lemma refines_nsteps n w w' : nsteps step n w w' -> refines w w'.
Proof.
  induction 1 as [w|n w w1 w2 Hs Hn IH]; [reflexivity|]. etrans; [by apply refines_step_|done].
Qed.

(** C8: A worker is a refinement of its [ConsensusState]: every run of it, with
    any messages and any interleaving with its environment, changes the state
    only by calls of the state's own operations, and the votes it signs are, in
    order, the votes that those calls made. *)
Theorem worker_refines_state (n : nat) (w w' : Worker) :
  nsteps step n w w' ->
  exists ops, w_state w' = (state_ops (w_state w) ops).2 /\
    signed_votes (new_effects w w') = (state_ops (w_state w) ops).1.
Proof.
  intros (ops & new & Hs & He & Hv)%refines_nsteps. exists ops. split; [done|].
  unfold new_effects. by rewrite He, drop_app_length.
Qed.

End refinement.

(** ** Agreement on certificates *)

Section agreement.
Context `{MessageCodecs} `{!DigestInjective}.

(** The replicas of the network, by authority: where each starts and the calls
    its state serves. *)
Record Replicas := mkReplicas {
  replica_start : AuthorityId -> ConsensusState;
  replica_calls : AuthorityId -> list StateOp;
}.

(** The votes an authority's replica makes. *)
Definition votes_of (r : Replicas) (id : AuthorityId) : list Vote :=
  (state_ops (replica_start r id) (replica_calls r id)).1.

(** Signatures are not forged: one in a certificate that verifies for an
    authority outside [byz] is over a vote that its replica made. *)
Definition unforged (r : Replicas) (byz : list AuthorityId) (q : QC) : Prop :=
  forall id sig, (id, sig) ∈ qc_votes q -> id ∉ byz -> pair_verify sig (QC_digest q) id = true ->
    exists v, v ∈ votes_of r id /\ Vote_digest v = QC_digest q.

Lemma sorted_views_inj votes v v' :
  StronglySorted (fun a b => vote_view a < vote_view b)%N votes -> v ∈ votes -> v' ∈ votes ->
  vote_view v = vote_view v' -> v = v'.
Proof.
  induction 1 as [|x votes Hs IH Hf]; intros Hv Hv' Heq; [by apply elem_of_nil in Hv|].
  rewrite Forall_forall in Hf. apply elem_of_cons in Hv as [->|Hv], Hv' as [->|Hv']; try done.
  - specialize (Hf _ Hv'). lia.
  - specialize (Hf _ Hv). lia.
  - by apply IH.
Qed.

(** With at most a third of the authorities faulty and signatures not
    forged, two certificates of the same view that verify, with authorities as
    their voters, are for the same proposal: a view certifies one proposal. *)
Theorem one_certificate_per_view (A : AuthorityList) (byz : list AuthorityId) (r : Replicas) (q1 q2 : QC) :
  (length (faulty A byz) <= max_faulty A)%nat -> unforged r byz q1 -> unforged r byz q2 ->
  QC_verify q1 A = Ok tt -> QC_verify q2 A = Ok tt ->
  (qc_votes q1).*1 ⊆ ids A -> (qc_votes q2).*1 ⊆ ids A ->
  qc_view q1 = qc_view q2 -> qc_proposal_hash q1 = qc_proposal_hash q2.
Proof.
  intros Hb Hu1 Hu2 Hv1 Hv2 Hs1 Hs2 Hview.
  pose proof (proj1 (QC_verify_ok q1 A) Hv1) as [Hq1 _]. pose proof (proj1 (QC_verify_ok q2 A) Hv2) as [Hq2 _].
  destruct (quorum_overlap_honest A _ _ byz Hq1 Hq2 Hs1 Hs2 Hb) as (id & Hid & Hi1 & Hi2).
  destruct (qc_vote_verifies q1 A id Hv1 Hi1) as (s1 & Hin1 & Hp1).
  destruct (qc_vote_verifies q2 A id Hv2 Hi2) as (s2 & Hin2 & Hp2).
  destruct (Hu1 id s1 Hin1 Hid Hp1) as (v1 & Hm1 & Hd1).
  destruct (Hu2 id s2 Hin2 Hid Hp2) as (v2 & Hm2 & Hd2).
  apply (vote_digest_inj v1 (mkVote (qc_proposal_hash q1) (qc_view q1) id None)) in Hd1 as [Hh1 Hw1].
  apply (vote_digest_inj v2 (mkVote (qc_proposal_hash q2) (qc_view q2) id None)) in Hd2 as [Hh2 Hw2].
  cbn in *. assert (v1 = v2) as ->; [|congruence].
  eapply sorted_views_inj; [apply state_ops_votes|exact Hm1|exact Hm2|congruence].
Qed.

End agreement.

(** ** What voting does not check *)

Section unlocked.
Context `{MessageCodecs} `{!KeystoreLaws}.

(** [make_vote] decides by the view alone: a replica with an authority key
    votes exactly for the proposals of a view above the last one it voted in.
    Neither the certificate of the proposal nor the replica's own highest
    certificate has a part in it. *)
Theorem make_vote_exact (s : ConsensusState) (p : Proposal) :
  is_Some (make_vote s p).1 <->
  is_Some (local_authority_id s) /\ (cs_last_voted_view s < proposal_view p)%N.
Proof.
  split.
  - intros [v Hv]. destruct (make_vote s p) as [o s'] eqn:Hm. cbn in Hv. subst o.
    apply make_vote_some in Hm as (id & raw & Hid & Hlt & _). split; [by exists id|done].
  - intros [[id Hid] Hlt]. unfold make_vote. rewrite Hid, (proj2 (N.leb_gt _ _)) by lia. cbn.
    destruct (local_sign s id (Vote_digest (Vote_new (Proposal_digest p) (proposal_view p) id)) Hid)
      as (raw & sig & -> & _). by eexists.
Qed.

End unlocked.

(** ** Witnesses *)

Lemma worker_refines_state_witness :
  let w' := worker_after chain_events (worker 0) in
  exists ops, w_state w' = (state_ops (replica 0) ops).2 /\
    signed_votes (new_effects (worker 0) w') = (state_ops (replica 0) ops).1.
Proof.
  apply (worker_refines_state 3 (worker 0)). apply (worker_after_steps chain_events); vm_refl.
Defined.

(** Four replicas that each vote for the first proposal; the last one is faulty. *)
Definition voting_replicas : Replicas := mkReplicas replica (fun _ => [OpMakeVote proposal1]).

Lemma voting_unforged voters :
  Forall (fun id => id ∈ [0; 1; 2; 3]%N) voters ->
  unforged voting_replicas [3%N] (certificate (Proposal_digest proposal1) 1 voters).
Proof.
  intros Hvoters id sig Hin _ _. apply list_elem_of_fmap in Hin as (id' & Heq & Hin).
  injection Heq as -> _. rewrite Forall_forall in Hvoters. specialize (Hvoters _ Hin).
  exists (signed_vote (Proposal_digest proposal1) 1 id'). split; [|done].
  repeat (apply elem_of_cons in Hvoters as [->|Hvoters]; [apply (list_elem_of_lookup_2 _ 0); vm_refl|]).
  by apply elem_of_nil in Hvoters.
Qed.

Lemma one_certificate_per_view_witness :
  qc_proposal_hash (certificate (Proposal_digest proposal1) 1 [0; 1; 2]%N) =
  qc_proposal_hash (certificate (Proposal_digest proposal1) 1 [1; 2; 3]%N).
Proof.
  apply (one_certificate_per_view four [3%N] voting_replicas);
    [vm_decide|apply voting_unforged; vm_decide|apply voting_unforged; vm_decide|vm_refl|vm_refl|vm_decide|vm_decide|done].
Defined.

Lemma make_vote_exact_witness :
  is_Some (make_vote (replica 0) proposal1).1 <->
  is_Some (local_authority_id (replica 0)) /\ (0 < proposal_view proposal1)%N.
Proof. apply (make_vote_exact (replica 0) proposal1). Defined.
