(* ===== verification/Authentic.v ===== *)
(** * Authentic

    Where the signatures in a worker come from. The adversary has some keys: those
    of the faulty authorities, and any number of others that belong to no
    authority. Relative to the votes that the correct replicas have signed, a
    certificate is authentic when every valid signature in it, by a key that is not
    the adversary's, is over one of them. This is unforgeability and nothing more:
    who signs a certificate with the adversary's keys is not restricted.
    A worker that is handed authentic messages keeps and sends only authentic
    certificates, through every handler. *)

From S2P Require Import Prelude Primitives Messages Concrete Quorum Aggregator Synchronizer State Network BlockImport Worker WorkerFacts Replica Handlers.
#[local] Open Scope hs_scope.

Section authentic.
Context `{MessageCodecs} `{!ClientForHotstuff}.
Variables (A : AuthorityList) (byz : list AuthorityId) (V : list Vote).

(** The authority signed a vote with this digest. *)
Definition made (id : AuthorityId) (d : Hash) : Prop :=
  exists v, v ∈ V /\ vote_voter v = id /\ Vote_digest v = d.

(** A signature over the digest of a vote: when it is valid and the key is not the
    adversary's, the owner of the key made the vote. *)
Definition entry_auth (d : Hash) (entry : AuthorityId * AuthoritySignature) : Prop :=
  entry.1 ∉ byz -> pair_verify entry.2 d entry.1 = true -> made entry.1 d.

Definition qc_auth (q : QC) : Prop := Forall (entry_auth (QC_digest q)) (qc_votes q).

Definition vote_auth (v : Vote) : Prop :=
  forall sig, vote_signature v = Some sig -> vote_voter v ∉ byz ->
    pair_verify sig (Vote_digest v) (vote_voter v) = true -> made (vote_voter v) (Vote_digest v).

Definition message_auth (m : ConsensusMessage) : Prop :=
  match m with
  | MsgPropose p => qc_auth (proposal_qc p)
  | MsgVote v => vote_auth v
  | MsgTimeout t => qc_auth (timeout_high_qc t)
  | _ => True
  end.

Definition aggregator_auth (agg : Aggregator) : Prop :=
  forall view d, Forall (entry_auth d) (qcm_votes (vote_maker agg view d)).

Context (ks : Keystore).

(** A checked proposal with an authentic certificate. *)
Definition proposal_auth (p : Proposal) : Prop := valid_proposal A ks p /\ qc_auth (proposal_qc p).

Definition store_auth (c : Client) : Prop :=
  forall h data p, client_get_aux c (hash_as_ref h) = Ok (Some data) -> decode data = Ok p ->
    proposal_auth p /\ Proposal_digest p = h.

(** A block finalized by a proposal of [view]: the proposal has a child in the
    next view which has a child of its own, all checked and with authentic
    certificates; [q] is the certificate of the proposal. *)
Definition finalized_in (view : ViewNumber) (h : Hash) (q : QC) : Prop :=
  exists child parent grandpa,
    proposal_auth child /\ proposal_auth parent /\ proposal_auth grandpa /\
    Proposal_parent_hash child = Proposal_digest parent /\
    Proposal_parent_hash parent = Proposal_digest grandpa /\
    proposal_view parent = u64_add (proposal_view grandpa) 1 /\
    proposal_view grandpa = view /\ h = block_hash (proposal_payload grandpa) /\ q = proposal_qc parent.

(** What a signed vote is for. *)
Definition vote_for (v : Vote) : Prop :=
  local_authority_id (identity A ks) = Some (vote_voter v) /\
  exists p, proposal_auth p /\ vote_proposal_hash v = Proposal_digest p /\ vote_view v = proposal_view p.

Definition effect_auth (e : Effect) : Prop :=
  match e with
  | Gossip m _ => message_auth m
  | SignVote v => vote_for v
  | FinalizeCall h => exists view q, finalized_in view h q
  | _ => True
  end.

Record worker_auth (w : Worker) : Prop := {
  wa_authorities : cs_authorities (w_state w) = A;
  wa_keystore : cs_keystore (w_state w) = ks;
  wa_aggregator : aggregator_auth (cs_aggregator (w_state w));
  wa_high_qc : qc_auth (cs_high_qc (w_state w));
  wa_store : store_auth (w_client w);
  wa_effects : Forall effect_auth (w_effects w);
}.

(** The votes the worker signed are among those accounted for. *)
Definition logged (w : Worker) : Prop := signed_votes (w_effects w) ⊆ V.

(** [keeps F m G]: given [F], [m] keeps a worker authentic and its answer
    satisfies [G], provided the votes it signs are accounted for. *)
Definition keeps {X} (F : Prop) (m : W X) (G : X -> Prop) : Prop :=
  forall w, wp m
    (fun x w' => effects_grow w w' /\ (logged w' -> worker_auth w -> F -> worker_auth w' /\ G x))
    (fun _ w' => effects_grow w w' /\ (logged w' -> worker_auth w -> F -> worker_auth w')) w.

End authentic.

(** ** More votes *)

Section more.
Context `{MessageCodecs} `{!ClientForHotstuff}.
Context {A : AuthorityList} {byz : list AuthorityId} {V V' : list Vote} (HV : V ⊆ V').

Lemma entry_auth_mono d e : entry_auth byz V d e -> entry_auth byz V' d e.
Proof.
  intros Hm Hb Hv. destruct (Hm Hb Hv) as (v & Hi & Hrest).
  exists v. split; [by apply HV|done].
Qed.

Lemma qc_auth_mono q : qc_auth byz V q -> qc_auth byz V' q.
Proof. intros Hq. eapply Forall_impl; [exact Hq|]. apply entry_auth_mono. Qed.

Lemma message_auth_mono m : message_auth byz V m -> message_auth byz V' m.
Proof.
  destruct m; cbn; try done; try apply qc_auth_mono. intros Hv sig Hs Hb Hp.
  destruct (Hv sig Hs Hb Hp) as (v' & Hi & Hrest). exists v'. split; [by apply HV|done].
Qed.

Context {ks : Keystore}.

Lemma proposal_auth_mono p : proposal_auth A byz V ks p -> proposal_auth A byz V' ks p.
Proof. intros [? ?]. split; [done|by apply qc_auth_mono]. Qed.

Lemma finalized_in_mono view h q : finalized_in A byz V ks view h q -> finalized_in A byz V' ks view h q.
Proof.
  intros (c & p & g & Hc & Hp & Hg & Hrest). exists c, p, g. eauto 10 using proposal_auth_mono.
Qed.

Lemma effect_auth_mono e : effect_auth A byz V ks e -> effect_auth A byz V' ks e.
Proof.
  destruct e; cbn; try done; [apply message_auth_mono| |].
  - intros (Hid & p & Hp & Hrest). split; [done|]. exists p. eauto using proposal_auth_mono.
  - intros (view & q & Hf). exists view, q. by apply finalized_in_mono.
Qed.

Lemma worker_auth_mono w : worker_auth A byz V ks w -> worker_auth A byz V' ks w.
Proof.
  intros [? ? Ha Hq Hs He]. constructor; try done.
  - intros view d. eapply Forall_impl; [apply Ha|]. apply entry_auth_mono.
  - by apply qc_auth_mono.
  - intros h data p Hg Hd. destruct (Hs h data p Hg Hd). split; [by apply proposal_auth_mono|done].
  - eapply Forall_impl; [exact He|]. apply effect_auth_mono.
Qed.

End more.

(** ** Rules *)

Section rules.
Context `{MessageCodecs} `{!ClientForHotstuff}.
Context {A : AuthorityList} {byz : list AuthorityId} {V : list Vote} {ks : Keystore}.
#[local] Abbreviation keeps := (keeps A byz V ks).
#[local] Abbreviation worker_auth := (worker_auth A byz V ks).

Lemma logged_grow w w' : effects_grow w w' -> logged V w' -> logged V w.
Proof.
  unfold effects_grow, logged. intros [new ->]. rewrite signed_votes_app. set_solver.
Qed.

Lemma keeps_bind {X Y} F (m : W X) (k : X -> W Y) G G' :
  keeps F m G -> (forall x, keeps (F /\ G x) (k x) G') -> keeps F (let! x := m in k x) G'.
Proof.
  intros Hm Hk w. apply wp_bind. eapply wp_mono; [apply Hm|..]; cbn.
  - intros x w1 [Hg1 H1']. eapply wp_mono; [apply Hk|..]; cbn.
    + intros y w2 [Hg2 H2']. split; [by etrans|]. intros Hl Hw HF. apply H2'; [done|..].
      * by apply H1'; [eapply logged_grow|..].
      * split; [done|]. by apply H1'; [eapply logged_grow|..].
    + intros y w2 [Hg2 H2']. split; [by etrans|]. intros Hl Hw HF. apply H2'; [done|..].
      * by apply H1'; [eapply logged_grow|..].
      * split; [done|]. by apply H1'; [eapply logged_grow|..].
  - intros x w1 [Hg1 H1']. by split.
Qed.

Lemma keeps_mono {X} (F F' : Prop) (m : W X) (G G' : X -> Prop) :
  keeps F m G -> (F' -> F) -> (forall x, F' -> G x -> G' x) -> keeps F' m G'.
Proof.
  intros Hm HF HG w. eapply wp_mono; [apply Hm|..]; cbn; intros x w1 [? Hk]; split; try done.
  - intros Hl Hw HF'. destruct (Hk Hl Hw (HF HF')). split; [done|by apply HG].
  - intros Hl Hw HF'. by apply Hk; [..|apply HF].
Qed.

(** A computation that leaves the worker alone. *)
Lemma keeps_pure {X} F (m : W X) (G : X -> Prop) :
  (forall w, (m w).2 = w) -> (forall w x, (m w).1 = Val x -> worker_auth w -> F -> G x) -> keeps F m G.
Proof.
  intros Hm HG w. unfold wp. specialize (Hm w). specialize (HG w). destruct (m w) as [[x|x] w1]; cbn in *; subst w1.
  - split; [reflexivity|]. intros _ Hw HF. split; [done|by apply HG].
  - by split; [reflexivity|].
Qed.

Lemma keeps_ret {X} (F : Prop) (x : X) (G : X -> Prop) : (F -> G x) -> keeps F (st_ret x) G.
Proof. intros HG. apply keeps_pure; [done|]. by intros w ? [= ->] _. Qed.

Lemma keeps_get {X} (F : Prop) (f : Worker -> X) (G : X -> Prop) :
  (forall w, worker_auth w -> F -> G (f w)) -> keeps F (st_get f) G.
Proof. intros HG. apply keeps_pure; [done|]. intros w ? [= <-]. apply HG. Qed.

Lemma keeps_lift {X} F (r : result HotstuffError X) : keeps F (st_lift r) (fun x => r = Ok x).
Proof. apply keeps_pure; destruct r; [done..| |done]. by intros w ? [= ->]. Qed.

Lemma keeps_expect {X} F (o : option X) : keeps F (st_expect o) (fun x => o = Some x).
Proof. apply keeps_pure; destruct o; [done..| |done]. by intros w ? [= ->]. Qed.

Lemma keeps_throw {X} F e (G : X -> Prop) : keeps F (st_throw e) G.
Proof. by apply keeps_pure. Qed.

(** An effect; a vote that was signed is accounted for afterwards. *)
Lemma keeps_emit (F : Prop) e :
  (F -> effect_auth A byz V ks e) -> keeps F (emit e) (fun _ => signed_votes [e] ⊆ V).
Proof.
  intros He w. apply wp_modify. split; [by exists [e]|]. unfold logged. intros Hl Hw HF. split.
  - destruct Hw. constructor; try done. cbn. apply Forall_app. split; [done|]. by constructor; [apply He|].
  - change (signed_votes (w_effects w ++ [e]) ⊆ V) in Hl. rewrite signed_votes_app in Hl. set_solver.
Qed.

(** A change of the state that keeps its certificates. *)
Lemma keeps_modify F f :
  (forall w, worker_auth w -> F -> worker_auth (f w)) -> (forall w, w_effects (f w) = w_effects w) ->
  keeps F (st_modify f : W unit) (fun _ => True).
Proof.
  intros Hf He w. apply wp_modify. split; [unfold effects_grow; by rewrite He|]. intros _ Hw HF.
  split; [by apply Hf|done].
Qed.

Lemma keeps_on_state {X} F (f : ConsensusState -> X * ConsensusState) (G : X -> Prop) :
  (forall w, worker_auth w -> F -> let '(x, s) := f (w_state w) in worker_auth (set_w_state s w) /\ G x) ->
  keeps F (on_state f) G.
Proof.
  intros Hf w. apply wp_update. specialize (Hf w). destruct (f (w_state w)) as [x s]. cbn.
  split; [unfold effects_grow; reflexivity|]. intros _ Hw HF. by apply Hf.
Qed.

End rules.

(** ** Handlers *)

Section handlers.
Context `{MessageCodecs} `{!ClientForHotstuff} `{!AuxStoreLaws} `{!CodecLaws Proposal}.
Context {A : AuthorityList} {byz : list AuthorityId} {V : list Vote} {ks : Keystore}.
#[local] Abbreviation keeps := (keeps A byz V ks).
#[local] Abbreviation worker_auth := (worker_auth A byz V ks).
#[local] Abbreviation qc_auth := (qc_auth byz V).
#[local] Abbreviation proposal_auth := (proposal_auth A byz V ks).

Lemma wa_identity w p : worker_auth w -> verify_proposal (w_state w) p = verify_proposal (identity A ks) p.
Proof.
  intros [Ha Hk _ _ _ _]. unfold verify_proposal. rewrite (view_leader_ext _ (identity A ks)) by done.
  by rewrite Ha.
Qed.

Lemma keeps_state F f :
  (forall s, cs_authorities (f s) = cs_authorities s /\ cs_keystore (f s) = cs_keystore s /\
             cs_aggregator (f s) = cs_aggregator s) ->
  (forall s, F -> qc_auth (cs_high_qc s) -> qc_auth (cs_high_qc (f s))) ->
  keeps F (st_modify (fun w => set_w_state (f (w_state w)) w) : W unit) (fun _ => True).
Proof.
  intros Hf Hq. apply keeps_modify; [|done]. intros w [Ha Hk Hg Hh Hs He] HF.
  destruct (Hf (w_state w)) as (Ea & Ek & Eg). constructor; cbn; rewrite ?Ea, ?Ek, ?Eg; auto.
Qed.

Lemma keeps_advance F v : keeps F (advance_view v) (fun _ => True).
Proof.
  apply keeps_modify; [|done]. intros w [Ha Hk Hg Hh Hs He] _. unfold advance_view_from_target.
  destruct (_ <=? _)%N; by constructor.
Qed.

Lemma keeps_handle_qc (F : Prop) q : (F -> qc_auth q) -> keeps F (handle_qc q) (fun _ => True).
Proof.
  intros Hq. unfold handle_qc. eapply keeps_bind; [by apply (keeps_get _ _ (fun _ => True))|]. intros view.
  destruct (_ <=? _)%N; [|by apply keeps_ret].
  eapply keeps_bind; [apply keeps_advance|]. intros [].
  eapply keeps_bind.
  - apply (keeps_state _ (fun s => update_high_qc s q)).
    + intros s. unfold update_high_qc. by destruct (_ <? _)%N.
    + intros s HF Hs. unfold update_high_qc. destruct (_ <? _)%N; [cbn; tauto|done].
  - intros []. eapply keeps_mono; [by apply (keeps_emit True)|done..].
Qed.

Lemma keeps_save F p : (F -> proposal_auth p) -> keeps F (save p) (fun _ => True).
Proof.
  intros Hp. unfold save. eapply (keeps_bind _ _ _ (fun _ => True)); [|intros r; eapply keeps_mono; [apply keeps_lift|done..]].
  intros w. apply wp_update. unfold save_proposal, Store_set.
  destruct (client_insert_aux _ _ _) as [r c] eqn:Hi. cbn. split; [unfold effects_grow; reflexivity|].
  intros _ [Ha Hk Hg Hh Hs He] HF. split; [|exact I]. constructor; try done. cbn. intros h data q Hget Hdec.
  destruct r as [[]|e].
  - rewrite (insert_aux_get _ _ _ _ _ Hi) in Hget. case_decide as Heq; [|by apply (Hs h data)].
    apply hash_as_ref_inj in Heq as <-. injection Hget as <-. rewrite decode_encode in Hdec.
    injection Hdec as <-. by split; [apply Hp|].
  - rewrite (insert_aux_err _ _ _ _ _ _ Hi) in Hget. by apply (Hs h data).
Qed.

Lemma stored_parent c p q :
  store_auth A byz V ks c -> get_proposal_parent c p = Ok q ->
  proposal_auth q /\ Proposal_parent_hash p = Proposal_digest q.
Proof.
  intros Hs. unfold get_proposal_parent, Store_get.
  destruct (client_get_aux _ _) as [[data|]|e] eqn:Hg; cbn; [|done..].
  destruct (decode data) as [p'|e] eqn:Hd; cbn; [|done]. intros [= <-].
  destruct (Hs _ _ _ Hg Hd) as [? ?]. by split.
Qed.

Lemma keeps_try_finalize (F : Prop) p :
  (F -> proposal_auth p) -> keeps F (st_update (try_finalize p)) (fun _ => True).
Proof.
  intros Hp w. apply wp_update. unfold try_finalize.
  destruct (get_proposal_ancestors _ _) as [[parent grandpa]|e] eqn:Hanc; [|by split].
  destruct (N.eqb_spec (proposal_view parent) (u64_add (proposal_view grandpa) 1)); [|by split].
  destruct (_ && _); [|by split]. destruct (client_finalize_block _ _) as [r c] eqn:Hf. cbn.
  split; [by eexists|]. intros _ [Ha Hk Hg Hh Hs He] HF. split; [|done]. constructor; try done; cbn.
  - intros h data q. pose proof (finalize_block_get (w_client w) (block_hash (proposal_payload grandpa))
      (hash_as_ref h)) as Hget. rewrite Hf in Hget. cbn in Hget. rewrite Hget. apply Hs.
  - apply Forall_app. split; [done|]. constructor; [|constructor]. cbn.
    unfold get_proposal_ancestors in Hanc.
    apply bind_ok in Hanc as (q & Hq & (g & Hgp & [= <- <-])%bind_ok).
    destruct (stored_parent _ _ _ Hs Hq) as [Hqa Hql]. destruct (stored_parent _ _ _ Hs Hgp) as [Hga Hgl].
    exists (proposal_view g), (proposal_qc q), p, q, g. split_and!; try done; by apply Hp.
Qed.

(** *** Voting *)

Lemma add_vote_auth s v r s' :
  cs_authorities s = A -> aggregator_auth byz V (cs_aggregator s) -> vote_auth byz V v ->
  Vote_verify v A = Ok tt -> add_vote s v = (r, s') ->
  s' = set_cs_aggregator (cs_aggregator s') s /\ aggregator_auth byz V (cs_aggregator s') /\
  (forall qc, r = Ok (Some qc) -> qc_auth qc).
Proof.
  intros HA Hagg Hv (Hin & sig & Hsig & Hp)%Vote_verify_ok. unfold add_vote. rewrite HA.
  pose proof (vote_maker_add (cs_aggregator s) v A) as Hm. pose proof (add_vote_answer (cs_aggregator s) v A) as Ha.
  destruct (Aggregator_add_vote (cs_aggregator s) v A) as [r' agg']. cbn in Hm, Ha. intros [= <- <-].
  split; [done|]. unfold QCMaker_append in Hm, Ha.
  assert (Forall (entry_auth byz V (Vote_digest v))
    (qcm_votes (vote_maker (cs_aggregator s) (vote_view v) (Vote_digest v)) ++ [(vote_voter v, sig)])) as Hpush.
  { apply Forall_app. split; [apply Hagg|]. constructor; [|constructor]. cbn. intros Hb _.
    by apply (Hv sig). }
  rewrite Hsig in Hm, Ha. cbn [set_cs_aggregator cs_aggregator]. split.
  - intros view d. rewrite Hm. case_decide as Heq; [destruct Heq as [-> ->]|apply Hagg].
    destruct (existsb _ _); [apply Hagg|]. by destruct (_ <? _)%N.
  - intros qc ->. destruct (existsb _ _); [done|]. destruct (_ <? _)%N; [done|]. cbn in Ha.
    injection Ha as ->. exact Hpush.
Qed.

Lemma keeps_add_vote (F : Prop) v :
  (F -> vote_auth byz V v /\ Vote_verify v A = Ok tt) ->
  keeps F (on_state (fun s => add_vote s v)) (fun r => forall qc, r = Ok (Some qc) -> qc_auth qc).
Proof.
  intros Hv. apply keeps_on_state. intros w [Ha Hk Hg Hh Hs He] HF. destruct (Hv HF) as [Hva Hver].
  destruct (add_vote (w_state w) v) as [r s] eqn:Hadd.
  destruct (add_vote_auth _ _ _ _ Ha Hg Hva Hver Hadd) as (Heq & Hagg & Hqc). rewrite Heq.
  split; [|done]. by constructor.
Qed.

Lemma keeps_add_timeout F t : keeps F (on_state (fun s => add_timeout s t)) (fun _ => True).
Proof.
  apply keeps_on_state. intros w [Ha Hk Hg Hh Hs He] HF. unfold add_timeout.
  pose proof (vote_maker_add_timeout (cs_aggregator (w_state w)) t (cs_authorities (w_state w))) as Hm.
  destruct (Aggregator_add_timeout _ _ _) as [r agg]. cbn in Hm. split; [|done]. constructor; try done.
  intros view d. cbn. rewrite Hm. apply Hg.
Qed.

Lemma keeps_frame F f :
  (forall w, w_state (f w) = w_state w /\ w_client (f w) = w_client w /\ w_effects (f w) = w_effects w) ->
  keeps F (st_modify f : W unit) (fun _ => True).
Proof.
  intros Hf. apply keeps_modify; [|by intros w; apply Hf]. intros w [? ? ? ? ? ?] _.
  destruct (Hf w) as (Hs & Hc & He). by constructor; rewrite ?Hs, ?Hc, ?He.
Qed.

Lemma keeps_payload F : keeps F (st_update get_proposal_payload) (fun _ => True).
Proof.
  intros w. apply wp_update. pose proof (get_proposal_payload_state w) as Hs. cbn in Hs.
  destruct (get_proposal_payload w) as [o w']. cbn in *. rewrite Hs.
  split; [unfold effects_grow; reflexivity|]. intros _ [? ? ? ? ? ?] _. split; [by constructor|done].
Qed.

Lemma keeps_make_vote F p :
  keeps F (on_state (fun s => make_vote s p))
    (fun o => forall v, o = Some v -> local_authority_id (identity A ks) = Some (vote_voter v) /\
       vote_proposal_hash v = Proposal_digest p /\ vote_view v = proposal_view p).
Proof.
  apply keeps_on_state. intros w [Ha Hk Hg Hh Hs He] HF.
  pose proof (make_vote_state (w_state w) p) as [Hst _]. pose proof (make_vote_some (w_state w) p) as Hsome.
  destruct (make_vote (w_state w) p) as [o s]. cbn in Hst. split; [rewrite Hst; by constructor|].
  intros v ->. destruct (Hsome v s eq_refl) as (id & raw & Hid & _ & _ & -> & _). cbn. split; [|done].
  by rewrite <- (local_authority_id_ext (w_state w)).
Qed.

Lemma signed_vote_auth v : signed_votes [SignVote v] ⊆ V -> vote_auth byz V v.
Proof. intros Hv sig _ _ _. exists v. split; [apply Hv; cbn; set_solver|done]. Qed.

(** One command of a handler; what it says about the answer stays available to
    the rest. *)
Ltac keeps_unit := eapply keeps_mono; [by apply (keeps_emit True)|done..].
Ltac keeps_next := intro; cbn beta.

Lemma keeps_vote_on (F : Prop) (hv : Vote -> W unit) p :
  (forall v, keeps (vote_auth byz V v) (hv v) (fun _ => True)) -> (F -> proposal_auth p) ->
  keeps F (vote_on hv p) (fun _ => True).
Proof.
  intros Hhv Hp. unfold vote_on. eapply keeps_bind; [apply keeps_make_vote|]. intros [v|]; [|by apply keeps_ret].
  eapply keeps_bind.
  { apply (keeps_emit _ (SignVote v)). intros [HF Hv]. destruct (Hv v eq_refl) as (Hid & Hh & Hw).
    split; [done|]. exists p. split_and!; auto. }
  keeps_next. eapply keeps_bind; [by apply keeps_frame|]. keeps_next.
  eapply keeps_bind; [by apply keeps_frame|]. keeps_next.
  eapply keeps_bind; [by apply (keeps_get _ _ (fun _ => True))|]. keeps_next.
  eapply keeps_bind; [apply keeps_expect|]. keeps_next.
  eapply keeps_bind; [by apply (keeps_get _ _ (fun _ => True))|]. intros [].
  - eapply keeps_mono; [apply Hhv|intros Hall|done]. by apply signed_vote_auth, Hall.
  - eapply keeps_mono; [apply (keeps_emit (vote_auth byz V v)); by cbn|intros Hall|done].
    by apply signed_vote_auth, Hall.
Qed.

Lemma keeps_check_payload F p : keeps F (check_payload p) (fun _ => True).
Proof.
  unfold check_payload. destruct (negb _); [|by apply keeps_ret].
  eapply keeps_bind; [by apply (keeps_get _ _ (fun _ => True))|]. intros [status|e]; [|apply keeps_throw].
  destruct (decide _); [|by apply keeps_ret].
  eapply keeps_bind; [by apply keeps_emit|]. keeps_next. by apply keeps_ret.
Qed.

Lemma keeps_check_proposal F p : keeps F (check_proposal p) (fun _ => valid_proposal A ks p).
Proof.
  unfold check_proposal.
  eapply keeps_bind.
  { apply (keeps_get _ _ (fun r => r = verify_proposal (identity A ks) p)). intros w Hw _. by apply wa_identity. }
  keeps_next. eapply keeps_bind; [apply keeps_expect|]. intros r.
  eapply keeps_mono; [apply keeps_lift|done|]. cbn. intros [] Hall ->. unfold valid_proposal.
  destruct Hall as ((_ & <-) & ->). done.
Qed.

Lemma keeps_handle_proposal_body (hv : Vote -> W unit) p :
  (forall v, keeps (vote_auth byz V v) (hv v) (fun _ => True)) ->
  keeps (qc_auth (proposal_qc p)) (handle_proposal_body hv p) (fun _ => True).
Proof.
  intros Hhv. unfold handle_proposal_body.
  eapply keeps_bind; [apply keeps_check_payload|]. intros []; cbn [negb]; [|by apply keeps_ret].
  eapply keeps_bind; [apply keeps_check_proposal|]. keeps_next.
  eapply keeps_bind; [apply keeps_handle_qc; tauto|]. keeps_next.
  eapply (keeps_bind _ _ _ (fun _ => True)).
  { apply (keeps_mono True _ _ (fun _ => True)); [|done..]. unfold handle_proposal_tc.
    destruct (proposal_tc p) as [tc|]; [|by apply keeps_ret].
    eapply keeps_bind; [by apply (keeps_get _ _ (fun _ => True))|]. keeps_next.
    destruct (_ <? _)%N; [|by apply keeps_ret].
    eapply keeps_bind; [apply keeps_advance|]. keeps_next. keeps_unit. }
  keeps_next. eapply keeps_bind; [apply keeps_save; unfold Authentic.proposal_auth; tauto|]. keeps_next.
  eapply keeps_bind; [apply keeps_try_finalize; unfold Authentic.proposal_auth; tauto|]. keeps_next.
  eapply keeps_bind; [by apply (keeps_get _ _ (fun _ => True))|]. keeps_next.
  destruct (negb _); [by apply keeps_ret|]. apply keeps_vote_on; [done|]. unfold Authentic.proposal_auth. tauto.
Qed.

(** What a replica proposes or says on a timeout carries its own certificate. *)
Lemma keeps_make_proposal F payload tc :
  keeps F (st_get (fun w => make_proposal (w_state w) payload tc))
    (fun r => forall p, r = Ok p -> qc_auth (proposal_qc p)).
Proof.
  apply keeps_get. intros w Hw _ p. unfold make_proposal.
  intros (id & _ & (raw & _ & [= <-])%bind_ok)%bind_ok. apply Hw.
Qed.

Lemma keeps_gossip_proposal (F : Prop) (hp : Proposal -> W unit) p :
  (forall p, keeps (qc_auth (proposal_qc p)) (hp p) (fun _ => True)) -> (F -> qc_auth (proposal_qc p)) ->
  keeps F (gossip_message (MsgPropose p) false ;! hp p) (fun _ => True).
Proof.
  intros Hhp HF. eapply keeps_bind; [by apply keeps_emit|]. keeps_next.
  eapply keeps_mono; [apply Hhp|tauto|done].
Qed.

Lemma keeps_propose_next F (hp : Proposal -> W unit) payload :
  (forall p, keeps (qc_auth (proposal_qc p)) (hp p) (fun _ => True)) ->
  keeps F (propose_next hp payload) (fun _ => True).
Proof.
  intros Hhp. unfold propose_next. eapply keeps_bind; [by apply (keeps_get _ _ (fun _ => True))|]. keeps_next.
  destruct (empty_run _ _ _); [by apply keeps_ret|].
  eapply keeps_bind; [apply keeps_frame; intros w; by destruct (_ <? _)%nat|]. keeps_next.
  eapply keeps_bind; [by apply keeps_frame|]. keeps_next.
  eapply keeps_bind; [apply keeps_make_proposal|]. keeps_next.
  eapply keeps_bind; [apply keeps_lift|]. keeps_next.
  apply keeps_gossip_proposal; [done|]. intros ((_ & Hq) & Heq). by apply Hq.
Qed.

Lemma keeps_handle_vote_body (hp : Proposal -> W unit) v :
  (forall p, keeps (qc_auth (proposal_qc p)) (hp p) (fun _ => True)) ->
  keeps (vote_auth byz V v) (handle_vote_body hp v) (fun _ => True).
Proof.
  intros Hhp. unfold handle_vote_body.
  eapply keeps_bind.
  { apply (keeps_get _ _ (fun r => r = Ok tt -> Vote_verify v A = Ok tt)). intros w Hw _. unfold verify_vote.
    rewrite (wa_authorities _ _ _ _ _ Hw). by destruct (_ <? _)%N. }
  keeps_next. eapply keeps_bind; [apply keeps_lift|]. intros [].
  eapply keeps_bind; [apply keeps_add_vote; tauto|]. keeps_next.
  eapply keeps_bind; [apply keeps_lift|]. intros [qc|]; [|by apply keeps_ret].
  eapply keeps_bind; [apply keeps_handle_qc; intros ((_ & Hq) & Heq); by apply Hq|]. keeps_next.
  eapply keeps_bind; [by apply (keeps_get _ _ (fun _ => True))|]. keeps_next.
  eapply keeps_bind; [apply keeps_expect|]. keeps_next.
  eapply keeps_bind; [by apply (keeps_get _ _ (fun _ => True))|]. intros []; [|by apply keeps_ret].
  eapply keeps_bind; [apply keeps_payload|]. intros [payload|]; [|by apply keeps_ret].
  by apply keeps_propose_next.
Qed.

Lemma keeps_handlers fuel :
  (forall p, keeps (qc_auth (proposal_qc p)) (handle_proposal fuel p) (fun _ => True)) /\
  (forall v, keeps (vote_auth byz V v) (handle_vote fuel v) (fun _ => True)).
Proof.
  induction fuel as [|fuel [IHp IHv]].
  - split; intros ? w; apply wp_nofuel; (split; [unfold effects_grow; reflexivity|done]).
  - split; intros x; [by apply keeps_handle_proposal_body|by apply keeps_handle_vote_body].
Qed.

Lemma keeps_generate F fuel tc : keeps F (generate_proposal fuel tc) (fun _ => True).
Proof.
  unfold generate_proposal. eapply keeps_bind; [apply keeps_payload|]. intros [payload|]; [|by apply keeps_ret].
  eapply keeps_bind; [apply keeps_make_proposal|]. keeps_next.
  eapply keeps_bind; [apply keeps_lift|]. keeps_next.
  apply keeps_gossip_proposal; [apply keeps_handlers|]. intros ((_ & Hq) & Heq). by apply Hq.
Qed.

Lemma keeps_handle_timeout fuel t :
  keeps (qc_auth (timeout_high_qc t)) (handle_timeout fuel t) (fun _ => True).
Proof.
  unfold handle_timeout. eapply keeps_bind; [by apply (keeps_get _ _ (fun _ => True))|]. keeps_next.
  destruct (_ <? _)%N; [by apply keeps_ret|].
  eapply keeps_bind; [by apply (keeps_get _ _ (fun _ => True))|]. keeps_next.
  eapply keeps_bind; [apply keeps_lift|]. keeps_next.
  eapply keeps_bind; [apply keeps_handle_qc; tauto|]. keeps_next.
  eapply keeps_bind; [apply keeps_add_timeout|]. keeps_next.
  eapply keeps_bind; [apply keeps_lift|]. intros [tc|]; [|by apply keeps_ret].
  eapply keeps_bind; [by apply (keeps_get _ _ (fun _ => True))|]. intros view.
  eapply (keeps_bind _ _ _ (fun _ => True)).
  { destruct (_ <=? _)%N; [|by apply keeps_ret]. eapply keeps_bind; [apply keeps_advance|]. keeps_next. keeps_unit. }
  keeps_next. eapply keeps_bind; [by apply keeps_emit|]. keeps_next.
  eapply keeps_bind; [by apply (keeps_get _ _ (fun _ => True))|]. keeps_next.
  eapply keeps_bind; [apply keeps_expect|]. intros []; [|by apply keeps_ret].
  eapply keeps_bind; [by apply keeps_frame|]. keeps_next. apply keeps_generate.
Qed.

Lemma keeps_handle_tc F fuel tc : keeps F (handle_tc fuel tc) (fun _ => True).
Proof.
  unfold handle_tc. eapply keeps_bind; [by apply (keeps_get _ _ (fun _ => True))|]. keeps_next.
  eapply keeps_bind; [apply keeps_lift|]. keeps_next.
  eapply keeps_bind; [apply keeps_advance|]. keeps_next.
  eapply keeps_bind; [by apply keeps_emit|]. keeps_next.
  eapply keeps_bind; [by apply keeps_frame|]. keeps_next.
  eapply keeps_bind; [by apply (keeps_get _ _ (fun _ => True))|]. keeps_next.
  eapply keeps_bind; [apply keeps_expect|]. intros []; [apply keeps_generate|by apply keeps_ret].
Qed.

Lemma keeps_handle_local_timer F fuel : keeps F (handle_local_timer fuel) (fun _ => True).
Proof.
  unfold handle_local_timer. eapply keeps_bind; [by apply keeps_emit|]. keeps_next.
  eapply keeps_bind; [by apply keeps_state|]. keeps_next.
  eapply keeps_bind.
  { apply (keeps_get _ _ (fun r => forall t, r = Ok t -> qc_auth (timeout_high_qc t))).
    intros w Hw _ t. unfold make_timeout.
    intros (id & _ & (raw & _ & [= <-])%bind_ok)%bind_ok. apply Hw. }
  keeps_next. eapply keeps_bind; [apply keeps_lift|]. intros t.
  eapply keeps_bind; [apply keeps_emit; intros ((_ & Hq) & Heq); by apply Hq|]. keeps_next.
  eapply keeps_mono; [apply keeps_handle_timeout|intros (((_ & Hq) & Heq) & _); by apply Hq|done].
Qed.

Definition event_auth (event : Event) : Prop :=
  match event with LocalTimer => True | Message m => message_auth byz V m end.

Lemma keeps_handle_event fuel event : keeps (event_auth event) (handle_event fuel event) (fun _ => True).
Proof.
  destruct event as [|[p|v|t|tc|h id|]]; cbn [handle_event event_auth message_auth].
  - apply keeps_handle_local_timer.
  - apply keeps_handlers.
  - apply keeps_handlers.
  - apply keeps_handle_timeout.
  - apply keeps_handle_tc.
  - by apply keeps_ret.
  - by apply keeps_ret.
Qed.

(** Serving an authentic event keeps a worker authentic. *)
Lemma run_event_auth fuel w event w' :
  run_event fuel w event = Some w' -> event_auth event -> worker_auth w -> logged V w' ->
  effects_grow w w' /\ worker_auth w'.
Proof.
  intros Hr He Hw Hl. pose proof (keeps_handle_event fuel event w) as Hk. unfold wp, run_event in *.
  destruct (handle_event fuel event w) as [[x|[e| |]] w1]; simplify_eq; destruct Hk as [Hg Hk];
    (split; [done|]); by apply Hk.
Qed.

Lemma worker_auth_new client queue :
  store_auth A byz V ks client ->
  worker_auth (ConsensusWorker_new (ConsensusState_new ks A) client GossipValidator_new queue).
Proof.
  intros Hs. constructor; cbn; try done.
  - intros view d. unfold vote_maker. cbn. rewrite lookup_empty. cbn. rewrite lookup_empty. constructor.
  - constructor.
Qed.

End handlers.
