(* ===== verification/System.v ===== *)
(** * System

    The network: the replicas that are not faulty, each a worker behind its
    gossip validator and message channel, the data sent so far, and an adversary
    that has the keys of the faulty authorities and any others, and sends anything
    it can without forging a signature of another key. Messages may be lost,
    repeated and reordered. *)

From S2P Require Import Prelude Primitives Messages Concrete Quorum Aggregator Synchronizer State Network BlockImport Worker WorkerFacts Replica Handlers Safety Authentic.
#[local] Open Scope hs_scope.

Section system.
Context `{MessageCodecs} `{!ClientForHotstuff}.

(** A replica: the worker task, and the channel from the network task to it. *)
Record Node := mkNode { node_worker : Worker; node_channel : list ConsensusMessage }.

(** The replicas that are not faulty, and all data sent, oldest first. *)
Record System := mkSystem { sys_nodes : gmap AuthorityId Node; sys_sent : list bytes }.

Definition set_node (id : AuthorityId) (n : Node) (s : System) : System :=
  mkSystem (<[id := n]> (sys_nodes s)) (sys_sent s).

Definition send (data : list bytes) (s : System) : System := mkSystem (sys_nodes s) (sys_sent s ++ data).

(** What is gossiped among some effects, as it is sent. *)
Definition gossiped (effects : list Effect) : list bytes :=
  omap (fun e => match e with Gossip m _ => Some (encode m) | _ => None end) effects.

(** The votes signed by the replicas. *)
Definition sys_votes (s : System) : list Vote :=
  mjoin ((fun kv => signed_votes (w_effects (node_worker kv.2))) <$> map_to_list (sys_nodes s)).

(** What a worker served: its node takes the rest of the channel and the new
    gossip is sent. *)
Definition served (id : AuthorityId) (n : Node) (w' : Worker) (rest : list ConsensusMessage) (s : System) : System :=
  send (gossiped (new_effects (node_worker n) w')) (set_node id (mkNode w' rest) s).

(** [byz] lists the keys of the adversary. *)
Variables (A : AuthorityList) (byz : list AuthorityId) (send_error : string).

(** A step: data that was sent arrives in the channel of a replica, whatever its
    gossip filter made of it; a worker takes the next message or its timer fires; the client and the queue
    task of a replica move on; the adversary, when it has a key, sends data in which
    no signature of another key is forged. *)
Inductive sys_step : System -> System -> Prop :=
| sys_arrive id n data s :
    sys_nodes s !! id = Some n -> data ∈ sys_sent s ->
    sys_step s (set_node id (mkNode (node_worker n) (poll_messages send_error (node_channel n) [data])) s)
| sys_message id n m rest w' s :
    sys_nodes s !! id = Some n -> node_channel n = m :: rest ->
    run_event event_fuel (node_worker n) (Message m) = Some w' -> sys_step s (served id n w' rest s)
| sys_timer id n w' s :
    sys_nodes s !! id = Some n -> run_event event_fuel (node_worker n) LocalTimer = Some w' ->
    sys_step s (served id n w' (node_channel n) s)
| sys_environment id n queue client s :
    sys_nodes s !! id = Some n ->
    (forall k, client_get_aux client k = client_get_aux (w_client (node_worker n)) k) ->
    sys_step s (set_node id (mkNode (set_w_queue queue (set_w_client client (node_worker n))) (node_channel n)) s)
| sys_faulty data s :
    byz <> [] -> (forall m, decode data = Ok m -> message_auth byz (sys_votes s) m) ->
    sys_step s (send [data] s).

(** The start: each replica holds the key of its authority, no proposals are
    stored and nothing was sent. *)
Record initial (s : System) : Prop := {
  initial_sent : sys_sent s = [];
  initial_node : forall id n, sys_nodes s !! id = Some n -> node_channel n = [] /\
    exists ks client queue,
      node_worker n = ConsensusWorker_new (ConsensusState_new ks A) client GossipValidator_new queue /\
      local_authority_id (identity A ks) = Some id /\
      forall h data, client_get_aux client (hash_as_ref h) <> Ok (Some data);
}.

(** The certificates around: those the replicas hold, those of the proposals they
    stored, and those in what was sent. *)
Inductive certificate_in (s : System) : QC -> Prop :=
| in_high_qc id n : sys_nodes s !! id = Some n -> certificate_in s (cs_high_qc (w_state (node_worker n)))
| in_store id n h data p : sys_nodes s !! id = Some n ->
    client_get_aux (w_client (node_worker n)) (hash_as_ref h) = Ok (Some data) -> decode data = Ok p ->
    certificate_in s (proposal_qc p)
| in_proposal data p : data ∈ sys_sent s -> decode data = Ok (MsgPropose p) -> certificate_in s (proposal_qc p)
| in_timeout data t : data ∈ sys_sent s -> decode data = Ok (MsgTimeout t) -> certificate_in s (timeout_high_qc t).

(** The states the network can reach. *)
Definition reachable (s : System) : Prop := exists s0, initial s0 /\ rtc sys_step s0 s.

(** ** The invariant *)

Record node_ok (V : list Vote) (id : AuthorityId) (ks : Keystore) (n : Node) : Prop := {
  no_local : local_authority_id (identity A ks) = Some id;
  no_worker : worker_ok A ks (node_worker n);
  no_auth : worker_auth A byz V ks (node_worker n);
  no_channel : Forall (message_auth byz V) (node_channel n);
  no_room : (length (node_channel n) <= channel_capacity)%nat;
  no_sorted : StronglySorted (fun a b => vote_view a < vote_view b)%N (signed_votes (w_effects (node_worker n)));
  no_voted : Forall (fun v => vote_view v <= cs_last_voted_view (w_state (node_worker n)))%N
               (signed_votes (w_effects (node_worker n)));
}.

Record system_ok (s : System) : Prop := {
  so_nodes : forall id n, sys_nodes s !! id = Some n -> exists ks, node_ok (sys_votes s) id ks n;
  so_sent : Forall (fun data => forall m, decode data = Ok m -> message_auth byz (sys_votes s) m) (sys_sent s);
}.

End system.

Section invariant.
Context `{MessageCodecs} `{!ClientForHotstuff}.
Context `{!AuxStoreLaws} `{!CodecLaws Proposal} `{!CodecLaws ConsensusMessage} `{!KeystoreLaws}.
Context {A : AuthorityList} {byz : list AuthorityId} {send_error : string} (Hfit : authorities_fit A).
#[local] Abbreviation node_ok := (node_ok A byz).
#[local] Abbreviation system_ok := (system_ok A byz).
Implicit Types (s : System) (n : Node).

Lemma elem_of_sys_votes s v :
  v ∈ sys_votes s <->
  exists id n, sys_nodes s !! id = Some n /\ v ∈ signed_votes (w_effects (node_worker n)).
Proof.
  unfold sys_votes. rewrite list_elem_of_join. split.
  - intros (l & Hv & Hl). apply list_elem_of_fmap in Hl as ([id n] & -> & Hin).
    apply elem_of_map_to_list in Hin. eauto.
  - intros (id & n & Hn & Hv). eexists. split; [exact Hv|]. apply list_elem_of_fmap. exists (id, n).
    by rewrite elem_of_map_to_list.
Qed.

(** A node whose effects grow adds its votes and loses none. *)
Lemma sys_votes_set id n n' s :
  sys_nodes s !! id = Some n -> effects_grow (node_worker n) (node_worker n') ->
  sys_votes s ⊆ sys_votes (set_node id n' s) /\
  signed_votes (w_effects (node_worker n')) ⊆ sys_votes (set_node id n' s).
Proof.
  intros Hn [new Hg]. split.
  - intros v (j & nj & Hj & Hv)%elem_of_sys_votes. apply elem_of_sys_votes. cbn.
    destruct (decide (id = j)) as [<-|Hne].
    + exists id, n'. rewrite lookup_insert_eq. split; [done|]. simplify_eq.
      rewrite Hg, signed_votes_app. set_solver.
    + exists j, nj. by rewrite lookup_insert_ne.
  - intros v Hv. apply elem_of_sys_votes. exists id, n'. cbn. by rewrite lookup_insert_eq.
Qed.

Lemma node_ok_mono V V' id ks n : V ⊆ V' -> node_ok V id ks n -> node_ok V' id ks n.
Proof.
  intros HV [Hl Hw Ha Hc Hr Hs Hv]. constructor; try done.
  - by eapply worker_auth_mono.
  - eapply Forall_impl; [exact Hc|]. intros m. by apply message_auth_mono.
Qed.

(** Replacing one node and sending more data. *)
Lemma system_ok_set id n n' ks data s :
  system_ok s -> sys_nodes s !! id = Some n -> effects_grow (node_worker n) (node_worker n') ->
  node_ok (sys_votes (set_node id n' s)) id ks n' ->
  Forall (fun data => forall m, decode data = Ok m -> message_auth byz (sys_votes (set_node id n' s)) m) data ->
  system_ok (send data (set_node id n' s)).
Proof.
  intros [Hnodes Hsent] Hn Hg Hok Hdata. destruct (sys_votes_set id n n' s Hn Hg) as [HV _].
  constructor.
  - intros j nj. cbn. destruct (decide (id = j)) as [<-|Hne].
    + rewrite lookup_insert_eq. intros [= <-]. by exists ks.
    + rewrite lookup_insert_ne by done. intros Hj. destruct (Hnodes j nj Hj) as [ksj Hj'].
      exists ksj. by eapply node_ok_mono.
  - cbn. apply Forall_app. split; [|done]. eapply Forall_impl; [exact Hsent|]. cbn. intros d Hd m Hm.
    eapply message_auth_mono; [exact HV|]. by apply Hd.
Qed.

Lemma gossiped_auth V ks effects :
  Forall (effect_auth A byz V ks) effects ->
  Forall (fun data => forall m, decode data = Ok m -> message_auth byz V m) (gossiped effects).
Proof.
  intros Hf. apply Forall_forall. intros data Hd. apply list_elem_of_omap in Hd as (e & He & Hd).
  rewrite Forall_forall in Hf. specialize (Hf e He). destruct e as [m force| | | |]; try done.
  injection Hd as <-. intros m'. rewrite decode_encode. by intros [= <-].
Qed.

Lemma since_grow ks w k w' : since A ks w k w' -> effects_grow w w'.
Proof. intros [_ _ _ _ (new & He & _)]. exists new. done. Qed.

Lemma event_auth_mono V V' event :
  V ⊆ V' -> event_auth (byz := byz) (V := V) event -> event_auth (byz := byz) (V := V') event.
Proof. intros HV. destruct event; cbn; [done|]. by apply message_auth_mono. Qed.

(** The votes of a worker after an event are still in order. *)
Lemma since_sorted ks w k w' :
  since A ks w k w' ->
  StronglySorted (fun a b => vote_view a < vote_view b)%N (signed_votes (w_effects w)) ->
  Forall (fun v => vote_view v <= cs_last_voted_view (w_state w))%N (signed_votes (w_effects w)) ->
  StronglySorted (fun a b => vote_view a < vote_view b)%N (signed_votes (w_effects w')) /\
  Forall (fun v => vote_view v <= cs_last_voted_view (w_state w'))%N (signed_votes (w_effects w')).
Proof.
  intros [_ Hl _ _ (new & He & _ & Hs & Hb)] Hsort Hle. rewrite He, signed_votes_app.
  rewrite Forall_forall in Hle. rewrite Forall_forall in Hb. split.
  - apply StronglySorted_app_intro; [done..|]. intros x y Hx Hy. specialize (Hle x Hx). specialize (Hb y Hy). lia.
  - apply Forall_app. split; apply Forall_forall; intros v Hv; [specialize (Hle v Hv)|specialize (Hb v Hv)]; lia.
Qed.

(** A worker serves an event. *)
Lemma served_ok id n event w' rest s :
  system_ok s -> sys_nodes s !! id = Some n -> run_event event_fuel (node_worker n) event = Some w' ->
  event_auth (byz := byz) (V := sys_votes s) event -> rest `suffix_of` node_channel n ->
  system_ok (served id n w' rest s).
Proof.
  intros Hs Hn Hr He [pre Hrest]. destruct (so_nodes _ _ _ Hs id n Hn) as [ks [Hl Hw Ha Hc Hroom Hsort Hle]].
  destruct (run_event_reached A ks Hfit event _ _ Hw Hr) as [Hsince Hok'].
  pose proof (since_grow _ _ _ _ Hsince) as Hg.
  destruct (sys_votes_set id n (mkNode w' rest) s Hn Hg) as [HV Hlog].
  destruct (run_event_auth (A := A) (byz := byz) (ks := ks) (V := sys_votes (set_node id (mkNode w' rest) s))
    event_fuel _ event w' Hr) as [_ Ha'];
    [by apply (event_auth_mono (sys_votes s))|by apply (worker_auth_mono HV)|done|].
  destruct (since_sorted _ _ _ _ Hsince Hsort Hle) as [Hsort' Hle'].
  rewrite Hrest in Hc, Hroom. apply Forall_app in Hc as [_ Hc]. rewrite length_app in Hroom.
  apply (system_ok_set id n _ ks); try done.
  - constructor; try done; cbn; [|lia]. eapply Forall_impl; [exact Hc|]. intros m. by apply message_auth_mono.
  - apply (gossiped_auth _ ks). destruct Hg as [new Hg]. unfold new_effects. rewrite Hg, drop_app_length.
    pose proof (wa_effects _ _ _ _ _ Ha') as Heff. rewrite Hg in Heff. by apply Forall_app in Heff as [_ ?].
Qed.

Lemma poll_one channel data :
  poll_messages send_error channel [data] = channel \/
  exists m, decode data = Ok m /\ poll_messages send_error channel [data] = channel ++ [m] /\
    (length channel < channel_capacity)%nat.
Proof.
  unfold poll_messages, incoming_message_handler. cbn [foldl]. destruct (decode data) as [m|e]; [|by left].
  destruct (Nat.ltb_spec (length channel) channel_capacity); [|by left]. right. by exists m.
Qed.

(** A node that changes neither what it sent nor what it signed. *)
Lemma quiet_ok id n n' s :
  system_ok s -> sys_nodes s !! id = Some n ->
  w_effects (node_worker n') = w_effects (node_worker n) ->
  (forall V ks, sys_votes s ⊆ V -> node_ok V id ks n -> node_ok V id ks n') ->
  system_ok (set_node id n' s).
Proof.
  intros Hs Hn He Hok. destruct (so_nodes _ _ _ Hs id n Hn) as [ks Hk].
  assert (effects_grow (node_worker n) (node_worker n')) as Hg by (unfold effects_grow; by rewrite He).
  destruct (sys_votes_set id n n' s Hn Hg) as [HV _].
  replace (set_node id n' s) with (send [] (set_node id n' s))
    by (unfold send, set_node; cbn; by rewrite app_nil_r).
  apply (system_ok_set id n _ ks); try done. apply Hok; [done|]. by eapply node_ok_mono.
Qed.

Lemma sys_step_ok s s' : sys_step byz send_error s s' -> system_ok s -> system_ok s'.
Proof.
  intros Hstep Hs. destruct Hstep as [id n data s Hn Hd|id n m rest w' s Hn Hc Hr|id n w' s Hn Hr
    |id n queue client s Hn Hc|data s _ Hd].
  - apply (quiet_ok id n); [done..|]. intros V ks HV [Hl Hw Ha Hch Hroom Hsort Hle].
    destruct (poll_one (node_channel n) data) as [->|(m & Hm & -> & Hlt)]; [by constructor|].
    constructor; try done; cbn; [|rewrite length_app; cbn; lia].
    apply Forall_app. split; [done|]. constructor; [|constructor]. eapply message_auth_mono; [exact HV|].
    pose proof (so_sent _ _ _ Hs) as Hsent. rewrite Forall_forall in Hsent. by apply (Hsent data).
  - apply (served_ok id n (Message m)); try done; [|rewrite Hc; by apply suffix_cons_r].
    destruct (so_nodes _ _ _ Hs id n Hn) as [ks Hk]. cbn. pose proof (no_channel _ _ _ _ _ _ Hk) as Hf.
    rewrite Hc in Hf. by apply Forall_cons in Hf as [? _].
  - by apply (served_ok id n LocalTimer).
  - apply (quiet_ok id n); [done..|]. intros V ks HV [Hl Hw Ha Hch Hroom Hsort Hle]. constructor; try done; cbn.
    + destruct Hw as [? ? ? ? ? Hst]. constructor; try done. intros h data p. cbn. rewrite Hc. apply Hst.
    + destruct Ha as [? ? ? ? Hst ?]. constructor; try done. intros h data p. cbn. rewrite Hc. apply Hst.
  - destruct Hs as [Hn Hsent]. constructor; [exact Hn|]. cbn. apply Forall_app. by split; [|constructor].
Qed.

Lemma initial_ok s : initial A s -> system_ok s.
Proof.
  intros [Hsent Hn]. constructor; [|by rewrite Hsent].
  intros id n Hid. destruct (Hn id n Hid) as (Hc & ks & client & queue & Hw & Hl & Hst).
  exists ks. constructor; rewrite ?Hc, ?Hw; try done; cbn.
  - apply worker_ok_new. intros h data p Hg. by apply Hst in Hg.
  - apply worker_auth_new. intros h data p Hg. by apply Hst in Hg.
  - lia.
  - constructor.
Qed.

Lemma reachable_ok s : reachable A byz send_error s -> system_ok s.
Proof.
  intros (s0 & H0' & Hr). apply initial_ok in H0'. induction Hr; [done|]. eauto using sys_step_ok.
Qed.

End invariant.

(** ** Agreement *)

Section agreement.
Context `{MessageCodecs} `{!ClientForHotstuff} `{!DigestInjective} `{!ProposalDigests}.
Context {A : AuthorityList} {byz : list AuthorityId} (Hbyz : (length (faulty A byz) <= max_faulty A)%nat).
#[local] Abbreviation system_ok := (system_ok A byz).
Implicit Types (s : System).

(** The votes a replica signed are its own. *)
Lemma node_vote_for s id n v :
  system_ok s -> sys_nodes s !! id = Some n -> v ∈ signed_votes (w_effects (node_worker n)) ->
  vote_voter v = id /\ exists ks, node_ok A byz (sys_votes s) id ks n /\ vote_for A byz (sys_votes s) ks v.
Proof.
  intros Hs Hn Hv. destruct (so_nodes _ _ _ Hs id n Hn) as [ks Hk].
  apply list_elem_of_omap in Hv as (e & He & Hev). destruct e; try done. injection Hev as ->.
  pose proof (wa_effects _ _ _ _ _ (no_auth _ _ _ _ _ _ Hk)) as Heff. rewrite Forall_forall in Heff.
  specialize (Heff _ He). cbn in Heff. split; [|by exists ks].
  pose proof (no_local _ _ _ _ _ _ Hk). destruct Heff as [Hid _]. congruence.
Qed.

(** A vote among those of the network, with the replica that signed it. *)
Lemma sys_vote_signed s v :
  system_ok s -> v ∈ sys_votes s ->
  exists n ks, sys_nodes s !! vote_voter v = Some n /\ v ∈ signed_votes (w_effects (node_worker n)) /\
    node_ok A byz (sys_votes s) (vote_voter v) ks n /\ vote_for A byz (sys_votes s) ks v.
Proof.
  intros Hs (id & n & Hn & Hv)%elem_of_sys_votes.
  destruct (node_vote_for s id n v Hs Hn Hv) as (<- & ks & Hk & Hfor). by exists n, ks.
Qed.

(** A replica votes once in a view. *)
Lemma sys_vote_unique s v v' :
  system_ok s -> v ∈ sys_votes s -> v' ∈ sys_votes s -> vote_voter v = vote_voter v' ->
  vote_view v = vote_view v' -> v = v'.
Proof.
  intros Hs Hv Hv' Hid Hview.
  destruct (sys_vote_signed s v Hs Hv) as (n & ks & Hn & Hi & Hk & _).
  destruct (sys_vote_signed s v' Hs Hv') as (n' & ks' & Hn' & Hi' & _ & _).
  rewrite Hid in Hn. simplify_eq. by apply (sorted_views_inj _ v v' (no_sorted _ _ _ _ _ _ Hk)).
Qed.

(** A voter of an authentic certificate that is not faulty voted for it. *)
Lemma qc_auth_voted V q id :
  qc_auth byz V q -> QC_verify q A = Ok tt -> id ∈ (qc_votes q).*1 -> id ∉ byz ->
  exists v, v ∈ V /\ vote_voter v = id /\ vote_proposal_hash v = qc_proposal_hash q /\ vote_view v = qc_view q.
Proof.
  intros Hq Hver Hin Hb. destruct (qc_vote_verifies q A id Hver Hin) as (sig & Hs & Hp).
  unfold qc_auth in Hq. rewrite Forall_forall in Hq. destruct (Hq _ Hs Hb Hp) as (v & Hv & Hid & Hd). exists v.
  apply (vote_digest_inj v (mkVote (qc_proposal_hash q) (qc_view q) id None)) in Hd as [? ?]. by split_and!.
Qed.

(** A verified certificate has a quorum of authorities, or is signed by a key of
    the adversary that belongs to none. *)
Lemma certificate_backed s q :
  system_ok s -> qc_auth byz (sys_votes s) q -> QC_verify q A = Ok tt -> authority_quorum A q \/ outsider_signed A byz q.
Proof.
  intros Hs Hq Hver. destruct (authority_quorum_or A q Hver) as [?|(id & Hin & Hid)]; [by left|right].
  exists id. split_and!; try done. destruct (decide (id ∈ byz)) as [|Hb]; [done|exfalso]. apply Hid.
  destruct (qc_auth_voted _ q id Hq Hver Hin Hb) as (v & Hv & <- & _).
  destruct (sys_vote_signed s v Hs Hv) as (n & ks & _ & _ & Hk & _). by apply (local_authority_id_some (identity A ks)), Hk.
Qed.

(** Two certificates, each with a quorum of authorities, share a correct voter. *)
Lemma qc_auth_overlap V q q' :
  qc_auth byz V q -> QC_verify q A = Ok tt -> authority_quorum A q ->
  qc_auth byz V q' -> QC_verify q' A = Ok tt -> authority_quorum A q' ->
  exists v v', v ∈ V /\ v' ∈ V /\ vote_voter v = vote_voter v' /\
    vote_proposal_hash v = qc_proposal_hash q /\ vote_view v = qc_view q /\
    vote_proposal_hash v' = qc_proposal_hash q' /\ vote_view v' = qc_view q'.
Proof.
  intros Hq Hver Hquo Hq' Hver' Hquo'.
  destruct (authority_quorum_of A q Hver Hquo) as [Hn Hm]. destruct (authority_quorum_of A q' Hver' Hquo') as [Hn' Hm'].
  destruct (quorum_overlap_honest A _ _ byz Hn Hn' Hm Hm' Hbyz) as (id & Hid & Hi%authority_voters_in & Hi'%authority_voters_in).
  destruct (qc_auth_voted V q id Hq Hver Hi Hid) as (v & ? & ? & ? & ?).
  destruct (qc_auth_voted V q' id Hq' Hver' Hi' Hid) as (v' & ? & ? & ? & ?).
  exists v, v'. split_and!; congruence.
Qed.

Lemma certificates_agree s q q' :
  system_ok s -> qc_auth byz (sys_votes s) q -> QC_verify q A = Ok tt -> authority_quorum A q ->
  qc_auth byz (sys_votes s) q' -> QC_verify q' A = Ok tt -> authority_quorum A q' ->
  qc_view q = qc_view q' -> qc_proposal_hash q = qc_proposal_hash q'.
Proof.
  intros Hs Hq Hver Hquo Hq' Hver' Hquo' Hview.
  destruct (qc_auth_overlap _ q q' Hq Hver Hquo Hq' Hver' Hquo') as (v & v' & Hv & Hv' & Hid & Hh & Hw & Hh' & Hw').
  assert (v = v') as -> by (apply (sys_vote_unique s); [done..|congruence]). congruence.
Qed.

(** A proposal that a quorum of authorities certified was checked by a correct
    replica, and the certificate is of its view. *)
Lemma certified_checked s q :
  system_ok s -> qc_auth byz (sys_votes s) q -> QC_verify q A = Ok tt -> authority_quorum A q ->
  exists v p ks, v ∈ sys_votes s /\ vote_proposal_hash v = Proposal_digest p /\ vote_view v = proposal_view p /\
    proposal_auth A byz (sys_votes s) ks p /\ Proposal_digest p = qc_proposal_hash q /\ proposal_view p = qc_view q.
Proof.
  intros Hs Hq Hver Hquo. destruct (qc_auth_overlap _ q q Hq Hver Hquo Hq Hver Hquo) as (v & _ & Hv & _ & _ & Hh & Hw & _).
  destruct (sys_vote_signed s v Hs Hv) as (n & ks & _ & _ & _ & _ & p & Hp & Hph & Hpw).
  exists v, p, ks. split_and!; congruence || done.
Qed.

(** The certificate a child carries for its parent. *)
Lemma child_certificate s ks child parent :
  system_ok s -> proposal_auth A byz (sys_votes s) ks child -> Proposal_parent_hash child = Proposal_digest parent ->
  QC_verify (proposal_qc child) A = Ok tt /\ qc_auth byz (sys_votes s) (proposal_qc child) /\
  (authority_quorum A (proposal_qc child) -> qc_view (proposal_qc child) = proposal_view parent).
Proof.
  intros Hs [Hval Hq] Hlink. destruct (valid_proposal_qc child Hval (A := A) (ks := ks)) as [Hd|Hver].
  - exfalso. apply andb_prop in Hd as [Hd _]. apply bool_decide_eq_true in Hd.
    apply (proposal_digest_default parent). unfold Proposal_parent_hash in Hlink. cbn in Hd. congruence.
  - split_and!; [done..|]. intros Hquo. destruct (certified_checked s _ Hs Hq Hver Hquo) as (v & p & ks' & _ & _ & _ & _ & Hdig & Hw).
    rewrite <- Hw. unfold Proposal_parent_hash in Hlink. rewrite Hlink in Hdig.
    by apply proposal_digest_inj in Hdig as (_ & ? & _).
Qed.

Lemma finality_agrees s ks ks' view h h' q q' :
  system_ok s -> finalized_in A byz (sys_votes s) ks view h q -> finalized_in A byz (sys_votes s) ks' view h' q' ->
  authority_quorum A q -> authority_quorum A q' -> h = h'.
Proof.
  intros Hs (c & p & g & Hc & Hp & Hg & Hcp & Hpg & _ & Hv & -> & ->)
    (c' & p' & g' & Hc' & Hp' & Hg' & Hcp' & Hpg' & _ & Hv' & -> & ->) Hquo Hquo'.
  destruct (child_certificate s ks p g Hs Hp Hpg) as (Hver & Hq & Hw). specialize (Hw Hquo).
  destruct (child_certificate s ks' p' g' Hs Hp' Hpg') as (Hver' & Hq' & Hw'). specialize (Hw' Hquo').
  assert (Proposal_digest g = Proposal_digest g') as Hdig.
  { unfold Proposal_parent_hash in Hpg, Hpg'. rewrite <- Hpg, <- Hpg'. by apply (certificates_agree s); [..|congruence]. }
  by apply proposal_digest_inj in Hdig as (-> & _).
Qed.

End agreement.

(** ** Runs by a list of actions *)

Section actions.
Context `{MessageCodecs} `{!ClientForHotstuff}.
Variables (A : AuthorityList) (byz : list AuthorityId) (send_error : string).

(** The [k]-th data sent arrives at a replica; a replica serves the next message
    of its channel; its timer fires. *)
Inductive Action : Type :=
| Arrive (id : AuthorityId) (k : nat)
| Serve (id : AuthorityId)
| Fire (id : AuthorityId).

Definition act (s : System) (a : Action) : option System :=
  match a with
  | Arrive id k =>
      n ← sys_nodes s !! id; data ← sys_sent s !! k;
      match validate (w_network (node_worker n)) data with
      | Discard => None
      | ProcessAndKeep _ =>
          Some (set_node id (mkNode (node_worker n) (poll_messages send_error (node_channel n) [data])) s)
      end
  | Serve id =>
      n ← sys_nodes s !! id;
      match node_channel n with
      | [] => None
      | m :: rest =>
          w' ← run_event event_fuel (node_worker n) (Message m); Some (served id n w' rest s)
      end
  | Fire id =>
      n ← sys_nodes s !! id;
      w' ← run_event event_fuel (node_worker n) LocalTimer; Some (served id n w' (node_channel n) s)
  end.

Fixpoint acts (s : System) (l : list Action) : option System :=
  match l with
  | [] => Some s
  | a :: l => match act s a with Some s' => acts s' l | None => None end
  end.

Lemma act_step s a s' : act s a = Some s' -> sys_step byz send_error s s'.
Proof.
  destruct a as [id k|id|id]; cbn [act].
  - intros (n & Hn & (data & Hd & Hv)%bind_Some)%bind_Some. destruct (validate _ _) as [|topic] eqn:Hval; [done|].
    injection Hv as <-. by eapply sys_arrive, list_elem_of_lookup_2.
  - intros (n & Hn & Hv)%bind_Some. destruct (node_channel n) as [|m rest] eqn:Hc; [done|].
    apply bind_Some in Hv as (w' & Hr & [= <-]). by eapply sys_message.
  - intros (n & Hn & (w' & Hr & [= <-])%bind_Some)%bind_Some. by eapply sys_timer.
Qed.

Lemma acts_reach s l s' : acts s l = Some s' -> rtc (sys_step byz send_error) s s'.
Proof.
  revert s. induction l as [|a l IH]; intros s; cbn [acts]; [by intros [= <-]|].
  destruct (act s a) as [s1|] eqn:Ha; [|done]. intros Hl. econstructor; [by eapply act_step|by apply IH].
Qed.

End actions.
