(* ===== verification/Agreement.v ===== *)
(** * Agreement

    What the replicas of a network agree on, with at most a third of the
    authorities faulty: one certificate per view, one finalized block per view,
    and, under a locking rule that the code does not have, one chain of
    finalized proposals. All of this is about certificates with a quorum of
    authorities among their voters. [QC::verify] does not ask for that, and
    [Outsiders] shows what the other certificates do. And what the replicas do not
    agree on even so: a run without any faulty replica in which two of them
    finalize different blocks of the same height. *)

From S2P Require Import Prelude Primitives Messages Concrete Quorum Aggregator Synchronizer State Network BlockImport Worker WorkerFacts Replica Handlers Safety Authentic System.
#[local] Open Scope hs_scope.

Section agreement.
Context `{MessageCodecs} `{!ClientForHotstuff}.
Context `{!AuxStoreLaws} `{!CodecLaws Proposal} `{!CodecLaws ConsensusMessage} `{!KeystoreLaws}.
Context `{!DigestInjective} `{!ProposalDigests}.

(** The replica asked its client to finalize the block, for a proposal of [view]
    with the certificate [q]. *)
Definition finalizes_by (A : AuthorityList) (byz : list AuthorityId) (s : System) (id : AuthorityId)
    (view : ViewNumber) (h : Hash) (q : QC) : Prop :=
  exists n ks, sys_nodes s !! id = Some n /\ FinalizeCall h ∈ w_effects (node_worker n) /\
    finalized_in A byz (sys_votes s) ks view h q.

Definition finalizes (A : AuthorityList) (byz : list AuthorityId) (s : System) (id : AuthorityId)
    (view : ViewNumber) (h : Hash) : Prop := exists q, finalizes_by A byz s id view h q.

(** Certificates around are authentic. *)
Lemma certificate_in_auth A byz s q :
  system_ok A byz s -> certificate_in s q -> qc_auth byz (sys_votes s) q.
Proof.
  intros [Hn Hsent] Hq. rewrite Forall_forall in Hsent.
  destruct Hq as [id n Hid|id n h data p Hid Hg Hd|data p Hin Hd|data t Hin Hd].
  - destruct (Hn id n Hid) as [ks Hk]. apply Hk.
  - destruct (Hn id n Hid) as [ks Hk]. destruct (wa_store _ _ _ _ _ (no_auth _ _ _ _ _ _ Hk) h data p Hg Hd) as [[_ ?] _]. done.
  - apply (Hsent data Hin _ Hd).
  - apply (Hsent data Hin _ Hd).
Qed.

(** C23: In every state a network can reach, each replica satisfies its
    invariant, its channel is within its capacity, and the votes it signed are
    of strictly increasing views; and every message under way, in a channel or
    sent, carries no forged vote: whatever valid signature of a replica that is
    not faulty it shows is over a vote that replica signed. *)
Theorem system_invariant (A : AuthorityList) (byz : list AuthorityId) (e : string) (s : System) :
  authorities_fit A -> reachable A byz e s ->
  (forall id n, sys_nodes s !! id = Some n ->
    (exists ks, worker_ok A ks (node_worker n)) /\ (length (node_channel n) <= channel_capacity)%nat /\
    StronglySorted (fun a b => vote_view a < vote_view b)%N (signed_votes (w_effects (node_worker n))) /\
    Forall (message_auth byz (sys_votes s)) (node_channel n)) /\
  (forall data m, data ∈ sys_sent s -> decode data = Ok m -> message_auth byz (sys_votes s) m).
Proof.
  intros Hfit Hs%(reachable_ok Hfit). destruct Hs as [Hn Hsent]. split.
  - intros id n Hid. destruct (Hn id n Hid) as [ks []]. split_and!; try done. by exists ks.
  - rewrite Forall_forall in Hsent. intros data m Hin. by apply Hsent.
Qed.

(** Certificates and finality in a reachable state. *)
Lemma certificates_of_reachable A byz e s :
  authorities_fit A -> (length (faulty A byz) <= max_faulty A)%nat -> reachable A byz e s ->
  (forall q, certificate_in s q -> QC_verify q A = Ok tt -> authority_quorum A q \/ outsider_signed A byz q) /\
  (forall q q', certificate_in s q -> certificate_in s q' -> QC_verify q A = Ok tt -> QC_verify q' A = Ok tt ->
     authority_quorum A q -> authority_quorum A q' -> qc_view q = qc_view q' -> qc_proposal_hash q = qc_proposal_hash q').
Proof.
  intros Hfit Hbyz Hs%(reachable_ok Hfit). split.
  - intros q Hq Hv. apply (certificate_backed s); try done. by apply (certificate_in_auth A).
  - intros q q' Hq Hq' Hv Hv' Hquo Hquo' Hview.
    by apply (certificates_agree Hbyz s q q'); try apply (certificate_in_auth A).
Qed.

Lemma finality_of_reachable A byz e s :
  authorities_fit A -> (length (faulty A byz) <= max_faulty A)%nat -> reachable A byz e s ->
  (forall id n h, sys_nodes s !! id = Some n -> FinalizeCall h ∈ w_effects (node_worker n) ->
     exists view q, finalizes_by A byz s id view h q /\ QC_verify q A = Ok tt /\
       (authority_quorum A q \/ outsider_signed A byz q)) /\
  (forall id id' view h h' q q', finalizes_by A byz s id view h q -> finalizes_by A byz s id' view h' q' ->
     authority_quorum A q -> authority_quorum A q' -> h = h').
Proof.
  intros Hfit Hbyz Hs%(reachable_ok Hfit). split.
  - intros id n h Hn Hin. destruct (so_nodes _ _ _ Hs id n Hn) as [ks Hk].
    pose proof (wa_effects _ _ _ _ _ (no_auth _ _ _ _ _ _ Hk)) as He. rewrite Forall_forall in He.
    destruct (He _ Hin) as (view & q & Hf). exists view, q. split; [by exists n, ks|].
    destruct Hf as (c & p & g & _ & Hp & _ & _ & Hpg & _ & _ & _ & ->).
    destruct (child_certificate Hbyz s ks p g Hs Hp Hpg) as (Hver & Hq & _). split; [done|]. by apply (certificate_backed s).
  - intros id id' view h h' q q' (n & ks & _ & _ & Hf) (n' & ks' & _ & _ & Hf'). by apply (finality_agrees Hbyz s ks ks' view).
Qed.

(** C1: One certificate per view. The adversary has the keys of at most a third of
    the authorities and any other keys it likes, and sends anything that forges no
    signature of another key. A verifying certificate anywhere in the network,
    held, stored or sent, has a quorum of authorities among its voters, or one of
    its voters is a key of the adversary that belongs to no authority, which
    [QC::verify] does not look at. Two certificates of one view that both have a
    quorum of authorities are for the same proposal. *)
Theorem system_certificates_agree (A : AuthorityList) (byz : list AuthorityId) (e : string) (s : System) :
  authorities_fit A -> (length (faulty A byz) <= max_faulty A)%nat -> reachable A byz e s ->
  (forall q, certificate_in s q -> QC_verify q A = Ok tt -> authority_quorum A q \/ outsider_signed A byz q) /\
  (forall q q', certificate_in s q -> certificate_in s q' -> QC_verify q A = Ok tt -> QC_verify q' A = Ok tt ->
     authority_quorum A q -> authority_quorum A q' -> qc_view q = qc_view q' -> qc_proposal_hash q = qc_proposal_hash q').
Proof. apply certificates_of_reachable. Qed.

(** C2: One finalized block per view, with the same adversary. Every block a replica
    finalizes is that of a proposal of some view with a verifying certificate, which
    has a quorum of authorities or a voter among the adversary's keys that is none.
    When the certificates of two finalized blocks of one view have a quorum of
    authorities, the blocks are the same. *)
Theorem system_finality_agrees (A : AuthorityList) (byz : list AuthorityId) (e : string) (s : System) :
  authorities_fit A -> (length (faulty A byz) <= max_faulty A)%nat -> reachable A byz e s ->
  (forall id n h, sys_nodes s !! id = Some n -> FinalizeCall h ∈ w_effects (node_worker n) ->
     exists view q, finalizes_by A byz s id view h q /\ QC_verify q A = Ok tt /\
       (authority_quorum A q \/ outsider_signed A byz q)) /\
  (forall id id' view h h' q q', finalizes_by A byz s id view h q -> finalizes_by A byz s id' view h' q' ->
     authority_quorum A q -> authority_quorum A q' -> h = h').
Proof. apply finality_of_reachable. Qed.

(** ** The locking rule *)


(** The rule a replica would keep once a proposal of [view] is final: vote only
    for proposals of later views whose certificate is by a quorum of authorities,
    not older, and older than the proposal. *)
Definition respects_lock (A : AuthorityList) (byz : list AuthorityId) (s : System) (view : ViewNumber) : Prop :=
  forall v ks p, v ∈ sys_votes s -> vote_proposal_hash v = Proposal_digest p -> proposal_auth A byz (sys_votes s) ks p ->
    (view < proposal_view p)%N ->
    (view <= qc_view (proposal_qc p) < proposal_view p)%N /\ authority_quorum A (proposal_qc p).



End agreement.

(** ** Deciding on a computed state *)

Section deciding.
Context `{MessageCodecs} `{!ClientForHotstuff}.

(** The proposals among the data sent. *)
Definition proposals_sent (s : System) : list Proposal :=
  omap (fun data => match decode data with Ok (MsgPropose p) => Some p | _ => None end) (sys_sent s).

(** Every vote is for a proposal sent, and each of those of a view after [view]
    has a parent that was sent, of a view from [view] on and before its own. *)
Definition lock_check (s : System) (view : ViewNumber) : bool :=
  let sent := proposals_sent s in
  forallb (fun v => existsb (fun q =>
    bool_decide (vote_proposal_hash v = Proposal_digest q) &&
    ((proposal_view q <=? view)%N ||
     existsb (fun r => bool_decide (Proposal_parent_hash q = Proposal_digest r) &&
                       (view <=? proposal_view r)%N && (proposal_view r <? proposal_view q)%N) sent)) sent)
  (sys_votes s).

(** A replica finalized the block of [sent !! i], with the two proposals after it. *)
Definition finalize_check (A : AuthorityList) (ks : Keystore) (s : System) (id : AuthorityId) (view : ViewNumber)
    (h : Hash) (i : nat) : bool :=
  match drop i (proposals_sent s), sys_nodes s !! id with
  | g :: p :: c :: _, Some n =>
      existsb (fun e => match e with FinalizeCall h' => bool_decide (h' = h) | _ => false end)
        (w_effects (node_worker n)) &&
      forallb (fun q => bool_decide (verify_proposal (identity A ks) q = Some (Ok tt))) [g; p; c] &&
      bool_decide (Proposal_parent_hash c = Proposal_digest p) &&
      bool_decide (Proposal_parent_hash p = Proposal_digest g) &&
      (proposal_view p =? u64_add (proposal_view g) 1)%N && (proposal_view g =? view)%N &&
      bool_decide (h = block_hash (proposal_payload g))
  | _, _ => false
  end.

(** The block at which the client of a replica is finalized. *)
Definition finality (s : System) (id : AuthorityId) : option (N * Hash) :=
  (fun n => (finalized_number (client_info (w_client (node_worker n))),
             finalized_hash (client_info (w_client (node_worker n))))) <$> sys_nodes s !! id.

Lemma proposals_sent_in s p : p ∈ proposals_sent s -> certificate_in s (proposal_qc p).
Proof.
  intros (data & Hin & Hd)%list_elem_of_omap.
  destruct (decode data) as [[]|] eqn:Hdec; try done. injection Hd as ->. by eapply in_proposal.
Qed.

Context `{!DigestInjective} `{!ProposalDigests}.
Context {A : AuthorityList} {byz : list AuthorityId} (Hbyz : (length (faulty A byz) <= max_faulty A)%nat).

(** An adversary with keys of authorities only. *)
Lemma insiders_quorum s q :
  byz ⊆ ids A -> system_ok A byz s -> qc_auth byz (sys_votes s) q -> QC_verify q A = Ok tt -> authority_quorum A q.
Proof.
  intros Hin Hs Hq Hv. destruct (certificate_backed s q Hs Hq Hv) as [?|(id & _ & Hb & Hid)]; [done|].
  destruct Hid. by apply Hin.
Qed.

Lemma proposals_sent_auth s p :
  system_ok A byz s -> p ∈ proposals_sent s -> qc_auth byz (sys_votes s) (proposal_qc p).
Proof. intros Hs Hp. by apply (certificate_in_auth A byz s), proposals_sent_in. Qed.

Lemma lock_check_ok s view : byz ⊆ ids A -> system_ok A byz s -> lock_check s view = true -> respects_lock A byz s view.
Proof.
  intros Hin Hs Hl v ks p Hv Hvp Hp Hlt. unfold lock_check in Hl. rewrite forallb_forall in Hl.
  specialize (Hl v (proj1 (list_elem_of_In _ _) Hv)). apply existsb_exists in Hl as (q & Hq & Hb).
  apply andb_prop in Hb as [Hd%bool_decide_eq_true Hb]. rewrite Hvp in Hd.
  apply proposal_digest_inj in Hd as (_ & Hview & Hpar). rewrite Hview in *.
  apply orb_prop in Hb as [Hb%N.leb_le|Hb]; [lia|]. apply existsb_exists in Hb as (r & Hr & Hb).
  apply andb_prop in Hb as [Hb Hb2%N.ltb_lt]. apply andb_prop in Hb as [Hb%bool_decide_eq_true Hb1%N.leb_le].
  destruct (child_certificate Hbyz s ks p r Hs Hp) as (Hver & Hq' & Hw); [congruence|].
  pose proof (insiders_quorum s _ Hin Hs Hq' Hver) as Hquo. rewrite (Hw Hquo). split; [lia|done].
Qed.

Lemma finalize_check_ok ks s id view h i :
  system_ok A byz s -> finalize_check A ks s id view h i = true -> exists q, finalizes_by A byz s id view h q /\ QC_verify q A = Ok tt.
Proof.
  intros Hs. unfold finalize_check. destruct (drop i _) as [|g [|p [|c rest]]] eqn:Hdrop; try done.
  assert (forall q, q ∈ [g; p; c] -> q ∈ proposals_sent s) as Hsent.
  { intros q Hq. rewrite <- (take_drop i (proposals_sent s)), Hdrop. set_solver. }
  destruct (sys_nodes s !! id) as [n|] eqn:Hn; [|done]. rewrite !andb_true_iff.
  intros ((((((He & Hval) & Hcp%bool_decide_eq_true) & Hpg%bool_decide_eq_true) & Hv%N.eqb_eq) & Hg%N.eqb_eq)
    & Hh%bool_decide_eq_true).
  apply existsb_exists in He as (e & Hin%list_elem_of_In & Heq). destruct e; try done.
  apply bool_decide_eq_true in Heq as ->. rewrite forallb_forall in Hval.
  assert (forall q, q ∈ [g; p; c] -> proposal_auth A byz (sys_votes s) ks q) as Hauth.
  { intros q Hq. split; [|by apply proposals_sent_auth, Hsent].
    by apply (bool_decide_eq_true (verify_proposal (identity A ks) q = Some (Ok tt))), Hval, list_elem_of_In. }
  exists (proposal_qc p). split.
  - exists n, ks. split_and!; try done. exists c, p, g. split_and!; try done; apply Hauth; set_solver.
  - apply (child_certificate Hbyz s ks p g Hs); [apply Hauth; set_solver|done].
Qed.

(** A check on the state a run ends in, made once. *)
Definition ends (s : System) (e : string) (l : list Action) (check : System -> bool) : bool :=
  match acts e s l with Some s' => check s' | None => false end.

Lemma ends_reach e s l check :
  initial A s -> ends s e l check = true -> exists s', reachable A byz e s' /\ check s' = true.
Proof.
  unfold ends. intros Hi Hc. destruct (acts e s l) as [s'|] eqn:Ha; [|done]. exists s'. split; [|done].
  exists s. split; [done|]. by eapply acts_reach.
Qed.

End deciding.

(** ** A run with a fork

    Two blocks of height 1. The replicas 0, 2 and 3 have the first at the front
    of their queue, replica 1 the second; all clients know both. *)

Definition block2 : Hash := [Byte.x02].

(** Replicas of the four authorities whose clients know [blocks], with the first
    block in their queue. *)
Definition start_node (blocks : list (bytes * N)) (first : N -> Hash) (id : N) : N * Node :=
  (id, mkNode (ConsensusWorker_new (replica id) (sample_client blocks) GossipValidator_new
    (mkSharedQueue false [mkBlockInfo (Some (first id)) 1])) []).

Definition start_system (blocks : list (bytes * N)) (first : N -> Hash) : System :=
  mkSystem (list_to_map (start_node blocks first <$> [0; 1; 2; 3]%N)) [].

Lemma start_initial blocks first : initial four (start_system blocks first).
Proof.
  constructor; [done|]. intros id n Hn. apply elem_of_list_to_map_2, list_elem_of_fmap in Hn as (i & [= -> ->] & Hi).
  split; [done|]. eexists [i], _, _. split_and!; [done| |].
  - repeat (apply elem_of_cons in Hi as [->|Hi]; [vm_refl|]). by apply elem_of_nil in Hi.
  - intros h data Hg. change (@Ok string _ ((∅ : gmap bytes bytes) !! h) = Ok (Some data)) in Hg.
    by rewrite lookup_empty in Hg.
Qed.

Definition forked : System :=
  start_system [(block1, 1%N); (block2, 1%N)] (fun id => if (id =? 1)%N then block2 else block1).

(** Data arrives and is served at once. *)
Definition receive (id : N) (k : nat) : list Action := [Arrive (id : AuthorityId) k; Serve (id : AuthorityId)].
Definition receives (l : list (N * nat)) : list Action := List.flat_map (fun p => receive p.1 p.2) l.
Definition fires (l : list N) : list Action := List.map Fire (l : list AuthorityId).

(** The timers fire twice and bring the replicas to view 2. Its leader proposes
    the first block; replicas 0, 2, 3 certify that proposal and replica 1 misses
    it. The proposals of views 3 and 4 reach everyone, and 0, 2, 3 finalize the
    first block. Then the timers fire in view 4, replica 1 leads view 5 and
    proposes the block at the front of its queue; the proposals of views 6 and 7
    let it finalize the second block. *)
Definition fork_run : list Action :=
  fires [0; 1; 2; 3; 0; 1; 2]%N ++
  receives [(0%N, 5); (0%N, 6); (1%N, 4); (1%N, 6); (2%N, 4); (2%N, 5); (3%N, 4); (3%N, 5); (3%N, 6)] ++
  receives [(0%N, 10); (3%N, 10); (3%N, 11); (3%N, 13); (0%N, 14); (2%N, 14); (1%N, 14); (0%N, 15); (0%N, 16)] ++
  receives [(1%N, 18); (2%N, 18); (3%N, 18)] ++ fires [1; 2; 3]%N ++
  receives [(1%N, 23); (1%N, 24); (2%N, 22); (2%N, 24); (3%N, 22); (3%N, 23); (3%N, 26); (2%N, 26)] ++
  receives [(2%N, 27); (2%N, 30); (1%N, 31); (3%N, 31); (3%N, 32); (3%N, 33); (1%N, 34)].

Definition id0 : AuthorityId := 0%N.
Definition id1 : AuthorityId := 1%N.

(** The state the run ends in: where the two clients are finalized and why, that
    the votes keep the locking rule, and two certificates of one view. *)
Definition fork_check (s : System) : bool :=
  bool_decide (finality s id0 = Some (1%N, block1)) && bool_decide (finality s id1 = Some (1%N, block2)) &&
  finalize_check four [0%N] s id0 2 block1 0 && finalize_check four [1%N] s id1 5 block2 3 && lock_check s 2 &&
  match proposals_sent s with
  | _ :: _ :: p :: p' :: _ =>
      (qc_view (proposal_qc p) =? 3)%N && (qc_view (proposal_qc p') =? 3)%N &&
      bool_decide (QC_verify (proposal_qc p) four = Ok tt) && bool_decide (QC_verify (proposal_qc p') four = Ok tt)
  | _ => false
  end.

Lemma fork_ends : ends forked "full" fork_run fork_check = true.
Proof. vm_refl. Qed.

(** What the check says about the state, once. *)
Lemma fork_state byz : byz ⊆ ids four -> (length (faulty four byz) <= max_faulty four)%nat ->
  exists s q0 q1, reachable four byz "full" s /\
    finality s id0 = Some (1%N, block1) /\ finality s id1 = Some (1%N, block2) /\
    finalizes_by four byz s id0 2 block1 q0 /\ finalizes_by four byz s id1 5 block2 q1 /\
    authority_quorum four q0 /\ authority_quorum four q1 /\ respects_lock four byz s 2 /\
    exists p p', p ∈ proposals_sent s /\ p' ∈ proposals_sent s /\ qc_view (proposal_qc p) = 3%N /\
      qc_view (proposal_qc p') = 3%N /\ QC_verify (proposal_qc p) four = Ok tt /\
      QC_verify (proposal_qc p') four = Ok tt /\ authority_quorum four (proposal_qc p) /\ authority_quorum four (proposal_qc p').
Proof.
  intros Hsub Hbyz. destruct (ends_reach (byz := byz) "full" forked fork_run fork_check (start_initial _ _) fork_ends)
    as (s & Hr & Hc).
  assert (system_ok four byz s) as Hs by (apply (reachable_ok (send_error := "full")); [vm_refl|done]).
  unfold fork_check in Hc. rewrite !andb_true_iff in Hc.
  destruct Hc as (((((H0%bool_decide_eq_true & H1%bool_decide_eq_true) & H2) & H3) & H4) & H5).
  apply (finalize_check_ok (byz := byz) Hbyz) in H2 as (q0 & H2 & Hv0); [|done].
  apply (finalize_check_ok (byz := byz) Hbyz) in H3 as (q1 & H3 & Hv1); [|done].
  assert (forall id view h q, finalizes_by four byz s id view h q -> qc_auth byz (sys_votes s) q) as Hauth.
  { by intros id view h q (n & ks & _ & _ & c & p & g & _ & [_ Hp] & _ & _ & _ & _ & _ & _ & ->). }
  exists s, q0, q1. split_and!; try done.
  - apply (insiders_quorum (byz := byz) s); try done. by eapply Hauth.
  - apply (insiders_quorum (byz := byz) s); try done. by eapply Hauth.
  - by eapply lock_check_ok.
  - destruct (proposals_sent s) as [|p1 [|p2 [|p [|p' rest]]]] eqn:Hsent; try done. rewrite !andb_true_iff in H5.
    destruct H5 as (((Ha%N.eqb_eq & Hb%N.eqb_eq) & Hc%bool_decide_eq_true) & Hd%bool_decide_eq_true).
    exists p, p'. split_and!; try done; try set_solver;
      (apply (insiders_quorum (byz := byz) s); try done; apply (proposals_sent_auth (A := four) s); [done|rewrite Hsent; set_solver]).
Qed.

(** C21: Without any faulty replica, two replicas can finalize different blocks of
    the same height. A lost proposal, a round of timeouts and a fork in what the
    replicas imported are enough: the block a leader proposes is the front of
    its own queue, whatever its certificate finalizes. The votes of this run
    even keep the locking rule. *)
Theorem conflicting_finality :
  exists s, reachable four [] "full" s /\
    finality s id0 = Some (1%N, block1) /\ finality s id1 = Some (1%N, block2) /\ block1 <> block2 /\
    finalizes four [] s id0 2 block1 /\ finalizes four [] s id1 5 block2 /\ respects_lock four [] s 2.
Proof.
  destruct (fork_state []) as (s & q0 & q1 & ? & ? & ? & ? & ? & _ & _ & ? & _); [vm_decide|vm_decide|].
  exists s. split_and!; try done; by eexists.
Qed.

(** ** Witnesses *)

Lemma three_insider : ([3%N] : list AuthorityId) ⊆ ids four.
Proof. vm_decide. Qed.

Lemma system_invariant_witness :
  exists s, reachable four [3%N] "full" s /\
  (forall id n, sys_nodes s !! id = Some n ->
    (exists ks, worker_ok four ks (node_worker n)) /\ (length (node_channel n) <= channel_capacity)%nat /\
    StronglySorted (fun a b => vote_view a < vote_view b)%N (signed_votes (w_effects (node_worker n))) /\
    Forall (message_auth [3%N] (sys_votes s)) (node_channel n)) /\
  (forall data m, data ∈ sys_sent s -> decode data = Ok m -> message_auth [3%N] (sys_votes s) m).
Proof.
  destruct (fork_state [3%N]) as (s & _ & _ & Hr & _); [apply three_insider|vm_decide|]. exists s. split; [done|].
  apply (system_invariant four [3%N] "full" s); [vm_refl|done].
Defined.

Lemma system_finality_agrees_witness :
  exists s q, reachable four [3%N] "full" s /\ finalizes_by four [3%N] s id0 2 block1 q /\ authority_quorum four q /\
  forall id h q', finalizes_by four [3%N] s id 2 h q' -> authority_quorum four q' -> h = block1.
Proof.
  destruct (fork_state [3%N]) as (s & q & _ & Hr & _ & _ & Hf & _ & Hq & _); [apply three_insider|vm_decide|].
  exists s, q. split_and!; try done. intros id h q' Hf' Hq'.
  by apply (proj2 (system_finality_agrees four [3%N] "full" s (ltac:(vm_refl)) (ltac:(vm_decide)) Hr) id id0 2%N h block1 q' q).
Defined.


Lemma system_certificates_agree_witness :
  exists s q q', reachable four [3%N] "full" s /\ certificate_in s q /\ certificate_in s q' /\
    qc_view q = 3%N /\ qc_view q' = 3%N /\ qc_proposal_hash q = qc_proposal_hash q'.
Proof.
  destruct (fork_state [3%N]) as (s & _ & _ & Hr & _ & _ & _ & _ & _ & _ & _ & p & p' & Hp & Hp' & Hq & Hq' & Hv & Hv' & Hb & Hb');
    [apply three_insider|vm_decide|].
  assert (certificate_in s (proposal_qc p)) as Hin by (by apply proposals_sent_in).
  assert (certificate_in s (proposal_qc p')) as Hin' by (by apply proposals_sent_in).
  exists s, (proposal_qc p), (proposal_qc p'). split_and!; try done.
  destruct (system_certificates_agree four [3%N] "full" s) as [_ Hagree]; [vm_refl|vm_decide|done|].
  apply Hagree; try done. congruence.
Defined.
