(* ===== verification/Outsiders.v ===== *)
(** * Outsiders

    Why the theorems of [Agreement] ask for a quorum of authorities. [QC::verify]
    of [consensus/src/message.rs] counts the keys that signed a certificate and
    checks their signatures, but not that they are keys of authorities. Keys are
    free, so the adversary can certify what it likes: here two faulty authorities
    of seven, as many as a network of that size is meant to tolerate, make two
    correct replicas finalize different blocks for one view, without a single vote
    of a correct replica. *)

From S2P Require Import Prelude Primitives Messages Concrete Quorum Aggregator Synchronizer State Network BlockImport Worker WorkerFacts Replica Handlers Safety Authentic System Agreement.
#[local] Open Scope hs_scope.

Section sending.
Context `{MessageCodecs} `{!ClientForHotstuff}.

(** A proposal whose certificate is signed by keys of the adversary only forges
    nothing. *)
Lemma own_keys_auth byz V (p : Proposal) :
  (qc_votes (proposal_qc p)).*1 ⊆ byz -> message_auth byz V (MsgPropose p).
Proof.
  intros Hsub. apply Forall_forall. intros [id sig] Hin Hid. destruct Hid. cbn. apply Hsub.
  by apply (list_elem_of_fmap_2 fst) in Hin.
Qed.

(** The adversary sends such proposals. *)
Lemma adversary_sends `{!CodecLaws ConsensusMessage} byz e (l : list Proposal) (s : System) :
  byz <> [] -> Forall (fun p => (qc_votes (proposal_qc p)).*1 ⊆ byz) l ->
  rtc (sys_step byz e) s (send ((fun p => encode (MsgPropose p)) <$> l) s).
Proof.
  intros Hb Hl. revert s. induction Hl as [|p l Hp Hl IH]; intros s.
  - destruct s. unfold send. cbn. by rewrite app_nil_r.
  - econstructor; [apply (sys_faulty byz e (encode (MsgPropose p))); [done|]|].
    + intros m Hm. rewrite decode_encode in Hm. injection Hm as <-. by apply own_keys_auth.
    + specialize (IH (send [encode (MsgPropose p)] s)). unfold send in IH |- *. cbn in IH |- *.
      by rewrite <- app_assoc in IH.
Qed.

End sending.

(** ** Seven authorities, two of them faulty *)

Definition seven : AuthorityList := (fun id => (id, 1%N)) <$> [0; 1; 2; 3; 4; 5; 6]%N.

(** The keys of the adversary: those of the authorities 3 and 4, which lead the
    views 3 and 4, and five that belong to nobody. *)
Definition fresh_keys : list N := [100; 101; 102; 103; 104]%N.
Definition adversary : list AuthorityId := [3; 4]%N ++ fresh_keys.

(** A proposal of a block in view 3, one on top of it in view 4 and another in view
    10, which authority 3 leads again; their certificates are signed by the fresh
    keys. *)
Definition forged_chain (h : Hash) : list Proposal :=
  let g := signed_proposal QC_default (mkPayload h 1) 3 3 in
  let p := signed_proposal (certificate (Proposal_digest g) 3 fresh_keys) (mkPayload empty_payload_hash 1) 4 4 in
  let c := signed_proposal (certificate (Proposal_digest p) 4 fresh_keys) (mkPayload empty_payload_hash 1) 10 3 in
  [g; p; c].

Definition correct_node (id : N) : N * Node :=
  (id, mkNode (ConsensusWorker_new (ConsensusState_new [id] seven) (sample_client [(block1, 1%N); (block2, 1%N)])
    GossipValidator_new (mkSharedQueue false [])) []).

Definition seven_started : System := mkSystem (list_to_map (correct_node <$> [0; 1; 2; 5; 6]%N)) [].

Lemma seven_initial : initial seven seven_started.
Proof.
  constructor; [done|]. intros id n Hn. apply elem_of_list_to_map_2, list_elem_of_fmap in Hn as (i & [= -> ->] & Hi).
  split; [done|]. eexists [i], _, _. split_and!; [done| |].
  - repeat (apply elem_of_cons in Hi as [->|Hi]; [vm_refl|]). by apply elem_of_nil in Hi.
  - intros h data Hg. change (@Ok string _ ((∅ : gmap bytes bytes) !! h) = Ok (Some data)) in Hg.
    by rewrite lookup_empty in Hg.
Qed.

(** Replica 0 is sent the chain of the first block, replica 1 that of the second. *)
Definition forged_sent : System :=
  send ((fun p => encode (MsgPropose p)) <$> (forged_chain block1 ++ forged_chain block2)) seven_started.

Definition forged_run : list Action := receives [(0%N, 0); (0%N, 1); (0%N, 2); (1%N, 3); (1%N, 4); (1%N, 5)].

Definition forged_check (s : System) : bool :=
  bool_decide (finality s id0 = Some (1%N, block1)) && bool_decide (finality s id1 = Some (1%N, block2)) &&
  finalize_check seven [0%N] s id0 3 block1 0 && finalize_check seven [1%N] s id1 3 block2 3 &&
  match sys_votes s with [] => true | _ => false end.

Lemma forged_ends : ends forged_sent "full" forged_run forged_check = true.
Proof. vm_refl. Qed.

(** C18: A certificate that verifies need not be by authorities, and that breaks
    agreement. With two of seven authorities faulty, which is what a network of seven
    is meant to tolerate, and without a forged signature, there is a run after which
    two correct replicas have finalized different blocks, each for a proposal of view
    3, and no correct replica has voted at all. *)
Theorem outsiders_break_agreement :
  exists s, reachable seven adversary "full" s /\ length (faulty seven adversary) = max_faulty seven /\
    finalizes seven adversary s id0 3 block1 /\ finalizes seven adversary s id1 3 block2 /\ block1 <> block2 /\
    finality s id0 = Some (1%N, block1) /\ finality s id1 = Some (1%N, block2) /\
    (id0 ∉ adversary) /\ (id1 ∉ adversary) /\ sys_votes s = [].
Proof.
  pose proof forged_ends as Hc. unfold ends in Hc. destruct (acts "full" forged_sent forged_run) as [s|] eqn:Ha; [|done].
  assert (reachable seven adversary "full" s) as Hr.
  { exists seven_started. split; [apply seven_initial|]. etrans; [|by eapply acts_reach].
    apply adversary_sends; [done|vm_decide]. }
  assert (system_ok seven adversary s) as Hs by (apply (reachable_ok (send_error := "full")); [vm_refl|done]).
  unfold forged_check in Hc. rewrite !andb_true_iff in Hc.
  destruct Hc as ((((H0%bool_decide_eq_true & H1%bool_decide_eq_true) & H2) & H3) & H4). exists s.
  apply (finalize_check_ok (byz := adversary) ltac:(vm_decide)) in H2 as (q0 & H2 & _); [|done].
  apply (finalize_check_ok (byz := adversary) ltac:(vm_decide)) in H3 as (q1 & H3 & _); [|done].
  split_and!; [exact Hr|vm_refl|by exists q0|by exists q1|vm_decide|exact H0|exact H1|vm_decide|vm_decide|].
  by destruct (sys_votes s).
Qed.
