(* ===== verification/Validity.v ===== *)
(** * Validity

    What stands behind a finalized block. A worker votes for a proposal of a block
    only when its client knows the block; with at most a third of the authorities
    faulty, a block that a replica finalizes by a certificate with a quorum of
    authorities was known to the clients of the correct ones among them, at the time
    each of them voted. *)

From S2P Require Import Prelude Primitives Messages Concrete Quorum Aggregator Synchronizer State Network BlockImport Worker WorkerFacts Replica Handlers Safety Authentic System Agreement.
#[local] Open Scope hs_scope.

(** Which blocks the client knows is neither changed by the auxiliary store nor by
    finalizing a block it has. *)
Class StatusLaws `{ClientForHotstuff} : Prop := {
  insert_aux_status : forall c ins del h, client_status (client_insert_aux c ins del).2 h = client_status c h;
  finalize_block_status : forall c b h, client_status (client_finalize_block c b).2 h = client_status c h;
}.

(** The client knows the block. *)
Definition knows `{ClientForHotstuff} (c : Client) (h : Hash) : Prop :=
  exists status, client_status c h = Ok status /\ status <> Unknown.

Section voting_known.
Context `{MessageCodecs} `{!ClientForHotstuff} `{!StatusLaws}.

(** A vote for a proposal without block, or of a block the client knows. *)
Definition vote_known (c : Client) (v : Vote) : Prop :=
  exists p, vote_proposal_hash v = Proposal_digest p /\
    (block_hash (proposal_payload p) = empty_payload_hash \/ knows c (block_hash (proposal_payload p))).

Definition effect_checked (c : Client) (e : Effect) : Prop :=
  match e with
  | SignVote v => vote_known c v
  | FinalizeCall h => h <> empty_payload_hash
  | _ => True
  end.

(** How a worker moves: the client knows what it knew, the votes signed on the way
    are for blocks it knows and the blocks finalized are blocks. *)
Definition checked (w w' : Worker) : Prop :=
  (forall h, client_status (w_client w') h = client_status (w_client w) h) /\
  exists new, w_effects w' = w_effects w ++ new /\ Forall (effect_checked (w_client w)) new.

Lemma knows_ext c c' h : (forall h, client_status c' h = client_status c h) -> knows c h <-> knows c' h.
Proof. intros Hc. unfold knows. by rewrite Hc. Qed.

#[global] Instance checked_refl : Reflexive checked.
Proof. intros w. split; [done|]. exists []. by rewrite app_nil_r. Qed.

#[global] Instance checked_trans : Transitive checked.
Proof.
  intros w1 w2 w3 [Hc (new & He & Hv)] [Hc' (new' & He' & Hv')]. split; [intros h; by rewrite Hc'|].
  exists (new ++ new'). rewrite He', He, app_assoc. split; [done|]. apply Forall_app. split; [done|].
  eapply Forall_impl; [exact Hv'|]. intros [| | | |] Heff; try done. destruct Heff as (p & Hp & Hk).
  exists p. split; [done|]. by rewrite (knows_ext _ _ _ Hc).
Qed.

Lemma checked_same {X} (m : W X) :
  (forall w, w_effects (m w).2 = w_effects w /\ forall h, client_status (w_client (m w).2) h = client_status (w_client w) h) ->
  guar checked m.
Proof.
  intros Hm w. destruct (Hm w) as [He Hc]. split; [done|]. exists []. by rewrite app_nil_r.
Qed.

Lemma checked_emit e : (forall c, effect_checked c e) -> guar checked (emit e).
Proof. intros He w. split; [done|]. exists [e]. split; [done|]. by constructor. Qed.

Lemma checked_lift {X} (r : result HotstuffError X) : guar checked (st_lift r).
Proof. apply checked_same. by destruct r. Qed.

Lemma checked_expect {X} (o : option X) : guar checked (st_expect o : W X).
Proof. apply checked_same. by destruct o. Qed.

Lemma checked_on_state {X} (f : ConsensusState -> X * ConsensusState) : guar checked (on_state f).
Proof. apply checked_same. intros w. unfold on_state, st_update. by destruct (f (w_state w)). Qed.

Lemma checked_payload : guar checked (st_update get_proposal_payload : W _).
Proof.
  apply checked_same. intros w. unfold st_update. pose proof (get_proposal_payload_state w) as Hs. cbn in Hs.
  destruct (get_proposal_payload w) as [o w']. cbn in *. by rewrite Hs.
Qed.

Lemma checked_save p : guar checked (save p).
Proof.
  apply checked_same. intros w. unfold save, st_bind, st_update, save_proposal, Store_set.
  pose proof (insert_aux_status (w_client w)) as Hst.
  match goal with |- context [client_insert_aux ?c ?i ?d] => specialize (Hst i d); destruct (client_insert_aux c i d) as [[]] end; done.
Qed.

Lemma checked_try_finalize p : guar checked (st_update (try_finalize p) : W _).
Proof.
  intros w. unfold st_update, try_finalize.
  destruct (get_proposal_ancestors _ _) as [[parent grandpa]|e]; [|done].
  destruct (_ =? _)%N; [|done]. destruct (_ && _) eqn:Hne; [|done].
  apply andb_true_iff in Hne as [Hne%negb_true_iff%bool_decide_eq_false _].
  pose proof (finalize_block_status (w_client w) (block_hash (proposal_payload grandpa))) as Hst.
  destruct (client_finalize_block _ _) as [r c]. split; [done|]. eexists. split; [done|]. by constructor.
Qed.

Ltac checked_step :=
  first [ apply checked_emit; done | apply checked_lift | apply checked_expect | apply checked_try_finalize | apply checked_save
        | apply checked_on_state | apply checked_payload
        | apply checked_same; by intros [] | apply checked_same; intros w; cbn; by case_match
        | apply guar_bind; [apply _| |intros ?] | apply guar_bind; [|intros ?] ].

(** One computation after the other, from a given worker. *)
Lemma checked_bind {X Y} (m : W X) (k : X -> W Y) w :
  checked w (m w).2 -> (forall x w', m w = (Val x, w') -> checked w' (k x w').2) -> checked w (st_bind m k w).2.
Proof.
  intros Hm Hk. unfold st_bind. destruct (m w) as [[x|e] w'] eqn:Hw; [|done]. etrans; [exact Hm|]. by apply Hk.
Qed.

Definition payload_checked (w : Worker) (p : Proposal) : Prop :=
  block_hash (proposal_payload p) = empty_payload_hash \/ knows (w_client w) (block_hash (proposal_payload p)).

Lemma payload_checked_ext w w' p : checked w w' -> payload_checked w p -> payload_checked w' p.
Proof. intros [Hc _] [He|Hk]; [by left|right]. by apply (knows_ext (w_client w) (w_client w')). Qed.

Lemma vote_on_checked hv p w :
  (forall v, guar checked (hv v)) -> payload_checked w p -> checked w (vote_on hv p w).2.
Proof.
  intros Hhv Hp. unfold vote_on. apply checked_bind; [apply checked_on_state|]. intros o w1 Hw1.
  unfold on_state, st_update in Hw1. destruct (make_vote (w_state w) p) as [o' st'] eqn:Hv. injection Hw1 as <- <-.
  destruct o' as [v|]; [|done].
  refine (checked_bind (emit (SignVote v)) _ _ _ _); [|intros [] w2 _; revert w2].
  - split; [done|]. exists [SignVote v]. split; [done|]. constructor; [|done]. exists p. split; [|done].
    by apply make_vote_some in Hv as (? & ? & _ & _ & _ & -> & _).
  - change (guar checked (st_modify (fun w => set_w_proposal_hash_queue (w_proposal_hash_queue w ++ [block_hash (proposal_payload p)]) w) ;!
      st_modify (set_w_processing_block (Some (mkBlockInfo (Some (block_hash (proposal_payload p))) (block_number (proposal_payload p))))) ;!
      let! next := st_get (fun w => view_leader (w_state w) (u64_add (cs_view (w_state w)) 1)) in
      let! next_leader_id := st_expect next in
      let! local := st_get (fun w => is_local (w_state w) next_leader_id) in
      if local then hv v else gossip_message (MsgVote v) false)).
    repeat first [apply Hhv | checked_step | case_match].
Qed.

Lemma check_payload_checked p : guar checked (check_payload p).
Proof. unfold check_payload. repeat first [checked_step | case_match]. Qed.

Lemma check_payload_true p w w' : check_payload p w = (Val true, w') -> payload_checked w p.
Proof.
  unfold check_payload. case_bool_decide as He; [by left|]. cbn. unfold st_bind, st_get.
  destruct (client_status _ _) as [status|e] eqn:Hs; [|done]. destruct (decide (status = Unknown)); [done|].
  intros _. right. by exists status.
Qed.

Lemma handle_proposal_checked hv p : (forall v, guar checked (hv v)) -> guar checked (handle_proposal_body hv p).
Proof.
  intros Hhv w. unfold handle_proposal_body. apply checked_bind; [apply check_payload_checked|]. intros known w1 Hw1.
  destruct known; [|done]. pose proof (check_payload_true p w w1 Hw1) as Hk.
  assert (checked w w1) as Hc by (pose proof (check_payload_checked p w) as Hg; by rewrite Hw1 in Hg).
  apply (payload_checked_ext w w1 p Hc) in Hk. clear Hw1 Hc w.
  assert (forall (m : W unit) (k : unit -> W unit), guar checked m ->
    (forall w, payload_checked w p -> checked w (k tt w).2) ->
    forall w, payload_checked w p -> checked w (st_bind m k w).2) as Hseq.
  { intros m k Hm Hrest w Hw. apply checked_bind; [apply Hm|]. intros [] w' Heq. apply Hrest.
    specialize (Hm w). rewrite Heq in Hm. by eapply payload_checked_ext. }
  cbn [negb]. revert w1 Hk.
  do 4 (apply Hseq; [unfold check_proposal, handle_qc, handle_proposal_tc; repeat first [checked_step | case_match]|]).
  intros w Hw. apply checked_bind; [apply checked_try_finalize|]. intros r w1 Hw1.
  pose proof (checked_try_finalize p w) as Hc. rewrite Hw1 in Hc. apply (payload_checked_ext w w1 p Hc) in Hw.
  apply checked_bind; [done|]. intros view w2 [= _ <-]. case_match; [done|]. by apply vote_on_checked.
Qed.

Lemma checked_handlers fuel :
  (forall p, guar checked (handle_proposal fuel p)) /\ (forall v, guar checked (handle_vote fuel v)).
Proof.
  induction fuel as [|fuel [IHp IHv]]; [by split; intros ? w|]. split; intros x.
  - by apply (handle_proposal_checked (handle_vote fuel)).
  - change (guar checked (handle_vote_body (handle_proposal fuel) x)).
    unfold handle_vote_body, handle_qc, propose_next. repeat first [apply IHp | checked_step | case_match].
Qed.

Lemma checked_handle_event fuel event : guar checked (handle_event fuel event).
Proof.
  destruct (checked_handlers fuel) as [Hp Hv].
  assert (forall tc, guar checked (generate_proposal fuel tc)) as Hg
    by (intros tc; unfold generate_proposal; repeat first [apply Hp | checked_step | case_match]).
  assert (forall t, guar checked (handle_timeout fuel t)) as Ht
    by (intros t; unfold handle_timeout, handle_qc; repeat first [apply Hg | checked_step | case_match]).
  destruct event as [|[p|v|t|tc|h id|]]; cbn [handle_event]; [|apply Hp|apply Hv|apply Ht| |checked_step|checked_step].
  - unfold handle_local_timer. repeat first [apply Ht | checked_step].
  - unfold handle_tc. repeat first [apply Hg | checked_step | case_match].
Qed.

(** A worker signs votes only for blocks its client knows, and for empty ones. *)
Lemma run_event_checked fuel w event w' : run_event fuel w event = Some w' -> checked w w'.
Proof.
  unfold run_event. pose proof (checked_handle_event fuel event w) as Hg.
  destruct (handle_event fuel event w) as [[x|[e| |]] w1]; try done; by intros [= <-].
Qed.

End voting_known.

(** ** Finalized blocks *)

Section validity.
Context `{MessageCodecs} `{!ClientForHotstuff} `{!StatusLaws}.
Context `{!AuxStoreLaws} `{!CodecLaws Proposal} `{!CodecLaws ConsensusMessage} `{!KeystoreLaws}.
Context `{!DigestInjective} `{!ProposalDigests}.
Implicit Types (s : System).

(** In the run from [s0] to [s] there is a state in which the client of the replica
    knows the block. *)
Definition known_in_run (byz : list AuthorityId) (e : string) (s0 s : System) (id : AuthorityId) (h : Hash) : Prop :=
  exists s1 n, rtc (sys_step byz e) s0 s1 /\ rtc (sys_step byz e) s1 s /\ sys_nodes s1 !! id = Some n /\
    knows (w_client (node_worker n)) h.

Lemma known_in_run_step byz e s0 s s' id h :
  known_in_run byz e s0 s id h -> sys_step byz e s s' -> known_in_run byz e s0 s' id h.
Proof. intros (s1 & n & Hr & Hr' & Hrest) Hs. exists s1, n. split_and!; try apply Hrest; [done|]. by eapply rtc_r. Qed.

(** What the votes of the replicas are for, and what they finalize. *)
Definition effect_explained byz e s0 s id (eff : Effect) : Prop :=
  match eff with
  | SignVote v => exists p, vote_proposal_hash v = Proposal_digest p /\
      (block_hash (proposal_payload p) = empty_payload_hash \/
       known_in_run byz e s0 s id (block_hash (proposal_payload p)))
  | FinalizeCall h => h <> empty_payload_hash
  | _ => True
  end.

Definition explained byz e s0 s : Prop :=
  forall id n, sys_nodes s !! id = Some n -> Forall (effect_explained byz e s0 s id) (w_effects (node_worker n)).

Lemma explained_step byz e s0 s s' id eff :
  sys_step byz e s s' -> effect_explained byz e s0 s id eff -> effect_explained byz e s0 s' id eff.
Proof.
  intros Hs. destruct eff; try done. intros (p & Hp & Hk). exists p. split; [done|].
  destruct Hk as [Hk|Hk]; [by left|right]. by eapply known_in_run_step.
Qed.

Lemma explained_run A byz e s0 s : initial A s0 -> rtc (sys_step byz e) s0 s -> explained byz e s0 s.
Proof.
  intros [_ Hini] Hr. pattern s. refine (rtc_ind_r _ s0 _ _ s Hr); clear s Hr.
  - intros id n Hn. destruct (Hini id n Hn) as (_ & ks & c & q & Hw & _). by rewrite Hw.
  - intros s1 s2 Hr Hstep IH.
    assert (forall id n, sys_nodes s1 !! id = Some n ->
      Forall (effect_explained byz e s0 s2 id) (w_effects (node_worker n))) as Hold.
    { intros id n Hn. eapply Forall_impl; [by apply IH|]. intros eff. by apply explained_step. }
    assert (forall id n w' ch, sys_nodes s1 !! id = Some n -> sys_nodes s2 = <[id := mkNode w' ch]> (sys_nodes s1) ->
      (exists new, w_effects w' = w_effects (node_worker n) ++ new /\ Forall (effect_checked (w_client (node_worker n))) new) ->
      explained byz e s0 s2) as Hset.
    { intros id n w' ch Hn Hs2 (new & He & Hnew) j m Hm. rewrite Hs2 in Hm. destruct (decide (id = j)) as [->|Hne];
        [|rewrite lookup_insert_ne in Hm by done; by apply Hold].
      rewrite lookup_insert_eq in Hm. injection Hm as <-. cbn. rewrite He. apply Forall_app. split; [by apply Hold|].
      eapply Forall_impl; [exact Hnew|]. intros [| | | |] Heff; try done. destruct Heff as (p & Hp & Hk). exists p. split; [done|].
      destruct Hk as [Hk|Hk]; [by left|right]. exists s1, n. split_and!; try done. by apply rtc_once. }
    destruct Hstep as [id n data s Hn Hd|id n m rest w' s Hn Hc Hrun|id n w' s Hn Hrun|id n queue client s Hn Hc|data s Hb Hd].
    + eapply Hset; [done|done|]. exists []. by rewrite app_nil_r.
    + eapply Hset; [done|done|]. by eapply run_event_checked.
    + eapply Hset; [done|done|]. by eapply run_event_checked.
    + eapply Hset; [done|done|]. exists []. by rewrite app_nil_r.
    + exact Hold.
Qed.

(** The correct authorities among those of a quorum. *)
Lemma correct_voters (A : AuthorityList) (byz l : list AuthorityId) :
  quorum_of A l -> l ⊆ ids A -> NoDup (filter (fun id => id ∉ byz) l) /\
  (two_thirds A < length (filter (fun id => id ∉ byz) l) + length (faulty A byz))%nat.
Proof.
  intros [Hnd Hlen] Hsub. split; [by apply NoDup_filter|].
  assert (length (filter (fun id => id ∈ byz) l) <= length (faulty A byz))%nat as Hle.
  { apply NoDup_incl_length'; [by apply NoDup_filter|]. intros id [? ?]%list_elem_of_filter.
    apply list_elem_of_filter. split; [done|by apply Hsub]. }
  pose proof (length_filter_split byz l) as Hsplit. unfold common_voters in Hsplit. lia.
Qed.

(** C15: A block that is finalized was checked by correct replicas. With at most a
    third of the authorities faulty, a block some replica asks its client to
    finalize is not the empty payload; and when the certificate of its proposal has
    a quorum of authorities, there are authorities, which are not faulty and
    together with the faulty ones more than two thirds, each of whose clients knew
    the block at a time in the run. *)
Theorem system_external_validity (A : AuthorityList) (byz : list AuthorityId) (e : string) (s0 s : System)
    (id : AuthorityId) (view : ViewNumber) (h : Hash) (q : QC) :
  authorities_fit A -> (length (faulty A byz) <= max_faulty A)%nat -> initial A s0 -> rtc (sys_step byz e) s0 s ->
  finalizes_by A byz s id view h q ->
  h <> empty_payload_hash /\
  (authority_quorum A q ->
   exists voters, NoDup voters /\ (two_thirds A < length voters + length (faulty A byz))%nat /\
     forall j, j ∈ voters -> j ∈ ids A /\ (j ∉ byz) /\ known_in_run byz e s0 s j h).
Proof.
  intros Hfit Hbyz Hini Hr (n & ks & Hn & Hf & c & p & g & Hc & Hp & Hg & Hcp & Hpg & _ & Hv & -> & ->).
  pose proof (reachable_ok Hfit s (ex_intro _ s0 (conj Hini Hr))) as Hs. pose proof (explained_run A byz e s0 s Hini Hr) as Hex.
  assert (block_hash (proposal_payload g) <> empty_payload_hash) as Hne.
  { pose proof (Hex id n Hn) as He. rewrite Forall_forall in He. by apply He in Hf. }
  split; [done|]. intros Hquo. destruct (child_certificate Hbyz s ks p g Hs Hp Hpg) as (Hver & Hq & _).
  destruct (authority_quorum_of A _ Hver Hquo) as [Hquorum Hsub]. destruct (correct_voters A byz _ Hquorum Hsub) as [Hnd Hlen].
  eexists. split_and!; [exact Hnd|exact Hlen|]. intros j [Hj Hin]%list_elem_of_filter.
  split_and!; [by apply Hsub|done|].
  destruct (qc_auth_voted _ _ j Hq Hver (authority_voters_in _ _ _ Hin) Hj) as (v & Hvin & <- & Hvh & _).
  destruct (sys_vote_signed s v Hs Hvin) as (nj & ksj & Hnj & Hsig & _).
  apply list_elem_of_omap in Hsig as (eff & Heff & Hev). destruct eff; try done. injection Hev as ->.
  pose proof (Hex _ nj Hnj) as He. rewrite Forall_forall in He. destruct (He _ Heff) as (q & Hqd & Hk).
  unfold Proposal_parent_hash in Hpg. rewrite Hpg, Hqd in Hvh. apply proposal_digest_inj in Hvh as (Hpay & _).
  rewrite Hpay in Hk. by destruct Hk.
Qed.

End validity.

(** ** Witness *)

#[export] Instance sample_status_laws : StatusLaws.
Proof.
  constructor.
  - by intros c ins del h.
  - intros c b h. unfold client_finalize_block, client_status, concrete_client_ops. destruct (cc_blocks c !! b) as [n|]; reflexivity.
Qed.

(** In the forking run replica 0 finalizes its block while replica 3 may be faulty. *)
Lemma system_external_validity_witness :
  exists s0 s q voters, rtc (sys_step [3%N] "full") s0 s /\ finalizes_by four [3%N] s id0 2 block1 q /\
    NoDup voters /\ (2 < length voters + length (faulty four [3%N]))%nat /\
    forall j, j ∈ voters -> j ∈ ids four /\ (j ∉ [3%N]) /\ known_in_run [3%N] "full" s0 s j block1.
Proof.
  destruct (fork_state [3%N]) as (s & q & _ & (s0 & Hini & Hr) & _ & _ & Hf & _ & Hq & _); [apply three_insider|vm_decide|].
  destruct (system_external_validity four [3%N] "full" s0 s id0 2 block1 q) as [_ Hval];
    [vm_refl|vm_decide|done|done|done|]. destruct (Hval Hq) as (voters & Hnd & Hlen & Hall). by exists s0, s, q, voters.
Defined.
