(* ===== verification/Voting.v ===== *)
(** * Voting

    What the network promises, without messages, certificates or storage: a
    history of ballots, in which each replica that is not faulty casts them at
    increasing views. Two proposals never both get the ballots of a quorum in one
    view. The network of [System] implements it: its runs cast ballots so, every
    certificate that a quorum of authorities signed stands for such a quorum, and
    what is finalized by such certificates has a quorum in two views in a row. *)

From S2P Require Import Prelude Primitives Messages Concrete Quorum Aggregator Synchronizer State Network BlockImport Worker WorkerFacts Replica Handlers Safety Authentic System Agreement.
From stdpp Require Import sorting.
#[local] Open Scope hs_scope.

(** ** The abstract protocol *)

Section ballots.
Context `{Crypto}.

(** A ballot of a replica for a proposal, named by its digest. *)
Record Ballot := mkBallot { ballot_id : AuthorityId; ballot_view : ViewNumber; ballot_hash : Hash }.

(** A replica casts a ballot at a view above its earlier ones. *)
Inductive cast_step : list Ballot -> list Ballot -> Prop :=
| cast_ballot b V :
    (forall b', b' ∈ V -> ballot_id b' = ballot_id b -> ballot_view b' < ballot_view b)%N ->
    cast_step V (V ++ [b]).

(** A quorum for a proposal: more than two thirds of the authorities, each faulty
    or with a ballot for it. *)
Definition chosen (A : AuthorityList) (byz : list AuthorityId) (V : list Ballot) (view : ViewNumber) (h : Hash) : Prop :=
  exists voters, quorum_of A voters /\ voters ⊆ ids A /\
    forall id, id ∈ voters -> id ∉ byz -> mkBallot id view h ∈ V.

(** One ballot per replica and view, in every history. *)
Lemma cast_unique V b b' :
  rtc cast_step [] V -> b ∈ V -> b' ∈ V -> ballot_id b = ballot_id b' -> ballot_view b = ballot_view b' -> b = b'.
Proof.
  intros Hr. revert b b'. pattern V. refine (rtc_ind_r _ [] _ _ V Hr); clear V Hr.
  - intros b b' Hb. by apply not_elem_of_nil in Hb.
  - intros V V' _ Hstep IH b b'. destruct Hstep as [c V Hc].
    intros [Hb| ->%list_elem_of_singleton]%elem_of_app [Hb'| ->%list_elem_of_singleton]%elem_of_app Hid Hv.
    + by apply IH.
    + specialize (Hc b Hb Hid). lia.
    + specialize (Hc b' Hb' (eq_sym Hid)). lia.
    + done.
Qed.

(** With at most a third of the authorities faulty one proposal is chosen at most. *)
Lemma chosen_unique A byz V view h h' :
  (length (faulty A byz) <= max_faulty A)%nat -> rtc cast_step [] V -> chosen A byz V view h -> chosen A byz V view h' -> h = h'.
Proof.
  intros Hbyz Hr (l & Hq & Hin & Hl) (l' & Hq' & Hin' & Hl').
  destruct (quorum_overlap_honest A l l' byz) as (id & Hid & Hi & Hi'); try done.
  pose proof (cast_unique V _ _ Hr (Hl id Hi Hid) (Hl' id Hi' Hid) eq_refl eq_refl) as Heq. by injection Heq.
Qed.

(** A replica casting several ballots. *)
Lemma cast_several V l id :
  Forall (fun b => ballot_id b = id) l -> StronglySorted (fun a b => ballot_view a < ballot_view b)%N l ->
  (forall b b', b' ∈ V -> ballot_id b' = id -> b ∈ l -> ballot_view b' < ballot_view b)%N ->
  rtc cast_step V (V ++ l).
Proof.
  revert V. induction l as [|b l IH]; intros V Hid Hs Hlt; [by rewrite app_nil_r|].
  apply Forall_cons in Hid as [Hb Hid]. apply StronglySorted_inv in Hs as [Hs Hall]. rewrite Forall_forall in Hall.
  econstructor; [apply (cast_ballot b)|].
  - intros b' Hb' Heq. apply Hlt; [done|congruence|by left].
  - replace (V ++ b :: l) with ((V ++ [b]) ++ l) by (by rewrite <- app_assoc). apply IH; [done..|].
    intros c b' [Hb'| ->%list_elem_of_singleton]%elem_of_app Hi Hc; [apply Hlt; [done..|by right]|by apply Hall].
Qed.

End ballots.

(** ** The network casts ballots *)

Section refinement.
Context `{MessageCodecs} `{!ClientForHotstuff}.
Context `{!AuxStoreLaws} `{!CodecLaws Proposal} `{!CodecLaws ConsensusMessage} `{!KeystoreLaws}.
Context {A : AuthorityList} {byz : list AuthorityId} {send_error : string} (Hfit : authorities_fit A).
#[local] Abbreviation sys_step := (sys_step byz send_error).
#[local] Abbreviation system_ok := (system_ok A byz).
Implicit Types (s : System).

(** The ballot a vote is. *)
Definition ballot_of (v : Vote) : Ballot := mkBallot (vote_voter v) (vote_view v) (vote_proposal_hash v).

(** A history has the ballots of the votes signed in the network, and no others. *)
Definition history (s : System) (V : list Ballot) : Prop :=
  forall b, b ∈ V <-> exists v, v ∈ sys_votes s /\ ballot_of v = b.

Lemma history_same s s' V : (forall v, v ∈ sys_votes s' <-> v ∈ sys_votes s) -> history s V -> history s' V.
Proof.
  intros Heq Hh b. rewrite (Hh b). split; intros (v & Hv & Hb); exists v; (split; [by apply Heq|done]).
Qed.

Lemma sys_votes_quiet id n n' s :
  sys_nodes s !! id = Some n -> w_effects (node_worker n') = w_effects (node_worker n) ->
  forall v, v ∈ sys_votes (set_node id n' s) <-> v ∈ sys_votes s.
Proof.
  intros Hn He v. rewrite !elem_of_sys_votes. cbn. split; intros (j & nj & Hj & Hv).
  - destruct (decide (id = j)) as [<-|Hne]; [rewrite lookup_insert_eq in Hj; injection Hj as <-; rewrite He in Hv; by exists id, n|].
    rewrite lookup_insert_ne in Hj by done. by exists j, nj.
  - destruct (decide (id = j)) as [<-|Hne]; [exists id, n'; rewrite lookup_insert_eq, He; by simplify_eq|].
    exists j, nj. by rewrite lookup_insert_ne.
Qed.

(** A served event casts the ballots of the votes signed on the way. *)
Lemma served_casts id n event w' rest s V :
  system_ok s -> system_ok (served id n w' rest s) -> sys_nodes s !! id = Some n ->
  run_event event_fuel (node_worker n) event = Some w' -> history s V ->
  exists V', rtc cast_step V V' /\ history (served id n w' rest s) V'.
Proof.
  intros Hs Hs' Hn Hr Hh. destruct (run_event_grow _ _ _ _ Hr) as [new Hnew].
  assert (sys_nodes (served id n w' rest s) !! id = Some (mkNode w' rest)) as Hn' by (cbn; by rewrite lookup_insert_eq).
  assert (forall v, v ∈ signed_votes (w_effects w') -> vote_voter v = id) as Hid.
  { intros v Hv. by apply (node_vote_for _ id (mkNode w' rest) v Hs' Hn'). }
  destruct (so_nodes _ _ _ Hs' id _ Hn') as [ks Hk]. pose proof (no_sorted _ _ _ _ _ _ Hk) as Hsort. cbn in Hsort.
  rewrite Hnew, signed_votes_app in Hsort, Hid. exists (V ++ (ballot_of <$> signed_votes new)). split.
  - apply (cast_several V _ id).
    + apply Forall_fmap, Forall_forall. intros v Hv. apply Hid. set_solver.
    + apply (StronglySorted_fmap _ (fun a b => vote_view a < vote_view b)%N); [done|]. by apply StronglySorted_app_1_r in Hsort.
    + intros b b' Hb' Heq Hb. apply Hh in Hb' as (v' & Hv' & <-). apply list_elem_of_fmap in Hb as (v & -> & Hv).
      destruct (sys_vote_signed s v' Hs Hv') as (n1 & _ & Hn1 & Hin & _). cbn in Heq |- *. rewrite Heq in Hn1. simplify_eq.
      by apply (StronglySorted_app_1_elem_of _ _ _ _ _ Hsort).
  - intros b. rewrite elem_of_app, (Hh b), list_elem_of_fmap. split.
    + intros [(v & Hv & Hb)|(v & Hb & Hv)]; exists v; (split; [|done]); apply elem_of_sys_votes.
      * apply elem_of_sys_votes in Hv as (j & nj & Hj & Hv). destruct (decide (id = j)) as [<-|Hne].
        -- exists id, (mkNode w' rest). split; [done|]. cbn. rewrite Hnew, signed_votes_app. simplify_eq. set_solver.
        -- exists j, nj. cbn. by rewrite lookup_insert_ne.
      * exists id, (mkNode w' rest). split; [done|]. cbn. rewrite Hnew, signed_votes_app. set_solver.
    + intros (v & Hv & Hb). apply elem_of_sys_votes in Hv as (j & nj & Hj & Hv).
      destruct (decide (id = j)) as [<-|Hne].
      * rewrite Hn' in Hj. injection Hj as <-. cbn in Hv. rewrite Hnew, signed_votes_app in Hv.
        apply elem_of_app in Hv as [Hv|Hv]; [left|right; by exists v]. exists v. split; [|done].
        apply elem_of_sys_votes. by exists id, n.
      * cbn in Hj. rewrite lookup_insert_ne in Hj by done. left. exists v. split; [|done]. apply elem_of_sys_votes. by exists j, nj.
Qed.

(** The simulation: each step of the network is some steps of the protocol. *)
Lemma sys_step_casts s s' V :
  sys_step s s' -> system_ok s -> history s V -> exists V', rtc cast_step V V' /\ history s' V'.
Proof.
  intros Hstep Hs Hh. pose proof (sys_step_ok Hfit _ _ Hstep Hs) as Hs'.
  destruct Hstep as [id n data s Hn Hd|id n m rest w' s Hn Hc Hr|id n w' s Hn Hr
    |id n queue client s Hn Hc|data s _ Hd].
  - exists V. split; [done|]. eapply history_same; [|done]. by apply (sys_votes_quiet id n).
  - by eapply served_casts.
  - by eapply served_casts.
  - exists V. split; [done|]. eapply history_same; [|done]. by apply (sys_votes_quiet id n).
  - by exists V.
Qed.

Lemma reachable_casts s :
  reachable A byz send_error s -> exists V, rtc cast_step [] V /\ history s V.
Proof.
  intros (s0 & H0' & Hr). assert (history s0 []) as Hh0.
  { intros b. split; [intros Hb; by apply not_elem_of_nil in Hb|]. intros (v & Hv & _).
    apply elem_of_sys_votes in Hv as (id & n & Hn & Hv). destruct (initial_node _ _ H0' id n Hn) as (_ & ks & c & q & Hw & _).
    rewrite Hw in Hv. by apply not_elem_of_nil in Hv. }
  assert (exists V, rtc cast_step [] V /\ history s0 V) as Hex by (by exists []).
  pose proof (initial_ok (byz := byz) s0 H0') as Hs0. clear H0' Hh0. induction Hr as [s|s1 s2 s3 Hstep Hr IH]; [done|].
  destruct Hex as (V & HV & Hh). destruct (sys_step_casts s1 s2 V Hstep Hs0 Hh) as (V' & HV' & Hh').
  apply IH; [|by eapply sys_step_ok]. exists V'. split; [by etrans|done].
Qed.

Context `{!DigestInjective} `{!ProposalDigests}.

(** A verifying certificate with a quorum of authorities is a quorum of ballots. *)
Lemma certificate_chosen s V q :
  history s V -> qc_auth byz (sys_votes s) q -> QC_verify q A = Ok tt -> authority_quorum A q ->
  chosen A byz V (qc_view q) (qc_proposal_hash q).
Proof.
  intros Hh Hq Hver Hquo. destruct (authority_quorum_of A q Hver Hquo) as [Hof Hsub].
  exists (authority_voters A q). split_and!; [done|done|].
  - intros id Hin%authority_voters_in Hid. destruct (qc_auth_voted (sys_votes s) q id Hq Hver Hin Hid) as (v & Hv & <- & <- & <-).
    apply Hh. by exists v.
Qed.

End refinement.

Section theorem.
Context `{MessageCodecs} `{!ClientForHotstuff}.
Context `{!AuxStoreLaws} `{!CodecLaws Proposal} `{!CodecLaws ConsensusMessage} `{!KeystoreLaws}.
Context `{!DigestInjective} `{!ProposalDigests}.

(** C13: The network implements the voting protocol. Every state it can reach has a
    history of ballots cast at increasing views, those of the votes its replicas
    signed. A verifying certificate in it, held, stored or sent, has a quorum of
    authorities or is signed by a key of the adversary that is none; with a quorum
    of authorities it is for a proposal chosen by these ballots. Every block a
    replica asks to finalize is that of a proposal with a child in the next view,
    and each of the two is chosen in its view when its certificate has a quorum of
    authorities. In the protocol a view chooses at most one proposal. *)
Theorem system_refines_voting (A : AuthorityList) (byz : list AuthorityId) (e : string) (s : System) :
  authorities_fit A -> (length (faulty A byz) <= max_faulty A)%nat -> reachable A byz e s ->
  exists V, rtc cast_step [] V /\ history s V /\
    (forall q, certificate_in s q -> QC_verify q A = Ok tt ->
      (authority_quorum A q /\ chosen A byz V (qc_view q) (qc_proposal_hash q)) \/ outsider_signed A byz q) /\
    (forall id n h, sys_nodes s !! id = Some n -> FinalizeCall h ∈ w_effects (node_worker n) ->
      exists g p c, h = block_hash (proposal_payload g) /\ proposal_view p = u64_add (proposal_view g) 1 /\
        Proposal_parent_hash p = Proposal_digest g /\ Proposal_parent_hash c = Proposal_digest p /\
        (chosen A byz V (proposal_view g) (Proposal_digest g) \/ outsider_signed A byz (proposal_qc p)) /\
        (chosen A byz V (proposal_view p) (Proposal_digest p) \/ outsider_signed A byz (proposal_qc c))) /\
    (forall view h h', chosen A byz V view h -> chosen A byz V view h' -> h = h').
Proof.
  intros Hfit Hbyz Hr. destruct (reachable_casts Hfit s Hr) as (V & HV & Hh). pose proof (reachable_ok Hfit s Hr) as Hs.
  exists V. split_and!; [done|done| | |].
  - intros q Hq%(certificate_in_auth A byz s q Hs) Hver. destruct (certificate_backed s q Hs Hq Hver) as [Hquo|]; [left|by right].
    split; [done|]. by apply (certificate_chosen s).
  - intros id n h Hn Hin. destruct (so_nodes _ _ _ Hs id n Hn) as [ks Hk].
    pose proof (wa_effects _ _ _ _ _ (no_auth _ _ _ _ _ _ Hk)) as He. rewrite Forall_forall in He.
    destruct (He _ Hin) as (view & q & c & p & g & Hc & Hp & Hg & Hcp & Hpg & Hv & _ & -> & _). exists g, p, c.
    assert (forall a b, proposal_auth A byz (sys_votes s) ks b -> Proposal_parent_hash b = Proposal_digest a ->
      chosen A byz V (proposal_view a) (Proposal_digest a) \/ outsider_signed A byz (proposal_qc b)) as Hch.
    { intros a b Hb Hba. destruct (child_certificate Hbyz s ks b a Hs Hb Hba) as (Hver & Hq & Hw).
      destruct (certificate_backed s _ Hs Hq Hver) as [Hquo|]; [left|by right].
      rewrite <- (Hw Hquo), <- Hba. by apply (certificate_chosen s). }
    split_and!; try done; by apply Hch.
  - intros view h h'. by apply chosen_unique.
Qed.

End theorem.

(** ** Witness *)

(** The run with a fork, where the adversary has the key of an authority only: what
    is finalized is the choice of a history. *)
Lemma system_refines_voting_witness :
  exists s V g p, reachable four [3%N] "full" s /\ rtc cast_step [] V /\ history s V /\
    block_hash (proposal_payload g) = block1 /\ chosen four [3%N] V (proposal_view g) (Proposal_digest g) /\
    chosen four [3%N] V (proposal_view p) (Proposal_digest p).
Proof.
  destruct (fork_state [3%N]) as (s & _ & _ & Hr & _ & _ & (n & _ & Hn & Hf & _) & _); [apply three_insider|vm_decide|].
  destruct (system_refines_voting four [3%N] "full" s) as (V & HV & Hh & _ & Hfin & _); [vm_refl|vm_decide|done|].
  destruct (Hfin id0 n block1 Hn Hf) as (g & p & c & Hg & _ & _ & _ & Hc & Hc').
  assert (forall q, ~ outsider_signed four [3%N] q) as Hno.
  { intros q (id & _ & Hb & Hid). apply Hid. by apply three_insider. }
  exists s, V, g, p. split_and!; try done; [by destruct Hc as [?|?%Hno]|by destruct Hc' as [?|?%Hno]].
Defined.
