(* ===== verification/Progress.v ===== *)
(** * Progress

    Rounds of a network in which nothing goes wrong: the messages of a quorum of
    replicas arrive and are served. A proposal that is out gets its certificate
    and the next leader proposes on top of it. The other replicas may be faulty
    or silent. *)

From S2P Require Import Prelude Primitives Messages Concrete Quorum Aggregator Synchronizer State Network BlockImport Worker WorkerFacts Replica Handlers Rounds Safety Authentic System Agreement.
#[local] Open Scope hs_scope.

(** ** Delivery *)

Section delivery.
Context `{MessageCodecs} `{!ClientForHotstuff}.
Context `{!AuxStoreLaws} `{!CodecLaws Proposal} `{!CodecLaws ConsensusMessage} `{!KeystoreLaws}.
Context {A : AuthorityList} {byz : list AuthorityId} {send_error : string} (Hfit : authorities_fit A).
#[local] Abbreviation sys_step := (sys_step byz send_error).
#[local] Abbreviation reachable := (reachable A byz send_error).
Implicit Types (s : System) (w : Worker).

(** A replica with nothing in its channel. *)
Definition idle (s : System) (id : AuthorityId) (w : Worker) : Prop := sys_nodes s !! id = Some (mkNode w []).

(** The steps of a network in which messages arrive at the replicas [touched] and
    are served: no timer fires, nothing is imported and no faulty replica acts. *)
Inductive message_step (touched : list AuthorityId) : System -> System -> Prop :=
| msg_arrive id n data topic s :
    id ∈ touched -> sys_nodes s !! id = Some n -> data ∈ sys_sent s ->
    validate (w_network (node_worker n)) data = ProcessAndKeep topic ->
    message_step touched s (set_node id (mkNode (node_worker n) (poll_messages send_error (node_channel n) [data])) s)
| msg_serve id n m rest w' s :
    id ∈ touched -> sys_nodes s !! id = Some n -> node_channel n = m :: rest ->
    run_event event_fuel (node_worker n) (Message m) = Some w' -> message_step touched s (served id n w' rest s).

Lemma message_step_mono l l' s s' : l ⊆ l' -> message_step l s s' -> message_step l' s s'.
Proof. intros Hl [id n data topic s0 Hin|id n m rest w' s0 Hin]; [eapply msg_arrive|eapply msg_serve]; try done; by apply Hl. Qed.

Lemma message_step_sys l s s' : message_step l s s' -> sys_step s s'.
Proof. intros [id n data topic s0 _ Hn Hd Hv|id n m rest w' s0 _ Hn Hc Hr]; [by eapply sys_arrive|by eapply sys_message]. Qed.

(** The network moved on by messages to the replicas [touched] only. *)
Record advanced (touched : list AuthorityId) (s s' : System) : Prop := {
  adv_steps : rtc (message_step touched) s s';
  adv_others : forall id, id ∉ touched -> sys_nodes s' !! id = sys_nodes s !! id;
  adv_sent : sys_sent s ⊆ sys_sent s';
}.

Lemma advanced_refl touched s : advanced touched s s.
Proof. by constructor. Qed.

Lemma advanced_trans touched s1 s2 s3 : advanced touched s1 s2 -> advanced touched s2 s3 -> advanced touched s1 s3.
Proof.
  intros [Hr1 Ho1 Hs1] [Hr2 Ho2 Hs2]. constructor; [by etrans| |set_solver].
  intros id Hid. by rewrite Ho2, Ho1.
Qed.

Lemma advanced_weaken l l' s s' : l ⊆ l' -> advanced l s s' -> advanced l' s s'.
Proof.
  intros Hl [Hr Ho Hs]. constructor; [|intros id Hid; apply Ho; set_solver|done].
  eapply rtc_subrel; [|exact Hr]. intros ? ?. by apply message_step_mono.
Qed.

Lemma advanced_reachable l s s' : reachable s -> advanced l s s' -> reachable s'.
Proof.
  intros (s0 & H0' & Hr0) Ha. exists s0. split; [done|].
  etrans; [exact Hr0|]. eapply rtc_subrel; [apply message_step_sys|apply Ha].
Qed.

Lemma idle_fun s id w w' : idle s id w -> idle s id w' -> w = w'.
Proof. unfold idle. congruence. Qed.

Lemma idle_worker_ok s id w : reachable s -> idle s id w -> exists ks, worker_ok A ks w.
Proof.
  intros Hs%(reachable_ok Hfit) Hid. destruct (so_nodes _ _ _ Hs id _ Hid) as [ks Hk]. exists ks. apply Hk.
Qed.

(** Everything a replica gossiped was sent. *)
Lemma reachable_sent s id n m force :
  reachable s -> sys_nodes s !! id = Some n -> Gossip m force ∈ w_effects (node_worker n) -> encode m ∈ sys_sent s.
Proof.
  intros (s0 & [Hsent Hini] & Hr). revert id n. pattern s. refine (rtc_ind_r _ s0 _ _ s Hr); clear s Hr.
  - intros id n Hn Hin. destruct (Hini id n Hn) as (_ & ks & c & q & Hw & _). rewrite Hw in Hin. by apply not_elem_of_nil in Hin.
  - intros s1 s2 _ Hr IH id n Hn Hin.
    assert (forall id' n' w' rest ev, sys_nodes s1 !! id' = Some n' -> run_event event_fuel (node_worker n') ev = Some w' ->
      s2 = served id' n' w' rest s1 -> encode m ∈ sys_sent s2) as Hserved.
    { intros id' n' w' rest ev Hn' Hrun ->. cbn in Hn |- *. apply elem_of_app.
      destruct (decide (id' = id)) as [->|Hne]; [|left; rewrite lookup_insert_ne in Hn by done; exact (IH id n Hn Hin)].
      rewrite lookup_insert_eq in Hn. injection Hn as <-. cbn in Hin.
      destruct (run_event_grow _ _ _ _ Hrun) as [new Hnew]. unfold new_effects. rewrite Hnew, drop_app_length.
      rewrite Hnew in Hin. apply elem_of_app in Hin as [Hin|Hin]; [left; exact (IH id n' Hn' Hin)|right].
      apply list_elem_of_omap. by exists (Gossip m force). }
    destruct Hr as [id' n' data s Hn' Hd|id' n' m' rest w' s Hn' Hc Hrun|id' n' w' s Hn' Hrun|id' n' queue client s Hn' Hc|data s Hb Hd].
    + cbn in *. destruct (decide (id' = id)) as [->|Hne]; [|rewrite lookup_insert_ne in Hn by done; exact (IH id n Hn Hin)].
      rewrite lookup_insert_eq in Hn. injection Hn as <-. exact (IH id n' Hn' Hin).
    + by eapply Hserved.
    + by eapply Hserved.
    + cbn in *. destruct (decide (id' = id)) as [->|Hne]; [|rewrite lookup_insert_ne in Hn by done; exact (IH id n Hn Hin)].
      rewrite lookup_insert_eq in Hn. injection Hn as <-. exact (IH id n' Hn' Hin).
    + cbn. apply elem_of_app. left. exact (IH id n Hn Hin).
Qed.

(** A message that is out arrives at an idle replica and is served. *)
Lemma deliver id w m w' s :
  idle s id w -> encode m ∈ sys_sent s -> accepts w m -> run_event event_fuel w (Message m) = Some w' ->
  exists s', advanced [id] s s' /\ idle s' id w'.
Proof.
  intros Hid Hsent Hacc Hrun.
  set (s1 := set_node id (mkNode w (poll_messages send_error [] [encode m])) s).
  assert (message_step [id] s s1) as Hstep1 by (eapply (msg_arrive _ id (mkNode w [])); [by left|done..]).
  assert (poll_messages send_error [] [encode m] = [m]) as Hpoll.
  { unfold poll_messages, incoming_message_handler. cbn [foldl]. by rewrite decode_encode. }
  assert (sys_nodes s1 !! id = Some (mkNode w [m])) as Hn1.
  { unfold s1, set_node. cbn [sys_nodes]. by rewrite lookup_insert_eq, Hpoll. }
  exists (served id (mkNode w [m]) w' [] s1). split; [constructor|].
  - econstructor; [exact Hstep1|]. apply rtc_once. by eapply msg_serve; [left|..].
  - intros id' Hne. cbn. rewrite !lookup_insert_ne by set_solver. done.
  - cbn. set_solver.
  - unfold idle. cbn. by rewrite lookup_insert_eq.
Qed.

Lemma deliver_all id w ms w' s :
  serves w ms w' -> idle s id w -> Forall (fun m => encode m ∈ sys_sent s) ms ->
  exists s', advanced [id] s s' /\ idle s' id w'.
Proof.
  intros Hserve. revert s. induction Hserve as [w|w m w1 ms w2 Hacc Hrun Hserve IH]; intros s Hid Hsent.
  - exists s. split; [apply advanced_refl|done].
  - apply Forall_cons in Hsent as [Hm Hms]. destruct (deliver id w m w1 s Hid Hm Hacc Hrun) as (s1 & Ha1 & Hid1).
    destruct (IH s1 Hid1) as (s2 & Ha2 & Hid2).
    { eapply Forall_impl; [exact Hms|]. intros m' Hin. by apply (adv_sent _ _ _ Ha1). }
    exists s2. split; [by eapply advanced_trans|done].
Qed.

(** A message that is out is served by several replicas. *)
Lemma sweep (R : AuthorityId -> Worker -> Worker -> Prop) m l s :
  NoDup l -> encode m ∈ sys_sent s ->
  (forall id, id ∈ l -> exists w w', idle s id w /\ accepts w m /\ run_event event_fuel w (Message m) = Some w' /\ R id w w') ->
  exists s', advanced l s s' /\ forall id, id ∈ l -> exists w w', idle s id w /\ idle s' id w' /\ R id w w'.
Proof.
  intros Hnd. revert s. induction Hnd as [|id l Hnin Hnd IH]; intros s Hsent Hl.
  - exists s. split; [apply advanced_refl|]. intros id Hin. by apply not_elem_of_nil in Hin.
  - destruct (Hl id) as (w & w' & Hid & Hacc & Hrun & HR); [by left|].
    destruct (deliver id w m w' s Hid Hsent Hacc Hrun) as (s1 & Ha1 & Hid1).
    assert (forall j, j ∈ l -> sys_nodes s1 !! j = sys_nodes s !! j) as Hkeep.
    { intros j Hj. apply (adv_others _ _ _ Ha1). intros ->%list_elem_of_singleton. done. }
    destruct (IH s1) as (s2 & Ha2 & Hl2).
    + by apply (adv_sent _ _ _ Ha1).
    + intros j Hj. destruct (Hl j) as (wj & wj' & Hidj & Hrest); [by right|]. exists wj, wj'. split; [|done].
      unfold idle. by rewrite Hkeep.
    + exists s2. split.
      * eapply advanced_trans; [eapply advanced_weaken; [|exact Ha1]|eapply advanced_weaken; [|exact Ha2]]; set_solver.
      * intros j [->|Hj]%elem_of_cons.
        -- exists w, w'. split_and!; [done| |done]. unfold idle. by rewrite (adv_others _ _ _ Ha2).
        -- destruct (Hl2 j Hj) as (wj & wj' & Hidj & Hidj' & HRj). exists wj, wj'. split_and!; try done.
           unfold idle. by rewrite <- Hkeep.
Qed.

End delivery.

(** ** A round *)

Section round.
Context `{MessageCodecs} `{!ClientForHotstuff}.
Context `{!AuxStoreLaws} `{!CodecLaws Proposal} `{!CodecLaws ConsensusMessage} `{!KeystoreLaws}.
Context {A : AuthorityList} {byz : list AuthorityId} {send_error : string} (Hfit : authorities_fit A).
#[local] Abbreviation reachable := (reachable A byz send_error).
#[local] Abbreviation advanced := (advanced (send_error := send_error)).
Implicit Types (s : System) (w : Worker) (p : Proposal).

(** Whoever has these authorities sees [id] lead [view]. *)
Definition leader_of (view : ViewNumber) (id : AuthorityId) : Prop :=
  forall st, cs_authorities st = A -> view_leader st view = Some id.

(** What a member of the quorum keeps through the rounds: its key, the room to
    propose, and no votes collected from [view] on. *)
Record member (view : ViewNumber) (id : AuthorityId) (w : Worker) : Prop := {
  mb_authorities : cs_authorities (w_state w) = A;
  mb_local : local_authority_id (w_state w) = Some id;
  mb_high : (qc_view (cs_high_qc (w_state w)) < view)%N;
  mb_fresh : forall u d, (view <= u)%N -> vote_maker (cs_aggregator (w_state w)) u d = QCMaker_new;
  mb_queue : is_Some (queue_lock (w_queue w));
}.

(** A member that will vote for [p] when it arrives. *)
Record waiting (p : Proposal) (id : AuthorityId) (w : Worker) : Prop := {
  wt_member : member (proposal_view p) id w;
  wt_view : cs_view (after_qc (proposal_qc p) (w_state w)) = proposal_view p;
  wt_last : (cs_last_voted_view (w_state w) < proposal_view p)%N;
  wt_known : payload_known w p;
}.

(** A member that has voted for [p]. *)
Record cast (p : Proposal) (id : AuthorityId) (w : Worker) : Prop := {
  ct_member : member (proposal_view p) id w;
  ct_view : cs_view (w_state w) = proposal_view p;
  ct_last : cs_last_voted_view (w_state w) = proposal_view p;
}.

(** A vote of [id] for [p] is out. *)
Definition vote_sent (p : Proposal) (s : System) (id : AuthorityId) : Prop :=
  exists v, vote_of A p id v /\ encode (MsgVote v) ∈ sys_sent s.

(** The proposal [p] of leader [L] is out: [L] has voted for it, and the other
    members of [G] wait for it. *)
Record under_way (G : list AuthorityId) (L : AuthorityId) (p : Proposal) (s : System) : Prop := {
  uw_sent : encode (MsgPropose p) ∈ sys_sent s;
  uw_valid : forall st, cs_authorities st = A -> verify_proposal st p = Some (Ok tt);
  uw_qc : (qc_view (proposal_qc p) < proposal_view p)%N;
  uw_leader : exists w, idle s L w /\ cast p L w /\ vote_sent p s L;
  uw_others : forall id, id ∈ G -> id <> L -> exists w, idle s id w /\ waiting p id w;
}.

Lemma voted_emit p w w1 e : voted p w w1 -> voted p w (add_w_effect e w1).
Proof.
  intros [? ? ? ? ? Hg Hf]. constructor; try done.
  - etrans; [exact Hg|]. by exists [e].
  - intros h Hh. cbn. apply elem_of_app. left. by apply Hf.
Qed.

Lemma after_qc_high qc st :
  (qc_view (cs_high_qc (after_qc qc st)) <= N.max (qc_view qc) (qc_view (cs_high_qc st)))%N.
Proof.
  unfold after_qc, update_high_qc. destruct (_ <? _)%N; [lia|].
  destruct (_ =? _)%N; cbn; destruct (_ <? _)%N; cbn; lia.
Qed.

(** The replica that handled [p]. *)
Lemma voted_cast p id w w1 :
  waiting p id w -> (qc_view (proposal_qc p) < proposal_view p)%N -> voted p w w1 -> cast p id w1.
Proof.
  intros [[HA Hl Hh Hf Hq] Hv Hlast _] Hqc Hvd. pose proof (voted_state _ _ _ Hvd) as Hs.
  destruct (after_qc_frame (proposal_qc p) (w_state w)) as (Ha & Hks & _ & Hag & _).
  pose proof (after_qc_high (proposal_qc p) (w_state w)) as Hhigh.
  constructor; [constructor| |]; rewrite ?Hs; cbn; try done.
  - by rewrite Ha.
  - rewrite <- Hl. by apply local_authority_id_ext.
  - lia.
  - intros u d Hu. rewrite Hag. by apply Hf.
  - by rewrite (voted_queue _ _ _ Hvd).
Qed.

(** It waits for the next proposal once that carries the certificate of [p]. *)
Lemma cast_waiting p p' id w :
  cast p id w -> (proposal_view p + 1 < u64_modulus)%N -> qc_view (proposal_qc p') = proposal_view p ->
  proposal_view p' = u64_add (proposal_view p) 1 -> block_hash (proposal_payload p') = empty_payload_hash ->
  waiting p' id w.
Proof.
  intros [[HA Hl Hh Hf Hq] Hv Hlast] Hlt Hqc Hpv He.
  assert (u64_add (proposal_view p) 1 = proposal_view p + 1)%N as Hadd by (unfold u64_add; by rewrite N.mod_small).
  rewrite Hadd in Hpv. constructor; [constructor| | |]; rewrite ?Hpv; try done; try lia.
  - intros u d Hu. apply Hf. lia.
  - destruct (after_qc_frame (proposal_qc p') (w_state w)) as (_ & _ & _ & _ & ->). by rewrite Hqc, Hv, N.eqb_refl.
  - by left.
Qed.

Lemma waiting_can_vote p id w :
  (forall c q, (save_proposal c q).1 = Ok tt) -> (forall st, cs_authorities st = A -> verify_proposal st p = Some (Ok tt)) ->
  waiting p id w -> can_vote p w.
Proof. intros Hsave Hvalid [[HA _ _ _ _] Hv Hl Hk]. constructor; try done. by apply Hvalid. Qed.

(** What [n] members other than [x] sent, gathered. *)
Lemma gather {M} (sender : M -> AuthorityId) (P : AuthorityId -> M -> Prop) (G : list AuthorityId) x n :
  NoDup G -> (n < length G)%nat -> (forall id m, P id m -> sender m = id) ->
  (forall id, id ∈ G -> id <> x -> exists m, P id m) ->
  exists ms, (x ∉ (sender <$> ms)) /\ NoDup (sender <$> ms) /\ length ms = n /\ Forall (fun m => P (sender m) m) ms.
Proof.
  intros Hnd Hlen Hsender HP.
  assert (forall id, id ∈ take n (filter (.≠ x) G) -> id <> x /\ id ∈ G) as Htake.
  { intros id (i & Hi & _)%elem_of_take. by apply list_elem_of_lookup_2, list_elem_of_filter in Hi. }
  assert (forall l, (forall id, id ∈ l -> id <> x /\ id ∈ G) ->
    exists ms, sender <$> ms = l /\ Forall (fun m => P (sender m) m) ms) as Hall.
  { induction l as [|id l IH]; intros Hl; [by exists []|]. destruct (Hl id) as [Hne Hin]; [by left|].
    destruct (HP id Hin Hne) as [m Hm]. destruct IH as (ms & Hms & Hf); [intros j Hj; apply Hl; by right|].
    pose proof (Hsender id m Hm) as Hid. exists (m :: ms). split; [cbn; by rewrite Hid, Hms|]. constructor; [by rewrite Hid|done]. }
  destruct (Hall (take n (filter (.≠ x) G)) Htake) as (ms & Hms & Hf).
  exists ms. rewrite Hms. split_and!; [| | |done].
  - intros Hin%Htake. naive_solver.
  - eapply sublist_NoDup; [|apply sublist_take]. by apply NoDup_filter.
  - rewrite <- (length_fmap sender ms), Hms, length_take. apply Nat.min_l. pose proof (length_filter_ne G x Hnd). lia.
Qed.

Context (Hsave : forall c q, (save_proposal c q).1 = Ok tt) (Htt : (0 < two_thirds A)%nat).

(** What becomes of a member that is handed [p], by whether it leads next. *)
Definition hands_in (p : Proposal) (L' id : AuthorityId) (w w' : Worker) : Prop :=
  waiting p id w /\
  if decide (id = L') then
    exists w1 agg sig, voted p w w1 /\ aggregator_ok A agg /\
      collected agg (Proposal_digest p) (proposal_view p) = [(id, sig)] /\
      (forall u d, u <> proposal_view p -> vote_maker agg u d = vote_maker (cs_aggregator (w_state w)) u d) /\
      w' = set_w_state (set_cs_aggregator agg (w_state w1)) w1
  else voted p w w' /\ exists v, vote_of A p id v /\ Gossip (MsgVote v) false ∈ w_effects w'.

Lemma waiting_serves p L' id w s :
  reachable s -> idle s id w -> waiting p id w -> (qc_view (proposal_qc p) < proposal_view p)%N ->
  (forall st, cs_authorities st = A -> verify_proposal st p = Some (Ok tt)) ->
  leader_of (u64_add (proposal_view p) 1) L' ->
  exists w', accepts w (MsgPropose p) /\ run_event event_fuel w (Message (MsgPropose p)) = Some w' /\ hands_in p L' id w w'.
Proof.
  intros Hs Hid Hw Hqc Hvalid HL'. destruct (idle_worker_ok Hfit s id w Hs Hid) as [ks Hok].
  assert (accepts w (MsgPropose p)) as Hacc.
  { apply accepts_view. rewrite (wo_network _ _ _ Hok). cbn. pose proof (wt_view _ _ _ Hw) as Hv.
    destruct (after_qc_frame (proposal_qc p) (w_state w)) as (_ & _ & _ & _ & Hf). rewrite Hf in Hv.
    destruct (N.eqb_spec (qc_view (proposal_qc p)) (cs_view (w_state w))); lia. }
  pose proof (waiting_can_vote p id w Hsave Hvalid Hw) as Hcv.
  pose proof (mb_authorities _ _ _ (wt_member _ _ _ Hw)) as HA. pose proof (mb_local _ _ _ (wt_member _ _ _ Hw)) as Hl.
  unfold hands_in. destruct (decide (id = L')) as [->|Hne].
  - destruct (serve_proposal_leader Hfit p w L') as (w1 & agg & sig & Hvd & Hagg & Hcol & Hoth & Hrun);
      [done|done|apply Hok|done|done|by apply HL'| |].
    { unfold collected. by rewrite (mb_fresh _ _ _ (wt_member _ _ _ Hw)). }
    eexists. split_and!; [done|exact Hrun|done|]. by exists w1, agg, sig.
  - destruct (serve_proposal p w id L') as (w1 & v & Hvd & Hvo & Hrun); [done|done|by apply HL'|done|].
    eexists. split_and!; [done|exact Hrun|done|by apply voted_emit|]. exists v. rewrite HA in Hvo. split; [done|].
    cbn. apply elem_of_app. right. by left.
Qed.

Lemma voting_phase G L L' p s :
  reachable s -> NoDup G -> under_way G L p s -> leader_of (u64_add (proposal_view p) 1) L' ->
  exists s1, advanced (filter (.≠ L) G) s s1 /\
    (forall id, id ∈ G -> id <> L -> exists w w', idle s id w /\ idle s1 id w' /\ hands_in p L' id w w') /\
    (forall id, id ∈ G -> id <> L' -> vote_sent p s1 id).
Proof.
  intros Hs Hnd [Hsent Hvalid Hqc (wL & HidL & HcL & v & Hv & Hvs) Hoth] HL'.
  destruct (sweep (A := A) (send_error := send_error) Hfit (hands_in p L') (MsgPropose p) (filter (.≠ L) G) s) as (s1 & Ha & Hl).
  - by apply NoDup_filter.
  - done.
  - intros id [Hne Hin]%list_elem_of_filter. destruct (Hoth id Hin Hne) as (w & Hid & Hw).
    destruct (waiting_serves p L' id w s) as (w' & Hacc & Hrun & Hh); try done. by exists w, w'.
  - pose proof (advanced_reachable _ _ _ Hs Ha) as Hs1. exists s1. split_and!; [done| |].
    + intros id Hin Hne. apply Hl. by apply list_elem_of_filter.
    + intros id Hin Hne. destruct (decide (id = L)) as [->|HneL].
      * exists v. split; [done|]. by apply (adv_sent _ _ _ Ha).
      * destruct (Hl id) as (w & w' & _ & Hid' & _ & Hh); [by apply list_elem_of_filter|].
        rewrite decide_False in Hh by done. destruct Hh as (_ & v' & Hv' & Hg). exists v'. split; [done|].
        by eapply reachable_sent.
Qed.

(** Votes for a certificate, but that of the next leader. *)
Lemma quorum_votes p s G L' :
  NoDup G -> (two_thirds A < length G)%nat -> (forall id, id ∈ G -> id <> L' -> vote_sent p s id) ->
  exists vs, (L' ∉ (vote_voter <$> vs)) /\ NoDup (vote_voter <$> vs) /\ length vs = two_thirds A /\
    Forall (fun v => vote_of A p (vote_voter v) v) vs /\ Forall (fun v => encode (MsgVote v) ∈ sys_sent s) vs.
Proof.
  intros Hnd Hlen Hvotes.
  destruct (gather vote_voter (fun id v => vote_of A p id v /\ encode (MsgVote v) ∈ sys_sent s) G L' (two_thirds A))
    as (vs & Hnot & Hndv & Hlenv & [Hvs Hsent]%Forall_and); [done|done| |done|by exists vs].
  intros id v [Hv _]. by apply Hv.
Qed.

(** What the next leader needs besides votes, so that it goes on with an empty
    proposal: the block of [p] is ahead of its client, and not too many empty
    proposals came before. *)
Definition goes_on (p : Proposal) (w : Worker) : Prop :=
  (finalized_number (client_info (client_after p (w_client w))) < block_number (proposal_payload p))%N /\
  empty_run true 0 (rev (w_proposal_hash_queue w ++ [block_hash (proposal_payload p)])) = false.

(** The next leader that handled [p] is ready for the votes. *)
Lemma handed_leading p L' L'' w w1 agg ks :
  let wl := set_w_state (set_cs_aggregator agg (w_state w1)) w1 in
  cast p L' w1 -> voted p w w1 -> worker_ok A ks wl -> aggregator_ok A agg -> goes_on p w ->
  leader_of (u64_add (proposal_view p) 1) L' -> leader_of (u64_add (u64_add (proposal_view p) 1) 1) L'' ->
  L' <> L'' -> (proposal_view p + 1 < u64_modulus)%N ->
  leading (A := A) p L' L'' (mkBlockInfo (Some (block_hash (proposal_payload p))) (block_number (proposal_payload p))) wl.
Proof.
  intros wl [[HA Hl Hh Hf Hq] Hv Hla] Hvd Hok Hagg [Hfin Hrun] Hlead Hlead' Hne Hroom.
  assert (u64_add (proposal_view p) 1 = proposal_view p + 1)%N as Hadd by (unfold u64_add; by rewrite N.mod_small).
  constructor; cbn; try done.
  - pose proof (wo_network _ _ _ Hok) as Hnet. cbn in Hnet. congruence.
  - by apply Hlead.
  - by apply Hlead'.
  - by rewrite (voted_processing _ _ _ Hvd).
  - by rewrite (voted_client _ _ _ Hvd).
  - by rewrite (voted_hashes _ _ _ Hvd).
  - lia.
  - lia.
Qed.

(** The leader has voted for the proposal it made. *)
Lemma proposed_cast p p' L' b v' agg0 w w1 w2 :
  cast p L' w -> (proposal_view p + 1 < u64_modulus)%N ->
  (forall u d, (proposal_view p < u)%N -> vote_maker agg0 u d = QCMaker_new) ->
  proposed (A := A) p p' L' b v' (set_w_state (set_cs_aggregator agg0 (w_state w)) w) w1 w2 -> cast p' L' w2.
Proof.
  intros [[HA Hl Hh Hf Hq] Hv Hla] Hroom Hfresh Hpr.
  assert (u64_add (proposal_view p) 1 = proposal_view p + 1)%N as Hadd by (unfold u64_add; by rewrite N.mod_small).
  destruct Hpr as [Hvd _ (qc & agg & Hst & Hpq & _ & Hoth) _ Hqu _ _ _ Hqv Hpv _ _].
  assert (w_state w2 = set_cs_last_voted_view (proposal_view p') (w_state w1)) as Hs2.
  { rewrite (voted_state _ _ _ Hvd). f_equal. unfold after_qc. rewrite Hst, Hpq. cbn. rewrite <- Hpq, Hqv, Hadd.
    by rewrite (proj2 (N.ltb_lt _ _)) by lia. }
  constructor; [constructor| |]; cbn; rewrite ?Hs2, ?Hst; cbn; try done.
  - rewrite <- Hpq, Hqv, Hpv. lia.
  - intros u d Hu. rewrite Hpv, Hadd in Hu. rewrite Hoth by lia. apply Hfresh. lia.
  - by rewrite (voted_queue _ _ _ Hvd), Hqu.
Qed.

Lemma cast_emit p id e w : cast p id w -> cast p id (add_w_effect e w).
Proof. intros [[] ? ?]. by repeat constructor. Qed.

(** The next leader is handed [p] and then the votes. *)
Lemma leader_phase G L' L'' p w w' s :
  reachable s -> NoDup G -> (two_thirds A < length G)%nat -> (qc_view (proposal_qc p) < proposal_view p)%N ->
  idle s L' w' -> hands_in p L' L' w w' -> goes_on p w -> (forall id, id ∈ G -> id <> L' -> vote_sent p s id) ->
  leader_of (u64_add (proposal_view p) 1) L' -> leader_of (u64_add (u64_add (proposal_view p) 1) 1) L'' ->
  L' <> L'' -> (proposal_view p + 1 < u64_modulus)%N ->
  exists s' p' w1 w2 w3, advanced [L'] s s' /\ idle s' L' w3 /\ cast p' L' w3 /\ vote_sent p' s' L' /\
    encode (MsgPropose p') ∈ sys_sent s' /\ (forall st, cs_authorities st = A -> verify_proposal st p' = Some (Ok tt)) /\
    voted p w w1 /\ w_client w2 = w_client w1 /\ voted p' w2 w3 /\
    Proposal_parent_hash p' = Proposal_digest p /\ qc_view (proposal_qc p') = proposal_view p /\
    proposal_view p' = u64_add (proposal_view p) 1 /\
    proposal_payload p' = mkPayload empty_payload_hash (block_number (proposal_payload p)).
Proof.
  intros Hs Hnd Hlen Hqc Hid [Hwait Hh] Hgo Hvotes Hlead Hlead' Hne Hroom. rewrite decide_True in Hh by done.
  destruct Hh as (w1 & agg & sig & Hvd & Hagg & Hcol & Hoth & ->).
  destruct (quorum_votes p s G L' Hnd Hlen Hvotes) as (vs & Hnot & Hndv & Hlenv & Hvs & Hvsent).
  pose proof (voted_cast p L' w w1 Hwait Hqc Hvd) as Hcast.
  set (wl := set_w_state (set_cs_aggregator agg (w_state w1)) w1) in Hid.
  destruct (idle_worker_ok Hfit s L' wl Hs Hid) as [ks Hok].
  assert (forall u d, (proposal_view p < u)%N -> vote_maker agg u d = QCMaker_new) as Hfresh.
  { intros u d Hu. rewrite Hoth by lia. apply (mb_fresh _ _ _ (wt_member _ _ _ Hwait)). lia. }
  pose proof (handed_leading p L' L'' w w1 agg ks Hcast Hvd Hok Hagg Hgo Hlead Hlead' Hne Hroom) as Hld.
  destruct (collect_votes Hfit p L' L'' _ vs wl Hld Hvs) as (p' & w2 & w3 & v' & Hserve & Hpr).
  { cbn [wl w_state set_w_state cs_aggregator set_cs_aggregator]. rewrite Hcol. cbn. by constructor. }
  { cbn [wl w_state set_w_state cs_aggregator set_cs_aggregator]. rewrite Hcol, Hlenv. cbn. lia. }
  { intros ->. cbn in Hlenv. lia. }
  destruct (deliver_all (send_error := send_error) Hfit L' wl _ _ s Hserve Hid) as (s' & Ha & Hid').
  { apply Forall_fmap. exact Hvsent. }
  pose proof (advanced_reachable _ _ _ Hs Ha) as Hs'. set (wf := add_w_effect _ w3) in Hid'.
  assert (cast p' L' wf) as Hcast'.
  { by eapply cast_emit, (proposed_cast p p' L' _ v' agg w1 w2 w3). }
  destruct Hpr as [Hvd' Hvo _ Hcl _ _ Hg Hpar Hqv Hpv Hpp Hver].
  exists s', p', w1, w2, wf. split_and!; try done.
  - exists v'. split; [done|]. eapply (reachable_sent (A := A)); [exact Hs'|exact Hid'|]. cbn. apply elem_of_app. right. by left.
  - eapply (reachable_sent (A := A)); [exact Hs'|exact Hid'|]. cbn. apply elem_of_app. left.
    destruct (voted_effects _ _ _ Hvd') as [new ->]. apply elem_of_app. by left.
  - intros st HA. rewrite <- Hver. apply verify_proposal_ext. rewrite HA. symmetry. apply Hok.
  - by apply voted_emit.
Qed.

(** Everyone but the next leader has voted for [p] after the first phase. *)
Lemma phase_cast G L L' p s s1 id :
  under_way G L p s -> advanced (filter (.≠ L) G) s s1 ->
  (forall id, id ∈ G -> id <> L -> exists w w', idle s id w /\ idle s1 id w' /\ hands_in p L' id w w') ->
  id ∈ G -> id <> L' -> exists w', idle s1 id w' /\ cast p id w' /\
    forall w, idle s id w -> if decide (id = L) then w' = w else voted p w w'.
Proof.
  intros Huw Ha Hmem Hin Hne. destruct (decide (id = L)) as [->|HneL].
  - destruct (uw_leader _ _ _ _ Huw) as (wL & HidL & HcL & _). exists wL. split_and!; [|done|].
    + unfold idle. rewrite (adv_others _ _ _ Ha); [done|]. intros [? _]%list_elem_of_filter. done.
    + intros w Hw. by apply (idle_fun s L).
  - destruct (Hmem id Hin HneL) as (wi & wi' & Hidi & Hidi' & Hwi & Hhi). rewrite decide_False in Hhi by done.
    exists wi'. split_and!; [done| |].
    + apply (voted_cast p id wi); [done|apply Huw|apply Hhi].
    + intros w Hw. rewrite (idle_fun _ _ _ _ Hw Hidi). apply Hhi.
Qed.

(** What a round makes of each member: the next leader handled [p], collected
    the votes and handled its own proposal [p']; the others but [L] handled [p]. *)
Definition round_of (p p' : Proposal) (L L' id : AuthorityId) (w w' : Worker) : Prop :=
  if decide (id = L') then exists w1 w2, voted p w w1 /\ w_client w2 = w_client w1 /\ voted p' w2 w'
  else if decide (id = L) then w' = w else voted p w w'.

Lemma round G L L' L'' p s :
  reachable s -> NoDup G -> (two_thirds A < length G)%nat -> L' ∈ G ->
  under_way G L p s -> L <> L' -> L' <> L'' -> (proposal_view p + 1 < u64_modulus)%N ->
  leader_of (u64_add (proposal_view p) 1) L' -> leader_of (u64_add (u64_add (proposal_view p) 1) 1) L'' ->
  (forall w, idle s L' w -> goes_on p w) ->
  exists s' p', advanced G s s' /\ under_way G L' p' s' /\
    Proposal_parent_hash p' = Proposal_digest p /\ proposal_view p' = u64_add (proposal_view p) 1 /\
    proposal_payload p' = mkPayload empty_payload_hash (block_number (proposal_payload p)) /\
    forall id w, id ∈ G -> idle s id w -> exists w', idle s' id w' /\ round_of p p' L L' id w w'.
Proof.
  intros Hs Hnd Hlen HL' Huw Hne Hne' Hroom Hlead Hlead' Hpay.
  destruct (voting_phase G L L' p s Hs Hnd Huw Hlead) as (s1 & Ha1 & Hmem & Hvotes).
  pose proof (advanced_reachable _ _ _ Hs Ha1) as Hs1. pose proof (uw_qc _ _ _ _ Huw) as Hqc.
  destruct (Hmem L' HL') as (w & w' & Hid & Hid1 & Hh); [done|].
  destruct (leader_phase G L' L'' p w w' s1) as (s2 & p' & w1 & w2 & w3 & Ha2 & Hid2 & Hc & Hv & Hsent & Hval &
    Hvd & Hcl & Hvd' & Hpar & Hqv & Hpv & Hpp); try done; [by apply Hpay|].
  assert (forall id w', id <> L' -> idle s1 id w' -> idle s2 id w') as Hkeep.
  { intros id wi Hn Hi. unfold idle. rewrite (adv_others _ _ _ Ha2); [done|]. set_solver. }
  exists s2, p'. split_and!; try done.
  - eapply (advanced_trans Hfit); (eapply (advanced_weaken Hfit); [|done]); [|set_solver].
    intros x [_ Hx]%list_elem_of_filter. done.
  - constructor; try done.
    + unfold u64_add in Hpv. rewrite N.mod_small in Hpv by done. rewrite Hqv, Hpv. lia.
    + by exists w3.
    + intros id Hin Hn. destruct (phase_cast G L L' p s s1 id) as (wi & Hidi & Hci & _); try done.
      exists wi. split; [by apply Hkeep|]. apply (cast_waiting p); try done. by rewrite Hpp.
  - intros id wi Hin Hidi. unfold round_of. destruct (decide (id = L')) as [->|Hn].
    + rewrite (idle_fun _ _ _ _ Hidi Hid). exists w3. split; [done|]. by exists w1, w2.
    + destruct (phase_cast G L L' p s s1 id) as (wi' & Hidi' & _ & Hr); try done.
      exists wi'. split; [by apply Hkeep|by apply Hr].
Qed.

End round.
