(* ===== verification/Liveness.v ===== *)
(** * Liveness

    A block is finalized within three views: the clients of the members of a
    quorum through two rounds and a third proposal, the theorem, and a computed
    state of four replicas from which it starts. *)

From S2P Require Import Prelude Primitives Messages Concrete Quorum Aggregator Synchronizer State Network BlockImport Worker WorkerFacts Replica Handlers Rounds Safety Authentic System Agreement Progress.
#[local] Open Scope hs_scope.

(** ** A block *)

Section block.
Context `{MessageCodecs} `{!ClientForHotstuff}.
Context `{!AuxStoreLaws} `{!CodecLaws Proposal} `{!CodecLaws ConsensusMessage} `{!KeystoreLaws} `{!ProposalDigests}.

(** [pending] holds of clients for which the block [h0] at height [number] is
    yet to be finalized: finalizing other blocks and storing proposals does not
    change that. *)
Record unfinalized (pending : Client -> Prop) (h0 : Hash) (number : N) : Prop := {
  uf_number : forall c, pending c -> (finalized_number (client_info c) < number)%N;
  uf_hash : forall c, pending c -> finalized_hash (client_info c) <> h0;
  uf_save : forall c q, pending c -> pending (save_proposal c q).2;
  uf_finalize : forall c h, pending c -> h <> h0 -> pending (client_finalize_block c h).2;
}.

(** The proposal filed under [h]. *)
Definition filed (c : Client) (h : Hash) (q : Proposal) : Prop :=
  exists data, client_get_aux c (hash_as_ref h) = Ok (Some data) /\ decode data = Ok q.

(** Proposals are filed under their digests. *)
Definition keyed (c : Client) : Prop := forall h q, filed c h q -> h = Proposal_digest q.

(** The proposal [q] is not on top of one of the block [h]. *)
Definition on_other (h : Hash) (q : Proposal) : Prop :=
  forall r, block_hash (proposal_payload r) = h -> Proposal_parent_hash q <> Proposal_digest r.
Definition on_other_block (p : Proposal) : Prop := on_other (block_hash (proposal_payload p)) p.

(** Nothing stored is on top of a proposal of the block [h]; proposals of it that
    got no certificate may be stored. *)
Definition unbuilt (h : Hash) (c : Client) : Prop := keyed c /\ forall d q, filed c d q -> on_other h q.

Context (Hsave : forall c q, (save_proposal c q).1 = Ok tt).
Context {pending : Client -> Prop} {p : Proposal}.
#[local] Abbreviation h0 := (block_hash (proposal_payload p)).
Context (Hpending : unfinalized pending h0 (block_number (proposal_payload p))).
Context (Hblock : h0 <> empty_payload_hash) (Hbase : on_other_block p).

(** A client before and after [p], and after its child [p']. *)
Definition unseen (c : Client) : Prop := pending c /\ unbuilt h0 c.
Definition seen (c : Client) : Prop := pending c /\ unbuilt h0 c /\ stored c (Proposal_digest p) p.
Definition chained (p' : Proposal) (c : Client) : Prop :=
  pending c /\ stored c (Proposal_digest p) p /\ stored c (Proposal_digest p') p'.

Lemma stored_filed c h q : stored c h q -> filed c h q.
Proof. intros Hs. exists (encode q). split; [done|apply decode_encode]. Qed.

Lemma filed_fun c h q q' : filed c h q -> filed c h q' -> q = q'.
Proof. intros (d & Hd & Hq) (d' & Hd' & Hq'). congruence. Qed.

Lemma parent_filed c q r : get_proposal_parent c q = Ok r -> filed c (Proposal_parent_hash q) r.
Proof.
  unfold get_proposal_parent, Store_get, filed. destruct (client_get_aux _ _) as [[data|]|e]; cbn; try done.
  intros Hd. exists data. split; [done|]. destruct (decode data) as [r'|e]; cbn in Hd; congruence.
Qed.

Lemma save_filed c q h r :
  filed (save_proposal c q).2 h r -> (h = Proposal_digest q /\ r = q) \/ (h <> Proposal_digest q /\ filed c h r).
Proof.
  pose proof (Hsave c q) as Hok. unfold filed, save_proposal, Store_set in *.
  destruct (client_insert_aux _ _ _) as [[[]|e] c'] eqn:Hi; cbn in *; [|done].
  intros (data & Hd & Hr). rewrite (insert_aux_get _ _ _ _ _ Hi) in Hd. case_decide as Heq.
  - left. apply hash_as_ref_inj in Heq as <-. injection Hd as <-. rewrite decode_encode in Hr. by injection Hr as <-.
  - right. split; [congruence|]. by exists data.
Qed.

Lemma finalizing_filed q c h :
  finalizing q c = Some h ->
  exists parent grandpa, filed c (Proposal_parent_hash q) parent /\ filed c (Proposal_parent_hash parent) grandpa /\
    h = block_hash (proposal_payload grandpa).
Proof.
  unfold finalizing, get_proposal_ancestors. destruct (get_proposal_parent c q) as [parent|e] eqn:Hp; cbn; [|done].
  destruct (get_proposal_parent c parent) as [grandpa|e] eqn:Hg; cbn; [|done].
  repeat case_match; try done. intros [= <-]. exists parent, grandpa. split_and!; [by apply parent_filed..|done].
Qed.

(** Handling a proposal that does not finalize [h0] leaves it pending. *)
Lemma client_after_pending q c :
  pending c -> finalizing q (save_proposal c q).2 <> Some h0 -> pending (client_after q c).
Proof.
  intros Hc Hf. unfold client_after. pose proof (uf_save _ _ _ Hpending c q Hc) as Hs.
  destruct (finalizing q _) as [h|]; [|done]. apply (uf_finalize _ _ _ Hpending); [done|congruence].
Qed.

Lemma client_after_filed q c h r :
  filed (client_after q c) h r -> (h = Proposal_digest q /\ r = q) \/ (h <> Proposal_digest q /\ filed c h r).
Proof. intros (data & Hd & Hr). rewrite client_after_get in Hd. apply save_filed. by exists data. Qed.

Lemma save_keyed c q : keyed c -> keyed (save_proposal c q).2.
Proof. intros Hk h r [[-> ->]|[_ Hr]]%save_filed; [done|by apply Hk]. Qed.

(** What finalizes a block has a stored proposal on top of one of that block. *)
Lemma finalizing_built q c h :
  keyed c -> finalizing q c = Some h ->
  exists parent, filed c (Proposal_parent_hash q) parent /\ ~ on_other h parent.
Proof.
  intros Hk (parent & grandpa & Hp & Hg & ->)%finalizing_filed. exists parent. split; [done|].
  intros Ho. apply (Ho grandpa eq_refl). by apply Hk.
Qed.

Lemma unseen_seen c : unseen c -> seen (client_after p c).
Proof.
  intros (Hc & Hkey & Hun). split_and!; [| |by apply client_after_stored].
  - apply client_after_pending; [done|]. intros (parent & Hp & Hno)%finalizing_built; [|by apply save_keyed].
    apply save_filed in Hp as [[_ ->]|[_ Hp]]; [done|]. apply Hno. by eapply Hun.
  - split; intros h q [[-> ->]|[_ Hq]]%client_after_filed; [done|by apply Hkey|done|by eapply Hun].
Qed.

Lemma seen_chained p' c :
  proposal_view p' <> proposal_view p -> Proposal_parent_hash p' = Proposal_digest p -> seen c -> chained p' (client_after p' c).
Proof.
  intros Hview Hpar (Hc & [Hkey Hun] & Hst).
  assert (Proposal_digest p <> Proposal_digest p') as Hne by (intros Heq%proposal_digest_inj; naive_solver).
  split_and!; [|by apply client_after_other|by apply client_after_stored].
  apply client_after_pending; [done|]. intros (parent & Hp & Hno)%finalizing_built; [|by apply save_keyed]. rewrite Hpar in Hp.
  apply save_filed in Hp as [[? _]|[_ Hp]]; [done|]. by rewrite (filed_fun _ _ _ _ Hp (stored_filed _ _ _ Hst)) in Hno.
Qed.

(** The grandchild finalizes the block. *)
Lemma chained_finalizes p' p'' c :
  Proposal_parent_hash p' = Proposal_digest p -> Proposal_parent_hash p'' = Proposal_digest p' ->
  proposal_view p' = u64_add (proposal_view p) 1 -> proposal_view p'' <> proposal_view p' ->
  proposal_view p'' <> proposal_view p -> chained p' c ->
  finalizing p'' (save_proposal c p'').2 = Some h0.
Proof.
  intros Hpar Hpar' Hview Hne' Hne (Hc & Hst & Hst').
  assert (Proposal_digest p <> Proposal_digest p'') by (intros Heq%proposal_digest_inj; naive_solver).
  assert (Proposal_digest p' <> Proposal_digest p'') by (intros Heq%proposal_digest_inj; naive_solver).
  assert (save_proposal c p'' = (Ok tt, (save_proposal c p'').2)) as Hsv
    by (pose proof (Hsave c p''); destruct (save_proposal c p''); naive_solver).
  apply (finalizing_chain p'' p' p); [| |done|done|].
  - rewrite Hpar'. by apply (save_proposal_other c p'').
  - rewrite Hpar. by apply (save_proposal_other c p'').
  - apply not_eq_sym. by apply (uf_hash _ _ _ Hpending), (uf_save _ _ _ Hpending).
Qed.

End block.

(** ** Three views *)

Section three_views.
Context `{MessageCodecs} `{!ClientForHotstuff}.
Context `{!AuxStoreLaws} `{!CodecLaws Proposal} `{!CodecLaws ConsensusMessage} `{!KeystoreLaws} `{!ProposalDigests}.
Context {A : AuthorityList} {byz : list AuthorityId} {send_error : string} (Hfit : authorities_fit A).
#[local] Abbreviation reachable := (reachable A byz send_error).
#[local] Abbreviation advanced := (advanced (send_error := send_error)).
#[local] Abbreviation under_way := (under_way (A := A)).
#[local] Abbreviation leader_of := (leader_of (A := A)).
Implicit Types (s : System) (w : Worker) (p : Proposal).

(** The proposal hashes a worker keeps end with [h]. *)
Definition last_hash (h : Hash) (w : Worker) : Prop := exists hs, w_proposal_hash_queue w = hs ++ [h].

(** The proposal [p] of a block that is pending is under way, and new to all but
    its leader. *)
Record fresh_block (pending : Client -> Prop) (p : Proposal) (L : AuthorityId) (G : list AuthorityId) (s : System)
    : Prop := {
  fb_under_way : under_way G L p s;
  fb_pending : unfinalized pending (block_hash (proposal_payload p)) (block_number (proposal_payload p));
  fb_block : block_hash (proposal_payload p) <> empty_payload_hash;
  fb_parent : on_other_block p;
  fb_leader : forall w, idle s L w ->
    seen (pending := pending) (p := p) (w_client w) /\ last_hash (block_hash (proposal_payload p)) w;
  fb_others : forall id w, id ∈ G -> id <> L -> idle s id w -> unseen (pending := pending) (p := p) (w_client w);
}.

(** The leaders of three views from [view] on are in [G], and so is their number. *)
Record leaders (view : ViewNumber) (G : list AuthorityId) (L L' L'' L''' : AuthorityId) : Prop := {
  ls_first : leader_of view L;
  ls_second : leader_of (u64_add view 1) L';
  ls_third : leader_of (u64_add (u64_add view 1) 1) L'';
  ls_fourth : leader_of (u64_add (u64_add (u64_add view 1) 1) 1) L''';
  ls_in : L' ∈ G /\ L'' ∈ G;
}.

Lemma leaders_differ view L L' st :
  NoDup (ids A) -> (2 <= length A)%nat -> cs_authorities st = A -> (view + 1 < u64_modulus)%N ->
  leader_of view L -> leader_of (u64_add view 1) L' -> L <> L'.
Proof.
  intros Hnd Htwo HA Hroom HL HL' <-. unfold u64_add in HL'. rewrite N.mod_small in HL' by done.
  apply (consecutive_leaders st view L); rewrite ?HA; auto.
Qed.

Context (Hsave : forall c q, (save_proposal c q).1 = Ok tt).
Context {pending : Client -> Prop} {p : Proposal}.
#[local] Abbreviation h0 := (block_hash (proposal_payload p)).
#[local] Abbreviation seen := (seen (pending := pending) (p := p)).
#[local] Abbreviation unseen := (unseen (pending := pending) (p := p)).
#[local] Abbreviation chained := (chained (pending := pending) (p := p)).
Context (Hpending : unfinalized pending h0 (block_number (proposal_payload p))).
Context (Hblock : h0 <> empty_payload_hash) (Hbase : on_other_block p).

(** The next leaders go on with empty proposals. *)
Lemma unseen_goes_on w : unseen (w_client w) -> goes_on p w.
Proof.
  intros Hun. split.
  - apply (uf_number _ _ _ Hpending). by apply (unseen_seen Hsave Hpending Hbase) in Hun as [? _].
  - rewrite rev_app_distr. cbn. by rewrite bool_decide_false.
Qed.

Lemma seen_goes_on p' w :
  proposal_view p' <> proposal_view p -> Proposal_parent_hash p' = Proposal_digest p ->
  proposal_payload p' = mkPayload empty_payload_hash (block_number (proposal_payload p)) ->
  seen (w_client w) -> last_hash h0 w -> goes_on p' w.
Proof.
  intros Hview Hpar Hpp Hseen [hs Hq]. unfold goes_on. rewrite Hpp. split.
  - apply (uf_number _ _ _ Hpending). by apply (seen_chained Hsave Hpending Hbase p') in Hseen as [? _].
  - rewrite Hq, !rev_app_distr. cbn. by rewrite bool_decide_true, (bool_decide_false (h0 = _)) by done.
Qed.

(** After the first round. *)
Lemma first_round G L L' p' s s' :
  fresh_block pending p L G s -> L <> L' -> L' ∈ G ->
  proposal_view p' <> proposal_view p -> Proposal_parent_hash p' = Proposal_digest p ->
  (forall id w, id ∈ G -> idle s id w -> exists w', idle s' id w' /\ round_of p p' L L' id w w') ->
  forall id, id ∈ G -> exists w, idle s' id w /\
    if decide (id = L') then chained p' (w_client w) else seen (w_client w) /\ last_hash h0 w.
Proof.
  intros Hfb Hne HL' Hview Hpar Hround id Hin.
  assert (exists w, idle s id w) as [w Hid].
  { destruct (decide (id = L)) as [->|Hn]; [destruct (uw_leader _ _ _ _ (fb_under_way _ _ _ _ _ Hfb)) as (w & ? & _)|
      destruct (uw_others _ _ _ _ (fb_under_way _ _ _ _ _ Hfb) id Hin Hn) as (w & ? & _)]; by exists w. }
  destruct (Hround id w Hin Hid) as (w' & Hid' & Hr). exists w'. split; [done|]. unfold round_of in Hr.
  destruct (decide (id = L')) as [->|Hn'].
  - destruct Hr as (w1 & w2 & Hv & Hc & Hv'). rewrite (voted_client _ _ _ Hv'), Hc, (voted_client _ _ _ Hv).
    apply (seen_chained Hsave Hpending Hbase); try done. apply (unseen_seen Hsave Hpending Hbase).
    by apply (fb_others _ _ _ _ _ Hfb L').
  - destruct (decide (id = L)) as [->|Hn]; [subst w'; by apply (fb_leader _ _ _ _ _ Hfb)|].
    split; [|exists (w_proposal_hash_queue w); by apply Hr].
    rewrite (voted_client _ _ _ Hr). apply (unseen_seen Hsave Hpending Hbase). by apply (fb_others _ _ _ _ _ Hfb id).
Qed.

(** A worker that handles the grandchild finalizes the block. *)
Lemma voted_third p' p'' w w' :
  Proposal_parent_hash p' = Proposal_digest p -> Proposal_parent_hash p'' = Proposal_digest p' ->
  proposal_view p' = u64_add (proposal_view p) 1 -> proposal_view p'' <> proposal_view p' ->
  proposal_view p'' <> proposal_view p -> chained p' (w_client w) -> voted p'' w w' ->
  FinalizeCall h0 ∈ w_effects w'.
Proof.
  intros. eapply voted_finalizes; [done|]. by apply (chained_finalizes Hsave Hpending Hblock p').
Qed.

(** After the second round. *)
Lemma second_round (G : list AuthorityId) L' L'' p' p'' s s' :
  L' <> L'' -> Proposal_parent_hash p' = Proposal_digest p -> Proposal_parent_hash p'' = Proposal_digest p' ->
  proposal_view p' = u64_add (proposal_view p) 1 -> proposal_view p' <> proposal_view p ->
  proposal_view p'' <> proposal_view p' -> proposal_view p'' <> proposal_view p ->
  (forall id, id ∈ G -> exists w, idle s id w /\
    if decide (id = L') then chained p' (w_client w) else seen (w_client w) /\ last_hash h0 w) ->
  (forall id w, id ∈ G -> idle s id w -> exists w', idle s' id w' /\ round_of p' p'' L' L'' id w w') ->
  forall id, id ∈ G -> exists w, idle s' id w /\
    if decide (id = L'') then FinalizeCall h0 ∈ w_effects w else chained p' (w_client w).
Proof.
  intros Hne Hpar Hpar' Hpv Hview Hview1 Hview2 Hbefore Hround id Hin.
  destruct (Hbefore id Hin) as (w & Hid & Hw). destruct (Hround id w Hin Hid) as (w' & Hid' & Hr).
  exists w'. split; [done|]. unfold round_of in Hr. destruct (decide (id = L'')) as [->|Hn''].
  - rewrite decide_False in Hw by done. destruct Hr as (w1 & w2 & Hv & Hc & Hv').
    apply (voted_third p' p'' w2); try done. rewrite Hc, (voted_client _ _ _ Hv).
    by apply (seen_chained Hsave Hpending Hbase p'); [..|apply Hw].
  - destruct (decide (id = L')) as [->|Hn']; [by subst w'|].
    rewrite (voted_client _ _ _ Hr). by apply (seen_chained Hsave Hpending Hbase p'); [..|apply Hw].
Qed.

(** After the proposal of the third view. *)
Lemma third_round (G : list AuthorityId) L'' L''' p' p'' s s' :
  Proposal_parent_hash p' = Proposal_digest p -> Proposal_parent_hash p'' = Proposal_digest p' ->
  proposal_view p' = u64_add (proposal_view p) 1 -> proposal_view p'' <> proposal_view p' ->
  proposal_view p'' <> proposal_view p -> advanced (filter (.≠ L'') G) s s' ->
  (forall id, id ∈ G -> exists w, idle s id w /\
    if decide (id = L'') then FinalizeCall h0 ∈ w_effects w else chained p' (w_client w)) ->
  (forall id, id ∈ G -> id <> L'' -> exists w w', idle s id w /\ idle s' id w' /\ hands_in (A := A) p'' L''' id w w') ->
  forall id, id ∈ G -> exists w, idle s' id w /\ FinalizeCall h0 ∈ w_effects w.
Proof.
  intros Hpar Hpar' Hpv Hview1 Hview2 Ha Hbefore Hphase id Hin.
  destruct (Hbefore id Hin) as (w & Hid & Hw). destruct (decide (id = L'')) as [->|Hn].
  - exists w. split; [|done]. unfold idle. rewrite (adv_others _ _ _ Ha); [done|]. intros [? _]%list_elem_of_filter. done.
  - destruct (Hphase id Hin Hn) as (w0 & w' & Hid0 & Hid' & _ & Hh). rewrite (idle_fun _ _ _ _ Hid0 Hid) in Hh.
    exists w'. split; [done|]. destruct (decide (id = L''')) as [->|].
    + destruct Hh as (w1 & agg & sig & Hv & _ & _ & _ & ->). by apply (voted_third p' p'' w w1).
    + destruct Hh as [Hv _]. by apply (voted_third p' p'' w).
Qed.

End three_views.

Section block_finalized.
Context `{MessageCodecs} `{!ClientForHotstuff}.
Context `{!AuxStoreLaws} `{!CodecLaws Proposal} `{!CodecLaws ConsensusMessage} `{!KeystoreLaws} `{!ProposalDigests}.

(** From the first of three such proposals on, as the rounds above compose. *)
Lemma three_views_finalize (A : AuthorityList) (byz : list AuthorityId) (e : string) (s : System)
    (G : list AuthorityId) (L L' L'' L''' : AuthorityId) (p : Proposal) (pending : Client -> Prop) :
  authorities_fit A -> NoDup (ids A) -> (2 <= length A)%nat -> NoDup G -> (two_thirds A < length G)%nat ->
  (forall c q, (save_proposal c q).1 = Ok tt) -> reachable A byz e s ->
  leaders (A := A) (proposal_view p) G L L' L'' L''' -> (proposal_view p + 3 < u64_modulus)%N ->
  fresh_block (A := A) pending p L G s ->
  exists s', advanced (send_error := e) G s s' /\
    forall id, id ∈ G -> exists w, idle s' id w /\ FinalizeCall (block_hash (proposal_payload p)) ∈ w_effects w.
Proof.
  intros Hfit Hids Htwo Hnd Hlen Hsave Hs [HL HL' HL'' HL''' [Hin' Hin'']] Hroom Hfb.
  pose proof Hfb as [Huw Hpend Hblock Hbase _ _].
  assert (0 < two_thirds A)%nat as Htt by (unfold two_thirds; apply Nat.div_str_pos; lia).
  assert (exists st, cs_authorities st = A) as [st HA].
  { destruct (uw_leader _ _ _ _ Huw) as (w & _ & [[HA _ _ _ _] _ _] & _). by exists (w_state w). }
  assert (u64_add (proposal_view p) 1 = proposal_view p + 1)%N as Hadd0 by (unfold u64_add; rewrite N.mod_small; lia).
  assert (u64_add (proposal_view p + 1) 1 = proposal_view p + 2)%N as Hadd1 by (unfold u64_add; rewrite N.mod_small; lia).
  assert (L <> L') as Hne by (eapply leaders_differ; [..|exact HL|exact HL']; try done; lia).
  assert (L' <> L'') as Hne' by (eapply leaders_differ; [..|exact HL'|exact HL'']; rewrite ?Hadd0; try done; lia).
  assert (L'' <> L''') as Hne'' by (eapply leaders_differ; [..|exact HL''|exact HL''']; rewrite ?Hadd0, ?Hadd1; try done; lia).
  destruct (round (byz := byz) (send_error := e) Hfit Hsave Htt G L L' L'' p s)
    as (s1 & p' & Ha1 & Huw1 & Hpar & Hpv & Hpp & Hr1); try done; [lia| |].
  { intros w Hw. apply (unseen_goes_on Hsave Hpend Hblock Hbase), (fb_others _ _ _ _ _ Hfb L'); try done. }
  assert (proposal_view p' <> proposal_view p) as Hview by (rewrite Hpv, Hadd0; lia).
  pose proof (first_round Hsave Hpend Hbase G L L' p' s s1 Hfb Hne Hin' Hview Hpar Hr1) as Hst1.
  pose proof (advanced_reachable _ _ _ Hs Ha1) as Hs1.
  destruct (round (byz := byz) (send_error := e) Hfit Hsave Htt G L' L'' L''' p' s1)
    as (s2 & p'' & Ha2 & Huw2 & Hpar' & Hpv' & Hpp' & Hr2); try done; rewrite ?Hpv; try done; [by rewrite Hadd0; lia| |].
  { intros w Hw. destruct (Hst1 L'' Hin'') as (w' & Hw' & Hsn). rewrite decide_False in Hsn by done.
    rewrite (idle_fun _ _ _ _ Hw Hw'). by apply (seen_goes_on Hsave Hpend Hblock Hbase); [..|apply Hsn|apply Hsn]. }
  assert (proposal_view p'' <> proposal_view p' /\ proposal_view p'' <> proposal_view p) as [Hv1 Hv2] by (rewrite Hpv', Hpv, Hadd0, Hadd1; lia).
  pose proof (second_round Hsave Hpend Hblock Hbase G L' L'' p' p'' s1 s2 Hne' Hpar Hpar' Hpv Hview Hv1 Hv2 Hst1 Hr2) as Hst2.
  pose proof (advanced_reachable _ _ _ Hs1 Ha2) as Hs2.
  destruct (voting_phase (byz := byz) (send_error := e) Hfit Hsave Htt G L'' L''' p'' s2 Hs2 Hnd Huw2) as (s3 & Ha3 & Hm3 & _).
  { by rewrite Hpv', Hpv. }
  exists s3. split; [|by eapply (third_round Hsave Hpend Hblock G L'' L''' p' p'' s2)].
  eapply (advanced_trans Hfit); [done|]. eapply (advanced_trans Hfit); [done|].
  eapply (advanced_weaken Hfit); [|done]. intros x [_ ?]%list_elem_of_filter. done.
Qed.

(** C3: A block that is proposed while things go well is finalized. Let more than
    two thirds of the authorities be replicas that serve what arrives, whatever
    the others do, and let the leaders of three views in a row be among them. If
    the first of these leaders has sent and voted for a valid proposal of a block
    that is new to the others, then from every such state of the network there is
    a run, in which only messages arrive and are served and no timer fires, to a
    state where each of these replicas has asked its client to finalize the block. *)
Theorem block_finalized (A : AuthorityList) (byz : list AuthorityId) (e : string) (s : System)
    (G : list AuthorityId) (L L' L'' L''' : AuthorityId) (p : Proposal) (pending : Client -> Prop) :
  authorities_fit A -> NoDup (ids A) -> (2 <= length A)%nat -> NoDup G -> (two_thirds A < length G)%nat ->
  (forall c q, (save_proposal c q).1 = Ok tt) -> reachable A byz e s ->
  leaders (A := A) (proposal_view p) G L L' L'' L''' -> (proposal_view p + 3 < u64_modulus)%N ->
  fresh_block (A := A) pending p L G s ->
  exists s', advanced (send_error := e) G s s' /\
    forall id, id ∈ G -> exists w, idle s' id w /\ FinalizeCall (block_hash (proposal_payload p)) ∈ w_effects w.
Proof. apply three_views_finalize. Qed.

End block_finalized.

(** ** A run that gets there

    Four replicas whose clients know one block. The timers bring them to view 2,
    whose leader proposes the block. *)

Definition calm : System := start_system [(block1, 1%N)] (fun _ => block1).

Definition calm_run : list Action :=
  fires [0; 1; 2; 3; 0; 1; 2]%N ++
  receives [(0%N, 5); (0%N, 6); (1%N, 4); (1%N, 6); (2%N, 4); (2%N, 5); (3%N, 4); (3%N, 5); (3%N, 6)].

Definition id2 : AuthorityId := 2%N.
Definition id3 : AuthorityId := 3%N.
Definition calm_quorum : list AuthorityId := [id2; id3; id0].

(** The clients that have finalized the genesis block and know the other one. *)
Definition at_genesis (c : Client) : Prop :=
  finalized_number (cc_info c) = 0%N /\ finalized_hash (cc_info c) = [] /\ cc_blocks c = {[block1 := 1%N]}.

#[local] Instance at_genesis_dec c : Decision (at_genesis c).
Proof. unfold at_genesis. apply _. Defined.

Lemma at_genesis_unfinalized : unfinalized at_genesis block1 1.
Proof.
  constructor.
  - intros c (Hn & _ & _). change (finalized_number (cc_info c) < 1)%N. by rewrite Hn.
  - intros c (_ & Hh & _). change (finalized_hash (cc_info c) <> block1). by rewrite Hh.
  - done.
  - intros c h (Hn & Hh & Hb) Hne. cbn -[lookup singletonM]. rewrite Hb, lookup_singleton_ne by done. done.
Qed.

(** Membership, and what the worker has of the proposal, decided. *)
Definition member_check (A : AuthorityList) (view : ViewNumber) (id : AuthorityId) (w : Worker) : bool :=
  bool_decide (cs_authorities (w_state w) = A) && bool_decide (local_authority_id (w_state w) = Some id) &&
  (qc_view (cs_high_qc (w_state w)) <? view)%N && bool_decide (votes_aggregator (cs_aggregator (w_state w)) = ∅) &&
  match queue_lock (w_queue w) with Some _ => true | None => false end.

Lemma member_check_ok A view id w : member_check A view id w = true -> member (A := A) view id w.
Proof.
  unfold member_check. rewrite !andb_true_iff.
  intros ((((Ha%bool_decide_eq_true & Hl%bool_decide_eq_true) & Hh%N.ltb_lt) & Hv%bool_decide_eq_true) & Hq).
  constructor; try done.
  - intros u d _. unfold vote_maker. by rewrite Hv, lookup_empty.
  - destruct (queue_lock _); [by eexists|done].
Qed.

Definition leader_check (p : Proposal) (s : System) : bool :=
  match sys_nodes s !! id2 with
  | Some (mkNode w []) =>
      member_check four (proposal_view p) id2 w && (cs_view (w_state w) =? proposal_view p)%N &&
      (cs_last_voted_view (w_state w) =? proposal_view p)%N && bool_decide (at_genesis (w_client w)) &&
      bool_decide (cc_aux (w_client w) = {[Proposal_digest p := encode p]}) &&
      bool_decide (w_proposal_hash_queue w = [block1]) &&
      bool_decide (verify_proposal (w_state w) p = Some (Ok tt)) &&
      existsb (fun e => match e with
        | Gossip (MsgVote v) _ => bool_decide (vote_proposal_hash v = Proposal_digest p) &&
            (vote_view v =? proposal_view p)%N && bool_decide (vote_voter v = id2) &&
            bool_decide (Vote_verify v four = Ok tt) && bool_decide (encode (MsgVote v) ∈ sys_sent s)
        | _ => false end) (w_effects w)
  | _ => false
  end.

Definition other_check (p : Proposal) (s : System) (id : AuthorityId) : bool :=
  match sys_nodes s !! id with
  | Some (mkNode w []) =>
      member_check four (proposal_view p) id w && (cs_view (after_qc (proposal_qc p) (w_state w)) =? proposal_view p)%N &&
      (cs_last_voted_view (w_state w) <? proposal_view p)%N && bool_decide (at_genesis (w_client w)) &&
      bool_decide (cc_aux (w_client w) = ∅)
  | _ => false
  end.

Definition calm_check (s : System) : bool :=
  match proposals_sent s with
  | [p] => bool_decide (encode (MsgPropose p) ∈ sys_sent s) && (proposal_view p =? 2)%N &&
      bool_decide (block_hash (proposal_payload p) = block1) && (block_number (proposal_payload p) =? 1)%N && (qc_view (proposal_qc p) =? 0)%N &&
      bool_decide (Proposal_parent_hash p = Hash_default) &&
      leader_check p s && other_check p s id3 && other_check p s id0
  | _ => false
  end.

Lemma calm_ends : ends calm "full" calm_run calm_check = true.
Proof. vm_refl. Qed.

Lemma leader_check_ok p s :
  leader_check p s = true -> block_hash (proposal_payload p) = block1 ->
  exists w, idle s id2 w /\ cast (A := four) p id2 w /\ vote_sent (A := four) p s id2 /\
    at_genesis (w_client w) /\ cc_aux (w_client w) = {[Proposal_digest p := encode p]} /\
    w_proposal_hash_queue w = [block1] /\ verify_proposal (w_state w) p = Some (Ok tt).
Proof.
  unfold leader_check. destruct (sys_nodes s !! id2) as [[w []]|] eqn:Hn; try done. rewrite !andb_true_iff.
  intros (((((((Hm%member_check_ok & Hv%N.eqb_eq) & Hl%N.eqb_eq) & Hg%bool_decide_eq_true) & Ha%bool_decide_eq_true)
    & Hq%bool_decide_eq_true) & Hver%bool_decide_eq_true) & He) Hb.
  exists w. split_and!; try done. apply existsb_exists in He as ([m force| | | |] & _ & He); try done.
  destruct m as [|v| | | |]; try done. rewrite !andb_true_iff in He.
  destruct He as ((((H1%bool_decide_eq_true & H2%N.eqb_eq) & H3%bool_decide_eq_true) & H4%bool_decide_eq_true)
    & H5%bool_decide_eq_true). by exists v.
Qed.

Lemma other_check_ok p s id :
  other_check p s id = true -> proposal_payload p = mkPayload block1 1 ->
  exists w, idle s id w /\ waiting (A := four) p id w /\ at_genesis (w_client w) /\ cc_aux (w_client w) = ∅.
Proof.
  unfold other_check. destruct (sys_nodes s !! id) as [[w []]|] eqn:Hn; try done. rewrite !andb_true_iff.
  intros ((((Hm%member_check_ok & Hv%N.eqb_eq) & Hl%N.ltb_lt) & Hg%bool_decide_eq_true) & Ha%bool_decide_eq_true) Hp.
  exists w. split_and!; try done. constructor; try done. right. rewrite Hp. destruct Hg as (_ & _ & Hb).
  cbn -[lookup singletonM]. by rewrite Hb, lookup_singleton_eq.
Qed.

Lemma filed_aux (c : Client) h q :
  filed c h q -> exists data, cc_aux c !! (h : bytes) = Some data /\ decode data = Ok q.
Proof. intros (data & Hd & Hq). exists data. by injection Hd as Hd. Qed.

Lemma genesis_unseen p (c : Client) :
  at_genesis c -> cc_aux c = ∅ -> unseen (pending := at_genesis) (p := p) c.
Proof.
  intros Hg Ha. split; [done|]. by split; intros h q (data & Hd & _)%filed_aux; rewrite Ha, lookup_empty in Hd.
Qed.

(** The genesis certificate is on top of nothing. *)
Lemma genesis_on_other h q : Proposal_parent_hash q = Hash_default -> on_other h q.
Proof. intros Hq r _. rewrite Hq. apply not_eq_sym, proposal_digest_default. Qed.

Lemma genesis_seen p (c : Client) :
  at_genesis c -> cc_aux c = {[Proposal_digest p := encode p]} -> Proposal_parent_hash p = Hash_default ->
  seen (pending := at_genesis) (p := p) c.
Proof.
  intros Hg Ha Hroot. split_and!; [done| |].
  - split; intros h q (data & Hd & Hq)%filed_aux; rewrite Ha in Hd; apply lookup_singleton_Some in Hd as [<- <-];
      rewrite decode_encode in Hq; injection Hq as <-; [done|by apply genesis_on_other].
  - change (Ok (cc_aux c !! (Proposal_digest p : bytes)) = @Ok string _ (Some (encode p))).
    by rewrite Ha, lookup_singleton_eq.
Qed.

Lemma calm_fresh s :
  calm_check s = true -> exists p, proposal_view p = 2%N /\ block_hash (proposal_payload p) = block1 /\
    fresh_block (A := four) at_genesis p id2 calm_quorum s.
Proof.
  unfold calm_check. destruct (proposals_sent s) as [|p []]; try done. rewrite !andb_true_iff.
  intros ((((((((Hs%bool_decide_eq_true & Hv%N.eqb_eq) & Hb%bool_decide_eq_true) & Hbn%N.eqb_eq) & Hq%N.eqb_eq) & Hne%bool_decide_eq_true)
    & HL) & H3) & H0). exists p.
  assert (proposal_payload p = mkPayload block1 1) as Hp by (destruct (proposal_payload p); cbn in *; congruence).
  apply leader_check_ok in HL as (w & Hid & Hc & Hvs & Hg & Ha & Hh & Hver); [|done].
  assert (forall id, id ∈ calm_quorum -> id <> id2 -> exists w, idle s id w /\ waiting (A := four) p id w /\
    at_genesis (w_client w) /\ cc_aux (w_client w) = ∅) as Hothers.
  { intros id [->|[->|[->|Hin%elem_of_nil]%elem_of_cons]%elem_of_cons]%elem_of_cons; try done; intros; by apply other_check_ok. }
  split_and!; [done..|]. constructor; rewrite ?Hb, ?Hbn; try done.
  - constructor; try done.
    + intros st HA. rewrite <- Hver. apply verify_proposal_ext. rewrite HA. symmetry. apply Hc.
    + rewrite Hq, Hv. done.
    + by exists w.
    + intros id Hin Hn. destruct (Hothers id Hin Hn) as (w' & ? & ? & _). by exists w'.
  - apply at_genesis_unfinalized.
  - by apply genesis_on_other.
  - intros w' Hw'. rewrite (idle_fun _ _ _ _ Hw' Hid). split; [by apply genesis_seen|]. by exists [].
  - intros id w' Hin Hn Hw'. destruct (Hothers id Hin Hn) as (w1 & Hw1 & _ & ? & ?).
    rewrite (idle_fun _ _ _ _ Hw' Hw1). by apply genesis_unseen.
Qed.

Lemma calm_leaders : leaders (A := four) 2 calm_quorum id2 id3 id0 id1.
Proof.
  constructor; [..|split; vm_decide]; intros st HA; unfold view_leader; rewrite HA; vm_refl.
Qed.

Lemma block_finalized_witness :
  exists s s', reachable four [id1] "full" s /\ advanced (send_error := "full") calm_quorum s s' /\
    forall id, id ∈ calm_quorum -> exists w, idle s' id w /\ FinalizeCall block1 ∈ w_effects w.
Proof.
  destruct (ends_reach (byz := [id1]) "full" calm calm_run calm_check (start_initial _ _) calm_ends) as (s & Hr & Hc).
  destruct (calm_fresh s Hc) as (p & Hv & Hb & Hfb). pose proof calm_leaders as Hl. rewrite <- Hv in Hl.
  destruct (block_finalized four [id1] "full" s calm_quorum id2 id3 id0 id1 p at_genesis) as (s' & Ha & Hf);
    [vm_refl|vm_decide|cbn; lia|vm_decide|vm_decide|done|done|done|by rewrite Hv|done|].
  exists s, s'. rewrite Hb in Hf. done.
Defined.
