(* ===== verification/ViewChange.v ===== *)
(** * ViewChange

    How a network whose view brought nothing gets on: the timers of a quorum fire,
    their timeouts reach each other, all of them move to the next view, and its
    leader, if it is one of them, proposes the block at the front of its queue. *)

From S2P Require Import Prelude Primitives Messages Concrete Quorum Aggregator Synchronizer State Network BlockImport Worker WorkerFacts Replica Handlers Rounds Safety Authentic System Agreement Progress Liveness.
#[local] Open Scope hs_scope.

(** ** Timeouts at a worker *)

Section timeouts.
Context `{MessageCodecs} `{!ClientForHotstuff}.
Context `{!AuxStoreLaws} `{!CodecLaws Proposal} `{!CodecLaws ConsensusMessage} `{!KeystoreLaws}.
Context {A : AuthorityList} (Hfit : authorities_fit A).
Implicit Types (w : Worker).

(** Whose timeouts of a view an aggregator holds. *)
Definition timed_out (agg : Aggregator) (view : ViewNumber) : list AuthorityId :=
  (tcm_votes (timeout_maker agg view)).*1.*1.

(** The timeout of [id] for [view], with an older certificate. *)
Record timeout_of (view : ViewNumber) (id : AuthorityId) (t : Timeout) : Prop := {
  timeout_of_view : timeout_view t = view;
  timeout_of_voter : timeout_voter t = id;
  timeout_of_verify : Timeout_verify t A = Ok tt;
  timeout_of_qc : (qc_view (timeout_high_qc t) < view)%N;
}.

(** Aggregators that differ in the timeouts of one view only. *)
Record same_but (view : ViewNumber) (agg agg' : Aggregator) : Prop := {
  sb_votes : forall u d, vote_maker agg' u d = vote_maker agg u d;
  sb_timeouts : forall u, u <> view -> timeout_maker agg' u = timeout_maker agg u;
}.

Lemma same_but_trans view a1 a2 a3 : same_but view a1 a2 -> same_but view a2 a3 -> same_but view a1 a3.
Proof. intros [Hv Ht] [Hv' Ht']. constructor; intros; [by rewrite Hv', Hv|by rewrite Ht', Ht]. Qed.

(** A timeout of a new voter, counted. *)
Lemma add_timeout_counted s view id t :
  cs_authorities s = A -> aggregator_ok A (cs_aggregator s) -> timeout_of view id t ->
  id ∉ timed_out (cs_aggregator s) view ->
  let n := length (timed_out (cs_aggregator s) view) in
  exists agg, aggregator_ok A agg /\ same_but view (cs_aggregator s) agg /\
    timed_out agg view = timed_out (cs_aggregator s) view ++ [id] /\
    ((n < two_thirds A)%nat -> add_timeout s t = (Ok None, set_cs_aggregator agg s)) /\
    ((two_thirds A <= n)%nat -> exists tc, add_timeout s t = (Ok (Some tc), set_cs_aggregator agg s) /\ tc_view tc = view).
Proof.
  intros HA Hok [<- <- Hver Hqc] Hnew. cbn zeta. exists (Aggregator_add_timeout (cs_aggregator s) t A).2.
  pose proof Hver as (_ & (sig & Hsig & _) & _)%Timeout_verify_ok.
  pose proof (TCMaker_append_spec A _ t (aggregator_timeouts_ok _ _ Hok (timeout_view t)) Hfit Hver) as Hs.
  pose proof (add_timeout_answer (cs_aggregator s) t A) as Hans.
  pose proof (timeout_maker_add (cs_aggregator s) t A) as Hm.
  assert (tcm_votes (TCMaker_append (timeout_maker (cs_aggregator s) (timeout_view t)) t A).2 =
    tcm_votes (timeout_maker (cs_aggregator s) (timeout_view t)) ++ [(timeout_voter t, sig, timeout_view t)]) as Hvotes.
  { unfold TCMaker_append. unfold timed_out in Hnew. rewrite <- list_fmap_compose in Hnew.
    rewrite (proj2 (existsb_id_false (fun x => x.1.1) _ _) Hnew), Hsig. by destruct (_ <? _)%N. }
  split_and!.
  - by apply add_timeout_ok.
  - constructor; intros; [apply vote_maker_add_timeout|]. rewrite Hm. by rewrite decide_False.
  - unfold timed_out. rewrite Hm, decide_True, Hvotes by done. by rewrite !fmap_app.
  - unfold add_timeout. rewrite HA. unfold timed_out. rewrite !length_fmap. intros Hlt.
    destruct (Aggregator_add_timeout _ _ _) as [ans agg]. cbn in Hans |- *. subst ans.
    destruct (TCMaker_append _ _ _) as [ans m]. cbn. destruct Hs as (_ & o & -> & [Hs _] & _).
    destruct o; [|done]. destruct Hs as [_ Hs]; [by eexists|lia].
  - unfold add_timeout. rewrite HA. unfold timed_out. rewrite !length_fmap. intros Hle.
    destruct (Aggregator_add_timeout _ _ _) as [ans agg]. cbn in Hans |- *. subst ans.
    destruct (TCMaker_append _ _ _) as [ans m]. cbn. destruct Hs as (_ & o & -> & [_ Hs] & Hsome).
    destruct Hs as [tc ->].
    + split; [|done]. exact Hnew.
    + exists tc. split; [done|]. by destruct (Hsome tc eq_refl) as [-> _].
Qed.

(** [handle_timeout] up to where the timeout is counted. *)
Lemma handle_timeout_run fuel w view id t r s :
  cs_authorities (w_state w) = A -> cs_view (w_state w) = view -> timeout_of view id t ->
  add_timeout (w_state w) t = (r, s) ->
  handle_timeout fuel t w =
    (let! o := st_lift r in
     match o with
     | None => st_ret tt
     | Some tc =>
         let! view := st_get (fun w => cs_view (w_state w)) in
         (if (view <=? tc_view tc)%N then advance_view (tc_view tc) ;! timer_reset else st_ret tt) ;!
         gossip_message (MsgTC tc) true ;!
         let! leads := st_get (fun w => is_leader (w_state w)) in
         let! leads := st_expect leads in
         if leads then st_modify (set_w_processing_block None) ;! generate_proposal fuel (Some tc)
         else st_ret tt
     end) (set_w_state s w).
Proof.
  intros HA Hv [Htv _ Hver Hqc] Hadd. unfold handle_timeout. unfold st_bind at 1, st_get at 1.
  rewrite Hv, Htv, N.ltb_irrefl. unfold st_bind at 1, st_get at 1. unfold verify_timeout. rewrite HA, Hver.
  unfold st_bind at 1. cbn [st_lift st_ret].
  assert (handle_qc (timeout_high_qc t) w = (Val tt, w)) as Hhqc.
  { unfold handle_qc, st_bind, st_get. by rewrite Hv, (proj2 (N.leb_gt _ _)). }
  unfold st_bind at 1. rewrite Hhqc. unfold st_bind at 1, on_state, st_update. by rewrite Hadd.
Qed.

(** What the handling of timeouts leaves alone. *)
Record kept (w w' : Worker) : Prop := {
  kept_client : w_client w' = w_client w;
  kept_queue : w_queue w' = w_queue w;
  kept_hashes : w_proposal_hash_queue w' = w_proposal_hash_queue w;
  kept_effects : effects_grow w w';
}.

Lemma kept_trans w1 w2 w3 : kept w1 w2 -> kept w2 w3 -> kept w1 w3.
Proof. intros [] []. constructor; [congruence..|by etrans]. Qed.

(** A member in [view], where it may have voted and collected votes. *)
Record stalled (view : ViewNumber) (id : AuthorityId) (w : Worker) : Prop := {
  sl_member : member (A := A) (u64_add view 1) id w;
  sl_high : (qc_view (cs_high_qc (w_state w)) < view)%N;
  sl_view : cs_view (w_state w) = view;
  sl_last : (cs_last_voted_view (w_state w) <= view)%N;
}.

Lemma stalled_ext view id w w' agg last :
  w_state w' = set_cs_aggregator agg (set_cs_last_voted_view last (w_state w)) -> same_but view (cs_aggregator (w_state w)) agg ->
  w_queue w' = w_queue w -> (last <= view)%N -> stalled view id w -> stalled view id w'.
Proof.
  intros Hs [Hsv _] Hq Hl [[HA Hid Hh Hf Hql] Hhv Hv _]. constructor; [constructor|..]; rewrite ?Hs; cbn; try done.
  - intros u d Hu. rewrite Hsv. by apply Hf.
  - by rewrite Hq.
Qed.

(** What a member keeps when its view ends: the timeouts of other views, its
    highest certificate and its queue. *)
Record later (view : ViewNumber) (w w' : Worker) : Prop := {
  la_timeouts : forall u, u <> view -> timed_out (cs_aggregator (w_state w')) u = timed_out (cs_aggregator (w_state w)) u;
  la_high : cs_high_qc (w_state w') = cs_high_qc (w_state w);
  la_queue : w_queue w' = w_queue w;
}.

Lemma later_trans view w1 w2 w3 : later view w1 w2 -> later view w2 w3 -> later view w1 w3.
Proof. intros [Ht Hh Hq] [Ht' Hh' Hq']. constructor; [|congruence..]. intros u Hu. by rewrite Ht', Ht. Qed.

Lemma later_ext view w w' :
  same_but view (cs_aggregator (w_state w)) (cs_aggregator (w_state w')) ->
  cs_high_qc (w_state w') = cs_high_qc (w_state w) -> w_queue w' = w_queue w -> later view w w'.
Proof. intros [_ Ht] Hh Hq. constructor; try done. intros u Hu. unfold timed_out. by rewrite Ht. Qed.

Lemma stalled_counted view id w agg :
  same_but view (cs_aggregator (w_state w)) agg -> stalled view id w ->
  stalled view id (set_w_state (set_cs_aggregator agg (w_state w)) w).
Proof.
  intros Hsb Hst. apply (stalled_ext view id w _ agg (cs_last_voted_view (w_state w))); [|done..|apply Hst|done].
  cbn. by destruct (w_state w).
Qed.

Context (Htt : (0 < two_thirds A)%nat).

(** The timer of a member fires. *)
Lemma timer_run view id w ks :
  stalled view id w -> worker_ok A ks w -> timed_out (cs_aggregator (w_state w)) view = [] ->
  exists w1 t agg, run_event event_fuel w LocalTimer = Some w1 /\ timeout_of view id t /\
    Gossip (MsgTimeout t) true ∈ w_effects w1 /\
    w_state w1 = set_cs_aggregator agg (set_cs_last_voted_view view (w_state w)) /\
    same_but view (cs_aggregator (w_state w)) agg /\ timed_out agg view = [id] /\ kept w w1.
Proof.
  intros [[HA Hid _ Hf Hq] Hh Hv Hlast] Hok Hnone.
  set (w0 := set_w_state (increase_last_voted_view (w_state w)) (add_w_effect TimerReset w)).
  assert (w_state w0 = set_cs_last_voted_view view (w_state w)) as Hs0.
  { unfold w0, increase_last_voted_view. cbn. by rewrite Hv, N.max_r. }
  assert (qc_accepted (cs_authorities (w_state w0)) (cs_high_qc (w_state w0))) as Hqc.
  { rewrite Hs0. cbn. rewrite HA. apply Hok. }
  destruct (make_timeout_verifies (w_state w0) id) as (t & Ht & Hver & Htv & Hthq & Htid).
  { rewrite <- Hid. by apply local_authority_id_ext; rewrite Hs0. }
  { done. }
  rewrite Hs0 in Htv, Hthq, Hver. cbn in Htv, Hthq. unfold verify_timeout in Hver. cbn in Hver. rewrite Hv in Htv. rewrite HA in Hver.
  assert (timeout_of view id t) as Hto by (constructor; try done; by rewrite Hthq).
  set (w1 := add_w_effect (Gossip (MsgTimeout t) true) w0).
  destruct (add_timeout_counted (w_state w1) view id t) as (agg & Hagg & Hsb & Htd & Hlt & _).
  { unfold w1. cbn. rewrite ?Hs0. done. }
  { unfold w1. cbn [w_state add_w_effect]. rewrite Hs0. apply Hok. }
  { done. }
  { unfold w1. cbn [w_state add_w_effect]. rewrite Hs0. cbn. rewrite Hnone. apply not_elem_of_nil. }
  change (w_state w1) with (w_state w0) in *. rewrite Hs0 in *. cbn [cs_aggregator set_cs_last_voted_view] in Hsb, Htd, Hlt.
  rewrite Hnone in Htd, Hlt. cbn in Htd, Hlt. specialize (Hlt Htt).
  exists (set_w_state (set_cs_aggregator agg (set_cs_last_voted_view view (w_state w))) w1), t, agg.
  split_and!; try done.
  - unfold run_event. cbn [handle_event]. unfold handle_local_timer, timer_reset, emit.
    unfold st_bind at 1, st_modify at 1. unfold st_bind at 1, st_modify at 1. fold w0.
    change (set_w_state (increase_last_voted_view (w_state (add_w_effect TimerReset w))) (add_w_effect TimerReset w)) with w0.
    unfold st_bind at 1, st_get at 1. rewrite Hs0, Ht. unfold st_bind at 1. cbn [st_lift st_ret].
    unfold st_bind at 1, gossip_message, emit, st_modify. fold w1.
    rewrite (handle_timeout_run event_fuel w1 view id t (Ok None) (set_cs_aggregator agg (set_cs_last_voted_view view (w_state w))));
      [done| | |done|]; change (w_state w1) with (w_state w0); by rewrite Hs0.
  - unfold w1. cbn. apply elem_of_app. right. by left.
  - constructor; try done. exists [TimerReset; Gossip (MsgTimeout t) true]. unfold w1, w0. cbn. by rewrite <- app_assoc.
Qed.

(** A timeout that completes nothing. *)
Lemma timeout_counted_run view id w j t :
  stalled view id w -> aggregator_ok A (cs_aggregator (w_state w)) -> timeout_of view j t ->
  j ∉ timed_out (cs_aggregator (w_state w)) view -> (length (timed_out (cs_aggregator (w_state w)) view) < two_thirds A)%nat ->
  exists agg, run_event event_fuel w (Message (MsgTimeout t)) = Some (set_w_state (set_cs_aggregator agg (w_state w)) w) /\
    aggregator_ok A agg /\ same_but view (cs_aggregator (w_state w)) agg /\
    timed_out agg view = timed_out (cs_aggregator (w_state w)) view ++ [j].
Proof.
  intros [[HA _ _ _ _] _ Hv _] Hok Hto Hnew Hlt.
  destruct (add_timeout_counted (w_state w) view j t HA Hok Hto Hnew) as (agg & Hagg & Hsb & Htd & Hnone & _).
  exists agg. split_and!; try done. unfold run_event. cbn [handle_event].
  by rewrite (handle_timeout_run event_fuel w view j t (Ok None) (set_cs_aggregator agg (w_state w)) HA Hv Hto (Hnone Hlt)).
Qed.

(** The worker that moved on from [view], before it looks whether it leads. *)
Definition moved_on (view : ViewNumber) (agg : Aggregator) (w w1 : Worker) : Prop :=
  w_state w1 = set_cs_view (u64_add view 1) (set_cs_aggregator agg (w_state w)) /\ kept w w1.

(** The timeout that completes the certificate. *)
Lemma timeout_completes view id w j t :
  stalled view id w -> aggregator_ok A (cs_aggregator (w_state w)) -> timeout_of view j t ->
  j ∉ timed_out (cs_aggregator (w_state w)) view -> (two_thirds A <= length (timed_out (cs_aggregator (w_state w)) view))%nat ->
  exists agg w1 tc, aggregator_ok A agg /\ same_but view (cs_aggregator (w_state w)) agg /\ moved_on view agg w w1 /\
    handle_timeout event_fuel t w =
      (let! leads := st_get (fun w => is_leader (w_state w)) in
       let! leads := st_expect leads in
       if leads then st_modify (set_w_processing_block None) ;! generate_proposal event_fuel (Some tc) else st_ret tt) w1.
Proof.
  intros [[HA _ _ _ _] _ Hv _] Hok Hto Hnew Hle.
  destruct (add_timeout_counted (w_state w) view j t HA Hok Hto Hnew) as (agg & Hagg & Hsb & Htd & _ & Hsome).
  destruct (Hsome Hle) as (tc & Hadd & Htc). eexists agg, _, tc. split_and!; [done|done| |].
  2:{ rewrite (handle_timeout_run event_fuel w view j t _ _ HA Hv Hto Hadd). unfold st_bind at 1. cbn [st_lift st_ret].
      unfold st_bind at 1, st_get at 1. cbn [w_state set_w_state cs_view set_cs_aggregator]. rewrite Htc, Hv, N.leb_refl.
      unfold st_bind at 1, st_bind at 1, advance_view at 1, st_modify at 1. unfold timer_reset, emit, st_modify.
      unfold st_bind at 1, gossip_message, emit, st_modify. reflexivity. }
  split.
  - cbn -[advance_view_from_target]. unfold advance_view_from_target. cbn. by rewrite Hv, N.leb_refl.
  - constructor; try done. exists [TimerReset; Gossip (MsgTC tc) true]. cbn. by rewrite <- app_assoc.
Qed.

Lemma moved_on_member view agg id w w1 :
  same_but view (cs_aggregator (w_state w)) agg -> moved_on view agg w w1 -> stalled view id w ->
  member (A := A) (u64_add view 1) id w1 /\ cs_view (w_state w1) = u64_add view 1 /\
  (cs_last_voted_view (w_state w1) <= view)%N.
Proof.
  intros [Hsv _] [Hs [_ Hq _ _]] [[HA Hid Hh Hf Hql] Hhv Hv Hl].
  split_and!; [constructor|..]; rewrite ?Hs; cbn; try done.
  - intros u d Hu. rewrite Hsv. by apply Hf.
  - by rewrite Hq.
Qed.

(** A member that does not lead the next view waits in it. *)
Lemma timeout_completes_other view id w j t L :
  stalled view id w -> aggregator_ok A (cs_aggregator (w_state w)) -> timeout_of view j t ->
  j ∉ timed_out (cs_aggregator (w_state w)) view -> (two_thirds A <= length (timed_out (cs_aggregator (w_state w)) view))%nat ->
  leader_of (A := A) (u64_add view 1) L -> id <> L ->
  exists agg w1, run_event event_fuel w (Message (MsgTimeout t)) = Some w1 /\
    same_but view (cs_aggregator (w_state w)) agg /\ moved_on view agg w w1.
Proof.
  intros Hst Hok Hto Hnew Hle HL Hne.
  destruct (timeout_completes view id w j t Hst Hok Hto Hnew Hle) as (agg & w1 & tc & Hagg & Hsb & Hmv & Hrun).
  exists agg, w1. split_and!; try done. unfold run_event. cbn [handle_event]. rewrite Hrun.
  unfold st_bind at 1, st_get at 1. unfold is_leader. destruct Hst as [[HA Hid _ _ _] _ Hv _]. destruct Hmv as [Hs _].
  replace (cs_view (w_state w1)) with (u64_add view 1) by (by rewrite Hs). rewrite HL by (by rewrite Hs).
  unfold is_local. rewrite (local_authority_id_ext _ (w_state w)), Hid, bool_decide_false by (done || by rewrite Hs). done.
Qed.

(** The leader of the next view has proposed the block [h] and voted for it. *)
Record opened (view : ViewNumber) (L : AuthorityId) (h : Hash) (number : N) (p : Proposal) (w w' : Worker) : Prop := {
  op_cast : cast (A := A) p L w';
  op_vote : exists v, vote_of A p L v /\ Gossip (MsgVote v) false ∈ w_effects w';
  op_gossip : Gossip (MsgPropose p) false ∈ w_effects w';
  op_qc : proposal_qc p = cs_high_qc (w_state w);
  op_view : proposal_view p = u64_add view 1;
  op_valid : forall st, cs_authorities st = A -> verify_proposal st p = Some (Ok tt);
  op_payload : proposal_payload p = mkPayload h number;
  op_client : w_client w' = client_after p (w_client w);
  op_hashes : last_hash h w';
  op_later : later view w w';
}.

(** The proposal it makes in [w1], where it has moved on, and its own vote. *)
Lemma leader_opens view agg L next w w1 tc h number rest :
  same_but view (cs_aggregator (w_state w)) agg -> moved_on view agg w w1 -> stalled view L w ->
  qc_accepted A (cs_high_qc (w_state w)) ->
  leader_of (A := A) (u64_add view 1) L -> leader_of (A := A) (u64_add (u64_add view 1) 1) next -> L <> next ->
  (view + 1 < u64_modulus)%N -> queue_lock (w_queue w) = Some (mkBlockInfo (Some h) number :: rest) ->
  (forall q, (save_proposal (w_client w) q).1 = Ok tt) -> client_status (w_client w) h = Ok InChain ->
  exists p w', generate_proposal event_fuel (Some tc) (set_w_processing_block None w1) = (Val tt, w') /\
    opened view L h number p w w'.
Proof.
  intros Hsb Hmv Hst Hacc HL Hnext Hne Hroom Hq Hsave Hknown.
  destruct (moved_on_member view agg L w w1 Hsb Hmv Hst) as ([HA1 Hid1 Hh1 Hf1 Hq1] & Hv1 & Hl1).
  destruct Hst as [[HA Hid _ Hf Hql] Hh Hv Hlast]. destruct Hmv as [Hs [Hc Hu Hhs He]].
  assert (u64_add view 1 = view + 1)%N as Hadd by (unfold u64_add; by rewrite N.mod_small).
  set (w2 := set_w_processing_block (Some (mkBlockInfo (Some h) number)) (set_w_processing_block None w1)).
  assert (cs_high_qc (w_state w1) = cs_high_qc (w_state w)) as Hqc1 by (by rewrite Hs).
  destruct (make_proposal_verifies (w_state w2) L (mkPayload h number) (Some tc)) as (p & Hp & Hver & Hpq & _ & Hpp & Hpv & Hpa).
  { done. }
  { change (w_state w2) with (w_state w1). by rewrite HA1, Hqc1. }
  change (w_state w2) with (w_state w1) in Hp, Hver, Hpq, Hpv. rewrite Hqc1 in Hpq. rewrite Hv1 in Hpv.
  set (w3 := add_w_effect (Gossip (MsgPropose p) false) w2).
  assert (after_qc (proposal_qc p) (w_state w3) = w_state w1) as Hsame.
  { change (w_state w3) with (w_state w1). unfold after_qc. rewrite Hpq, Hv1. by rewrite (proj2 (N.ltb_lt _ _)) by lia. }
  assert (verify_proposal (w_state w1) p = Some (Ok tt)) as Hver1.
  { unfold verify_proposal. rewrite Hpv, HL, Hpa, bool_decide_true by done. cbn. by rewrite Hver. }
  destruct (handle_proposal_run (handle_vote 2) p w3 L next) as (w4 & v' & Hvd & Hvo & Hr).
  { constructor; try done.
    - right. rewrite Hpp. change (w_client w3) with (w_client w1). by rewrite Hc.
    - change (w_client w3) with (w_client w1). rewrite Hc. apply Hsave.
    - by rewrite Hsame, Hpv.
    - change (w_state w3) with (w_state w1). rewrite Hpv. lia. }
  { done. }
  { rewrite Hpv. by apply Hnext. }
  change (cs_authorities (w_state w3)) with (cs_authorities (w_state w1)) in Hvo. rewrite HA1 in Hvo.
  exists p, (add_w_effect (Gossip (MsgVote v') false) w4). split.
  - unfold generate_proposal. unfold st_bind at 1, st_update at 1.
    assert (get_proposal_payload (set_w_processing_block None w1) = (Some (mkPayload h number), w2)) as ->.
    { unfold get_proposal_payload. cbn [w_queue set_w_processing_block w_processing_block]. by rewrite Hu, Hq. }
    unfold st_bind at 1, st_get at 1. change (w_state w2) with (w_state w1). rewrite Hp. unfold st_bind at 1. cbn [st_lift st_ret].
    unfold st_bind at 1, gossip_message, emit, st_modify. fold w3.
    change (handle_proposal event_fuel p w3) with (handle_proposal_body (handle_vote 2) p w3). rewrite Hr.
    by rewrite bool_decide_false.
  - pose proof (voted_state _ _ _ Hvd) as Hs4. rewrite Hsame in Hs4. constructor; try done.
    + apply cast_emit. constructor; [constructor|..]; rewrite ?Hs4, ?Hpv; cbn; try done.
      by rewrite (voted_queue _ _ _ Hvd).
    + exists v'. split; [done|]. cbn. apply elem_of_app. right. by left.
    + cbn. apply elem_of_app. left. destruct (voted_effects _ _ _ Hvd) as [new ->]. cbn. set_solver.
    + intros st HAst. rewrite <- Hver1. apply verify_proposal_ext. by rewrite HAst, HA1.
    + cbn. rewrite (voted_client _ _ _ Hvd). change (w_client w3) with (w_client w1). by rewrite Hc.
    + exists (w_proposal_hash_queue w3). cbn. by rewrite (voted_hashes _ _ _ Hvd), Hpp.
    + apply later_ext; cbn; rewrite ?Hs4, ?Hs; try done. by rewrite (voted_queue _ _ _ Hvd).
Qed.

(** The leader of the next view, handed the last timeout. *)
Lemma timeout_completes_leader view L w j t next h number rest :
  stalled view L w -> aggregator_ok A (cs_aggregator (w_state w)) -> qc_accepted A (cs_high_qc (w_state w)) ->
  timeout_of view j t ->
  j ∉ timed_out (cs_aggregator (w_state w)) view -> (two_thirds A <= length (timed_out (cs_aggregator (w_state w)) view))%nat ->
  leader_of (A := A) (u64_add view 1) L -> leader_of (A := A) (u64_add (u64_add view 1) 1) next -> L <> next ->
  (view + 1 < u64_modulus)%N -> queue_lock (w_queue w) = Some (mkBlockInfo (Some h) number :: rest) ->
  (forall q, (save_proposal (w_client w) q).1 = Ok tt) -> client_status (w_client w) h = Ok InChain ->
  exists p w', run_event event_fuel w (Message (MsgTimeout t)) = Some w' /\ opened view L h number p w w'.
Proof.
  intros Hst Hok Hqc Hto Hnew Hle HL Hnext Hne Hroom Hq Hsave Hknown.
  destruct (timeout_completes view L w j t Hst Hok Hto Hnew Hle) as (agg & w1 & tc & Hagg & Hsb & Hmv & Hrun).
  destruct (leader_opens view agg L next w w1 tc h number rest) as (p & w' & Hgen & Hop); try done.
  exists p, w'. split; [|done]. destruct (moved_on_member view agg L w w1 Hsb Hmv Hst) as ([HA Hid _ _ _] & Hv & _).
  unfold run_event. cbn [handle_event]. rewrite Hrun. unfold st_bind at 1, st_get at 1. unfold is_leader.
  rewrite Hv, HL by done. unfold is_local. rewrite Hid, bool_decide_true by done. unfold st_bind at 1. cbn [st_expect st_ret].
  unfold st_bind at 1, st_modify at 1. by rewrite Hgen.
Qed.

(** Timeouts that complete nothing, one after the other. *)
Lemma collect_timeouts view id ts w :
  stalled view id w -> aggregator_ok A (cs_aggregator (w_state w)) -> gv_view (w_network w) = view ->
  Forall (fun t => timeout_of view (timeout_voter t) t) ts ->
  NoDup (timed_out (cs_aggregator (w_state w)) view ++ (timeout_voter <$> ts)) ->
  (length (timed_out (cs_aggregator (w_state w)) view) + length ts <= two_thirds A)%nat ->
  exists agg, serves w (MsgTimeout <$> ts) (set_w_state (set_cs_aggregator agg (w_state w)) w) /\
    aggregator_ok A agg /\ same_but view (cs_aggregator (w_state w)) agg /\
    timed_out agg view = timed_out (cs_aggregator (w_state w)) view ++ (timeout_voter <$> ts).
Proof.
  intros Hst Hok Hnet Hts. revert w Hst Hok Hnet. induction Hts as [|t ts Ht Hts IH]; intros w Hst Hok Hnet Hnd Hlen.
  - exists (cs_aggregator (w_state w)). rewrite app_nil_r. split_and!; [|done..].
    replace (set_w_state _ w) with w by (by destruct w as [[]]). constructor.
  - assert (timeout_voter t ∉ timed_out (cs_aggregator (w_state w)) view) as Hnew.
    { apply NoDup_app in Hnd as (_ & Hx & _). intros Hin. by apply (Hx _ Hin); left. }
    destruct (timeout_counted_run view id w (timeout_voter t) t Hst Hok Ht Hnew) as (agg & Hrun & Hagg & Hsb & Htd);
      [cbn in Hlen; lia|].
    set (w1 := set_w_state (set_cs_aggregator agg (w_state w)) w) in Hrun.
    destruct (IH w1) as (agg' & Hserve & Hagg' & Hsb' & Htd'); try done.
    + by apply stalled_counted.
    + cbn. by rewrite Htd, <- app_assoc.
    + cbn [w1 w_state set_w_state cs_aggregator set_cs_aggregator]. rewrite Htd, length_app. cbn in *. lia.
    + exists agg'. split_and!; try done.
      * econstructor; [|exact Hrun|exact Hserve]. apply accepts_view. cbn. rewrite Hnet, (timeout_of_view _ _ _ Ht). lia.
      * by eapply same_but_trans.
      * rewrite Htd'. cbn. by rewrite Htd, <- app_assoc.
Qed.

Lemma serves_app w1 ms w2 ms' w3 : serves w1 ms w2 -> serves w2 ms' w3 -> serves w1 (ms ++ ms') w3.
Proof. induction 1; [done|]. cbn. by econstructor; eauto. Qed.

(** The member once its timer has fired. *)
Record fired (view : ViewNumber) (id : AuthorityId) (w w' : Worker) : Prop := {
  fd_stalled : stalled view id w';
  fd_timeout : exists t, timeout_of view id t /\ Gossip (MsgTimeout t) true ∈ w_effects w';
  fd_collected : timed_out (cs_aggregator (w_state w')) view = [id];
  fd_client : w_client w' = w_client w;
  fd_later : later view w w';
}.

Lemma timer_fires view id w ks :
  stalled view id w -> worker_ok A ks w -> timed_out (cs_aggregator (w_state w)) view = [] ->
  exists w', run_event event_fuel w LocalTimer = Some w' /\ fired view id w w'.
Proof.
  intros Hst Hok Hnone.
  destruct (timer_run view id w ks Hst Hok Hnone) as (w1 & t & agg & Hrun & Hto & Hin & Hs & Hsb & Htd & [Hc Hq _ _]).
  exists w1. split; [done|]. constructor; try done.
  - eapply stalled_ext; try done.
  - by exists t.
  - by rewrite Hs.
  - apply later_ext; rewrite ?Hs; done.
Qed.

(** What the timeouts of a quorum make of a member: the leader [L] of the next
    view has opened it, the others wait in it. *)
Definition changed (view : ViewNumber) (L : AuthorityId) (h : Hash) (number : N) (id : AuthorityId) (w w' : Worker) : Prop :=
  if decide (id = L) then exists p, opened view L h number p w w'
  else later view w w' /\ member (A := A) (u64_add view 1) id w' /\ cs_view (w_state w') = u64_add view 1 /\
    (cs_last_voted_view (w_state w') <= view)%N /\ w_client w' = w_client w.

Lemma timeouts_change view id L next ts w ks h number :
  stalled view id w -> worker_ok A ks w -> timed_out (cs_aggregator (w_state w)) view = [id] ->
  Forall (fun t => timeout_of view (timeout_voter t) t) ts -> (id ∉ (timeout_voter <$> ts)) -> NoDup (timeout_voter <$> ts) ->
  length ts = two_thirds A ->
  leader_of (A := A) (u64_add view 1) L -> leader_of (A := A) (u64_add (u64_add view 1) 1) next -> L <> next ->
  (view + 1 < u64_modulus)%N -> (forall q, (save_proposal (w_client w) q).1 = Ok tt) ->
  client_status (w_client w) h = Ok InChain ->
  (id = L -> exists rest, queue_lock (w_queue w) = Some (mkBlockInfo (Some h) number :: rest)) ->
  exists w', serves w (MsgTimeout <$> ts) w' /\ changed view L h number id w w'.
Proof.
  intros Hst Hwok Htd Hts Hid Hnd Hlen HL Hnext Hne Hroom Hsave Hknown Hfront.
  assert (exists ts' t, ts = ts' ++ [t]) as (ts' & t & ->).
  { destruct ts as [|t ts' _] using rev_ind; [cbn in Hlen; lia|by exists ts', t]. }
  rewrite fmap_app in Hid, Hnd. rewrite length_app in Hlen. cbn in Hid, Hnd, Hlen.
  apply Forall_app in Hts as [Hts' [Ht _]%Forall_cons]. apply NoDup_app in Hnd as (Hnd & Hnot & _).
  rewrite not_elem_of_app in Hid. destruct Hid as [Hid Hidt].
  destruct (collect_timeouts view id ts' w) as (agg & Hserve & Hagg & Hsb & Htd'); try done; try apply Hwok.
  { rewrite (wo_network _ _ _ Hwok). apply Hst. }
  { rewrite Htd. cbn. by constructor. }
  { rewrite Htd. cbn. lia. }
  set (w1 := set_w_state (set_cs_aggregator agg (w_state w)) w) in Hserve. rewrite Htd in Htd'.
  assert (later view w w1) as Hl1 by (by apply later_ext).
  assert (stalled view id w1) as Hst1 by (by apply stalled_counted).
  assert (timeout_voter t ∉ timed_out (cs_aggregator (w_state w1)) view) as Hnew.
  { cbn. rewrite Htd'. set_solver. }
  assert (two_thirds A <= length (timed_out (cs_aggregator (w_state w1)) view))%nat as Hle.
  { cbn [w1 w_state set_w_state cs_aggregator set_cs_aggregator]. rewrite Htd'. cbn. rewrite length_fmap. lia. }
  assert (accepts w1 (MsgTimeout t)) as Hacc.
  { apply accepts_view. cbn. rewrite (wo_network _ _ _ Hwok), (timeout_of_view _ _ _ Ht), (sl_view _ _ _ Hst). lia. }
  assert (exists w', run_event event_fuel w1 (Message (MsgTimeout t)) = Some w' /\ changed view L h number id w w') as (w' & Hrun & Hch).
  { unfold changed. destruct (decide (id = L)) as [->|HneL].
    - destruct (Hfront eq_refl) as [rest Hq].
      destruct (timeout_completes_leader view L w1 (timeout_voter t) t next h number rest)
        as (p & w' & Hrun & [? ? ? ? ? ? ? ? ? Hla]); try done; [apply Hwok|].
      exists w'. split; [done|]. exists p. constructor; try done. by eapply later_trans.
    - destruct (timeout_completes_other view id w1 (timeout_voter t) t L) as (agg' & w' & Hrun & Hsb' & Hmv); try done.
      exists w'. split; [done|]. destruct (moved_on_member view agg' id w1 w' Hsb' Hmv Hst1) as (? & ? & ?).
      split_and!; try done; [|apply Hmv]. eapply later_trans; [done|]. destruct Hmv as [Hs [_ Hq _ _]].
      by apply later_ext; rewrite ?Hs. }
  exists w'. split; [|done]. rewrite fmap_app. eapply serves_app; [exact Hserve|]. by repeat econstructor.
Qed.

End timeouts.

(** ** The view change *)

Section view_change.
Context `{MessageCodecs} `{!ClientForHotstuff}.
Context `{!AuxStoreLaws} `{!CodecLaws Proposal} `{!CodecLaws ConsensusMessage} `{!KeystoreLaws} `{!ProposalDigests}.
Context {A : AuthorityList} {byz : list AuthorityId} {send_error : string} (Hfit : authorities_fit A).
#[local] Abbreviation sys_step := (sys_step byz send_error).
#[local] Abbreviation reachable := (reachable A byz send_error).
Implicit Types (s : System) (w : Worker) (p : Proposal) (G : list AuthorityId).

(** The steps in which, besides, the timers of the replicas [touched] fire. *)
Inductive live_step (touched : list AuthorityId) : System -> System -> Prop :=
| live_message s s' : message_step (send_error := send_error) touched s s' -> live_step touched s s'
| live_timer id n w' s :
    id ∈ touched -> sys_nodes s !! id = Some n -> run_event event_fuel (node_worker n) LocalTimer = Some w' ->
    live_step touched s (served id n w' (node_channel n) s).

Lemma live_step_sys l s s' : live_step l s s' -> sys_step s s'.
Proof. intros [s0 s1 Hm|id n w' s0 _ Hn Hr]; [by eapply message_step_sys|by apply sys_timer]. Qed.

Lemma live_step_mono l l' s s' : l ⊆ l' -> live_step l s s' -> live_step l' s s'.
Proof. intros Hl [s0 s1 Hm|id n w' s0 Hin Hn Hr]; [by eapply live_message, message_step_mono|apply live_timer; try done; by apply Hl]. Qed.

(** The network took such steps at the replicas [touched] only. *)
Record stepped (touched : list AuthorityId) (s s' : System) : Prop := {
  mv_steps : rtc (live_step touched) s s';
  mv_others : forall id, id ∉ touched -> sys_nodes s' !! id = sys_nodes s !! id;
  mv_sent : sys_sent s ⊆ sys_sent s';
}.

Lemma advanced_stepped l s s' : advanced (send_error := send_error) l s s' -> stepped l s s'.
Proof. intros [Hr Ho Hs]. constructor; [|done..]. eapply rtc_subrel; [apply live_message|exact Hr]. Qed.

Lemma stepped_weaken l l' s s' : l ⊆ l' -> stepped l s s' -> stepped l' s s'.
Proof.
  intros Hl [Hr Ho Hs]. constructor; [|intros id Hid; apply Ho; set_solver|done].
  eapply rtc_subrel; [|exact Hr]. intros ? ?. by apply live_step_mono.
Qed.

Lemma stepped_trans l s1 s2 s3 : stepped l s1 s2 -> stepped l s2 s3 -> stepped l s1 s3.
Proof.
  intros [Hr1 Ho1 Hs1] [Hr2 Ho2 Hs2]. constructor; [by etrans| |set_solver].
  intros id Hid. by rewrite Ho2, Ho1.
Qed.

Lemma stepped_reachable l s s' : reachable s -> stepped l s s' -> reachable s'.
Proof.
  intros (s0 & H0' & Hr0) Ha. exists s0. split; [done|].
  etrans; [exact Hr0|]. eapply rtc_subrel; [apply live_step_sys|apply Ha].
Qed.

Lemma stepped_idle l s s' id w : stepped l s s' -> id ∉ l -> idle s id w -> idle s' id w.
Proof. intros Hm Hid. unfold idle. by rewrite (mv_others _ _ _ Hm). Qed.

Lemma fire_timer s id w w' :
  idle s id w -> run_event event_fuel w LocalTimer = Some w' -> exists s', stepped [id] s s' /\ idle s' id w'.
Proof.
  intros Hid Hrun. exists (served id (mkNode w []) w' [] s). split; [constructor|].
  - apply rtc_once. by apply (live_timer _ id (mkNode w []) w' s); [left|..].
  - intros j Hj. cbn. by rewrite lookup_insert_ne by set_solver.
  - cbn. set_solver.
  - unfold idle. cbn. by rewrite lookup_insert_eq.
Qed.

(** What every member can do for itself, in whatever state the others are, they
    all do one after the other. *)
Lemma each_member (R : AuthorityId -> Worker -> Worker -> Prop) l s :
  NoDup l -> reachable s ->
  (forall id, id ∈ l -> exists w, idle s id w /\ forall s1, reachable s1 -> sys_sent s ⊆ sys_sent s1 -> idle s1 id w ->
    exists s2 w', stepped [id] s1 s2 /\ idle s2 id w' /\ R id w w') ->
  exists s', stepped l s s' /\ forall id, id ∈ l -> exists w w', idle s id w /\ idle s' id w' /\ R id w w'.
Proof.
  intros Hnd. induction Hnd as [|id l Hnin Hnd IH]; intros Hs Hl.
  - exists s. split; [by constructor|]. intros id Hin. by apply not_elem_of_nil in Hin.
  - destruct IH as (s1 & Hm1 & Hl1); [done|intros j Hj; apply Hl; by right|].
    destruct (Hl id) as (w & Hid & Hact); [by left|].
    destruct (Hact s1) as (s2 & w' & Hm2 & Hid2 & HR); [by eapply stepped_reachable|apply Hm1|by eapply stepped_idle|].
    exists s2. split.
    + eapply stepped_trans; (eapply stepped_weaken; [|eassumption]); set_solver.
    + intros j [->|Hj]%elem_of_cons; [by exists w, w'|]. destruct (Hl1 j Hj) as (wj & wj' & Hidj & Hidj' & HRj).
      exists wj, wj'. split_and!; [done| |done]. eapply stepped_idle; [exact Hm2| |done]. intros ->%list_elem_of_singleton. done.
Qed.

(** What the theorem asks of the clients for which [pending] holds: the block [h] at
    height [number] is in their chain and yet to be finalized. *)
Record available (pending : Client -> Prop) (h : Hash) (number : N) : Prop := {
  av_unfinalized : unfinalized pending h number;
  av_known : forall c, pending c -> client_status c h = Ok InChain;
  av_block : h <> empty_payload_hash;
}.

(** A member that got stuck in [view], with the block [h] at the front of its queue.
    The block may have been proposed, but no proposal of it has a certificate. *)
Record stuck (pending : Client -> Prop) (h : Hash) (number : N) (view : ViewNumber) (id : AuthorityId) (w : Worker) : Prop := {
  sk_stalled : stalled (A := A) view id w;
  sk_none : forall u, (view <= u)%N -> timed_out (cs_aggregator (w_state w)) u = [];
  sk_pending : pending (w_client w);
  sk_unbuilt : forall d q, filed (w_client w) d q -> on_other h q;
  sk_high : forall r, block_hash (proposal_payload r) = h -> qc_proposal_hash (cs_high_qc (w_state w)) <> Proposal_digest r;
  sk_queue : exists rest, queue_lock (w_queue w) = Some (mkBlockInfo (Some h) number :: rest);
}.

Lemma worker_ok_keyed ks w : worker_ok A ks w -> keyed (w_client w).
Proof. intros Hok d q (data & Hd & Hq). by destruct (wo_store _ _ _ Hok d data q Hd Hq) as [_ <-]. Qed.

Context (Hsave : forall c q, (save_proposal c q).1 = Ok tt) (Htt : (0 < two_thirds A)%nat).
Context {pending : Client -> Prop} {h : Hash} {number : N} (Hav : available pending h number).
#[local] Abbreviation stuck_in := (stuck pending h number).
#[local] Abbreviation leader_of := (leader_of (A := A)).

(** All members of [G] are stuck in [view]. *)
Definition all_stuck (view : ViewNumber) (G : list AuthorityId) (s : System) : Prop :=
  forall id, id ∈ G -> exists w, idle s id w /\ stuck_in view id w.

(** All timers fire. *)
Lemma timers_fire view G s :
  NoDup G -> reachable s -> all_stuck view G s ->
  exists s', stepped G s s' /\ forall id, id ∈ G -> exists w w', idle s id w /\ idle s' id w' /\
    stuck_in view id w /\ fired (A := A) view id w w'.
Proof.
  intros Hnd Hs Hall. apply each_member; [done..|]. intros id Hin. destruct (Hall id Hin) as (w & Hid & Hst).
  exists w. split; [done|]. intros s1 Hs1 _ Hid1. destruct (idle_worker_ok Hfit s1 id w Hs1 Hid1) as [ks Hok].
  destruct (timer_fires Hfit Htt view id w ks) as (w' & Hrun & Hf); [by apply Hst|done|by apply Hst|].
  destruct (fire_timer s1 id w w' Hid1 Hrun) as (s2 & Hm & Hid2). by exists s2, w'.
Qed.

(** All are served the timeouts of a quorum. *)
Lemma timeouts_served view G L next s :
  NoDup G -> (two_thirds A < length G)%nat -> reachable s -> leader_of (u64_add view 1) L ->
  leader_of (u64_add (u64_add view 1) 1) next -> L <> next -> (view + 1 < u64_modulus)%N ->
  (forall id, id ∈ G -> exists w0 w, idle s id w /\ stuck_in view id w0 /\ fired (A := A) view id w0 w) ->
  exists s', stepped G s s' /\ forall id, id ∈ G -> exists w w', idle s id w /\ idle s' id w' /\
    changed (A := A) view L h number id w w'.
Proof.
  intros Hnd Hlen Hs HL Hnext Hne Hroom Hall. apply each_member; [done..|].
  intros id Hin. destruct (Hall id Hin) as (w0 & w & Hid & Hsk & Hfd). exists w. split; [done|]. intros s1 Hs1 Hsub Hid1.
  destruct (idle_worker_ok Hfit s id w Hs Hid) as [ks Hok].
  destruct (gather timeout_voter (fun id t => timeout_of (A := A) view id t /\ encode (MsgTimeout t) ∈ sys_sent s) G id (two_thirds A))
    as (ts & Hnot & Hndt & Hlent & [Hts Hsent]%Forall_and); [done|done| | |].
  { intros j t [Ht _]. by apply Ht. }
  { intros j Hj _. destruct (Hall j Hj) as (_ & wj & Hidj & _ & [_ (t & Ht & Hg) _ _ _]). exists t. split; [done|].
    by eapply reachable_sent. }
  destruct (timeouts_change Hfit Htt view id L next ts w ks h number) as (w' & Hserve & Hch); try done; try apply Hfd.
  { rewrite (fd_client _ _ _ _ Hfd). by apply (av_known _ _ _ Hav), Hsk. }
  { intros _. rewrite (la_queue _ _ _ (fd_later _ _ _ _ Hfd)). apply Hsk. }
  destruct (deliver_all (send_error := send_error) Hfit id w _ w' s1 Hserve Hid1) as (s2 & Ha & Hid2).
  { apply Forall_fmap. eapply Forall_impl; [exact Hsent|]. intros t Ht. by apply Hsub. }
  exists s2, w'. split_and!; [by apply advanced_stepped|done|done].
Qed.

(** What a member came through when its view changed. *)
Definition came_through (view : ViewNumber) (L id : AuthorityId) (w' : Worker) : Prop :=
  exists w0 w, stuck_in view id w0 /\ keyed (w_client w0) /\ fired (A := A) view id w0 w /\ changed (A := A) view L h number id w w'.

Lemma view_changes view G L next s :
  NoDup G -> (two_thirds A < length G)%nat -> reachable s -> leader_of (u64_add view 1) L ->
  leader_of (u64_add (u64_add view 1) 1) next -> L <> next -> (view + 1 < u64_modulus)%N -> all_stuck view G s ->
  exists s', stepped G s s' /\ forall id, id ∈ G -> exists w', idle s' id w' /\ came_through view L id w'.
Proof.
  intros Hnd Hlen Hs HL Hnext Hne Hroom Hall.
  destruct (timers_fire view G s Hnd Hs Hall) as (s1 & Hm1 & Hf1). pose proof (stepped_reachable _ _ _ Hs Hm1) as Hs1.
  destruct (timeouts_served view G L next s1) as (s2 & Hm2 & Hf2); try done.
  { intros id Hin. destruct (Hf1 id Hin) as (w & w' & _ & ? & ? & ?). by exists w, w'. }
  exists s2. split; [by eapply stepped_trans|]. intros id Hin.
  destruct (Hf1 id Hin) as (w0 & w & Hid0 & Hid & Hsk & Hfd). destruct (Hf2 id Hin) as (w1 & w' & Hid1 & Hid' & Hch).
  rewrite (idle_fun _ _ _ _ Hid1 Hid) in Hch. exists w'. split; [done|]. exists w0, w. split_and!; try done.
  destruct (idle_worker_ok Hfit s id w0 Hs Hid0) as [ks Hok]. by eapply worker_ok_keyed.
Qed.

(** The proposal the leader of the next view made is on top of another block. *)
Lemma opened_base view L p w0 w w' :
  stuck_in view L w0 -> fired (A := A) view L w0 w -> opened (A := A) view L h number p w w' ->
  proposal_qc p = cs_high_qc (w_state w0) /\ on_other_block p.
Proof.
  intros Hsk Hfd Hop. pose proof (op_qc _ _ _ _ _ _ _ Hop) as Hpq. rewrite (la_high _ _ _ (fd_later _ _ _ _ Hfd)) in Hpq.
  split; [done|]. intros r Hr. unfold Proposal_parent_hash. rewrite Hpq. apply Hsk. rewrite Hr. by rewrite (op_payload _ _ _ _ _ _ _ Hop).
Qed.

(** Its client has the proposal. *)
Lemma opened_seen view L p w0 w w' :
  stuck_in view L w0 -> keyed (w_client w0) -> fired (A := A) view L w0 w -> opened (A := A) view L h number p w w' ->
  seen (pending := pending) (p := p) (w_client w').
Proof.
  intros Hsk Hkey Hfd Hop. destruct (opened_base view L p w0 w w' Hsk Hfd Hop) as [_ Hbase].
  pose proof (op_payload _ _ _ _ _ _ _ Hop) as Hpp. pose proof (av_unfinalized _ _ _ Hav) as Hpend.
  rewrite (op_client _ _ _ _ _ _ _ Hop), (fd_client _ _ _ _ Hfd).
  apply (unseen_seen Hsave); rewrite ?Hpp; try done. split; [apply Hsk|]. rewrite Hpp. split; [done|apply Hsk].
Qed.

Lemma member_weaken view view' id w : (view <= view')%N -> member (A := A) view id w -> member (A := A) view' id w.
Proof. intros Hle [? ? ? Hf ?]. constructor; try done; [lia|]. intros u d Hu. apply Hf. lia. Qed.

(** A member that came through is in the next view; nothing keeps it from being stuck there as well. *)
Lemma came_through_stuck view L id w' :
  (view + 2 < u64_modulus)%N -> came_through view L id w' -> stuck_in (u64_add view 1) id w'.
Proof.
  intros Hroom (w0 & w & Hsk & Hkey & Hfd & Hch).
  assert (u64_add view 1 = view + 1 /\ u64_add (view + 1) 1 = view + 2)%N as [Hadd Hadd2] by (unfold u64_add; rewrite !N.mod_small; lia).
  assert (later view w0 w' -> member (A := A) (u64_add view 1) id w' -> cs_view (w_state w') = u64_add view 1 ->
    (cs_last_voted_view (w_state w') <= u64_add view 1)%N -> pending (w_client w') ->
    (forall d q, filed (w_client w') d q -> on_other h q) -> stuck_in (u64_add view 1) id w') as Hstuck.
  { intros [Ht Hh Hq] Hmb Hv Hl Hp Hun. rewrite Hadd in *. constructor; try done.
    - constructor; try done; [rewrite Hadd2; eapply member_weaken; [|done]; lia|apply Hmb].
    - intros u Hu. rewrite Ht by lia. apply Hsk. lia.
    - rewrite Hh. apply Hsk.
    - rewrite Hq. apply Hsk. }
  unfold changed in Hch. destruct (decide (id = L)) as [->|Hne].
  - destruct Hch as [p Hop]. destruct (opened_seen view L p w0 w w' Hsk Hkey Hfd Hop) as (Hp & [_ Hun] & _).
    rewrite (op_payload _ _ _ _ _ _ _ Hop) in Hun. destruct (op_cast _ _ _ _ _ _ _ Hop) as [Hmb Hv Hl].
    rewrite (op_view _ _ _ _ _ _ _ Hop) in Hmb, Hv, Hl. apply Hstuck; try done; [|by rewrite Hl].
    eapply later_trans; [apply Hfd|apply Hop].
  - destruct Hch as (Hla & Hmb & Hv & Hl & Hc). rewrite (fd_client _ _ _ _ Hfd) in Hc.
    apply Hstuck; rewrite ?Hc; try apply Hsk; try done; [|rewrite Hadd; lia]. eapply later_trans; [apply Hfd|done].
Qed.

(** A member that does not lead waits for the proposal. *)
Lemma came_through_waiting view L p id w' wl0 wl wl' :
  id <> L -> (view + 1 < u64_modulus)%N -> came_through view L id w' ->
  stuck_in view L wl0 -> fired (A := A) view L wl0 wl -> opened (A := A) view L h number p wl wl' ->
  waiting (A := A) p id w' /\ unseen (pending := pending) (p := p) (w_client w').
Proof.
  intros Hne Hroom (w0 & w & Hsk & Hkey & Hfd & Hch) HskL HfdL Hop.
  assert (u64_add view 1 = view + 1)%N as Hadd by (unfold u64_add; by rewrite N.mod_small).
  destruct (opened_base view L p wl0 wl wl' HskL HfdL Hop) as [Hpq _].
  assert (qc_view (proposal_qc p) < view)%N as Hqc by (rewrite Hpq; apply HskL).
  unfold changed in Hch. rewrite decide_False in Hch by done. destruct Hch as (_ & Hmb & Hv & Hl & Hc).
  pose proof (op_payload _ _ _ _ _ _ _ Hop) as Hpp. rewrite (fd_client _ _ _ _ Hfd) in Hc. split.
  - constructor; rewrite ?(op_view _ _ _ _ _ _ _ Hop); try done.
    + destruct (after_qc_frame (proposal_qc p) (w_state w')) as (_ & _ & _ & _ & ->). rewrite Hv.
      rewrite (proj2 (N.eqb_neq _ _)) by lia. done.
    + lia.
    + right. rewrite Hc, Hpp. by apply (av_known _ _ _ Hav), Hsk.
  - rewrite Hc. split; [apply Hsk|]. rewrite Hpp. split; [done|apply Hsk].
Qed.

(** With the leader of the next view among them, the block at the front of its queue is under way. *)
Lemma view_opens view G L next s :
  NoDup G -> (two_thirds A < length G)%nat -> reachable s -> leader_of (u64_add view 1) L -> L ∈ G ->
  leader_of (u64_add (u64_add view 1) 1) next -> L <> next -> (view + 1 < u64_modulus)%N -> all_stuck view G s ->
  exists s' p, stepped G s s' /\ fresh_block (A := A) pending p L G s' /\ proposal_view p = u64_add view 1 /\
    block_hash (proposal_payload p) = h.
Proof.
  intros Hnd Hlen Hs HL HLin Hnext Hne Hroom Hall.
  destruct (view_changes view G L next s) as (s' & Hm & Hall'); try done. pose proof (stepped_reachable _ _ _ Hs Hm) as Hs'.
  destruct (Hall' L HLin) as (wL' & HidL & wL0 & wL & HskL & HkeyL & HfdL & HchL).
  unfold changed in HchL. rewrite decide_True in HchL by done. destruct HchL as [p Hop].
  pose proof (op_payload _ _ _ _ _ _ _ Hop) as Hpp.
  destruct (opened_base view L p wL0 wL wL' HskL HfdL Hop) as [Hpq Hbase].
  exists s', p. split_and!; [done| |by apply Hop|by rewrite Hpp]. constructor; rewrite ?Hpp; try done; try apply Hav.
  - constructor.
    + eapply reachable_sent; [exact Hs'|exact HidL|apply Hop].
    + apply Hop.
    + rewrite (op_view _ _ _ _ _ _ _ Hop), Hpq. unfold u64_add. rewrite N.mod_small by done.
      pose proof (sl_high _ _ _ (sk_stalled _ _ _ _ _ _ HskL)). lia.
    + exists wL'. split_and!; [done|apply Hop|]. destruct (op_vote _ _ _ _ _ _ _ Hop) as (v & Hv & Hg). exists v.
      split; [done|]. eapply reachable_sent; [exact Hs'|exact HidL|done].
    + intros id Hin HneL. destruct (Hall' id Hin) as (w' & Hid & Hct). exists w'. split; [done|].
      by eapply came_through_waiting.
  - intros w' Hw'. rewrite (idle_fun _ _ _ _ Hw' HidL). split; [by eapply opened_seen|by apply Hop].
  - intros id w1 Hin HneL Hw1. destruct (Hall' id Hin) as (w' & Hid & Hct). rewrite (idle_fun _ _ _ _ Hw1 Hid).
    by eapply came_through_waiting.
Qed.

(** Without any leader's help the view goes on. *)
Lemma view_passes view G L next s :
  NoDup G -> (two_thirds A < length G)%nat -> reachable s -> leader_of (u64_add view 1) L ->
  leader_of (u64_add (u64_add view 1) 1) next -> L <> next -> (view + 2 < u64_modulus)%N -> all_stuck view G s ->
  exists s', stepped G s s' /\ all_stuck (u64_add view 1) G s'.
Proof.
  intros Hnd Hlen Hs HL Hnext Hne Hroom Hall.
  destruct (view_changes view G L next s) as (s' & Hm & Hall'); try done; [lia|]. exists s'. split; [done|].
  intros id Hin. destruct (Hall' id Hin) as (w' & Hid & Hct). exists w'. split; [done|]. by eapply came_through_stuck.
Qed.

End view_change.
