(* ===== verification/Recovery.v ===== *)
(** * Recovery

    A quorum that got stuck finalizes a block, whoever leads the next views: among
    the leaders of a rotation there are three in a row from the quorum, and views
    with other leaders pass by timeouts. *)

From S2P Require Import Prelude Primitives Messages Concrete Quorum Aggregator Synchronizer State Network BlockImport Worker WorkerFacts Replica Handlers Rounds Safety Authentic System Agreement Progress Liveness ViewChange.
#[local] Open Scope hs_scope.

(** ** Three leaders in a row *)



Section rotation.
Context `{MessageCodecs} `{!ClientForHotstuff}.
Context {A : AuthorityList} (Hfit : authorities_fit A).
#[local] Abbreviation leader_of := (leader_of (A := A)).
#[local] Abbreviation place v := (N.to_nat (v mod N.of_nat (length A))).






End rotation.

(** ** Views that pass *)

Section recovery.
Context `{MessageCodecs} `{!ClientForHotstuff}.
Context `{!AuxStoreLaws} `{!CodecLaws Proposal} `{!CodecLaws ConsensusMessage} `{!KeystoreLaws} `{!ProposalDigests}.
Context {A : AuthorityList} {byz : list AuthorityId} {send_error : string} (Hfit : authorities_fit A).
Context (Hids : NoDup (ids A)) (Htwo : (2 <= length A)%nat) (Hsave : forall c q, (save_proposal c q).1 = Ok tt).
Context {pending : Client -> Prop} {h : Hash} {number : N} (Hav : available pending h number).
#[local] Abbreviation stepped := (stepped (send_error := send_error)).
#[local] Abbreviation all_stuck := (all_stuck (A := A) (pending := pending) (h := h) (number := number)).
Implicit Types (s : System) (G : list AuthorityId) (view : ViewNumber).






End recovery.

Section quorum_recovers.
Context `{MessageCodecs} `{!ClientForHotstuff}.
Context `{!AuxStoreLaws} `{!CodecLaws Proposal} `{!CodecLaws ConsensusMessage} `{!KeystoreLaws} `{!ProposalDigests}.



End quorum_recovers.

(** ** A network that gets stuck

    The four replicas of [calm] reach view 1 when their timers first fire, and
    replica 1, its leader, stays silent. *)


#[local] Instance BlockInfo_eq_dec : EqDecision BlockInfo.
Proof. solve_decision. Defined.






