(* ===== verification/Startup.v ===== *)
(** * Startup

    How a node is put together: the authority set of [consensus/src/authorities.rs],
    its loading in [aux_schema.rs] and [client.rs], and [start_hotstuff] of
    [consensus/src/consensus.rs] with the authorities it reads from the genesis
    runtime. *)

From S2P Require Import Prelude Primitives Messages Concrete Quorum Aggregator Synchronizer State Network BlockImport Worker WorkerFacts Replica.
#[local] Open Scope hs_scope.

(** The calls to the client used at the start only: the hash of a block by
    number, and a call of the runtime API, whose answer is decoded;
    [call_result_decode] makes the client error of a decoding error. *)
Class RuntimeApi `{Crypto} `{!ClientForHotstuff} := {
  expect_block_hash_from_id : Client -> N -> result string Hash;
  executor_call : Client -> Hash -> string -> result string bytes;
  call_result_decode : string -> string;
  authorities_codec :: Codec (list AuthorityId);
}.

(** The environment of the process: the variable [HOTSTUFF_DURATION], and
    [tokio::time::interval] on milliseconds, where [None] is its panic. *)
Class Environment := {
  HOTSTUFF_DURATION : option string;
  interval : N -> option unit;
}.

(** ** The timer *)

(** [str::parse::<u64>]: decimal digits, after an optional plus, of a value that
    fits. *)
Fixpoint parse_digits (acc : N) (s : string) : option N :=
  match s with
  | EmptyString => Some acc
  | String a rest =>
      let code := Ascii.N_of_ascii a in
      if (48 <=? code)%N && (code <=? 57)%N then
        let acc := (acc * 10 + (code - 48))%N in
        if (acc <? u64_modulus)%N then parse_digits acc rest else None
      else None
  end.

Definition parse_u64 (s : string) : option N :=
  match s with
  | EmptyString => None
  | String a rest =>
      if (Ascii.N_of_ascii a =? 43)%N
      then match rest with EmptyString => None | _ => parse_digits 0 rest end
      else parse_digits 0 s
  end.

(** The timer duration of [start_hotstuff]. *)
Definition local_timer_duration `{Environment} : N :=
  match HOTSTUFF_DURATION with
  | Some value => match parse_u64 value with Some duration => duration | None => 3000 end
  | None => 3000
  end%N.

(** [Timer::new] *)
Definition Timer_new `{Environment} (duration : N) : option unit := interval duration.

(** [sc_consensus::shared_data::SharedData]: a value behind a lock, made and read;
    the code never changes it. *)
Class SharedDatas := {
  SharedData : Type -> Type;
  SharedData_new : forall {T}, T -> SharedData T;
  shared_data : forall {T}, SharedData T -> T;
}.

Class SharedDataLaws `{SharedDatas} : Prop := {
  shared_data_new : forall T (x : T), shared_data (SharedData_new x) = x;
}.

Section authority_set.
Context `{Crypto} `{!SharedDatas}.

(** [struct AuthoritySetChanges] and [AuthoritySet] *)
Abbreviation AuthoritySetChanges := (list (N * N)).

Record AuthoritySet := mkAuthoritySet {
  current_authorities : AuthorityList;
  authority_set_changes : AuthoritySetChanges;
}.

(** [AuthoritySet::invalid_authority_list] *)
Definition invalid_authority_list (authorities : AuthorityList) : bool :=
  match authorities with [] => true | _ => existsb (fun p => (p.2 =? 0)%N) authorities end.

(** [AuthoritySet::genesis] *)
Definition AuthoritySet_genesis (initial : AuthorityList) : option AuthoritySet :=
  if invalid_authority_list initial then None else Some (mkAuthoritySet initial []).

(** [AuthoritySet::new] *)
Definition AuthoritySet_new (authorities : AuthorityList) (changes : AuthoritySetChanges) : option AuthoritySet :=
  if invalid_authority_list authorities then None else Some (mkAuthoritySet authorities changes).

(** [struct SharedAuthoritySet], made [From] a set; [inner] and
    [authority_set_changes] read it. *)
Record SharedAuthoritySet := mkSharedAuthoritySet { shared_set : SharedData AuthoritySet }.

Definition SharedAuthoritySet_from (set : AuthoritySet) : SharedAuthoritySet :=
  mkSharedAuthoritySet (SharedData_new set).
Definition SharedAuthoritySet_inner (self : SharedAuthoritySet) : AuthoritySet := shared_data (shared_set self).
Definition SharedAuthoritySet_changes (self : SharedAuthoritySet) : AuthoritySetChanges :=
  authority_set_changes (SharedAuthoritySet_inner self).

(** [struct PersistentData] *)
Record PersistentData := mkPersistentData { authority_set : SharedAuthoritySet }.

(** [load_persistent]; [None] is the panic of [expect]. *)
Definition load_persistent (genesis_authorities : result string AuthorityList)
    : option (result string PersistentData) :=
  match genesis_authorities with
  | Err e => Some (Err e)
  | Ok authorities =>
      set ← AuthoritySet_genesis authorities; Some (Ok (mkPersistentData (SharedAuthoritySet_from set)))
  end.

End authority_set.

Section startup.
Context `{MessageCodecs} `{!ClientForHotstuff} `{!RuntimeApi} `{!Environment} `{!SharedDatas} `{!SharedDataLaws}.

(** [GenesisAuthoritySetProvider::get] *)
Definition genesis_authorities_get (c : Client) : result string (list AuthorityId) :=
  let? h := expect_block_hash_from_id c 0 in
  let? call_result := executor_call c h "HotstuffApi_authorities" in
  map_err call_result_decode (decode call_result).

(** [struct LinkHalf] and [shared_authority_set] *)
Record LinkHalf := mkLinkHalf {
  link_client : Client;
  select_chain : option unit;
  persistent_data : PersistentData;
}.

Definition shared_authority_set (self : LinkHalf) : SharedAuthoritySet := authority_set (persistent_data self).

(** [block_import]; [None] is a panic. *)
Definition block_import (c : Client) : option (result string (HotstuffBlockImport * LinkHalf)) :=
  let genesis := let? authorities := genesis_authorities_get c in Ok ((fun p => (p, 1%N)) <$> authorities) in
  r ← load_persistent genesis;
  Some (let? data := r in Ok (HotstuffBlockImport_new c, mkLinkHalf c None data)).

(** [get_genesis_authorities_from_client]; [None] is a panic. *)
Definition get_genesis_authorities_from_client (c : Client) : option AuthorityList :=
  match expect_block_hash_from_id c 0 with
  | Err _ => None
  | Ok h =>
      match executor_call c h "HotstuffApi_authorities" with
      | Err _ => None
      | Ok data =>
          match decode data : result string (list AuthorityId) with
          | Err _ => None
          | Ok authorities => Some ((fun id => (id, 0%N)) <$> authorities)
          end
      end
  end.

(** [start_hotstuff]: the worker it makes, which shares the queue with the
    network task; [None] is a panic. *)
Definition start_hotstuff (c : Client) (keystore : Keystore) : option Worker :=
  match get_genesis_authorities_from_client c with
  | None => None
  | Some authorities =>
      match PendingFinalizeBlockQueue_new c, Timer_new local_timer_duration with
      | Some (Ok queue), Some _ =>
          Some (ConsensusWorker_new (ConsensusState_new keystore authorities) c GossipValidator_new queue)
      | _, _ => None
      end
  end.

(** [ConsensusNetwork::poll]: hand over the messages at hand, then let the queue
    task look at the client's notifications; [None] is a panic of the latter. The
    gossip engine, polled last, is of another crate. *)
Definition ConsensusNetwork_poll (send_error : string) (channel : list ConsensusMessage) (queue : SharedQueue)
    (notifications : list bytes) (imports : list ImportNotification) (finalities : list FinalityNotification)
    : option (list ConsensusMessage * SharedQueue) :=
  let channel := poll_messages send_error channel notifications in
  match poll_queue queue imports finalities with
  | Some queue => Some (channel, queue)
  | None => None
  end.

(** The authorities of the two ways to read them. *)
Lemma genesis_lists c l :
  genesis_authorities_get c = Ok l <->
  get_genesis_authorities_from_client c = Some ((fun id => (id, 0%N)) <$> l).
Proof.
  unfold genesis_authorities_get, get_genesis_authorities_from_client.
  destruct (expect_block_hash_from_id c 0) as [h|e]; cbn; [|done].
  destruct (executor_call c h _) as [data|e]; cbn; [|done].
  destruct (decode data) as [l'|e]; cbn; [|done]. split; [by intros [= ->]|]. intros [= Heq].
  f_equal. apply (f_equal (fmap fst)) in Heq. rewrite <- !list_fmap_compose in Heq.
  by rewrite !list_fmap_id in Heq.
Qed.

Lemma genesis_set_weight_1 (l : list AuthorityId) :
  AuthoritySet_genesis ((fun p => (p, 1%N)) <$> l) =
  match l with [] => None | _ => Some (mkAuthoritySet ((fun p => (p, 1%N)) <$> l) []) end.
Proof.
  unfold AuthoritySet_genesis. destruct l as [|x l]; [done|]. unfold invalid_authority_list.
  cbn [fmap list_fmap existsb snd]. assert (existsb (fun p => (p.2 =? 0)%N) ((fun p => (p, 1%N)) <$> l) = false) as Hf.
  { induction l as [|y l IH]; [done|]. by cbn. }
  cbn. by rewrite Hf.
Qed.

(** The two parts of a node read the same authorities from the genesis
    runtime in the same order but give them different weights: the block import
    1 and the consensus 0, which the authority set itself would refuse. With no
    authority the block import panics. *)
Theorem startup_authorities_agree (c : Client) (l : list AuthorityId) :
  genesis_authorities_get c = Ok l ->
  exists consensus, get_genesis_authorities_from_client c = Some consensus /\
    ids consensus = l /\ AuthoritySet_genesis consensus = None /\
    (l = [] -> block_import c = None) /\
    (l <> [] -> exists import link, block_import c = Some (Ok (import, link)) /\ import_inner import = c /\ link_client link = c /\
       ids (current_authorities (SharedAuthoritySet_inner (shared_authority_set link))) = l /\
       SharedAuthoritySet_changes (shared_authority_set link) = []).
Proof.
  intros Hget. eexists. split; [by apply genesis_lists|]. split_and!.
  - unfold ids. rewrite <- list_fmap_compose. apply list_fmap_id.
  - unfold AuthoritySet_genesis. by destruct l.
  - intros ->. unfold block_import. by rewrite Hget.
  - intros Hne. unfold block_import, load_persistent. rewrite Hget. cbn [result_bind].
    rewrite genesis_set_weight_1. destruct l as [|x l]; [done|]. eexists _, _. split_and!; [done..| |];
      unfold SharedAuthoritySet_changes, SharedAuthoritySet_inner; cbn; rewrite shared_data_new; [|done].
    unfold ids. cbn. f_equal. rewrite <- list_fmap_compose. apply list_fmap_id.
Qed.

(** The timer runs for the duration of the environment when that is a number and
    for three seconds otherwise; a duration of 0, which [interval] refuses, takes
    the node down at its start. *)
Lemma timer_duration_zero (c : Client) (ks : Keystore) :
  interval 0 = None -> HOTSTUFF_DURATION = Some "0"%string -> start_hotstuff c ks = None.
Proof.
  intros Hi He. assert (local_timer_duration = 0%N) as Hd by (unfold local_timer_duration; by rewrite He).
  unfold start_hotstuff, Timer_new. rewrite Hd, Hi. by repeat case_match.
Qed.

(** The worker that [start_hotstuff] makes satisfies the invariant of
    replicas, at view 0 with nothing voted and no effect; but with no block to
    propose, whatever unfinalized blocks the client holds, until it is told of a
    new one. *)
Theorem start_hotstuff_ok (c : Client) (ks : Keystore) (w : Worker) (A : AuthorityList) :
  start_hotstuff c ks = Some w -> get_genesis_authorities_from_client c = Some A -> store_ok A ks c ->
  worker_ok A ks w /\ cs_view (w_state w) = 0%N /\ cs_last_voted_view (w_state w) = 0%N /\ w_effects w = [] /\
  get_proposal_payload w = (None, w).
Proof.
  unfold start_hotstuff. intros Hs HA Hst. rewrite HA in Hs. unfold PendingFinalizeBlockQueue_new in Hs.
  destruct (unfinalized_blocks _ _ _ _) as [[q|e]|]; simplify_eq/=.
  destruct (Timer_new _); simplify_eq/=. split_and!; try done.
  by apply worker_ok_new.
Qed.

End startup.

(** ** Witnesses *)

(** The runtime of the sample client has the four authorities. *)
#[export] Instance sample_runtime : RuntimeApi := {|
  expect_block_hash_from_id c n := Ok [];
  executor_call c h f := Ok (@penc _ (pcodec_list pcodec_N) (ids four));
  call_result_decode e := e;
  authorities_codec := codec_of (pcodec_list pcodec_N);
|}.

#[export] Instance sample_shared : SharedDatas := {|
  SharedData T := T;
  SharedData_new T x := x;
  shared_data T x := x;
|}.

#[export] Instance sample_shared_laws : SharedDataLaws.
Proof. by constructor. Qed.

#[export] Instance sample_environment : Environment := {|
  HOTSTUFF_DURATION := Some "2500"%string;
  interval duration := if (duration =? 0)%N then None else Some tt;
|}.

Definition four_0 : AuthorityList := [(0, 0); (1, 0); (2, 0); (3, 0)]%N.

Lemma startup_authorities_agree_witness :
  exists consensus, get_genesis_authorities_from_client (sample_client []) = Some consensus /\
    ids consensus = ids four /\ AuthoritySet_genesis consensus = None /\
    (ids four = [] -> block_import (sample_client []) = None) /\
    (ids four <> [] -> exists import link, block_import (sample_client []) = Some (Ok (import, link)) /\
       import_inner import = sample_client [] /\ link_client link = sample_client [] /\
       ids (current_authorities (SharedAuthoritySet_inner (shared_authority_set link))) = ids four /\
       SharedAuthoritySet_changes (shared_authority_set link) = []).
Proof. apply (startup_authorities_agree (sample_client []) (ids four)). vm_refl. Defined.

Definition key_2 : Keystore := [2%N].

Lemma start_hotstuff_ok_witness :
  let w := ConsensusWorker_new (ConsensusState_new key_2 four_0) (sample_client []) GossipValidator_new
             (mkSharedQueue false []) in
  worker_ok four_0 key_2 w /\ cs_view (w_state w) = 0%N /\ cs_last_voted_view (w_state w) = 0%N /\
  w_effects w = [] /\ get_proposal_payload w = (None, w).
Proof.
  intros w. apply (start_hotstuff_ok (sample_client []) key_2 w four_0); [vm_refl|vm_refl|apply sample_store_ok].
Defined.
