(* ===== verification/Restart.v ===== *)
(** * Restart

    What a replica forgets when its process is started again. [start_hotstuff]
    makes a new consensus state, at view 0 with nothing voted, over the client of
    the node; neither the view nor the last vote is stored. So the agreement on
    certificates of [Agreement] is about replicas that keep running: with
    restarts, replicas none of which is faulty certify two proposals of a view. *)

From S2P Require Import Prelude Primitives Messages Concrete Quorum Aggregator Synchronizer State Network BlockImport Worker WorkerFacts Replica Handlers Safety Authentic System Agreement Startup.
#[local] Open Scope hs_scope.

Section restart.
Context `{MessageCodecs} `{!ClientForHotstuff} `{!RuntimeApi} `{!Environment}.

(** The network as its nodes come up: each worker is the one of [start_hotstuff]
    with the key of its authority, over a client without stored proposals. *)
Record boots (A : AuthorityList) (s : System) : Prop := {
  boots_sent : sys_sent s = [];
  boots_node : forall id n, sys_nodes s !! id = Some n -> node_channel n = [] /\
    exists ks client, start_hotstuff client ks = Some (node_worker n) /\
      get_genesis_authorities_from_client client = Some A /\ local_authority_id (identity A ks) = Some id /\
      forall h data, client_get_aux client (hash_as_ref h) <> Ok (Some data);
}.

(** A process that is started again: its worker is made anew from the client, and
    what waited in its channel is gone. *)
Definition restarted (s : System) (id : AuthorityId) : option System :=
  n ← sys_nodes s !! id;
  w ← start_hotstuff (w_client (node_worker n)) (cs_keystore (w_state (node_worker n)));
  Some (set_node id (mkNode w []) s).

(** The steps of replicas that are not faulty but may be restarted. *)
Inductive restart_step (send_error : string) : System -> System -> Prop :=
| restart_run s s' : sys_step [] send_error s s' -> restart_step send_error s s'
| restart_again id s s' : restarted s id = Some s' -> restart_step send_error s s'.

(** The same as actions, with the queue task filling the queue of a replica. *)
Inductive RestartAction : Type :=
| Acts (l : list Action)
| Enqueue (id : AuthorityId) (blocks : list BlockInfo)
| Again (id : AuthorityId).

Definition restart_act (send_error : string) (s : System) (a : RestartAction) : option System :=
  match a with
  | Acts l => acts send_error s l
  | Enqueue id blocks =>
      n ← sys_nodes s !! id;
      Some (set_node id (mkNode (set_w_queue (mkSharedQueue false blocks) (set_w_client (w_client (node_worker n))
        (node_worker n))) (node_channel n)) s)
  | Again id => restarted s id
  end.

Fixpoint restart_acts (send_error : string) (s : System) (l : list RestartAction) : option System :=
  match l with
  | [] => Some s
  | a :: l => match restart_act send_error s a with Some s' => restart_acts send_error s' l | None => None end
  end.

(** What a started worker is. *)
Lemma start_hotstuff_new c ks w A :
  start_hotstuff c ks = Some w -> get_genesis_authorities_from_client c = Some A ->
  exists queue, w = ConsensusWorker_new (ConsensusState_new ks A) c GossipValidator_new queue.
Proof.
  unfold start_hotstuff. intros Hs HA. rewrite HA in Hs.
  destruct (PendingFinalizeBlockQueue_new c) as [[q|e]|]; try done.
  destruct (Timer_new _); try done. injection Hs as <-. by exists q.
Qed.

(** The start the theorems on the network assume is the one of the nodes. *)
Lemma boots_initial A s : boots A s -> initial A s.
Proof.
  intros [Hs Hn]. constructor; [done|]. intros id n Hid. destruct (Hn id n Hid) as (Hc & ks & c & Hst & HA & Hl & Hg).
  split; [done|]. destruct (start_hotstuff_new c ks _ A Hst HA) as [queue Hw]. by exists ks, c, queue.
Qed.

Lemma restart_act_reach e s a s' : restart_act e s a = Some s' -> rtc (restart_step e) s s'.
Proof.
  destruct a as [l|id blocks|id]; cbn [restart_act].
  - intros Ha. eapply rtc_subrel; [|by eapply (acts_reach [])]. intros x y. by apply restart_run.
  - intros (n & Hn & [= <-])%bind_Some. apply rtc_once, restart_run. by eapply sys_environment.
  - intros Ha. by apply rtc_once, (restart_again _ id).
Qed.

Lemma restart_acts_reach e s l s' : restart_acts e s l = Some s' -> rtc (restart_step e) s s'.
Proof.
  revert s. induction l as [|a l IH]; intros s; cbn [restart_acts]; [by intros [= <-]|].
  destruct (restart_act e s a) as [s1|] eqn:Ha; [|done]. intros Hl.
  etrans; [by eapply restart_act_reach|by apply IH].
Qed.

End restart.

(** ** A run with restarts

    Four replicas, whose clients know two blocks, the second on top of the first.
    They come to view 2, whose leader proposes the first block, and a certificate
    for that proposal goes out with the proposal of view 3. Then the replicas 0, 2
    and 3 are restarted and told of the second block. They come to view 2 again;
    its leader proposes the second block, and the certificate for that proposal
    goes out as well. *)

Definition two_blocks : Client := sample_client [(block1, 1%N); (block2, 2%N)].

Definition key_of (id : N) : Keystore := [id].

Definition boot_node (id : N) : list (N * Node) :=
  match start_hotstuff two_blocks (key_of id) with Some w => [(id, mkNode w [])] | None => [] end.

Definition booted : System := mkSystem (list_to_map (List.flat_map boot_node [0; 1; 2; 3]%N)) [].

Definition first_block : list BlockInfo := [mkBlockInfo (Some block1) 1].
Definition second_block : list BlockInfo := [mkBlockInfo (Some block2) 2].

Definition all_ids : list AuthorityId := [0; 1; 2; 3]%N.
Definition restarting : list AuthorityId := [0; 2; 3]%N.

Definition restart_run_twice : list RestartAction :=
  List.map (fun id => Enqueue id first_block) all_ids ++
  [Acts (fires [0; 1; 2; 3; 0; 1; 2]%N ++
    receives [(0%N, 5); (0%N, 6); (1%N, 4); (1%N, 6); (2%N, 4); (2%N, 5); (3%N, 4); (3%N, 5); (3%N, 6)] ++
    receives [(0%N, 10); (3%N, 10); (3%N, 11); (3%N, 13)])] ++
  List.map Again restarting ++ List.map (fun id => Enqueue id second_block) restarting ++
  [Acts (fires [0; 2; 3; 0; 2; 3]%N ++
    receives [(0%N, 20); (0%N, 21); (2%N, 19); (2%N, 21); (3%N, 19); (3%N, 20)] ++
    receives [(0%N, 24); (3%N, 24); (3%N, 25); (3%N, 27)])].

Lemma booted_boots : boots four_0 booted.
Proof.
  constructor; [done|]. intros id n Hn. apply elem_of_list_to_map_2, list_elem_of_In, in_flat_map in Hn as (i & Hi & Hin).
  split.
  - unfold boot_node in Hin. destruct (start_hotstuff _ _); [|done]. by destruct Hin as [[= <- <-]|[]].
  - exists (key_of i), two_blocks. unfold boot_node in Hin. destruct (start_hotstuff two_blocks (key_of i)) as [w|] eqn:Hs; [|done].
    destruct Hin as [[= <- <-]|[]]. split_and!; [done|vm_refl| |].
    + by destruct Hi as [<-|[<-|[<-|[<-|[]]]]]; vm_refl.
    + intros h data Hg. change (@Ok string _ ((∅ : gmap bytes bytes) !! h) = Ok (Some data)) in Hg.
      by rewrite lookup_empty in Hg.
Qed.

(** Four proposals went out; the second and the last carry verifying certificates
    of view 2 for different proposals. *)
Definition twice_check (s : System) : bool :=
  match proposals_sent s with
  | [_; p; _; p'] =>
      (qc_view (proposal_qc p) =? 2)%N && (qc_view (proposal_qc p') =? 2)%N &&
      bool_decide (QC_verify (proposal_qc p) four_0 = Ok tt) && bool_decide (QC_verify (proposal_qc p') four_0 = Ok tt) &&
      bool_decide (qc_proposal_hash (proposal_qc p) <> qc_proposal_hash (proposal_qc p'))
  | _ => false
  end.

Lemma twice_ends :
  match restart_acts "full" booted restart_run_twice with Some s => twice_check s | None => false end = true.
Proof. vm_refl. Qed.

(** What two certificates show when a view was certified twice. *)
Definition certified_twice (A : AuthorityList) (s : System) : Prop :=
  exists q q', certificate_in s q /\ certificate_in s q' /\ QC_verify q A = Ok tt /\ QC_verify q' A = Ok tt /\
    qc_view q = qc_view q' /\ qc_proposal_hash q <> qc_proposal_hash q'.

(** C19: A restart makes a replica vote again in the views it voted in before,
    since neither the view nor the last vote is stored. There are nodes, as
    [start_hotstuff] makes them, which without faulty replicas never certify two
    proposals of a view as long as they keep running; but three restarts among
    them lead to a state in which two verifying certificates of a view are for
    different proposals. *)
Theorem restart_certifies_twice :
  exists s, boots four_0 s /\
    (forall s', rtc (sys_step [] "full") s s' -> ~ certified_twice four_0 s') /\
    (exists s', rtc (restart_step "full") s s' /\ certified_twice four_0 s').
Proof.
  exists booted. split_and!; [apply booted_boots| |].
  - intros s' Hr (q & q' & Hq & Hq' & Hv & Hv' & Hview & Hne). apply Hne.
    assert (system_ok four_0 [] s') as Hs.
    { apply (reachable_ok (send_error := "full")); [vm_refl|]. exists booted. split; [|done]. apply boots_initial, booted_boots. }
    apply (certificate_in_auth four_0 [] s') in Hq, Hq'; [|done..].
    apply (certificates_agree (A := four_0) (byz := []) ltac:(vm_decide) s' q q'); try done;
      apply (insiders_quorum (byz := []) s'); try done; vm_decide.
  - pose proof twice_ends as He. destruct (restart_acts "full" booted restart_run_twice) as [s'|] eqn:Hr; [|done].
    apply (restart_acts_reach) in Hr. exists s'. split; [done|]. unfold twice_check in He.
    destruct (proposals_sent s') as [|p1 [|p [|p2 [|p' []]]]] eqn:Hp; try done. rewrite !andb_true_iff in He.
    destruct He as ((((Ha%N.eqb_eq & Hb%N.eqb_eq) & Hv%bool_decide_eq_true) & Hv'%bool_decide_eq_true) & Hne%bool_decide_eq_true).
    exists (proposal_qc p), (proposal_qc p').
    split_and!; [| |done|done|congruence|done]; apply proposals_sent_in; rewrite Hp; set_solver.
Qed.
