(* ===== verification/Tasks.v ===== *)
(** * Tasks

    A node as the two tasks that [start_hotstuff] of [consensus/src/consensus.rs]
    returns: the worker, and [ConsensusNetwork], which takes the messages of the
    gossip engine to the worker's channel, runs the queue of blocks and drives the
    engine. The tasks share the channel, the queue and the gossip validator, and
    take turns in any order. The nodes implement the replicas of [System]. *)

From S2P Require Import Prelude Primitives Messages Concrete Quorum Aggregator Synchronizer State Network BlockImport Worker WorkerFacts Replica Handlers Safety Authentic System Agreement Startup Restart.
#[local] Open Scope hs_scope.

Section tasks.
Context `{MessageCodecs} `{!ClientForHotstuff} `{!RuntimeApi} `{!Environment} `{!GossipEngines}.

(** [struct ConsensusNetwork]: the bridge and the stream of the topic. The channel
    and the queue are the ones of the node. *)
Record ConsensusNetwork := mkConsensusNetwork {
  cn_network : HotstuffNetworkBridge;
  cn_message_recv : list bytes;
}.

(** [ConsensusNetwork::new] *)
Definition ConsensusNetwork_new (network : HotstuffNetworkBridge) : ConsensusNetwork :=
  mkConsensusNetwork network (messages_for gossip_topic (bridge_engine network)).

(** A node: its two tasks and the channel. The queue both tasks hold is that of the
    worker, [w_queue]. *)
Record Process := mkProcess {
  pr_worker : Worker;
  pr_network : ConsensusNetwork;
  pr_channel : list ConsensusMessage;
}.

(** [start_hotstuff], with both tasks; [None] is a panic. *)
Definition start_tasks (protocol_name : string) (c : Client) (keystore : Keystore) : option Process :=
  match get_genesis_authorities_from_client c with
  | None => None
  | Some authorities =>
      let network := HotstuffNetworkBridge_new protocol_name in
      match PendingFinalizeBlockQueue_new c, Timer_new local_timer_duration with
      | Some (Ok queue), Some _ =>
          Some (mkProcess (ConsensusWorker_new (ConsensusState_new keystore authorities) c (gossip_validator network) queue)
            (ConsensusNetwork_new network) [])
      | _, _ => None
      end
  end.

(** A turn of the network task: the messages that wait in the stream, the queue,
    the bridge; [None] is a panic. *)
Definition poll_network (send_error : string) (p : Process) (imports : list ImportNotification)
    (finalities : list FinalityNotification) : option Process :=
  match ConsensusNetwork_poll send_error (pr_channel p) (w_queue (pr_worker p)) (cn_message_recv (pr_network p))
          imports finalities with
  | Some (channel, queue) =>
      Some (mkProcess (set_w_queue queue (pr_worker p))
        (mkConsensusNetwork (bridge_poll (cn_network (pr_network p))).2 []) channel)
  | None => None
  end.

(** A turn of the worker: the view it sets is that of the shared validator. *)
Definition worker_turn (p : Process) (w' : Worker) (rest : list ConsensusMessage) : Process :=
  mkProcess w' (mkConsensusNetwork (bridge_set_view (get_view (w_network w')) (cn_network (pr_network p)))
    (cn_message_recv (pr_network p))) rest.

(** The validator the gossip engine of a node asks. *)
Definition process_validator (p : Process) : GossipValidator :=
  engine_validator (bridge_engine (cn_network (pr_network p))).

(** The nodes that are not faulty, and all data sent. *)
Record Processes := mkProcesses { ps_nodes : gmap AuthorityId Process; ps_sent : list bytes }.

Definition set_process (id : AuthorityId) (p : Process) (data : list bytes) (s : Processes) : Processes :=
  mkProcesses (<[id := p]> (ps_nodes s)) (ps_sent s ++ data).

(** The network of replicas the nodes stand for. *)
Definition node_of (p : Process) : Node := mkNode (pr_worker p) (pr_channel p).
Definition system_of (s : Processes) : System := mkSystem (node_of <$> ps_nodes s) (ps_sent s).

Variables (A : AuthorityList) (byz : list AuthorityId) (send_error : string).

(** The nodes come up, each with the key of its authority, over clients without
    stored proposals. *)
Record tasks_start (s : Processes) : Prop := {
  ts_sent : ps_sent s = [];
  ts_node : forall id p, ps_nodes s !! id = Some p -> exists protocol_name client ks,
    start_tasks protocol_name client ks = Some p /\
    get_genesis_authorities_from_client client = Some A /\ local_authority_id (identity A ks) = Some id /\
    forall h data, client_get_aux client (hash_as_ref h) <> Ok (Some data);
}.

(** The gossip engine hands data that its validator keeps to the stream of the
    topic; the network task or the worker takes a turn, the latter with a message
    or with its timer; the client of a node imports blocks; the adversary sends what
    forges no signature of another key than its own. *)
Inductive task_step : Processes -> Processes -> Prop :=
| task_gossip id p data s :
    ps_nodes s !! id = Some p -> data ∈ ps_sent s -> validate (process_validator p) data = ProcessAndKeep gossip_topic ->
    task_step s (set_process id (mkProcess (pr_worker p)
      (mkConsensusNetwork (cn_network (pr_network p)) (cn_message_recv (pr_network p) ++ [data])) (pr_channel p)) [] s)
| task_poll id p p' imports finalities s :
    ps_nodes s !! id = Some p -> poll_network send_error p imports finalities = Some p' ->
    task_step s (set_process id p' [] s)
| task_message id p m rest w' s :
    ps_nodes s !! id = Some p -> pr_channel p = m :: rest ->
    run_event event_fuel (pr_worker p) (Message m) = Some w' ->
    task_step s (set_process id (worker_turn p w' rest) (gossiped (new_effects (pr_worker p) w')) s)
| task_timer id p w' s :
    ps_nodes s !! id = Some p -> run_event event_fuel (pr_worker p) LocalTimer = Some w' ->
    task_step s (set_process id (worker_turn p w' (pr_channel p)) (gossiped (new_effects (pr_worker p) w')) s)
| task_client id p client s :
    ps_nodes s !! id = Some p ->
    (forall k, client_get_aux client k = client_get_aux (w_client (pr_worker p)) k) ->
    task_step s (set_process id (mkProcess (set_w_client client (pr_worker p)) (pr_network p) (pr_channel p)) [] s)
| task_faulty data s :
    byz <> [] ->
    (forall m, decode data = Ok m -> message_auth byz (sys_votes (system_of s)) m) ->
    task_step s (mkProcesses (ps_nodes s) (ps_sent s ++ [data])).

(** What a node keeps: the engine asks the validator at the worker's view, what
    waits in the stream was sent, the queue is not poisoned and has its hashes. *)
Record process_ok (sent : list bytes) (p : Process) : Prop := {
  po_validator : process_validator p = w_network (pr_worker p);
  po_stream : Forall (.∈ sent) (cn_message_recv (pr_network p));
  po_queue : queue_ok (w_queue (pr_worker p));
}.

End tasks.

(** ** The nodes implement the network *)

Section refinement.
Context `{MessageCodecs} `{!ClientForHotstuff} `{!RuntimeApi} `{!Environment} `{!GossipEngines} `{!GossipEngineLaws}.
Context `{!AuxStoreLaws} `{!CodecLaws Proposal} `{!CodecLaws ConsensusMessage} `{!KeystoreLaws}.
Context {A : AuthorityList} {byz : list AuthorityId} {send_error : string} (Hfit : authorities_fit A).
#[local] Abbreviation sys_step := (sys_step byz send_error).
#[local] Abbreviation task_step := (task_step byz send_error).
Implicit Types (s : Processes) (p : Process).

Lemma start_tasks_new name c ks p :
  start_tasks name c ks = Some p -> start_hotstuff c ks = Some (pr_worker p) /\ pr_channel p = [] /\ process_ok [] p.
Proof.
  unfold start_tasks, start_hotstuff. destruct (get_genesis_authorities_from_client c) as [l|]; [|done].
  unfold PendingFinalizeBlockQueue_new. destruct (unfinalized_blocks _ _ _ _) as [[q|e]|]; try done.
  destruct (Timer_new _); [|done]. intros [= <-]. split_and!; [done..|]. constructor; cbn.
  - apply engine_validator_new.
  - by rewrite messages_for_new.
  - by split.
Qed.

Lemma tasks_start_initial s : tasks_start A s -> initial A (system_of s).
Proof.
  intros [Hs Hn]. apply boots_initial. constructor; [done|]. intros id n Hid. cbn in Hid.
  apply lookup_fmap_Some in Hid as (p & <- & Hp).
  destruct (Hn id p Hp) as (name & c & ks & Hst & HA & Hl & Hg). apply start_tasks_new in Hst as (Hst & Hc & _).
  split; [done|]. by exists ks, c.
Qed.

(** Data that was sent, handed to the channel one after the other. *)
Lemma stream_arrives (s : System) id w channel data :
  sys_nodes s !! id = Some (mkNode w channel) -> Forall (.∈ sys_sent s) data ->
  rtc sys_step s (set_node id (mkNode w (poll_messages send_error channel data)) s).
Proof.
  intros Hn Hsent. revert s channel Hn Hsent. induction data as [|d data IH]; intros s channel Hn Hsent.
  - cbn. unfold set_node. rewrite insert_id by done. by destruct s.
  - apply Forall_cons in Hsent as [Hd Hsent]. set (s1 := set_node id (mkNode w (poll_messages send_error channel [d])) s).
    econstructor; [by apply (sys_arrive byz send_error id (mkNode w channel) d)|]. fold s1.
    specialize (IH s1 (poll_messages send_error channel [d])). unfold s1, set_node in IH |- *. cbn in IH |- *.
    rewrite insert_insert_eq in IH. apply IH; [apply lookup_insert_eq|done].
Qed.

Lemma system_of_set id p data s :
  system_of (set_process id p data s) = send data (set_node id (node_of p) (system_of s)).
Proof. unfold system_of, set_process, send, set_node. cbn. by rewrite fmap_insert. Qed.

Lemma system_of_node s id p : ps_nodes s !! id = Some p -> sys_nodes (system_of s) !! id = Some (node_of p).
Proof. intros Hp. cbn. by rewrite lookup_fmap, Hp. Qed.

Lemma send_nil (s : System) : send [] s = s.
Proof. destruct s. unfold send. cbn. by rewrite app_nil_r. Qed.

(** The network task never panics. *)
Lemma poll_network_ok sent p imports finalities :
  process_ok sent p -> exists p' channel queue, poll_network send_error p imports finalities = Some p' /\ process_ok sent p' /\
    channel = poll_messages send_error (pr_channel p) (cn_message_recv (pr_network p)) /\
    node_of p' = mkNode (set_w_queue queue (pr_worker p)) channel.
Proof.
  intros [Hv Hs Hq]. unfold poll_network, ConsensusNetwork_poll.
  destruct (poll_queue (w_queue (pr_worker p)) imports finalities) as [q|] eqn:Hpoll.
  - eexists _, _, q. split_and!; [done| |done|done]. constructor; cbn; [|done|].
    + unfold process_validator in *. cbn. unfold bridge_poll.
      pose proof (engine_validator_poll (bridge_engine (cn_network (pr_network p)))) as He.
      destruct (engine_poll _) as [ready e]. cbn in *. congruence.
    + destruct (poll_queue_ok _ imports finalities Hq) as (q' & Hpoll' & Hq'). congruence.
  - destruct (poll_queue_ok _ imports finalities Hq) as (q' & Hpoll' & Hq'). congruence.
Qed.

Lemma worker_turn_ok sent sent' ks p w' rest event :
  process_ok sent p -> worker_ok A ks (pr_worker p) -> run_event event_fuel (pr_worker p) event = Some w' ->
  sent ⊆ sent' -> process_ok sent' (worker_turn p w' rest).
Proof.
  intros [Hv Hs Hq] Hok Hrun Hsub. destruct (run_event_reached A ks Hfit _ _ _ Hok Hrun) as [Hsince _]. constructor; cbn.
  - unfold process_validator. cbn. rewrite engine_validator_set. by destruct (w_network w').
  - eapply Forall_impl; [exact Hs|]. intros d Hd. by apply Hsub.
  - by rewrite (since_queue _ _ _ _ _ Hsince).
Qed.

(** One step of the nodes. *)
Lemma task_step_ok s s' :
  task_step s s' -> system_ok A byz (system_of s) -> (forall id p, ps_nodes s !! id = Some p -> process_ok (ps_sent s) p) ->
  rtc sys_step (system_of s) (system_of s') /\ (forall id p, ps_nodes s' !! id = Some p -> process_ok (ps_sent s') p).
Proof.
  intros Hstep Hs Hok.
  assert (forall id p data, process_ok (ps_sent s ++ data) p -> forall j q,
    ps_nodes (set_process id p data s) !! j = Some q -> process_ok (ps_sent (set_process id p data s)) q) as Hset.
  { intros id p data Hp j q Hq. cbn in *. destruct (decide (id = j)) as [->|Hne]; [rewrite lookup_insert_eq in Hq; by injection Hq as <-|].
    rewrite lookup_insert_ne in Hq by done. apply Hok in Hq as [? Hst ?]. constructor; try done.
    eapply Forall_impl; [exact Hst|]. intros d Hd. apply elem_of_app. by left. }
  assert (forall id p w' rest event, ps_nodes s !! id = Some p -> run_event event_fuel (pr_worker p) event = Some w' ->
    forall data, process_ok (ps_sent s ++ data) (worker_turn p w' rest)) as Hturn.
  { intros id p w' rest event Hp Hrun data. destruct (so_nodes _ _ _ Hs id _ (system_of_node s id p Hp)) as [ks Hk].
    apply (worker_turn_ok (ps_sent s) _ ks p w' rest event); [by eapply Hok|apply Hk|done|set_solver]. }
  destruct Hstep as [id p data s Hp Hd Hval|id p p' imports finalities s Hp Hpoll|id p m rest w' s Hp Hc Hrun|id p w' s Hp Hrun
    |id p client s Hp Hc|data s Hb Hd].
  - split; [|apply Hset; rewrite app_nil_r; destruct (Hok id p Hp); constructor; try done; by apply Forall_app; split; [|constructor]].
    rewrite system_of_set, send_nil. unfold set_node. cbn.
    rewrite insert_id; [done|]. by rewrite lookup_fmap, Hp.
  - destruct (poll_network_ok (ps_sent s) p imports finalities (Hok id p Hp)) as (p1 & channel & queue & Hp1 & Hok1 & Hch & Hnode).
    rewrite Hpoll in Hp1. injection Hp1 as <-. split; [|apply Hset; by rewrite app_nil_r].
    rewrite system_of_set, send_nil, Hnode, Hch. pose proof (system_of_node s id p Hp) as Hn.
    etrans; [eapply (stream_arrives (system_of s) id (pr_worker p)); [exact Hn|by apply (po_stream _ _ (Hok id p Hp))]|].
    apply rtc_once. eapply eq_ind; [eapply (sys_environment byz send_error id); [apply lookup_insert_eq|done]|].
    unfold set_node. cbn. rewrite insert_insert_eq. by destruct (pr_worker p).
  - split; [|by apply Hset, (Hturn id p w' rest (Message m))]. rewrite system_of_set. apply rtc_once.
    eapply (sys_message byz send_error id (node_of p) m rest w'); [by apply system_of_node|done..].
  - split; [|by apply Hset, (Hturn id p w' (pr_channel p) LocalTimer)]. rewrite system_of_set. apply rtc_once.
    eapply (sys_timer byz send_error id (node_of p) w'); [by apply system_of_node|done].
  - split; [|apply Hset; rewrite app_nil_r; by destruct (Hok id p Hp)].
    rewrite system_of_set, send_nil. apply rtc_once.
    eapply eq_ind; [eapply (sys_environment byz send_error id (node_of p) (w_queue (pr_worker p))); [by apply system_of_node|exact Hc]|].
    unfold node_of. cbn. by destruct (pr_worker p).
  - split; [by apply rtc_once, (sys_faulty byz send_error data (system_of s))|].
    intros id p Hp. cbn in *. destruct (Hok id p Hp) as [? Hst ?]. constructor; try done.
    eapply Forall_impl; [exact Hst|]. intros d Hd'. apply elem_of_app. by left.
Qed.

Lemma tasks_run s0 s :
  tasks_start A s0 -> rtc task_step s0 s ->
  reachable A byz send_error (system_of s) /\ forall id p, ps_nodes s !! id = Some p -> process_ok (ps_sent s) p.
Proof.
  intros Hstart Hr. pattern s. refine (rtc_ind_r _ s0 _ _ s Hr); clear s Hr.
  - split; [exists (system_of s0); split; [by apply tasks_start_initial|done]|]. intros id p Hp.
    destruct (ts_node _ _ Hstart id p Hp) as (name & c & ks & Hst & _). rewrite (ts_sent _ _ Hstart).
    by apply start_tasks_new in Hst as (_ & _ & ?).
  - intros s1 s2 _ Hstep [Hreach Hok]. pose proof (reachable_ok Hfit _ Hreach) as Hs.
    destruct (task_step_ok s1 s2 Hstep Hs Hok) as [Hr Hok']. split; [|done].
    destruct Hreach as (s' & Hini & Hr'). exists s'. split; [done|]. by etrans.
Qed.

(** Neither task of a running node panics, below the overflow of the view. *)
Lemma process_serves (Hnd : NoDup (ids A)) (Htwo : (2 <= length A)%nat) s id p :
  reachable A byz send_error (system_of s) -> process_ok (ps_sent s) p -> ps_nodes s !! id = Some p ->
  (forall imports finalities, is_Some (poll_network send_error p imports finalities)) /\
  (forall event, (cs_view (w_state (pr_worker p)) + 3 < u64_modulus)%N ->
     is_Some (run_event event_fuel (pr_worker p) event)).
Proof.
  intros Hreach Hpk Hp. destruct (so_nodes _ _ _ (reachable_ok Hfit _ Hreach) id _ (system_of_node s id p Hp)) as [ks Hk]. split.
  - intros imports finalities. destruct (poll_network_ok (ps_sent s) p imports finalities Hpk) as (p' & _ & _ & -> & _). by eexists.
  - intros event Hroom. destruct (event_served A ks (pr_worker p) event event_fuel Hfit Hnd Htwo) as (w' & _ & Hrun & _); [apply Hk|done..|].
    by eexists.
Qed.

End refinement.

Section running_nodes.
Context `{MessageCodecs} `{!ClientForHotstuff} `{!RuntimeApi} `{!Environment} `{!GossipEngines} `{!GossipEngineLaws}.
Context `{!AuxStoreLaws} `{!CodecLaws Proposal} `{!CodecLaws ConsensusMessage} `{!KeystoreLaws}.

(** C14: The running nodes implement the network that the theorems on agreement are
    about. Let the nodes be made by [start_hotstuff] and their two tasks take turns
    in any order, with any client and any faulty replicas: every state they come to
    stands for a reachable state of the network. In each node the gossip engine
    filters by the view of the worker, the channel keeps its capacity, the network
    task never panics, and neither does the worker, at any event below the
    overflow of the view. *)
Theorem tasks_refine_system (A : AuthorityList) (byz : list AuthorityId) (send_error : string) (s0 s : Processes) :
  authorities_fit A -> NoDup (ids A) -> (2 <= length A)%nat ->
  tasks_start A s0 -> rtc (task_step byz send_error) s0 s ->
  reachable A byz send_error (system_of s) /\
  forall id p, ps_nodes s !! id = Some p ->
    get_view (process_validator p) = cs_view (w_state (pr_worker p)) /\
    (length (pr_channel p) <= channel_capacity)%nat /\
    (forall imports finalities, is_Some (poll_network send_error p imports finalities)) /\
    (forall event, (cs_view (w_state (pr_worker p)) + 3 < u64_modulus)%N ->
       is_Some (run_event event_fuel (pr_worker p) event)).
Proof.
  intros Hfit Hnd Htwo Hstart Hr. destruct (tasks_run (byz := byz) (send_error := send_error) Hfit s0 s Hstart Hr) as [Hreach Hok].
  split; [done|]. intros id p Hp. pose proof (Hok id p Hp) as Hpk.
  destruct (so_nodes _ _ _ (reachable_ok Hfit _ Hreach) id _ (system_of_node s id p Hp)) as [ks Hk]. split_and!.
  - rewrite (po_validator _ _ Hpk). apply Hk.
  - apply Hk.
  - by apply (process_serves (byz := byz) Hfit Hnd Htwo s id).
  - by apply (process_serves (byz := byz) (send_error := send_error) Hfit Hnd Htwo s id).
Qed.

End running_nodes.

(** ** A run of four nodes

    The clients tell of one block; the messages take their way through the gossip
    engines, streams and channels until the block is finalized. *)

(** An engine that asks the validator it was given. *)
#[export] Instance sample_engines : GossipEngines := {|
  GossipEngine := GossipValidator;
  GossipEngine_new protocol gv := gv;
  engine_validator e := e;
  engine_set_validator gv e := gv;
  engine_poll e := (false, e);
  messages_for topic e := [];
|}.

#[export] Instance sample_engine_laws : GossipEngineLaws.
Proof. by constructor. Qed.

#[local] Instance ValidationResult_eq_dec : EqDecision ValidationResult.
Proof. solve_decision. Defined.

(** The steps as actions. *)
Inductive TaskAction : Type :=
| Deliver (id : AuthorityId) (k : nat)
| Poll (id : AuthorityId) (imports : list ImportNotification)
| Take (id : AuthorityId)
| Tick (id : AuthorityId).

Definition task_act (s : Processes) (a : TaskAction) : option Processes :=
  match a with
  | Deliver id k =>
      p ← ps_nodes s !! id; data ← ps_sent s !! k;
      if decide (validate (process_validator p) data = ProcessAndKeep gossip_topic) then
        Some (set_process id (mkProcess (pr_worker p)
          (mkConsensusNetwork (cn_network (pr_network p)) (cn_message_recv (pr_network p) ++ [data])) (pr_channel p)) [] s)
      else None
  | Poll id imports => p ← ps_nodes s !! id; p' ← poll_network "full" p imports []; Some (set_process id p' [] s)
  | Take id =>
      p ← ps_nodes s !! id;
      match pr_channel p with
      | [] => None
      | m :: rest =>
          w' ← run_event event_fuel (pr_worker p) (Message m);
          Some (set_process id (worker_turn p w' rest) (gossiped (new_effects (pr_worker p) w')) s)
      end
  | Tick id =>
      p ← ps_nodes s !! id; w' ← run_event event_fuel (pr_worker p) LocalTimer;
      Some (set_process id (worker_turn p w' (pr_channel p)) (gossiped (new_effects (pr_worker p) w')) s)
  end.

Fixpoint task_acts (s : Processes) (l : list TaskAction) : option Processes :=
  match l with
  | [] => Some s
  | a :: l => match task_act s a with Some s' => task_acts s' l | None => None end
  end.

Lemma task_act_step byz s a s' : task_act s a = Some s' -> task_step byz "full" s s'.
Proof.
  destruct a as [id k|id imports|id|id]; cbn [task_act].
  - intros (p & Hp & (data & Hd & Hv)%bind_Some)%bind_Some. case_decide as Hval; [|done]. injection Hv as <-.
    by eapply task_gossip; [|eapply list_elem_of_lookup_2|].
  - intros (p & Hp & (p' & Hpoll & [= <-])%bind_Some)%bind_Some. by eapply task_poll.
  - intros (p & Hp & Hv)%bind_Some. destruct (pr_channel p) as [|m rest] eqn:Hc; [done|].
    apply bind_Some in Hv as (w' & Hr & [= <-]). by eapply task_message.
  - intros (p & Hp & (w' & Hr & [= <-])%bind_Some)%bind_Some. by eapply task_timer.
Qed.

Lemma task_acts_reach byz s l s' : task_acts s l = Some s' -> rtc (task_step byz "full") s s'.
Proof.
  revert s. induction l as [|a l IH]; intros s; cbn [task_acts]; [by intros [= <-]|].
  destruct (task_act s a) as [s1|] eqn:Ha; [|done]. intros Hl. econstructor; [by eapply task_act_step|by apply IH].
Qed.

(** A check on the state a run ends in. *)
Definition task_ends (s : Processes) (l : list TaskAction) (check : Processes -> bool) : bool :=
  match task_acts s l with Some s' => check s' | None => false end.

Lemma task_ends_reach byz s l check :
  task_ends s l check = true -> exists s', rtc (task_step byz "full") s s' /\ check s' = true.
Proof.
  unfold task_ends. destruct (task_acts s l) as [s'|] eqn:Ha; [|done]. intros Hc. exists s'. split; [|done].
  by eapply task_acts_reach.
Qed.

Definition one_block : Client := sample_client [(block1, 1%N)].

Definition task_node (id : N) : list (N * Process) :=
  match start_tasks "hotstuff" one_block (key_of id) with Some p => [(id, p)] | None => [] end.

Definition started : Processes := mkProcesses (list_to_map (List.flat_map task_node [0; 1; 2; 3]%N)) [].

Definition told (l : list N) : list TaskAction :=
  List.map (fun id => Poll id [mkImportNotification block1 1 true]) (l : list AuthorityId).
Definition ticks (l : list N) : list TaskAction := List.map Tick (l : list AuthorityId).
Definition takes (l : list (N * nat)) : list TaskAction :=
  List.flat_map (fun x => [Deliver x.1 x.2; Poll x.1 []; Take x.1]) (l : list (AuthorityId * nat)).

Definition task_run : list TaskAction :=
  told [0; 1; 2; 3]%N ++ ticks [0; 1; 2; 3; 0; 1; 2]%N ++
  takes [(0%N, 5); (0%N, 6); (1%N, 4); (1%N, 6); (2%N, 4); (2%N, 5); (3%N, 4); (3%N, 5); (3%N, 6)] ++
  takes [(0%N, 10); (3%N, 10); (3%N, 11); (3%N, 13); (0%N, 14); (2%N, 14); (1%N, 14); (0%N, 15); (0%N, 16)] ++
  takes [(1%N, 18); (2%N, 18); (3%N, 18)].

(** A node has asked its client to finalize the block. *)
Definition asked_to_finalize (s : Processes) (id : AuthorityId) : bool :=
  match ps_nodes s !! id with
  | Some p => existsb (fun e => match e with FinalizeCall h => bool_decide (h = block1) | _ => false end) (w_effects (pr_worker p))
  | None => false
  end.

Lemma asked_to_finalize_in s id :
  asked_to_finalize s id = true -> exists p, ps_nodes s !! id = Some p /\ FinalizeCall block1 ∈ w_effects (pr_worker p).
Proof.
  unfold asked_to_finalize. destruct (ps_nodes s !! id) as [p|]; [|done]. intros Hc. exists p. split; [done|].
  apply existsb_exists in Hc as ([m force|h| | |] & Hin%list_elem_of_In & Hh); try done. by apply bool_decide_eq_true in Hh as ->.
Qed.

Definition task_check (s : Processes) : bool := asked_to_finalize s (0%N : AuthorityId).

Lemma task_run_ends : task_ends started task_run task_check = true.
Proof. vm_refl. Qed.

Lemma started_start : tasks_start four_0 started.
Proof.
  constructor; [done|]. intros id p Hp. apply elem_of_list_to_map_2, list_elem_of_In, in_flat_map in Hp as (i & Hi & Hin).
  unfold task_node in Hin. destruct (start_tasks _ one_block (key_of i)) as [p'|] eqn:Hs; [|done].
  destruct Hin as [[= <- <-]|[]]. exists "hotstuff"%string, one_block, (key_of i). split_and!; [done|vm_refl| |].
  - by destruct Hi as [<-|[<-|[<-|[<-|[]]]]]; vm_refl.
  - intros h data Hg. change (@Ok string _ ((∅ : gmap bytes bytes) !! h) = Ok (Some data)) in Hg.
    by rewrite lookup_empty in Hg.
Qed.

Lemma tasks_refine_system_witness :
  exists s p, rtc (task_step [] "full") started s /\ ps_nodes s !! (0%N : AuthorityId) = Some p /\
    FinalizeCall block1 ∈ w_effects (pr_worker p) /\ reachable four_0 [] "full" (system_of s) /\
    get_view (process_validator p) = cs_view (w_state (pr_worker p)).
Proof.
  destruct (task_ends_reach [] _ _ _ task_run_ends) as (s & Hr & Hc).
  destruct (tasks_refine_system four_0 [] "full" started s) as [Hreach Hall];
    [vm_refl|vm_decide|cbn; lia|apply started_start|done|].
  apply asked_to_finalize_in in Hc as (p & Hp & Hin).
  exists s, p. split_and!; [done..|]. by apply (Hall _ _ Hp).
Defined.
