(* ===== verification/Rpc.v ===== *)
(** * Rpc

    The RPC extensions of [node-template/node/src/rpc.rs]: two modules of other
    crates merged into one. *)

From S2P Require Import Prelude.
#[local] Open Scope hs_scope.

(** [jsonrpsee::RpcModule] with [new] and [merge], and the modules of the two crates,
    for clients and pools of the types [C] and [P]. *)
Class RpcModules (C P : Type) := {
  RpcModule : Type;
  RpcModule_new : RpcModule;
  merge : RpcModule -> RpcModule -> result string RpcModule;
  DenyUnsafe : Type;
  System_into_rpc : C -> P -> DenyUnsafe -> RpcModule;
  TransactionPayment_into_rpc : C -> RpcModule;
}.

(** What is relied on of modules: they have methods by name, and merging adds those
    of the other module or, when a name is registered already, fails. *)
Class RpcLaws `{RpcModules} := {
  method_names : RpcModule -> list string;
  method_names_new : method_names RpcModule_new = [];
  merge_ok : forall m m', (forall name, name ∈ method_names m -> name ∉ method_names m') ->
    exists r, merge m m' = Ok r /\ method_names r = method_names m ++ method_names m';
  merge_err : forall m m' name, name ∈ method_names m -> name ∈ method_names m' -> exists e, merge m m' = Err e;
}.

Section rpc.
Context {C P : Type} `{!RpcModules C P}.

(** [struct FullDeps] *)
Record FullDeps := mkFullDeps { deps_client : C; deps_pool : P; deps_deny_unsafe : DenyUnsafe }.

(** [create_full] *)
Definition create_full (deps : FullDeps) : result string RpcModule :=
  let module := RpcModule_new in
  let? module := merge module (System_into_rpc (deps_client deps) (deps_pool deps) (deps_deny_unsafe deps)) in
  let? module := merge module (TransactionPayment_into_rpc (deps_client deps)) in
  Ok module.

Context `{!RpcLaws}.

(** The node serves the methods of both modules, the system's first, when they
    have different names; with a name in common it has no RPC. *)
Theorem create_full_exact (deps : FullDeps) :
  let system := System_into_rpc (deps_client deps) (deps_pool deps) (deps_deny_unsafe deps) in
  let payment := TransactionPayment_into_rpc (deps_client deps) in
  ((forall name, name ∈ method_names system -> name ∉ method_names payment) ->
   exists r, create_full deps = Ok r /\ method_names r = method_names system ++ method_names payment) /\
  (forall name, name ∈ method_names system -> name ∈ method_names payment -> exists e, create_full deps = Err e).
Proof.
  intros system payment. unfold create_full. fold system payment.
  destruct (merge_ok RpcModule_new system) as (m & -> & Hm); [intros name; rewrite method_names_new; by intros ?%elem_of_nil|].
  rewrite method_names_new in Hm. cbn in Hm |- *. split.
  - intros Hd. destruct (merge_ok m payment) as (r & -> & Hr); [by rewrite Hm|]. exists r. split; [done|]. by rewrite Hr, Hm.
  - intros name Hs Hp. destruct (merge_err m payment name) as [e ->]; [by rewrite Hm|done|]. by exists e.
Qed.

End rpc.

(** ** Witness *)

#[export] Instance sample_modules {C P} : RpcModules C P := {|
  RpcModule := list string;
  RpcModule_new := [];
  merge m m' := if decide (Forall (fun name => name ∉ m') m) then Ok (m ++ m') else Err "already registered"%string;
  DenyUnsafe := bool;
  System_into_rpc _ _ _ := ["system_accountNextIndex"; "system_dryRun"]%string;
  TransactionPayment_into_rpc _ := ["payment_queryInfo"; "payment_queryFeeDetails"]%string;
|}.

Definition sample_names (m : @RpcModule unit unit _) : list string := m.

#[local] Instance sample_modules_laws : @RpcLaws unit unit sample_modules.
Proof.
  refine {| method_names := sample_names; method_names_new := eq_refl |}.
  - intros m m' Hd. exists (sample_names m ++ sample_names m'). split; [|done]. unfold merge, sample_modules.
    rewrite decide_True; [done|]. by apply Forall_forall.
  - intros m m' name Hm Hm'. exists "already registered"%string. unfold merge, sample_modules. rewrite decide_False; [done|].
    rewrite Forall_forall. naive_solver.
Defined.

Definition sample_deps : FullDeps := mkFullDeps tt tt true.

Lemma create_full_exact_witness :
  exists r, create_full sample_deps = Ok r /\
    method_names r = ["system_accountNextIndex"; "system_dryRun"; "payment_queryInfo"; "payment_queryFeeDetails"]%string.
Proof.
  destruct (create_full_exact sample_deps) as [Hok _]. destruct Hok as (r & Hr & Hn); [|by exists r].
  apply Forall_forall. vm_decide.
Defined.
