(* ===== verification/Service.v ===== *)
(** * Service

    How a node is assembled, [node-template/node/src/service.rs]: the partial
    components, the network with the protocol name of
    [consensus/src/config.rs], the tasks a full node spawns, and among them the
    consensus. The services of Substrate are parameters that may fail. *)

From S2P Require Import Prelude Primitives Messages Concrete Quorum Aggregator Synchronizer State Network BlockImport Worker WorkerFacts Replica Handlers Safety Authentic System Agreement Startup Restart Tasks Rpc.
#[local] Open Scope hs_scope.

(** ** The protocol name *)

(** [array_bytes::bytes2hex]: two lower-case digits for each byte. *)
Definition hex_digit (n : N) : Ascii.ascii :=
  Ascii.ascii_of_N (if (n <? 10)%N then 48 + n else 87 + n)%N.

Fixpoint bytes2hex (data : bytes) : string :=
  match data with
  | [] => EmptyString
  | b :: data =>
      let n := Byte.to_N b in
      String (hex_digit (n / 16)) (String (hex_digit (n mod 16)) (bytes2hex data))
  end.

Definition HOTSTUFF_PROTOCOL_NAME : string := "/hotstuff/1".

(** [standard_name], on the bytes of the genesis hash and the fork id of the
    specification. *)
Definition standard_name (genesis_hash : bytes) (fork_id : option string) : string :=
  let chain_prefix :=
    match fork_id with
    | Some fork_id => "/" +:+ bytes2hex genesis_hash +:+ "/" +:+ fork_id
    | None => "/" +:+ bytes2hex genesis_hash
    end in
  chain_prefix +:+ HOTSTUFF_PROTOCOL_NAME.

(** [NonDefaultSetConfig] of [hotstuff_peers_set_config]: peers only by
    reservation. *)
Record PeersSetConfig := mkPeersSetConfig {
  notifications_protocol : string;
  max_notification_size : N;
  in_peers : N;
  out_peers : N;
  reserved_nodes : list string;
  non_reserved_deny : bool;
}.

Definition hotstuff_peers_set_config (protocol_name : string) : PeersSetConfig :=
  mkPeersSetConfig protocol_name (1024 * 1024) 0 0 [] true.

(** ** The node *)

(** The part of [Configuration] that decides what is done. *)
Record Configuration := mkConfiguration {
  config_telemetry_endpoints : option (list string);
  is_authority : bool;
  offchain_worker_enabled : bool;
  force_authoring : bool;
  config_fork_id : option string;
}.

(** A task handed to the task manager: its name, whether the service goes down
    with it, and whether it is given a thread of its own. *)
Record Task := mkTask { task_name : string; essential : bool; blocking : bool }.

(** What assembling a node has done so far; the voter is the consensus, with its two
    tasks. *)
Record NodeState `{MessageCodecs} `{!ClientForHotstuff} `{!GossipEngines} := mkNodeState {
  tasks : list Task;
  protocols : list PeersSetConfig;
  voter : option Process;
  network_started : bool;
}.

(** The calls into Substrate: each makes its part or an error, or cannot fail.
    [client_parts] is [new_full_parts]: the client and the keystore.
    [client_block_hash] is what [.ok().flatten()] leaves of [block_hash]. *)
Class Services `{MessageCodecs} `{!ClientForHotstuff} := {
  TransactionPool : Type;
  ImportQueue : Type;
  NetworkService : Type;
  ProposerFactory : Type;
  AuraAuthor : Type;
  telemetry_worker : result string unit;
  client_parts : Configuration -> result string (Client * Keystore);
  new_pool : Configuration -> Client -> TransactionPool;
  aura_slot_duration : Client -> result string N;
  aura_import_queue : HotstuffBlockImport -> Client -> N -> result string ImportQueue;
  client_block_hash : Client -> N -> option Hash;
  build_network : Configuration -> list PeersSetConfig -> Client -> TransactionPool -> ImportQueue ->
    result string NetworkService;
  rpc_modules :: RpcModules Client TransactionPool;
  spawn_tasks : Configuration -> NetworkService -> Client -> Keystore -> TransactionPool ->
    (DenyUnsafe -> result string RpcModule) -> result string (list Task);
  new_proposer_factory : Client -> TransactionPool -> ProposerFactory;
  start_aura : N -> Client -> HotstuffBlockImport -> ProposerFactory -> bool -> Keystore -> N * N ->
    result string AuraAuthor;
}.

Section service.
Context `{MessageCodecs} `{!ClientForHotstuff} `{!RuntimeApi} `{!Environment} `{!SharedDatas} `{!GossipEngines} `{!Services}.

(** [PartialComponents], without the handles to the backend, the chain selection and
    the task manager. *)
Record PartialComponents := mkPartialComponents {
  pc_client : Client;
  pc_keystore : Keystore;
  pc_import_queue : ImportQueue;
  pc_transaction_pool : TransactionPool;
  pc_block_import : HotstuffBlockImport;
  pc_link : LinkHalf;
}.

Definition Assembly (X : Type) : Type := M NodeState string X.

Definition spawn (t : Task) : Assembly unit :=
  st_modify (fun s => mkNodeState _ _ _ _ _ (tasks s ++ [t]) (protocols s) (voter s) (network_started s)).

(** [.filter(|x| !x.is_empty())] *)
Definition telemetry_configured (config : Configuration) : bool :=
  match config_telemetry_endpoints config with Some (_ :: _) => true | _ => false end.

(** [new_partial] *)
Definition new_partial (config : Configuration) : Assembly PartialComponents :=
  (if telemetry_configured config then st_lift telemetry_worker else st_ret tt) ;!
  let! parts := st_lift (client_parts config) in
  let client := parts.1 in
  (if telemetry_configured config then spawn (mkTask "telemetry" false false) else st_ret tt) ;!
  let transaction_pool := new_pool config client in
  let! r := st_expect (block_import client) in
  let! imports := st_lift r in
  let! slot_duration := st_lift (aura_slot_duration client) in
  let! import_queue := st_lift (aura_import_queue imports.1 client slot_duration) in
  st_ret (mkPartialComponents client parts.2 import_queue transaction_pool imports.1 imports.2).

(** The network with the protocol of the consensus, and the name of that; the
    genesis hash must exist. *)
Definition connect (config : Configuration) (parts : PartialComponents) : Assembly (string * NetworkService) :=
  let! genesis_hash := st_expect (client_block_hash (pc_client parts) 0) in
  let name := standard_name (hash_as_ref genesis_hash) (config_fork_id config) in
  st_modify (fun s => mkNodeState _ _ _ _ _ (tasks s) (protocols s ++ [hotstuff_peers_set_config name]) (voter s)
    (network_started s)) ;!
  let! ps := st_get protocols in
  let! network := st_lift (build_network config ps (pc_client parts) (pc_transaction_pool parts) (pc_import_queue parts)) in
  st_ret (name, network).

(** The closure [rpc_extensions_builder]. *)
Definition rpc_extensions_builder (parts : PartialComponents) (deny_unsafe : DenyUnsafe) : result string RpcModule :=
  create_full (mkFullDeps (pc_client parts) (pc_transaction_pool parts) deny_unsafe).

(** [SlotProportion::new(2f32 / 3f32)] *)
Definition block_proposal_slot_portion : N * N := (2, 3)%N.

(** The part for authorities: the block author and the consensus. *)
Definition author (config : Configuration) (parts : PartialComponents) (name : string) : Assembly unit :=
  let proposer_factory := new_proposer_factory (pc_client parts) (pc_transaction_pool parts) in
  let! slot_duration := st_lift (aura_slot_duration (pc_client parts)) in
  let! _ := st_lift (start_aura slot_duration (pc_client parts) (pc_block_import parts) proposer_factory
    (force_authoring config) (pc_keystore parts) block_proposal_slot_portion) in
  spawn (mkTask "hotstuff block author" true true) ;!
  let! process := st_expect (start_tasks name (link_client (pc_link parts)) (pc_keystore parts)) in
  st_modify (fun s => mkNodeState _ _ _ _ _ (tasks s) (protocols s) (Some process) (network_started s)) ;!
  spawn (mkTask "hotstuff block voter" true true) ;!
  spawn (mkTask "hotstuff network" true true).

(** [new_full] *)
Definition new_full (config : Configuration) : Assembly unit :=
  let! parts := new_partial config in
  let! net := connect config parts in
  (if offchain_worker_enabled config then spawn (mkTask "offchain-workers-runner" false false) else st_ret tt) ;!
  let! rpc := st_lift (spawn_tasks config net.2 (pc_client parts) (pc_keystore parts) (pc_transaction_pool parts)
    (rpc_extensions_builder parts)) in
  st_modify (fun s => mkNodeState _ _ _ _ _ (tasks s ++ rpc) (protocols s) (voter s) (network_started s)) ;!
  (if is_authority config then author config parts net.1 else st_ret tt) ;!
  st_modify (fun s => mkNodeState _ _ _ _ _ (tasks s) (protocols s) (voter s) true).

Definition new_node : NodeState := mkNodeState _ _ _ _ _ [] [] None false.

End service.

(** ** Properties *)

Lemma hex_digit_inj a b : (a < 16)%N -> (b < 16)%N -> hex_digit a = hex_digit b -> a = b.
Proof.
  intros Ha Hb Heq. apply (f_equal Ascii.N_of_ascii) in Heq. unfold hex_digit in Heq.
  destruct (N.ltb_spec a 10), (N.ltb_spec b 10); rewrite !Ascii.N_ascii_embedding in Heq by lia; lia.
Qed.

Lemma string_app_assoc (s1 s2 s3 : string) : (s1 +:+ s2) +:+ s3 = s1 +:+ (s2 +:+ s3).
Proof. induction s1 as [|a s1 IH]; [done|]. change (String a ((s1 +:+ s2) +:+ s3) = String a (s1 +:+ (s2 +:+ s3))). by rewrite IH. Qed.

(** Hex texts of equally long data are told apart, whatever follows them. *)
Lemma bytes2hex_app_inj data data' s s' :
  length data = length data' -> bytes2hex data +:+ s = bytes2hex data' +:+ s' -> data = data' /\ s = s'.
Proof.
  revert data'. induction data as [|b data IH]; intros [|b' data'] Hlen; try done.
  intros Heq. cbn in Heq. injection Heq as Hhi Hlo Hrest. injection Hlen as Hlen.
  apply IH in Hrest as [-> ->]; [|done]. split; [|done]. f_equal.
  pose proof (Byte.to_N_bounded b). pose proof (Byte.to_N_bounded b').
  apply hex_digit_inj in Hhi; [|lia..]. apply hex_digit_inj in Hlo; [|lia..].
  assert (Byte.to_N b = Byte.to_N b') as Hb by lia.
  apply (f_equal Byte.of_N) in Hb. rewrite !Byte.of_to_N in Hb. congruence.
Qed.

Lemma string_length_app (s1 s2 : string) : String.length (s1 +:+ s2) = (String.length s1 + String.length s2)%nat.
Proof. induction s1 as [|a s1 IH]; [done|]. cbn. by rewrite <- IH. Qed.

Lemma string_app_inj_r (s1 s2 s : string) : s1 +:+ s = s2 +:+ s -> s1 = s2.
Proof.
  intros Heq. assert (String.length s1 = String.length s2) as Hlen.
  { apply (f_equal String.length) in Heq. rewrite !string_length_app in Heq. lia. }
  revert s2 Hlen Heq. induction s1 as [|a s1 IH]; intros [|b s2] Hlen Heq; try done.
  injection Heq as -> Heq. injection Hlen as Hlen. f_equal. by apply IH.
Qed.

(** Chains do not share the gossip protocol of the consensus: the protocol
    name determines the genesis hash, among hashes of one length, and the fork
    id. *)
Theorem standard_name_inj (genesis genesis' : bytes) (fork fork' : option string) :
  length genesis = length genesis' -> standard_name genesis fork = standard_name genesis' fork' ->
  genesis = genesis' /\ fork = fork'.
Proof.
  intros Hlen Heq. unfold standard_name in Heq.
  destruct fork as [f|], fork' as [f'|]; rewrite ?string_app_assoc in Heq;
    injection Heq as Heq; apply bytes2hex_app_inj in Heq as [-> Heq]; try done; (split; [done|]).
  - injection Heq as Heq. by apply (string_app_inj_r f f' HOTSTUFF_PROTOCOL_NAME) in Heq as ->.
  - apply (f_equal String.length) in Heq. rewrite !string_length_app in Heq. cbn [String.length] in Heq. lia.
  - apply (f_equal String.length) in Heq. rewrite !string_length_app in Heq. cbn [String.length] in Heq. lia.
Qed.

Section assembly.
Context `{MessageCodecs} `{!ClientForHotstuff} `{!RuntimeApi} `{!Environment} `{!SharedDatas} `{!GossipEngines} `{!Services}.

(** The tasks a full node has, by its configuration and what serves RPC. *)
Definition full_tasks (config : Configuration) (rpc : list Task) : list Task :=
  (if telemetry_configured config then [mkTask "telemetry" false false] else []) ++
  (if offchain_worker_enabled config then [mkTask "offchain-workers-runner" false false] else []) ++ rpc ++
  (if is_authority config
   then [mkTask "hotstuff block author" true true; mkTask "hotstuff block voter" true true;
         mkTask "hotstuff network" true true]
   else []).

(** The parts are made of one client: that of the configuration, which has an
    authority set. *)
Record parts_ok (config : Configuration) (parts : PartialComponents) : Prop := {
  po_parts : client_parts config = Ok (pc_client parts, pc_keystore parts);
  po_import : block_import (pc_client parts) = Some (Ok (pc_block_import parts, pc_link parts));
  po_pool : pc_transaction_pool parts = new_pool config (pc_client parts);
}.

Lemma parts_link config parts : parts_ok config parts -> link_client (pc_link parts) = pc_client parts.
Proof.
  intros [_ Hi _]. unfold block_import in Hi. apply bind_Some in Hi as ([data|e] & _ & Hi); [|done].
  injection Hi as _ <-. done.
Qed.

(** The parts of a node before the network is there. *)
Lemma new_partial_spec config :
  wp (new_partial config)
    (fun parts s => parts_ok config parts /\
       s = mkNodeState _ _ _ _ _
             (if telemetry_configured config then [mkTask "telemetry" false false] else []) [] None false)
    (fun _ s => network_started s = false /\ voter s = None) new_node.
Proof.
  unfold new_partial. apply wp_bind. eapply (wp_mono _ (fun _ s => s = new_node) _ (fun _ s => s = new_node)).
  { destruct (telemetry_configured config); [|by apply wp_ret]. by apply wp_lift. }
  2:{ by intros x s ->. }
  intros [] s ->. apply wp_bind, wp_lift; [|done]. intros [client ks] Hparts. apply wp_bind.
  set (s1 := mkNodeState _ _ _ _ _ (if telemetry_configured config then [mkTask "telemetry" false false] else []) []
    None false).
  eapply (wp_mono _ (fun _ s => s = s1) _ (fun _ _ => False)); [|intros [] s ->|done].
  { unfold s1. by destruct (telemetry_configured config). }
  apply wp_bind, wp_expect; [|done]. intros r Hr. apply wp_bind, wp_lift; [|done]. intros [import link] ->.
  apply wp_bind, wp_lift; [|done]. intros slot _. apply wp_bind, wp_lift; [|done]. intros queue _. apply wp_ret. done.
Qed.

(** A node that is up. *)
Definition node_up (config : Configuration) (s : NodeState) : Prop :=
  network_started s = true /\
  exists parts genesis network rpc, parts_ok config parts /\ client_block_hash (pc_client parts) 0 = Some genesis /\
    let name := standard_name (hash_as_ref genesis) (config_fork_id config) in
    protocols s = [hotstuff_peers_set_config name] /\
    spawn_tasks config network (pc_client parts) (pc_keystore parts) (pc_transaction_pool parts)
      (fun deny_unsafe => create_full (mkFullDeps (pc_client parts) (pc_transaction_pool parts) deny_unsafe)) = Ok rpc /\
    tasks s = full_tasks config rpc /\
    voter s = (if is_authority config then start_tasks name (pc_client parts) (pc_keystore parts) else None) /\
    (is_Some (voter s) <-> is_authority config = true).

Lemma new_full_spec (config : Configuration) :
  match new_full config new_node with
  | (Val _, s) => node_up config s
  | (Abort _, s) => network_started s = false
  end.
Proof.
  pose proof (new_partial_spec config) as Hp. unfold wp in Hp. unfold new_full, st_bind at 1.
  destruct (new_partial config new_node) as [[parts|x] s]; [|by destruct Hp].
  destruct Hp as [Hparts ->]. pose proof (parts_link config parts Hparts) as Hlink. unfold connect.
  unfold st_bind at 1 2. destruct (client_block_hash (pc_client parts) 0) as [genesis|] eqn:Hgen; [|done]. cbn -[standard_name].
  unfold st_bind at 1 2. cbn -[standard_name].
  destruct (build_network _ _ _ _ _) as [network|e]; [|done]. cbn -[standard_name].
  unfold st_bind. destruct (offchain_worker_enabled config) eqn:Hoff; cbn -[standard_name].
  all: destruct (spawn_tasks config network _ _ _ _) as [rpc|e] eqn:Hrpc; [|done]; cbn -[standard_name].
  all: destruct (is_authority config) eqn:Hauth; unfold author, st_bind; cbn -[standard_name].
  all: rewrite ?Hlink.
  all: try (destruct (aura_slot_duration (pc_client parts)) as [slot|e]; [|done]; cbn -[standard_name];
    destruct (start_aura slot _ _ _ _ _ _) as [aura|e]; [|done]; cbn -[standard_name];
    destruct (start_tasks _ (pc_client parts) (pc_keystore parts)) as [w|] eqn:Hw; [|done]; cbn -[standard_name]).
  all: (split; [done|]); exists parts, genesis, network, rpc; unfold full_tasks; rewrite Hoff, Hauth.
  all: split_and!; try done; rewrite <- ?app_assoc, ?app_nil_r; try done.
  all: by split; [intros [? ?]|done].
Qed.

Lemma new_full_started config x s : new_full config new_node = (Val x, s) -> network_started s = true.
Proof. pose proof (new_full_spec config) as Hn. intros Heq. rewrite Heq in Hn. apply Hn. Qed.

(** C33: What a full node is once it is up: its network is started, with one
    consensus protocol named after the genesis block; its tasks are those of its
    configuration; its RPC serves the methods of its own client and pool; it runs
    the consensus, by the tasks of [start_hotstuff] over the client that the block
    import wraps and as tasks it cannot do without, exactly when it is an
    authority. When the assembly stops at an error or a panic, the network is not
    started. *)
Theorem new_full_exact (config : Configuration) :
  match new_full config new_node with
  | (Val _, s) => node_up config s
  | (Abort _, s) => network_started s = false
  end.
Proof. apply new_full_spec. Qed.

End assembly.

(** ** Witnesses *)

(** The protocol name of a fork of a chain with a genesis hash of two bytes. *)
Lemma standard_name_inj_witness :
  standard_name [Byte.x1f; Byte.xa0] (Some "fork"%string) = "/1fa0/fork/hotstuff/1"%string /\
  [Byte.x1f; Byte.xa0] = [Byte.x1f; Byte.xa0] /\ Some "fork"%string = Some "fork"%string.
Proof.
  split; [vm_refl|].
  apply (standard_name_inj [Byte.x1f; Byte.xa0] [Byte.x1f; Byte.xa0] (Some "fork"%string) (Some "fork"%string)); vm_refl.
Defined.

(** Services that make every part, around the sample client. *)
#[export] Instance sample_services : Services := {|
  TransactionPool := unit;
  ImportQueue := unit;
  NetworkService := unit;
  ProposerFactory := unit;
  AuraAuthor := unit;
  telemetry_worker := Ok tt;
  client_parts config := Ok (sample_client [], key_2);
  new_pool config c := tt;
  aura_slot_duration c := Ok 6000%N;
  aura_import_queue import c slot := Ok tt;
  client_block_hash c n := Some [];
  build_network config ps c pool queue := Ok tt;
  spawn_tasks config network c ks pool rpc := Ok [mkTask "rpc" false false];
  new_proposer_factory c pool := tt;
  start_aura slot c import proposer force ks portion := Ok tt;
|}.

Definition authority_config : Configuration := mkConfiguration None true true false None.
