(* ===== verification/Command.v ===== *)
(** * Command

    The command line of the node, [node-template/node/src/command.rs] and
    [cli.rs]: which subcommand does what. What a subcommand computes with the
    parts of the node is code of other crates; here it is which parts it is
    given, and how it fails. *)

From S2P Require Import Prelude Primitives Messages Concrete Quorum Aggregator Synchronizer State Network BlockImport Worker WorkerFacts Replica Startup Tasks Rpc Service.
#[local] Open Scope hs_scope.

(** [BenchmarkCmd] *)
Inductive BenchmarkCmd : Type := BPallet | BBlock | BStorage | BOverhead | BExtrinsic | BMachine.

(** [enum Subcommand]; the arguments of a subcommand are of type [Cmd]. *)
Inductive Subcommand (Cmd : Type) : Type :=
| Key (cmd : Cmd)
| BuildSpec (cmd : Cmd)
| CheckBlock (cmd : Cmd)
| ExportBlocks (cmd : Cmd)
| ExportState (cmd : Cmd)
| ImportBlocks (cmd : Cmd)
| PurgeChain (cmd : Cmd)
| Revert (cmd : Cmd)
| Benchmark (cmd : Cmd) (which : BenchmarkCmd)
| TryRuntime
| ChainInfo (cmd : Cmd)
| Substrate (cmd : Cmd).
Arguments Key {Cmd} cmd.
Arguments BuildSpec {Cmd} cmd.
Arguments CheckBlock {Cmd} cmd.
Arguments ExportBlocks {Cmd} cmd.
Arguments ExportState {Cmd} cmd.
Arguments ImportBlocks {Cmd} cmd.
Arguments PurgeChain {Cmd} cmd.
Arguments Revert {Cmd} cmd.
Arguments Benchmark {Cmd} cmd which.
Arguments TryRuntime {Cmd}.
Arguments ChainInfo {Cmd} cmd.
Arguments Substrate {Cmd} cmd.

(** [struct Cli] *)
Record Cli (Cmd : Type) := mkCli { subcommand : option (Subcommand Cmd); cli_run : Cmd }.
Arguments subcommand {Cmd} c.
Arguments cli_run {Cmd} c.

(** [SubstrateCli for Cli] *)
Definition impl_name : string := "Substrate Node".
Definition support_url : string := "support.anonymous.an".
Definition copyright_start_year : N := 2017.

Section command.
Context `{MessageCodecs} `{!ClientForHotstuff} `{!RuntimeApi} `{!Environment} `{!SharedDatas} `{!GossipEngines} `{!Services}.
Context {Cmd : Type}.

(** [cli.create_runner]: the configuration a subcommand is run with. *)
Variable create_runner : Cmd -> result string Configuration.

(** Empty inherent data, and the timestamp provider of [sp_timestamp] for a time
    in milliseconds; its error is the text of the error. *)
Context {InherentData : Type}.
Variables (inherent_data_new : InherentData)
  (timestamp_provide : N -> InherentData -> result string InherentData).

(** [inherent_benchmark_data] of [benchmarking.rs] *)
Definition inherent_benchmark_data : result string InherentData :=
  map_err (fun e => "creating inherent data: " +:+ e) (timestamp_provide 0 inherent_data_new).

(** What is run in the end. *)
Inductive Operation : Type :=
| RunKey (cmd : Cmd)
| RunWithConfig (cmd : Cmd) (config : Configuration)
| RunWithClient (cmd : Cmd) (client : Client)
| RunNode (node : NodeState).

Inductive Outcome : Type :=
| Runs (op : Operation)
| Refused (e : string)
| Panics.

(** The outcome of a step of the assembly of the node. *)
Definition outcome {X} (r : exec string X * NodeState) (k : X -> NodeState -> Outcome) : Outcome :=
  match r with
  | (Val x, s) => k x s
  | (Abort (Fail e), _) => Refused e
  | (Abort _, _) => Panics
  end.

Definition with_runner (cmd : Cmd) (k : Configuration -> Outcome) : Outcome :=
  match create_runner cmd with Ok config => k config | Err e => Refused e end.

Definition with_partial (cmd : Cmd) (config : Configuration) (k : Client -> Outcome) : Outcome :=
  outcome (new_partial config new_node) (fun parts _ => k (pc_client parts)).

(** [runner.run_node_until_exit(|config| new_full(config))] *)
Definition run_node (cmd : Cmd) : Outcome :=
  with_runner cmd (fun config => outcome (new_full config new_node) (fun _ s => Runs (RunNode s))).

(** The branch of the benchmarks, built without [runtime-benchmarks]. *)
Definition run_benchmark (cmd : Cmd) (which : BenchmarkCmd) (config : Configuration) : Outcome :=
  match which with
  | BPallet => Refused ("Runtime benchmarking wasn't enabled when building the node. " +:+
                        "You can enable it with `--features runtime-benchmarks`.")
  | BBlock => with_partial cmd config (fun client => Runs (RunWithClient cmd client))
  | BStorage => Refused "Storage benchmarking can be enabled with `--features runtime-benchmarks`."
  | BOverhead | BExtrinsic =>
      with_partial cmd config (fun client =>
        match inherent_benchmark_data with
        | Ok _ => Runs (RunWithClient cmd client)
        | Err e => Refused e
        end)
  | BMachine => Runs (RunWithConfig cmd config)
  end.

(** [run], built without [try-runtime] *)
Definition run (cli : Cli Cmd) : Outcome :=
  match subcommand cli with
  | Some (Key cmd) => Runs (RunKey cmd)
  | Some (BuildSpec cmd) | Some (PurgeChain cmd) | Some (ChainInfo cmd) =>
      with_runner cmd (fun config => Runs (RunWithConfig cmd config))
  | Some (CheckBlock cmd) | Some (ExportBlocks cmd) | Some (ExportState cmd) | Some (ImportBlocks cmd)
  | Some (Revert cmd) =>
      with_runner cmd (fun config => with_partial cmd config (fun client => Runs (RunWithClient cmd client)))
  | Some (Benchmark cmd which) => with_runner cmd (run_benchmark cmd which)
  | Some TryRuntime => Refused ("TryRuntime wasn't enabled when building the node. " +:+
                                "You can enable it with `--features try-runtime`.")
  | Some (Substrate _) => run_node (cli_run cli)
  | None => run_node (cli_run cli)
  end.

(** A node is brought up by no subcommand and by [substrate], which is
    documented as removing the chain, and by no other subcommand; and a node
    that is brought up has its network started. *)
Theorem run_starts_node (cli : Cli Cmd) (s : NodeState) :
  run cli = Runs (RunNode s) ->
  network_started s = true /\
  (subcommand cli = None \/ exists cmd, subcommand cli = Some (Substrate cmd)) /\
  run cli = run (mkCli _ None (cli_run cli)).
Proof.
  assert (forall cmd s, run_node cmd = Runs (RunNode s) -> network_started s = true) as Hnode.
  { intros cmd s'. unfold run_node, with_runner, outcome. destruct (create_runner cmd) as [config|e]; [|done].
    pose proof (new_full_started config) as Hn. destruct (new_full config new_node) as [[x|[e| |]] s1]; try done.
    intros [= <-]. by apply (Hn x). }
  unfold run. cbn [subcommand cli_run].
  destruct (subcommand cli) as [[cmd|cmd|cmd|cmd|cmd|cmd|cmd|cmd|cmd which| |cmd|cmd]|]; intros Hr; try done.
  all: try by (unfold with_runner in Hr; destruct (create_runner cmd); try done;
               unfold with_partial, outcome in Hr; repeat case_match).
  - unfold with_runner in Hr. destruct (create_runner cmd) as [config|e]; [|done].
    destruct which; cbn in Hr; try done; unfold with_partial, outcome in Hr; repeat case_match; done.
  - split_and!; [by eapply Hnode|right; by exists cmd|done].
  - split_and!; [by eapply Hnode|by left|done].
Qed.

End command.

(** ** Witness *)

Definition default_runner (config : Configuration) : result string Configuration := Ok config.
Definition substrate_cli : Cli Configuration := mkCli _ (Some (Substrate authority_config)) authority_config.
Definition authority_node : NodeState := (new_full authority_config new_node).2.

Definition sample_run : Cli Configuration -> Outcome := run default_runner 0%N (fun now d => Ok (d + now)%N).

Lemma run_starts_node_witness :
  network_started authority_node = true /\
  (subcommand substrate_cli = None \/ exists cmd, subcommand substrate_cli = Some (Substrate cmd)) /\
  sample_run substrate_cli = sample_run (mkCli _ None (cli_run substrate_cli)).
Proof.
  apply (run_starts_node default_runner 0%N (fun now d => Ok (d + now)%N) substrate_cli authority_node). vm_refl.
Defined.
