(* ===== verification/Pallet.v ===== *)
(** * Pallet

    The runtime side: the pallet of [pallets/hotstuff/src/lib.rs] (slots and the
    authority list in storage, the session and timestamp hooks, author lookup)
    and the digest items of [primitives/src/digests.rs]. *)

From S2P Require Import Prelude Primitives Concrete.
#[local] Open Scope hs_scope.

(** [enum ConsensusLog] *)
Inductive ConsensusLog (Id : Type) : Type :=
| AuthoritiesChange (authorities : list Id)
| OnDisabled (index : N).
Arguments AuthoritiesChange {Id} authorities.
Arguments OnDisabled {Id} index.

(** [ConsensusEngineId] is four bytes; [HOTSTUFF_ENGINE_ID]. *)
Abbreviation ConsensusEngineId := bytes.
Definition HOTSTUFF_ENGINE_ID : ConsensusEngineId := String.list_byte_of_string "HOTS".
#[global] Arguments HOTSTUFF_ENGINE_ID : simpl never.

(** [sp_runtime::generic::DigestItem] *)
Inductive DigestItem : Type :=
| PreRuntime (id : ConsensusEngineId) (data : bytes)
| Consensus (id : ConsensusEngineId) (data : bytes)
| Seal (id : ConsensusEngineId) (data : bytes)
| OtherItem (data : bytes)
| RuntimeEnvironmentUpdated.

(** [DigestItem::as_pre_runtime] *)
Definition as_pre_runtime (d : DigestItem) : option (ConsensusEngineId * bytes) :=
  match d with PreRuntime id data => Some (id, data) | _ => None end.

(** [trait Config], with the codecs of the runtime: [Moment] is an unsigned type
    of largest value [moment_max]; [is_disabled] is [DisabledValidators]. *)
Class Config := {
  Id : Type;
  Id_eq_dec :: EqDecision Id;
  MaxAuthorities : N;
  is_disabled : N -> bool;
  AllowMultipleBlocksPerSlot : bool;
  MinimumPeriod : N;
  moment_max : N;
  slot_codec :: Codec N;
  log_codec :: Codec (ConsensusLog Id);
}.

(** ** Digest items *)

Section digests.
Context {Signature : Type} `{!Codec Signature} `{!Codec N}.

(** [hotstuff_seal] *)
Definition hotstuff_seal (signature : Signature) : DigestItem := Seal HOTSTUFF_ENGINE_ID (encode signature).

(** [as_hotstuff_seal]: [seal_try_to] decodes when the engine id matches. *)
Definition as_hotstuff_seal (d : DigestItem) : option Signature :=
  match d with
  | Seal id data => if decide (id = HOTSTUFF_ENGINE_ID) then result_ok (decode data) else None
  | _ => None
  end.

(** [hotstuff_pre_digest] *)
Definition hotstuff_pre_digest (slot : N) : DigestItem := PreRuntime HOTSTUFF_ENGINE_ID (encode slot).

(** [as_hotstuff_pre_digest] *)
Definition as_hotstuff_pre_digest (d : DigestItem) : option N :=
  match d with
  | PreRuntime id data => if decide (id = HOTSTUFF_ENGINE_ID) then result_ok (decode data) else None
  | _ => None
  end.

End digests.

(** ** The pallet *)

Section pallet.
Context `{Config}.

(** The storage, and the digest of the block being built or executed. A value
    never written is absent; [get] answers its default. *)
Record Storage := mkStorage {
  Authorities : option (list Id);
  CurrentSlot : N;
  digest_logs : list DigestItem;
}.

Definition set_Authorities (l : list Id) (s : Storage) : Storage :=
  mkStorage (Some l) (CurrentSlot s) (digest_logs s).
Definition set_CurrentSlot (slot : N) (s : Storage) : Storage :=
  mkStorage (Authorities s) slot (digest_logs s).

(** [frame_system::Pallet::deposit_log] *)
Definition deposit_log (item : DigestItem) (s : Storage) : Storage :=
  mkStorage (Authorities s) (CurrentSlot s) (digest_logs s ++ [item]).

(** [Pallet::authorities] and [Authorities::decode_len] *)
Definition authorities (s : Storage) : list Id := default [] (Authorities s).
Definition decode_len (s : Storage) : option nat := length <$> Authorities s.

(** The panics of the pallet. *)
Inductive Panic : Type :=
| SlotMustNotDecrease
| SlotMustIncrease
| ValidatorDisabled (index : N)
| AlreadyInitialized
| TooManyAuthorities
| ZeroSlotDuration
| TimestampSlotMismatch
| RemainderByZero.

(** [*slot % n as u64] *)
Definition slot_author (slot : N) (n : nat) : result Panic N :=
  let len := u64_of_usize n in
  if (len =? 0)%N then Err RemainderByZero else Ok (slot mod len)%N.

(** [current_slot_from_digests] *)
Fixpoint find_slot (pre_runtime_digests : list (ConsensusEngineId * bytes)) : option N :=
  match pre_runtime_digests with
  | [] => None
  | (id, data) :: rest =>
      if decide (id = HOTSTUFF_ENGINE_ID) then result_ok (decode data) else find_slot rest
  end.

Definition current_slot_from_digests (s : Storage) : option N :=
  find_slot (omap as_pre_runtime (digest_logs s)).

(** [on_initialize]: the reads and writes of its weight, and the storage. *)
Definition on_initialize (s : Storage) : result Panic (nat * nat * Storage) :=
  match current_slot_from_digests s with
  | Some new_slot =>
      let current_slot := CurrentSlot s in
      (if AllowMultipleBlocksPerSlot then
         (if (current_slot <=? new_slot)%N then Ok tt else Err SlotMustNotDecrease)
       else
         (if (current_slot <? new_slot)%N then Ok tt else Err SlotMustIncrease)) ?;
      let s := set_CurrentSlot new_slot s in
      match decode_len s with
      | Some n_authorities =>
          let? authority_index := slot_author new_slot n_authorities in
          if is_disabled (u32_cast authority_index) then Err (ValidatorDisabled authority_index)
          else Ok (2, 1, s)%nat
      | None => Ok (2, 1, s)%nat
      end
  | None => Ok (1, 0, s)%nat
  end.

(** [change_authorities] *)
Definition change_authorities (new : list Id) (s : Storage) : Storage :=
  match new with
  | [] => s
  | _ => deposit_log (Consensus HOTSTUFF_ENGINE_ID (encode (AuthoritiesChange new))) (set_Authorities new s)
  end.

(** [initialize_authorities], also the body of the genesis build *)
Definition initialize_authorities (l : list Id) (s : Storage) : result Panic Storage :=
  match l with
  | [] => Ok s
  | _ =>
      match authorities s with
      | [] => if (N.of_nat (length l) <=? MaxAuthorities)%N then Ok (set_Authorities l s) else Err TooManyAuthorities
      | _ => Err AlreadyInitialized
      end
  end.

(** [MinimumPeriodTimesTwo::get]: [saturating_mul] *)
Definition MinimumPeriodTimesTwo : N := N.min (MinimumPeriod * 2) moment_max.

(** [slot_duration] without the [experimental] feature *)
Definition slot_duration : N := N.min (MinimumPeriod * 2) moment_max.

(** [do_try_state]; [None] is a panic (there is none: the length is checked). *)
Definition do_try_state (s : Storage) : option (result string unit) :=
  let current_slot := default (CurrentSlot s) (current_slot_from_digests s) in
  if negb AllowMultipleBlocksPerSlot && negb (current_slot <? u64_max)%N
  then Some (Err "Current slot has reached maximum value and cannot be incremented further."%string)
  else
    match decode_len s with
    | None => Some (Err "Failed to decode authorities length"%string)
    | Some O => Some (Err "Authorities must be non-empty."%string)
    | Some authorities_len =>
        match slot_author current_slot authorities_len with
        | Err _ => None
        | Ok authority_index =>
            if is_disabled (u32_cast authority_index)
            then Some (Err "Current validator is disabled and should not be attempting to author blocks."%string)
            else Some (Ok tt)
        end
    end.

(** [on_genesis_session]; validators are pairs of account and key. *)
Definition on_genesis_session {Account} (validators : list (Account * Id)) (s : Storage)
    : result Panic Storage :=
  initialize_authorities validators.*2 s.

(** [on_new_session] *)
Definition on_new_session {Account} (changed : bool) (validators : list (Account * Id)) (s : Storage) : Storage :=
  if changed then
    let next_authorities := validators.*2 in
    let last_authorities := authorities s in
    if negb (bool_decide (last_authorities = next_authorities))
    then change_authorities (take (N.to_nat MaxAuthorities) next_authorities) s
    else s
  else s.

(** [on_disabled] *)
Definition on_disabled (i : N) (s : Storage) : Storage :=
  deposit_log (Consensus HOTSTUFF_ENGINE_ID (encode (OnDisabled i : ConsensusLog Id))) s.

(** [FindAuthor<u32>::find_author] *)
Fixpoint find_author (s : Storage) (digests : list (ConsensusEngineId * bytes)) : result Panic (option N) :=
  match digests with
  | [] => Ok None
  | (id, data) :: rest =>
      if decide (id = HOTSTUFF_ENGINE_ID) then
        match decode data with
        | Err _ => Ok None
        | Ok slot =>
            let? author_index := slot_author slot (length (authorities s)) in
            Ok (Some (u32_cast author_index))
        end
      else find_author s rest
  end.

(** [FindAccountFromAuthorIndex::find_author] with the pallet as [Inner] *)
Definition find_author_id (s : Storage) (digests : list (ConsensusEngineId * bytes)) : result Panic (option Id) :=
  let? i := find_author s digests in
  Ok (i ≫= fun i => authorities s !! N.to_nat i).

(** [is_member] *)
Definition is_member (s : Storage) (authority_id : Id) : bool :=
  existsb (fun id => bool_decide (id = authority_id)) (authorities s).

(** [on_timestamp_set] *)
Definition on_timestamp_set (moment : N) (s : Storage) : result Panic unit :=
  if (slot_duration =? 0)%N then Err ZeroSlotDuration
  else
    let timestamp_slot := N.min (moment / slot_duration)%N u64_max in
    if (CurrentSlot s =? timestamp_slot)%N then Ok tt else Err TimestampSlotMismatch.

(** What the runtime calls on the pallet in the course of a chain: the start of
    a block with its digest, the session and genesis hooks. *)
Inductive Call : Type :=
| CallBlock (digest : list DigestItem)
| CallGenesis (l : list Id)
| CallGenesisSession (validators : list (unit * Id))
| CallNewSession (changed : bool) (validators : list (unit * Id))
| CallDisabled (i : N)
| CallTimestamp (moment : N).

(** A call; a panic discards the block. *)
Definition call (s : Storage) (c : Call) : result Panic Storage :=
  match c with
  | CallBlock digest =>
      let? r := on_initialize (mkStorage (Authorities s) (CurrentSlot s) digest) in Ok r.2
  | CallGenesis l => initialize_authorities l s
  | CallGenesisSession validators => on_genesis_session validators s
  | CallNewSession changed validators => Ok (on_new_session changed validators s)
  | CallDisabled i => Ok (on_disabled i s)
  | CallTimestamp moment => on_timestamp_set moment s ?; Ok s
  end.

Fixpoint calls (s : Storage) (cs : list Call) : result Panic Storage :=
  match cs with
  | [] => Ok s
  | c :: rest => let? s := call s c in calls s rest
  end.

End pallet.

(** ** Facts *)

Section facts.
Context `{Config}.
Implicit Types (s : Storage) (l : list Id).

(** The list, once written, is not empty and within the bound. *)
Definition storage_ok (s : Storage) : Prop :=
  forall l, Authorities s = Some l -> l <> [] /\ (N.of_nat (length l) <= MaxAuthorities)%N.

Lemma storage_ok_set l s :
  l <> [] -> (N.of_nat (length l) <= MaxAuthorities)%N -> storage_ok (set_Authorities l s).
Proof. intros Hne Hle l' [= <-]. done. Qed.

Lemma storage_ok_same s s' : Authorities s' = Authorities s -> storage_ok s -> storage_ok s'.
Proof. unfold storage_ok. by intros ->. Qed.

Lemma change_authorities_ok l s :
  (N.of_nat (length l) <= MaxAuthorities)%N -> storage_ok s -> storage_ok (change_authorities l s).
Proof.
  intros Hle Hok. destruct l as [|x l]; [done|]. cbn [change_authorities].
  eapply storage_ok_same; [done|]. by apply storage_ok_set.
Qed.

Lemma initialize_authorities_ok l s s' :
  initialize_authorities l s = Ok s' -> storage_ok s -> storage_ok s' /\ CurrentSlot s' = CurrentSlot s.
Proof.
  unfold initialize_authorities. destruct l as [|x l]; [by intros [= <-]|].
  destruct (authorities s); [|done].
  destruct (N.leb_spec (N.of_nat (length (x :: l))) MaxAuthorities); [|done].
  intros [= <-] _. split; [by apply storage_ok_set|done].
Qed.

Lemma on_new_session_ok {Account} changed (validators : list (Account * Id)) s :
  storage_ok s -> storage_ok (on_new_session changed validators s) /\
  CurrentSlot (on_new_session changed validators s) = CurrentSlot s.
Proof.
  intros Hok. unfold on_new_session. destruct changed; [|done]. destruct (negb _); [|done]. split.
  - apply change_authorities_ok; [|done]. rewrite length_take. lia.
  - unfold change_authorities. by destruct (take _ _).
Qed.

(** The slot condition of [on_initialize]. *)
Definition slot_advances (old new : N) : Prop :=
  if AllowMultipleBlocksPerSlot then (old <= new)%N else (old < new)%N.

Lemma slot_check_ok old new :
  (if AllowMultipleBlocksPerSlot then
     (if (old <=? new)%N then Ok tt else Err SlotMustNotDecrease)
   else (if (old <? new)%N then Ok tt else Err SlotMustIncrease)) = Ok tt <-> slot_advances old new.
Proof.
  unfold slot_advances. destruct AllowMultipleBlocksPerSlot.
  - destruct (N.leb_spec old new); split; intros; (done || lia).
  - destruct (N.ltb_spec old new); split; intros; (done || lia).
Qed.

Lemma slot_author_ok slot l i :
  l <> [] -> (N.of_nat (length l) < u64_modulus)%N ->
  slot_author slot (length l) = Ok i <-> i = (slot mod N.of_nat (length l))%N.
Proof.
  intros Hne Hlt. unfold slot_author, u64_of_usize. rewrite N.mod_small by done.
  rewrite (proj2 (N.eqb_neq _ _)) by (by destruct l; cbn; [|lia]).
  split; [by intros [= <-]|by intros ->].
Qed.

Lemma on_initialize_ok s r :
  on_initialize s = Ok r ->
  match current_slot_from_digests s with
  | None => r = (1, 0, s)%nat
  | Some slot => r = (2, 1, set_CurrentSlot slot s)%nat /\ slot_advances (CurrentSlot s) slot /\
      forall l, Authorities s = Some l -> exists i, slot_author slot (length l) = Ok i /\ is_disabled (u32_cast i) = false
  end.
Proof.
  unfold on_initialize. destruct (current_slot_from_digests s) as [slot|]; [|by intros [= <-]].
  intros ([] & Hc%slot_check_ok & Hr)%bind_ok. unfold decode_len in Hr. cbn in Hr.
  destruct (Authorities s) as [l|] eqn:HA; cbn in Hr.
  - apply bind_ok in Hr as (i & Hi & Hr). destruct (is_disabled _) eqn:Hd; [done|].
    injection Hr as <-. split_and!; try done. intros l' [= <-]. by exists i.
  - injection Hr as <-. done.
Qed.

Lemma call_ok s c s' :
  call s c = Ok s' -> storage_ok s -> storage_ok s' /\ (CurrentSlot s <= CurrentSlot s')%N.
Proof.
  destruct c as [digest|l|vs|changed vs|i|m]; cbn [call]; intros Hc Hok.
  - apply bind_ok in Hc as (r & Hr & [= <-]). apply on_initialize_ok in Hr.
    destruct (current_slot_from_digests _) as [slot|]; [|by subst r; split; [by eapply storage_ok_same|]].
    destruct Hr as (-> & Hadv & _). split; [by eapply storage_ok_same|].
    unfold slot_advances in Hadv. cbn in *. destruct AllowMultipleBlocksPerSlot; lia.
  - apply initialize_authorities_ok in Hc as [? ->]; [|done]. done.
  - apply initialize_authorities_ok in Hc as [? ->]; [|done]. done.
  - injection Hc as <-. destruct (on_new_session_ok changed vs s Hok) as [? ->]. done.
  - injection Hc as <-. split; [by eapply storage_ok_same|done].
  - apply bind_ok in Hc as (? & _ & [= <-]). done.
Qed.

Lemma calls_ok s cs s' :
  calls s cs = Ok s' -> storage_ok s -> storage_ok s' /\ (CurrentSlot s <= CurrentSlot s')%N.
Proof.
  revert s. induction cs as [|c cs IH]; intros s; cbn; [by intros [= <-]|].
  intros (s1 & Hc & Hcs)%bind_ok Hok. destruct (call_ok s c s1 Hc Hok) as [Hok1 Hle].
  destruct (IH s1 Hcs Hok1). split; [done|lia].
Qed.

Lemma existsb_elem (l : list Id) id :
  existsb (fun x => bool_decide (x = id)) l = true <-> id ∈ l.
Proof.
  rewrite existsb_exists. setoid_rewrite bool_decide_eq_true. setoid_rewrite <- list_elem_of_In. naive_solver.
Qed.

End facts.

(** ** Properties *)

Section properties.
Context `{Config}.

(** C34: Along every sequence of calls of the runtime that does not panic, from
    storage that was never written, the authority list is absent or else not
    empty and within [MaxAuthorities], and the current slot never goes back. *)
Theorem pallet_invariant (cs cs' : list Call) (logs : list DigestItem) (s s' : Storage) :
  calls (mkStorage None 0 logs) cs = Ok s -> calls s cs' = Ok s' ->
  storage_ok s /\ storage_ok s' /\ (CurrentSlot s <= CurrentSlot s')%N.
Proof.
  intros Hcs Hcs'. assert (storage_ok (mkStorage None 0 logs)) as H0 by done.
  destruct (calls_ok _ _ _ Hcs H0) as [Hok _]. by destruct (calls_ok _ _ _ Hcs' Hok).
Qed.

(** C35: [on_initialize] succeeds exactly when the block has no slot of this
    engine, or its slot advances (strictly, unless several blocks per slot are
    allowed) and the authority whose turn it is is not disabled; it then records
    the slot and changes nothing else. *)
Theorem on_initialize_exact (s : Storage) (l : list Id) (r : nat * nat * Storage) :
  Authorities s = Some l -> l <> [] -> (N.of_nat (length l) < u32_modulus)%N ->
  on_initialize s = Ok r <->
  match current_slot_from_digests s with
  | None => r = (1, 0, s)%nat
  | Some slot => r = (2, 1, set_CurrentSlot slot s)%nat /\ slot_advances (CurrentSlot s) slot /\
                 is_disabled (slot mod N.of_nat (length l)) = false
  end.
Proof.
  intros HA Hne Hlt. assert (N.of_nat (length l) < u64_modulus)%N as Hlt' by (unfold u32_modulus, u64_modulus in *; lia).
  assert (0 < length l)%nat as Hpos by (destruct l; cbn; [done|lia]).
  assert (forall slot, u32_cast (slot mod N.of_nat (length l)) = (slot mod N.of_nat (length l))%N) as Hcast.
  { intros slot. unfold u32_cast. apply N.mod_small. pose proof (N.mod_lt slot (N.of_nat (length l))). lia. }
  split.
  - intros Hr%on_initialize_ok. destruct (current_slot_from_digests s) as [slot|]; [|done].
    destruct Hr as (-> & Hadv & Hd). split_and!; try done. destruct (Hd l HA) as (i & Hi & Hdis).
    apply slot_author_ok in Hi as ->; [|done|done]. by rewrite Hcast in Hdis.
  - unfold on_initialize. destruct (current_slot_from_digests s) as [slot|]; [|by intros ->].
    intros (-> & Hadv & Hd). apply bind_ok. exists tt. split; [by apply slot_check_ok|].
    unfold decode_len. cbn. rewrite HA. cbn.
    rewrite (proj2 (slot_author_ok slot l _ Hne Hlt') eq_refl). cbn. by rewrite Hcast, Hd.
Qed.

(** The author that [find_author] reports for the digest of a block is the
    authority in turn for its slot, the same index that [on_initialize] refuses
    when it is disabled, and the key lookup over it always finds a member. *)
Theorem find_author_in_turn (s : Storage) (l : list Id) (slot : N) (digests : list (ConsensusEngineId * bytes)) :
  Authorities s = Some l -> l <> [] -> (N.of_nat (length l) < u32_modulus)%N ->
  find_slot digests = Some slot ->
  find_author s digests = Ok (Some (slot mod N.of_nat (length l))%N) /\
  exists id, find_author_id s digests = Ok (Some id) /\ is_member s id = true /\
    l !! N.to_nat (slot mod N.of_nat (length l)) = Some id.
Proof.
  intros HA Hne Hlt Hslot.
  assert (N.of_nat (length l) < u64_modulus)%N as Hlt' by (unfold u32_modulus, u64_modulus in *; lia).
  assert (0 < length l)%nat as Hpos by (destruct l; cbn; [done|lia]).
  pose proof (N.mod_lt slot (N.of_nat (length l)) ltac:(lia)) as Hmod.
  assert (authorities s = l) as Hauth by (unfold authorities; by rewrite HA).
  assert (find_author s digests = Ok (Some (slot mod N.of_nat (length l))%N)) as Hf.
  { induction digests as [|[id data] digests IH]; cbn in *; [done|].
    destruct (decide (id = HOTSTUFF_ENGINE_ID)); [|by apply IH].
    destruct (decode data) as [slot'|]; cbn in Hslot; [|done]. injection Hslot as ->.
    rewrite Hauth, (proj2 (slot_author_ok slot l _ Hne Hlt') eq_refl). cbn.
    unfold u32_cast. by rewrite N.mod_small by lia. }
  split; [done|]. destruct (lookup_lt_is_Some_2 l (N.to_nat (slot mod N.of_nat (length l)))) as [id Hid]; [lia|].
  exists id. unfold find_author_id. rewrite Hf. cbn. rewrite Hauth, Hid. split_and!; [done| |done].
  unfold is_member. rewrite Hauth. apply existsb_elem. by eapply list_elem_of_lookup_2.
Qed.

(** What a session change does. Unless the validators changed and their keys
    differ from the stored list, nothing. Otherwise the first [MaxAuthorities]
    keys are stored and announced in a consensus log that decodes to them; with
    no key left, nothing. *)
Theorem on_new_session_exact `{!CodecLaws (ConsensusLog Id)} {Account} (changed : bool)
    (validators : list (Account * Id)) (s : Storage) :
  let keys := take (N.to_nat MaxAuthorities) validators.*2 in
  let s' := on_new_session changed validators s in
  (changed = false \/ authorities s = validators.*2 \/ keys = [] -> s' = s) /\
  (changed = true -> authorities s <> validators.*2 -> keys <> [] ->
   Authorities s' = Some keys /\ CurrentSlot s' = CurrentSlot s /\
   exists data, digest_logs s' = digest_logs s ++ [Consensus HOTSTUFF_ENGINE_ID data] /\
     decode data = Ok (AuthoritiesChange keys)).
Proof.
  cbn zeta. unfold on_new_session. split.
  - intros [->|[->|Hk]]; [done| |].
    + destruct changed; [|done]. by rewrite bool_decide_true.
    + destruct changed; [|done]. destruct (negb _); [|done]. by rewrite Hk.
  - intros -> Hne Hk. rewrite bool_decide_false by done. cbn [negb].
    destruct (take _ _) as [|k keys]; [done|]. cbn. split_and!; try done.
    eexists. split; [done|]. apply decode_encode.
Qed.

(** The timestamp inherent passes exactly when the slot duration is not zero
    and the timestamp, divided by it and capped at [u64], is the slot that
    [on_initialize] recorded. *)
Theorem on_timestamp_set_exact (s : Storage) (moment : N) :
  on_timestamp_set moment s = Ok tt <->
  slot_duration <> 0%N /\ CurrentSlot s = N.min (moment / slot_duration) u64_max.
Proof.
  unfold on_timestamp_set. destruct (N.eqb_spec slot_duration 0) as [Hz|Hz]; [by split; [|intros [? _]]|].
  destruct (N.eqb_spec (CurrentSlot s) (N.min (moment / slot_duration) u64_max)); split; try done.
  by intros [_ ?].
Qed.

(** The state check never panics, and it passes after every block that
    [on_initialize] accepted with a slot, when authorities are stored and the
    slot is below the largest one. *)
Theorem try_state_after_initialize (s s' : Storage) (slot : N) (rw : nat * nat) :
  storage_ok s -> Authorities s <> None -> (MaxAuthorities < u32_modulus)%N ->
  current_slot_from_digests s = Some slot -> (slot < u64_max)%N ->
  on_initialize s = Ok (rw, s') -> do_try_state s' = Some (Ok tt).
Proof.
  intros Hok HA Hmax Hslot Hlt Hr%on_initialize_ok. rewrite Hslot in Hr. destruct Hr as (Heq & _ & Hd).
  injection Heq as -> ->. destruct (Authorities s) as [l|] eqn:HAs; [|done].
  destruct (Hd l eq_refl) as (i & Hi & Hdis). destruct (Hok l HAs) as [Hne Hle].
  unfold do_try_state. change (current_slot_from_digests (set_CurrentSlot slot s)) with (current_slot_from_digests s).
  rewrite Hslot. cbn [default from_option]. rewrite (proj2 (N.ltb_lt _ _)) by done. rewrite andb_false_r.
  unfold decode_len. cbn. rewrite HAs. cbn. destruct l as [|x l]; [done|]. cbn [length] in *.
  by rewrite Hi, Hdis.
Qed.

(** Digest items round trip: a pre-digest gives its slot back and a seal its
    signature, neither is mistaken for the other, and the pallet reads the slot
    of the first item that carries this engine's id. *)
Theorem digest_items_round_trip `{!CodecLaws N} {Signature : Type} `{!Codec Signature} `{!CodecLaws Signature}
    (slot : N) (signature : Signature) (s : Storage) :
  as_hotstuff_pre_digest (hotstuff_pre_digest slot) = Some slot /\
  as_hotstuff_seal (hotstuff_seal signature) = Some signature /\
  as_hotstuff_pre_digest (hotstuff_seal signature) = None /\
  as_hotstuff_seal (Signature := Signature) (hotstuff_pre_digest slot) = None /\
  forall before after, omap as_pre_runtime before = [] ->
    digest_logs s = before ++ hotstuff_pre_digest slot :: after -> current_slot_from_digests s = Some slot.
Proof.
  unfold as_hotstuff_pre_digest, as_hotstuff_seal, hotstuff_pre_digest, hotstuff_seal.
  rewrite !decide_True, !decode_encode by done. split_and!; try done.
  intros before after Hb Hl. unfold current_slot_from_digests. rewrite Hl, omap_app, Hb. cbn [app omap list_omap as_pre_runtime].
  cbn [find_slot]. by rewrite decide_True, decode_encode.
Qed.

End properties.

(** ** Witnesses *)

Definition pc_log : PCodec (ConsensusLog N) :=
  pcodec_iso (fun l => match l with AuthoritiesChange a => inl a | OnDisabled i => inr i end)
    (fun x => match x with inl a => AuthoritiesChange a | inr i => OnDisabled i end)
    (fun l => match l with AuthoritiesChange _ => eq_refl | OnDisabled _ => eq_refl end)
    (pcodec_sum (pcodec_list pcodec_N) pcodec_N).

(** Ten authorities at most, the one of index 7 disabled, slots of six seconds. *)
#[export] Instance sample_config : Config := {|
  Id := N;
  MaxAuthorities := 10;
  is_disabled i := (i =? 7)%N;
  AllowMultipleBlocksPerSlot := false;
  MinimumPeriod := 3000;
  moment_max := u64_max;
  slot_codec := codec_of pcodec_N;
  log_codec := codec_of pc_log;
|}.

#[export] Instance sample_slot_laws : @CodecLaws N slot_codec := codec_of_laws pcodec_N.
#[export] Instance sample_log_laws : @CodecLaws (ConsensusLog Id) log_codec := codec_of_laws pc_log.

Definition slot_digest (slot : N) : list DigestItem := [hotstuff_pre_digest slot].

Definition keys456 : list Id := [4; 5; 6]%N.
Definition two_validators : list (unit * Id) := [(tt, 1%N); (tt, 2%N)].

Definition sample_storage : Storage := mkStorage (Some keys456) 8 (slot_digest 11).

Lemma pallet_invariant_witness :
  let s := mkStorage (Some keys456) 8 (slot_digest 8) in
  let s' := mkStorage (Some keys456) 11 (slot_digest 11) in
  storage_ok s /\ storage_ok s' /\ (8 <= 11)%N.
Proof.
  apply (pallet_invariant [CallGenesis keys456; CallBlock (slot_digest 8); CallTimestamp 50000]
    [CallBlock (slot_digest 11)] []); vm_refl.
Defined.

Lemma on_initialize_exact_witness :
  on_initialize sample_storage = Ok (2, 1, set_CurrentSlot 11 sample_storage)%nat <->
  (2, 1, set_CurrentSlot 11 sample_storage)%nat = (2, 1, set_CurrentSlot 11 sample_storage)%nat /\
  slot_advances 8 11 /\ is_disabled (11 mod N.of_nat 3) = false.
Proof.
  apply (on_initialize_exact sample_storage keys456 (2, 1, set_CurrentSlot 11 sample_storage)%nat);
    [done|done|vm_refl].
Defined.

Lemma find_author_in_turn_witness :
  let digests := [(HOTSTUFF_ENGINE_ID, encode 11%N)] in
  find_author sample_storage digests = Ok (Some (11 mod N.of_nat 3)%N) /\
  exists id, find_author_id sample_storage digests = Ok (Some id) /\ is_member sample_storage id = true /\
    keys456 !! N.to_nat (11 mod N.of_nat 3) = Some id.
Proof.
  apply (find_author_in_turn sample_storage keys456 11%N [(HOTSTUFF_ENGINE_ID, encode 11%N)]);
    [done|done|vm_refl|vm_refl].
Defined.

Lemma on_new_session_exact_witness :
  let validators := two_validators in
  let keys := take (N.to_nat MaxAuthorities) validators.*2 in
  let s' := on_new_session true validators sample_storage in
  (true = false \/ keys456 = two_validators.*2 \/ keys = [] -> s' = sample_storage) /\
  (true = true -> keys456 <> two_validators.*2 -> keys <> [] ->
   Authorities s' = Some keys /\ CurrentSlot s' = 8%N /\
   exists data, digest_logs s' = slot_digest 11 ++ [Consensus HOTSTUFF_ENGINE_ID data] /\
     decode data = Ok (AuthoritiesChange keys)).
Proof. apply (on_new_session_exact true two_validators sample_storage). Defined.

Lemma try_state_after_initialize_witness :
  do_try_state (set_CurrentSlot 11 sample_storage) = Some (Ok tt).
Proof.
  apply (try_state_after_initialize sample_storage (set_CurrentSlot 11 sample_storage) 11 (2, 1)%nat);
    [|done|vm_refl|vm_refl|vm_refl|vm_refl].
  intros l [= <-]. done.
Defined.

Lemma digest_items_round_trip_witness :
  as_hotstuff_pre_digest (hotstuff_pre_digest 11) = Some 11%N /\
  as_hotstuff_seal (hotstuff_seal 3%N) = Some 3%N /\
  as_hotstuff_pre_digest (hotstuff_seal 3%N) = None /\
  as_hotstuff_seal (Signature := N) (hotstuff_pre_digest 11) = None /\
  forall before after, omap as_pre_runtime before = [] ->
    slot_digest 11 = before ++ hotstuff_pre_digest 11 :: after ->
    current_slot_from_digests sample_storage = Some 11%N.
Proof. apply (digest_items_round_trip 11%N 3%N sample_storage). Defined.
