(* ===== verification/Runtime.v ===== *)
(** * Runtime

    The runtime of [node-template/runtime/src/lib.rs] around the pallet: its time
    constants, the values it configures the pallets with, and the runtime API of
    the consensus. Also the weights of [pallets/hotstuff/src/weights.rs]. Which
    hooks the executive runs, and what extrinsics of root may write, is code of
    other crates. *)

From S2P Require Import Prelude Primitives Concrete Pallet.
#[local] Open Scope hs_scope.

(** ** Constants *)

(** [BlockNumber] is [u32]: products wrap at its width. *)
Definition u32_mul (a b : N) : N := u32_cast (a * b).

Definition MILLISECS_PER_BLOCK : N := 6000.
Definition SLOT_DURATION : N := MILLISECS_PER_BLOCK.

Definition MINUTES : N := (60000 / u32_cast MILLISECS_PER_BLOCK)%N.
Definition HOURS : N := u32_mul MINUTES 60.
Definition DAYS : N := u32_mul HOURS 24.

Definition BlockHashCount : N := 2400.
Definition SS58Prefix : N := 42.
Definition EXISTENTIAL_DEPOSIT : N := 500.

(** [sp_version::RuntimeVersion], without the list of API versions that the
    runtime macro fills in. *)
Record RuntimeVersion := mkRuntimeVersion {
  spec_name : string;
  impl_name : string;
  authoring_version : N;
  spec_version : N;
  impl_version : N;
  transaction_version : N;
  state_version : N;
}.

Definition VERSION : RuntimeVersion := mkRuntimeVersion "node-template" "node-template" 1 100 1 1 1.

(** ** Weights *)

(** [Weight] of the support crate with what the weights are made of: parts, and
    the cost of database accesses. *)
Class Weights := {
  Weight : Type;
  from_parts : N -> N -> Weight;
  saturating_add : Weight -> Weight -> Weight;
  RuntimeDbWeight : Type;
  db_reads : RuntimeDbWeight -> N -> Weight;
  db_writes : RuntimeDbWeight -> N -> Weight;
  RocksDbWeight : RuntimeDbWeight;
}.

(** [trait WeightInfo] *)
Record WeightInfo `{Weights} := mkWeightInfo { do_something : Weight; cause_error : Weight }.

(** [SubstrateWeight<T>], by [T::DbWeight] *)
Definition SubstrateWeight `{Weights} (DbWeight : RuntimeDbWeight) : WeightInfo := mkWeightInfo _
  (saturating_add (from_parts 9000000 0) (db_writes DbWeight 1))
  (saturating_add (saturating_add (from_parts 6000000 1489) (db_reads DbWeight 1)) (db_writes DbWeight 1)).

(** [impl WeightInfo for ()] *)
Definition unit_WeightInfo `{Weights} : WeightInfo := mkWeightInfo _
  (saturating_add (from_parts 9000000 0) (db_writes RocksDbWeight 1))
  (saturating_add (saturating_add (from_parts 6000000 1489) (db_reads RocksDbWeight 1)) (db_writes RocksDbWeight 1)).

(** ** The pallets *)

(** [pallet_timestamp::Config] *)
Definition timestamp_MinimumPeriod : N := (SLOT_DURATION / 2)%N.

(** [NORMAL_DISPATCH_RATIO] in percent, and the limits of a block made with it: two
    seconds of [WEIGHT_REF_TIME_PER_SECOND] picoseconds and any proof size, and
    five megabytes. *)
Definition NORMAL_DISPATCH_RATIO : N := 75.
Definition WEIGHT_REF_TIME_PER_SECOND : N := 1000000000000.
Definition BlockWeights_max : N * N := ((2 * WEIGHT_REF_TIME_PER_SECOND)%N, u64_max).
Definition BlockLength_max : N := (5 * 1024 * 1024)%N.

(** [frame_system::Config for Runtime], the values it sets. *)
Record SystemConfig := mkSystemConfig {
  system_BlockHashCount : N;
  system_SS58Prefix : N;
  system_MaxConsumers : N;
  system_BlockWeights : N * N;
  system_BlockLength : N;
  system_Version : RuntimeVersion;
}.
Definition Runtime_system : SystemConfig :=
  mkSystemConfig BlockHashCount SS58Prefix 16 BlockWeights_max BlockLength_max VERSION.

(** [pallet_aura::Config for Runtime]; nobody is disabled by [()]. *)
Record AuraPalletConfig := mkAuraPalletConfig {
  aura_MaxAuthorities : N;
  aura_is_disabled : N -> bool;
  aura_AllowMultipleBlocksPerSlot : bool;
}.
Definition Runtime_aura : AuraPalletConfig := mkAuraPalletConfig 32 (fun _ => false) false.

(** [pallet_balances::Config for Runtime]; a bound of [()] is 0. *)
Record BalancesPalletConfig := mkBalancesPalletConfig {
  MaxLocks : N;
  MaxReserves : N;
  ExistentialDeposit : N;
  MaxFreezes : N;
  MaxHolds : N;
}.
Definition Runtime_balances : BalancesPalletConfig := mkBalancesPalletConfig 50 0 EXISTENTIAL_DEPOSIT 0 0.

(** [pallet_transaction_payment::Config for Runtime]: fees are the weight (its
    time) and the length themselves, and the multiplier is always one. *)
Record PaymentConfig := mkPaymentConfig {
  OperationalFeeMultiplier : N;
  WeightToFee : N -> N;
  LengthToFee : N -> N;
  FeeMultiplier : N;
}.
Definition Runtime_payment : PaymentConfig := mkPaymentConfig 5 (fun w => w) (fun l => l) 1.

(** [pallet_hotstuff::Config for Runtime]; nobody is disabled by [()]. *)
Definition Runtime_hotstuff (HotstuffId : Type) `{!EqDecision HotstuffId} `{!Codec N}
    `{!Codec (ConsensusLog HotstuffId)} : Config := {|
  Id := HotstuffId;
  MaxAuthorities := 32;
  is_disabled _ := false;
  AllowMultipleBlocksPerSlot := false;
  MinimumPeriod := timestamp_MinimumPeriod;
  moment_max := u64_max;
|}.

Section runtime.
Context {HotstuffId : Type} `{!EqDecision HotstuffId} `{!Codec N} `{!Codec (ConsensusLog HotstuffId)}.
#[local] Instance runtime_config : Config := Runtime_hotstuff HotstuffId.

(** The storage that the genesis configuration of the pallet builds. *)
Definition genesis_storage (authorities : list HotstuffId) : result Panic Storage :=
  initialize_authorities authorities (mkStorage None 0 []).

(** [HotstuffApi for Runtime] *)
Definition HotstuffApi_slot_duration : N := slot_duration.
Definition HotstuffApi_authorities (s : Storage) : list HotstuffId := authorities s.

(** The slot duration the API answers is the block time of the runtime, six
    seconds: halving it for the minimum period and doubling it again loses
    nothing, and nothing saturates. *)
Theorem runtime_slot_duration :
  HotstuffApi_slot_duration = SLOT_DURATION /\ SLOT_DURATION = 6000%N /\
  (MINUTES * SLOT_DURATION = 60 * 1000)%N /\ (HOURS * SLOT_DURATION = 60 * 60 * 1000)%N /\
  (DAYS * SLOT_DURATION = 24 * 60 * 60 * 1000)%N.
Proof. by split_and!. Qed.

End runtime.
