(* ===== verification/Apis.v ===== *)
(** * Apis

    The runtime APIs of [node-template/runtime/src/lib.rs]: the methods of
    [impl_runtime_apis!], the names a node calls them by and what each of them
    runs. The dispatch by name is generated by [sp_api] and not modelled. Also the
    session keys of the runtime. *)

From S2P Require Import Prelude Primitives Concrete Pallet Runtime.
#[local] Open Scope hs_scope.

(** ** Methods *)

(** The methods of [impl_runtime_apis!], without the features runtime-benchmarks
    and try-runtime, in order. *)
Inductive ApiMethod : Type :=
| Core_version | Core_execute_block | Core_initialize_block
| Metadata_metadata | Metadata_metadata_at_version | Metadata_metadata_versions
| BlockBuilder_apply_extrinsic | BlockBuilder_finalize_block | BlockBuilder_inherent_extrinsics
| BlockBuilder_check_inherents
| TaggedTransactionQueue_validate_transaction
| OffchainWorkerApi_offchain_worker
| AuraApi_slot_duration | AuraApi_authorities
| HotstuffApi_slot_duration_method | HotstuffApi_authorities_method
| SessionKeys_generate_session_keys | SessionKeys_decode_session_keys
| AccountNonceApi_account_nonce
| TransactionPaymentApi_query_info | TransactionPaymentApi_query_fee_details
| TransactionPaymentApi_query_weight_to_fee | TransactionPaymentApi_query_length_to_fee
| TransactionPaymentCallApi_query_call_info | TransactionPaymentCallApi_query_call_fee_details
| TransactionPaymentCallApi_query_weight_to_fee | TransactionPaymentCallApi_query_length_to_fee.

#[global] Instance ApiMethod_eq_dec : EqDecision ApiMethod.
Proof. solve_decision. Defined.

Definition api_methods : list ApiMethod :=
  [Core_version; Core_execute_block; Core_initialize_block;
   Metadata_metadata; Metadata_metadata_at_version; Metadata_metadata_versions;
   BlockBuilder_apply_extrinsic; BlockBuilder_finalize_block; BlockBuilder_inherent_extrinsics;
   BlockBuilder_check_inherents;
   TaggedTransactionQueue_validate_transaction;
   OffchainWorkerApi_offchain_worker;
   AuraApi_slot_duration; AuraApi_authorities;
   HotstuffApi_slot_duration_method; HotstuffApi_authorities_method;
   SessionKeys_generate_session_keys; SessionKeys_decode_session_keys;
   AccountNonceApi_account_nonce;
   TransactionPaymentApi_query_info; TransactionPaymentApi_query_fee_details;
   TransactionPaymentApi_query_weight_to_fee; TransactionPaymentApi_query_length_to_fee;
   TransactionPaymentCallApi_query_call_info; TransactionPaymentCallApi_query_call_fee_details;
   TransactionPaymentCallApi_query_weight_to_fee; TransactionPaymentCallApi_query_length_to_fee].

(** The trait and the function of a method. *)
Definition api_path (m : ApiMethod) : string * string :=
  match m with
  | Core_version => ("Core", "version")
  | Core_execute_block => ("Core", "execute_block")
  | Core_initialize_block => ("Core", "initialize_block")
  | Metadata_metadata => ("Metadata", "metadata")
  | Metadata_metadata_at_version => ("Metadata", "metadata_at_version")
  | Metadata_metadata_versions => ("Metadata", "metadata_versions")
  | BlockBuilder_apply_extrinsic => ("BlockBuilder", "apply_extrinsic")
  | BlockBuilder_finalize_block => ("BlockBuilder", "finalize_block")
  | BlockBuilder_inherent_extrinsics => ("BlockBuilder", "inherent_extrinsics")
  | BlockBuilder_check_inherents => ("BlockBuilder", "check_inherents")
  | TaggedTransactionQueue_validate_transaction => ("TaggedTransactionQueue", "validate_transaction")
  | OffchainWorkerApi_offchain_worker => ("OffchainWorkerApi", "offchain_worker")
  | AuraApi_slot_duration => ("AuraApi", "slot_duration")
  | AuraApi_authorities => ("AuraApi", "authorities")
  | HotstuffApi_slot_duration_method => ("HotstuffApi", "slot_duration")
  | HotstuffApi_authorities_method => ("HotstuffApi", "authorities")
  | SessionKeys_generate_session_keys => ("SessionKeys", "generate_session_keys")
  | SessionKeys_decode_session_keys => ("SessionKeys", "decode_session_keys")
  | AccountNonceApi_account_nonce => ("AccountNonceApi", "account_nonce")
  | TransactionPaymentApi_query_info => ("TransactionPaymentApi", "query_info")
  | TransactionPaymentApi_query_fee_details => ("TransactionPaymentApi", "query_fee_details")
  | TransactionPaymentApi_query_weight_to_fee => ("TransactionPaymentApi", "query_weight_to_fee")
  | TransactionPaymentApi_query_length_to_fee => ("TransactionPaymentApi", "query_length_to_fee")
  | TransactionPaymentCallApi_query_call_info => ("TransactionPaymentCallApi", "query_call_info")
  | TransactionPaymentCallApi_query_call_fee_details => ("TransactionPaymentCallApi", "query_call_fee_details")
  | TransactionPaymentCallApi_query_weight_to_fee => ("TransactionPaymentCallApi", "query_weight_to_fee")
  | TransactionPaymentCallApi_query_length_to_fee => ("TransactionPaymentCallApi", "query_length_to_fee")
  end%string.

(** The name under which the macro exports a method: trait, underscore, function. *)
Definition api_name (m : ApiMethod) : string := (api_path m).1 +:+ "_" +:+ (api_path m).2.

(** ** What the methods run *)

(** The functions of other crates the methods hand their arguments to. *)
Inductive Delegate : Type :=
| Executive_execute_block | Executive_initialize_block | Executive_apply_extrinsic | Executive_finalize_block
| Executive_validate_transaction | Executive_offchain_worker
| Runtime_metadata | Runtime_metadata_at_version | Runtime_metadata_versions
| InherentData_create_extrinsics | InherentData_check_extrinsics
| Aura_slot_duration | Aura_authorities
| SessionKeys_generate
| System_account_nonce
| Payment_query_info | Payment_query_fee_details | Payment_query_call_info | Payment_query_call_fee_details
| Payment_weight_to_fee | Payment_length_to_fee.

(** [sp_core::crypto::KeyTypeId] of the keys of the runtime. *)
Definition AURA : string := "aura".
Definition HOTSTUFF_KEY_TYPE : string := "hots".

(** [opaque::SessionKeys], with the raw keys. *)
Record SessionKeys := mkSessionKeys { session_aura : bytes; session_hotstuff : bytes }.

(** What [impl_opaque_keys!] makes of the structure: the raw keys with their types,
    in the order of the fields. *)
Definition into_raw_public_keys (keys : SessionKeys) : list (bytes * string) :=
  [(session_aura keys, AURA); (session_hotstuff keys, HOTSTUFF_KEY_TYPE)].

Definition decode_into_raw_public_keys `{!Codec SessionKeys} (encoded : bytes) : option (list (bytes * string)) :=
  match decode encoded with Ok keys => Some (into_raw_public_keys keys) | Err _ => None end.

(** The state of the runtime at a block, of which the storage of the consensus
    pallet is a part, and the functions of other crates on it: they take the
    encoded arguments and answer the encoded result, or trap. *)
Class Frame (HotstuffId : Type) `{!EqDecision HotstuffId} `{!Codec N} `{!Codec (ConsensusLog HotstuffId)} := {
  RuntimeState : Type;
  hotstuff_storage : RuntimeState -> @Storage (Runtime_hotstuff HotstuffId);
  delegate : Delegate -> bytes -> RuntimeState -> result string (bytes * RuntimeState);
  version_codec :: Codec RuntimeVersion;
  keys_codec :: Codec SessionKeys;
  raw_keys_codec :: Codec (option (list (bytes * string)));
  bytes_codec :: Codec bytes;
}.

Section apis.
Context {HotstuffId : Type} `{!EqDecision HotstuffId} `{!Codec N} `{!Codec (ConsensusLog HotstuffId)}.
Context `{!Codec (list HotstuffId)} `{!Frame HotstuffId}.
#[local] Instance apis_config : Config := Runtime_hotstuff HotstuffId.

(** The body of a method, on its encoded arguments. *)
Definition run_api (m : ApiMethod) (data : bytes) (st : RuntimeState) : result string (bytes * RuntimeState) :=
  match m with
  | Core_version => Ok (encode VERSION, st)
  | Core_execute_block => delegate Executive_execute_block data st
  | Core_initialize_block => delegate Executive_initialize_block data st
  | Metadata_metadata => delegate Runtime_metadata data st
  | Metadata_metadata_at_version => delegate Runtime_metadata_at_version data st
  | Metadata_metadata_versions => delegate Runtime_metadata_versions data st
  | BlockBuilder_apply_extrinsic => delegate Executive_apply_extrinsic data st
  | BlockBuilder_finalize_block => delegate Executive_finalize_block data st
  | BlockBuilder_inherent_extrinsics => delegate InherentData_create_extrinsics data st
  | BlockBuilder_check_inherents => delegate InherentData_check_extrinsics data st
  | TaggedTransactionQueue_validate_transaction => delegate Executive_validate_transaction data st
  | OffchainWorkerApi_offchain_worker => delegate Executive_offchain_worker data st
  | AuraApi_slot_duration => delegate Aura_slot_duration data st
  | AuraApi_authorities => delegate Aura_authorities data st
  | HotstuffApi_slot_duration_method => Ok (encode HotstuffApi_slot_duration, st)
  | HotstuffApi_authorities_method => Ok (encode (HotstuffApi_authorities (hotstuff_storage st)), st)
  | SessionKeys_generate_session_keys => delegate SessionKeys_generate data st
  | SessionKeys_decode_session_keys =>
      let? encoded := decode data : result string bytes in
      Ok (encode (decode_into_raw_public_keys encoded), st)
  | AccountNonceApi_account_nonce => delegate System_account_nonce data st
  | TransactionPaymentApi_query_info => delegate Payment_query_info data st
  | TransactionPaymentApi_query_fee_details => delegate Payment_query_fee_details data st
  | TransactionPaymentApi_query_weight_to_fee => delegate Payment_weight_to_fee data st
  | TransactionPaymentApi_query_length_to_fee => delegate Payment_length_to_fee data st
  | TransactionPaymentCallApi_query_call_info => delegate Payment_query_call_info data st
  | TransactionPaymentCallApi_query_call_fee_details => delegate Payment_query_call_fee_details data st
  | TransactionPaymentCallApi_query_weight_to_fee => delegate Payment_weight_to_fee data st
  | TransactionPaymentCallApi_query_length_to_fee => delegate Payment_length_to_fee data st
  end.

Definition native_version : RuntimeVersion := VERSION.
Definition ExecutorDispatch_native_version : RuntimeVersion := native_version.

(** No two methods have one name. *)
Lemma api_names_nodup : NoDup (api_name <$> api_methods).
Proof. vm_decide. Qed.

Lemma api_methods_all m : m ∈ api_methods.
Proof. destruct m; vm_decide. Qed.

(** A name is that of one method. *)
Lemma api_name_found m : List.find (fun m' => (api_name m' =? api_name m)%string) api_methods = Some m.
Proof.
  pose proof api_names_nodup as Hnd. pose proof (api_methods_all m) as Hin.
  induction api_methods as [|m' l IH]; [by apply elem_of_nil in Hin|]. cbn.
  destruct (String.eqb_spec (api_name m') (api_name m)) as [Heq|Hne].
  - apply elem_of_cons in Hin as [->|Hin]; [done|]. cbn in Hnd. apply NoDup_cons in Hnd as [Hn _].
    destruct Hn. rewrite Heq. by apply list_elem_of_fmap_2.
  - apply elem_of_cons in Hin as [->|Hin]; [done|]. cbn in Hnd. apply NoDup_cons in Hnd as [_ Hnd]. by apply IH.
Qed.

(** Session keys are decoded into the raw keys with the types under which the
    keystore has them, and refused when they are not well-formed. *)
Theorem session_keys_decoded `{!CodecLaws SessionKeys} `{!CodecLaws bytes} (keys : SessionKeys) (st : RuntimeState) :
  run_api SessionKeys_decode_session_keys (encode (encode keys)) st =
  Ok (encode (Some [(session_aura keys, AURA); (session_hotstuff keys, HOTSTUFF_KEY_TYPE)]), st).
Proof. cbn [run_api]. rewrite decode_encode. cbn. unfold decode_into_raw_public_keys. by rewrite decode_encode. Qed.

End apis.

(** ** Codecs for the concrete platform *)

Definition pc_string : PCodec string :=
  pcodec_iso (list_byte_of_string) (string_of_list_byte) string_of_list_byte_of_string pcodec_bytes.
Definition pc_raw_keys : PCodec (option (list (bytes * string))) :=
  pcodec_option (pcodec_list (pcodec_pair pcodec_bytes pc_string)).
Definition pc_session_keys : PCodec SessionKeys :=
  pcodec_iso (fun k => (session_aura k, session_hotstuff k)) (fun '(a, h) => mkSessionKeys a h)
    (fun k => match k with mkSessionKeys _ _ => eq_refl end) (pcodec_pair pcodec_bytes pcodec_bytes).
Definition pc_version : PCodec RuntimeVersion :=
  pcodec_iso (fun v => (spec_name v, impl_name v, authoring_version v, spec_version v, impl_version v,
                        transaction_version v, state_version v))
    (fun '(a, b, c, d, e, f, g) => mkRuntimeVersion a b c d e f g)
    (fun v => match v with mkRuntimeVersion _ _ _ _ _ _ _ => eq_refl end)
    (pcodec_pair (pcodec_pair (pcodec_pair (pcodec_pair (pcodec_pair (pcodec_pair pc_string pc_string) pcodec_N)
      pcodec_N) pcodec_N) pcodec_N) pcodec_N).
