(* ===== verification/ChainSpec.v ===== *)
(** * ChainSpec

    The chain specifications of [node-template/node/src/chain_spec.rs], the
    choice among them in [command.rs], and what the consensus makes of them: the
    keys of the specification become the authorities of the replica through the
    genesis of the pallet, the runtime API and [start_hotstuff]. *)

From S2P Require Import Prelude Primitives Messages Concrete Quorum Aggregator Synchronizer State Network BlockImport Worker WorkerFacts Replica Startup Pallet Runtime Apis.
#[local] Open Scope hs_scope.

(** Key derivation of the crypto crates: [Pair::from_string] and the public key of
    the pair, for each scheme; an account is made of a public key. *)
Class KeyDerivation `{Crypto} := {
  AuraId : Type;
  Sr25519Public : Type;
  AccountId : Type;
  aura_from_string : string -> option AuraId;
  hotstuff_from_string : string -> option AuthorityId;
  sr25519_from_string : string -> option Sr25519Public;
  into_account : Sr25519Public -> AccountId;
}.

Section chain_spec.
Context `{KeyDerivation}.

(** [get_from_seed], on the derivation of its type; [None] is the panic of
    [expect]. *)
Definition get_from_seed {TPublic : Type} (from_string : string -> option TPublic) (seed : string) : option TPublic :=
  from_string ("//" +:+ seed).

(** [get_account_id_from_seed::<sr25519::Public>] *)
Definition get_account_id_from_seed (seed : string) : option AccountId :=
  into_account <$> get_from_seed sr25519_from_string seed.

(** [authority_keys_from_seed] *)
Definition authority_keys_from_seed (s : string) : option (AuraId * AuthorityId) :=
  aura ← get_from_seed aura_from_string s;
  hotstuff ← get_from_seed hotstuff_from_string s;
  Some (aura, hotstuff).

(** The fields of [RuntimeGenesisConfig] that are set; the others are defaults. *)
Record RuntimeGenesisConfig := mkRuntimeGenesisConfig {
  system_code : bytes;
  balances : list (AccountId * N);
  aura_authorities : list AuraId;
  sudo_key : option AccountId;
  hotstuff_authorities : list AuthorityId;
}.

(** [testnet_genesis] *)
Definition testnet_genesis (wasm_binary : bytes) (initial_authorities : list (AuraId * AuthorityId))
    (root_key : AccountId) (endowed_accounts : list AccountId) (_enable_println : bool) : RuntimeGenesisConfig :=
  mkRuntimeGenesisConfig wasm_binary
    ((fun k => (k, N.shiftl 1 60)) <$> endowed_accounts)
    initial_authorities.*1
    (Some root_key)
    initial_authorities.*2.

(** [sc_service::ChainType], the two used. *)
Inductive ChainType : Type := Development | Local.

(** What a specification is made with; the genesis is a closure, which panics
    when a key cannot be derived. *)
Record ChainSpec := mkChainSpec {
  spec_title : string;
  spec_id : string;
  chain_type : ChainType;
  spec_genesis : unit -> option RuntimeGenesisConfig;
  boot_nodes : list string;
  telemetry_endpoints : option string;
  protocol_id : option string;
  fork_id : option string;
}.

(** [vec![f(a), f(b), ..]], where [f] may panic. *)
Definition all_keys {X} (f : string -> option X) (seeds : list string) : option (list X) := mapM f seeds.

Definition dev_seeds : list string := ["Alice"; "Bob"].
Definition local_seeds : list string := ["Alice"; "Bob"; "Charlie"; "Dave"; "Eve"; "Ferdie"].

(** The genesis of a specification, by its seeds; the accounts are those of the
    seeds and their stashes. *)
Definition seeds_genesis (wasm_binary : bytes) (seeds : list string) : option RuntimeGenesisConfig :=
  keys ← all_keys authority_keys_from_seed seeds;
  root ← get_account_id_from_seed "Alice";
  accounts ← all_keys get_account_id_from_seed (seeds ++ ((fun s => s +:+ "//stash") <$> seeds));
  Some (testnet_genesis wasm_binary keys root accounts true).

Variable WASM_BINARY : option bytes.

(** [development_config] *)
Definition development_config : result string ChainSpec :=
  let? wasm_binary := ok_or WASM_BINARY "Development wasm not available"%string in
  Ok (mkChainSpec "Development" "dev" Development (fun _ => seeds_genesis wasm_binary dev_seeds) [] None None None).

(** [local_testnet_config] *)
Definition local_testnet_config : result string ChainSpec :=
  let? wasm_binary := ok_or WASM_BINARY "Development wasm not available"%string in
  Ok (mkChainSpec "Local Testnet" "local_testnet" Local (fun _ => seeds_genesis wasm_binary local_seeds) [] None None None).

(** [SubstrateCli::load_spec]; [from_json_file] reads any other specification. *)
Definition load_spec (from_json_file : string -> result string ChainSpec) (id : string) : result string ChainSpec :=
  if (id =? "dev")%string then development_config
  else if (id =? "")%string || (id =? "local")%string then local_testnet_config
  else from_json_file id.

End chain_spec.

(** ** From the specification to the replica *)

Section genesis.
Context `{KeyDerivation}.

Lemma all_keys_fst_snd seeds keys :
  all_keys authority_keys_from_seed seeds = Some keys ->
  all_keys (get_from_seed aura_from_string) seeds = Some keys.*1 /\
  all_keys (get_from_seed hotstuff_from_string) seeds = Some keys.*2.
Proof.
  unfold all_keys. revert keys. induction seeds as [|seed seeds IH]; intros keys; cbn; [by intros [= <-]|].
  intros (k & (a & Ha & (h & Hh & [= <-])%bind_Some)%bind_Some & (ks & Hks & [= <-])%bind_Some)%bind_Some.
  destruct (IH ks Hks) as [Hf Hs]. rewrite Ha, Hh, Hf, Hs. done.
Qed.

Lemma all_keys_total {X} (f : string -> option X) seeds :
  (forall s, s ∈ seeds -> is_Some (f s)) -> exists l, all_keys f seeds = Some l /\ length l = length seeds.
Proof.
  unfold all_keys. intros Hf. destruct (mapM f seeds) as [l|] eqn:Hm.
  - exists l. split; [done|]. symmetry. by apply (length_mapM f).
  - apply mapM_None_1, Exists_exists in Hm as (s & Hin & Hs). destruct (Hf s Hin) as [x Hx]. congruence.
Qed.

(** Different seeds give different keys. *)
Definition distinct_keys {X} (f : string -> option X) (seeds : list string) : Prop :=
  forall s s' x, s ∈ seeds -> s' ∈ seeds -> f s = Some x -> f s' = Some x -> s = s'.

Lemma all_keys_nodup {X} (f : string -> option X) seeds l :
  distinct_keys f seeds -> NoDup seeds -> all_keys f seeds = Some l -> NoDup l.
Proof.
  intros Hinj Hnd Hm. unfold all_keys in Hm. apply mapM_Some_1 in Hm.
  induction Hm as [|s x seeds l Hs Hm IH]; [constructor|]. apply NoDup_cons in Hnd as [Hn Hnd].
  apply NoDup_cons. split; [|apply IH; [|done]].
  - intros Hin. apply Hn. apply list_elem_of_lookup in Hin as [i Hi].
    destruct (Forall2_lookup_r _ _ _ _ _ Hm Hi) as (s' & Hs'%list_elem_of_lookup_2 & Hx).
    rewrite (Hinj s s' x); [done|set_solver..|done|done].
  - intros s1 s2 y ? ?. apply Hinj; set_solver.
Qed.

End genesis.

Section starting.
Context `{MessageCodecs} `{!ClientForHotstuff} `{!RuntimeApi} `{!Environment} `{!KeyDerivation}.
Context `{!Codec N} `{!Codec (ConsensusLog AuthorityId)} `{!CodecLaws (list AuthorityId)} `{!Frame AuthorityId}.
Context `{!AuxStoreLaws} `{!CodecLaws Proposal} `{!KeystoreLaws}.

(** The node runs the specification: the client has its genesis block, and a call
    into the runtime there by the name of a method answers what the method answers
    on the state that the genesis configuration builds. *)
Definition runs_spec (spec : ChainSpec) (c : Client) : Prop :=
  exists g s h st, spec_genesis spec tt = Some g /\ genesis_storage (hotstuff_authorities g) = Ok s /\
    expect_block_hash_from_id c 0 = Ok h /\ hotstuff_storage st = s /\
    forall m data st', run_api m [] st = Ok (data, st') -> executor_call c h (api_name m) = Ok data.

Lemma genesis_storage_authorities (l : list AuthorityId) s :
  genesis_storage l = Ok s -> HotstuffApi_authorities s = l.
Proof.
  unfold genesis_storage, initialize_authorities. destruct l as [|x l]; [by intros [= <-]|]. cbn.
  destruct (_ <=? _)%N; [|done]. by intros [= <-].
Qed.

Lemma runs_spec_authorities spec c :
  runs_spec spec c -> exists g, spec_genesis spec tt = Some g /\
    get_genesis_authorities_from_client c = Some ((fun id => (id, 0%N)) <$> hotstuff_authorities g).
Proof.
  intros (g & s & h & st & Hg & Hs & Hh & Hst & Hc). exists g. split; [done|].
  pose proof (Hc HotstuffApi_authorities_method _ _ eq_refl) as Hd. cbn [run_api] in Hd.
  rewrite Hst, (genesis_storage_authorities _ _ Hs) in Hd.
  change (api_name HotstuffApi_authorities_method) with "HotstuffApi_authorities"%string in Hd.
  unfold get_genesis_authorities_from_client. by rewrite Hh, Hd, decode_encode.
Qed.

Lemma seeds_authorities wasm seeds g :
  distinct_keys (get_from_seed hotstuff_from_string) seeds -> NoDup seeds -> seeds_genesis wasm seeds = Some g ->
  NoDup (hotstuff_authorities g) /\ length (hotstuff_authorities g) = length seeds /\
  all_keys (get_from_seed hotstuff_from_string) seeds = Some (hotstuff_authorities g).
Proof.
  intros Hinj Hnd. unfold seeds_genesis.
  intros (keys & Hk & (root & _ & (accounts & _ & [= <-])%bind_Some)%bind_Some)%bind_Some. cbn.
  destruct (all_keys_fst_snd _ _ Hk) as [_ Hh]. split_and!; [by eapply all_keys_nodup| |done].
  symmetry. by apply (length_mapM (get_from_seed hotstuff_from_string)).
Qed.

(** The authority list a replica starts with, from distinct keys. *)
Lemma started_list (keys : list AuthorityId) :
  ids ((fun id => (id, 0%N)) <$> keys) = keys /\ length ((fun id => (id, 0%N)) <$> keys) = length keys.
Proof. unfold ids. rewrite <- list_fmap_compose, length_fmap. split; [apply list_fmap_id|done]. Qed.

(** The authorities of the two specifications. *)
Lemma spec_authorities wasm spec g :
  distinct_keys (get_from_seed hotstuff_from_string) local_seeds -> spec_genesis spec tt = Some g ->
  (development_config (Some wasm) = Ok spec ->
   NoDup (hotstuff_authorities g) /\ length (hotstuff_authorities g) = 2%nat /\
   all_keys (get_from_seed hotstuff_from_string) dev_seeds = Some (hotstuff_authorities g)) /\
  (local_testnet_config (Some wasm) = Ok spec ->
   NoDup (hotstuff_authorities g) /\ length (hotstuff_authorities g) = 6%nat /\
   all_keys (get_from_seed hotstuff_from_string) local_seeds = Some (hotstuff_authorities g)).
Proof.
  intros Hinj Hg. split; intros [= <-].
  - apply (seeds_authorities wasm dev_seeds g); [|vm_decide|exact Hg].
    intros s s' x ? ?. apply Hinj; by apply (ltac:(vm_decide) : dev_seeds ⊆ local_seeds).
  - by apply (seeds_authorities wasm local_seeds g); [|vm_decide|exact Hg].
Qed.

(** What the genesis of the runtime asks of the configuration: no more authorities
    than the two pallets hold, accounts that are different and at or above the
    existential deposit, and an issuance that fits the [u128] of balances. *)
Record genesis_ok (g : RuntimeGenesisConfig) : Prop := {
  gen_aura : (N.of_nat (length (aura_authorities g)) <= aura_MaxAuthorities Runtime_aura)%N;
  gen_hotstuff : exists s, genesis_storage (hotstuff_authorities g) = Ok s /\
    HotstuffApi_authorities s = hotstuff_authorities g;
  gen_accounts : NoDup (balances g).*1;
  gen_deposit : Forall (fun b => ExistentialDeposit Runtime_balances <= b.2)%N (balances g);
  gen_issuance : (foldr N.add 0 (balances g).*2 < 2 ^ 128)%N;
}.

Lemma endowment_sum (accounts : list AccountId) :
  foldr N.add 0%N (((fun k => (k, N.shiftl 1 60)) <$> accounts).*2) = (N.of_nat (length accounts) * 2 ^ 60)%N.
Proof.
  induction accounts as [|k l IH]; [done|]. cbn [fmap list_fmap foldr length snd] in *. rewrite IH, N.shiftl_1_l. lia.
Qed.

Definition with_stashes (seeds : list string) : list string := seeds ++ ((fun s => s +:+ "//stash") <$> seeds).

Lemma seeds_genesis_ok wasm seeds g :
  distinct_keys get_account_id_from_seed (with_stashes local_seeds) -> with_stashes seeds ⊆ with_stashes local_seeds ->
  NoDup (with_stashes seeds) -> (0 < length seeds <= 6)%nat -> "Alice"%string ∈ seeds ->
  seeds_genesis wasm seeds = Some g ->
  genesis_ok g /\ length (aura_authorities g) = length (hotstuff_authorities g) /\
  exists root, sudo_key g = Some root /\ root ∈ (balances g).*1.
Proof.
  intros Hinj Hsub Hnd Hlen Halice. unfold seeds_genesis.
  intros (keys & Hk & (root & Hroot & (accounts & Hacc & [= <-])%bind_Some)%bind_Some)%bind_Some.
  change (seeds ++ _) with (with_stashes seeds) in Hacc.
  assert (length keys = length seeds) as Hlk by (symmetry; by apply (length_mapM authority_keys_from_seed)).
  assert (length accounts = length (with_stashes seeds)) as Hla by (symmetry; by apply (length_mapM get_account_id_from_seed)).
  unfold with_stashes in Hla. rewrite length_app, length_fmap in Hla.
  assert (((fun k => (k, N.shiftl 1 60)) <$> accounts).*1 = accounts) as Hfst by (rewrite <- list_fmap_compose; apply list_fmap_id).
  split_and!.
  - constructor; cbn [aura_authorities hotstuff_authorities balances testnet_genesis].
    + rewrite length_fmap, Hlk. cbn. lia.
    + assert (exists s, genesis_storage keys.*2 = Ok s) as [s Hs].
      { unfold genesis_storage, initialize_authorities. destruct keys.*2 as [|x l] eqn:Hkeys; [by eexists|]. cbn.
        rewrite (proj2 (N.leb_le _ _)); [by eexists|]. apply (f_equal length) in Hkeys. rewrite length_fmap, Hlk in Hkeys.
        cbn in Hkeys. lia. }
      exists s. split; [done|]. by apply genesis_storage_authorities.
    + rewrite Hfst. eapply all_keys_nodup; [|exact Hnd|exact Hacc]. intros s s' x ? ?. apply Hinj; by apply Hsub.
    + apply Forall_fmap, Forall_forall. intros k _. by vm_compute.
    + rewrite endowment_sum. apply N.le_lt_trans with (12 * 2 ^ 60)%N; [|done]. apply N.mul_le_mono_r. lia.
  - cbn. by rewrite !length_fmap.
  - exists root. split; [done|]. cbn [balances testnet_genesis]. rewrite Hfst. unfold all_keys in Hacc. apply mapM_Some_1 in Hacc.
    assert ("Alice"%string ∈ with_stashes seeds) as Hin by (apply elem_of_app; by left).
    apply list_elem_of_lookup in Hin as [i Hi]. destruct (Forall2_lookup_l _ _ _ _ _ Hacc Hi) as (y & Hy & Hyr).
    rewrite Hroot in Hyr. injection Hyr as <-. by eapply list_elem_of_lookup_2.
Qed.

(** C27: The genesis configurations of the node fit the runtime they are for: there
    are as many Aura as consensus authorities, both within the bounds of their
    pallets, so that building the storage does not panic and the API answers the
    configured list; the endowed accounts are different, hold more than the
    existential deposit and together fit a balance; and the administrator is one
    of them. *)
Theorem spec_genesis_ok (wasm : bytes) (spec : ChainSpec) (g : RuntimeGenesisConfig) :
  distinct_keys get_account_id_from_seed (with_stashes local_seeds) ->
  development_config (Some wasm) = Ok spec \/ local_testnet_config (Some wasm) = Ok spec ->
  spec_genesis spec tt = Some g ->
  genesis_ok g /\ length (aura_authorities g) = length (hotstuff_authorities g) /\
  exists root, sudo_key g = Some root /\ root ∈ (balances g).*1.
Proof.
  intros Hinj [[= <-]|[= <-]] Hg.
  - apply (seeds_genesis_ok wasm dev_seeds); [done|vm_decide|vm_decide|cbn; lia|vm_decide|done].
  - apply (seeds_genesis_ok wasm local_seeds); [done|done|vm_decide|cbn; lia|vm_decide|done].
Qed.

(** A node of the development or the local chain runs the consensus with the
    keys derived from the names in its specification, in that order: two
    authorities, both needed for a certificate and none of them allowed to fail,
    or six, of which five are needed and one may fail. Whatever run its worker
    has and whatever message comes next, the worker serves it without panic. *)
Theorem spec_replica_serves (wasm : bytes) (spec : ChainSpec) (c : Client) (ks : Keystore) (w : Worker) :
  distinct_keys (get_from_seed hotstuff_from_string) local_seeds -> runs_spec spec c ->
  start_hotstuff c ks = Some w -> store_ok (cs_authorities (w_state w)) ks c ->
  let A := cs_authorities (w_state w) in
  let served := forall n w' event, nsteps step n w w' -> (cs_view (w_state w') + 3 < u64_modulus)%N ->
    exists w'', run_event event_fuel w' event = Some w'' in
  (development_config (Some wasm) = Ok spec ->
   all_keys (get_from_seed hotstuff_from_string) dev_seeds = Some (ids A) /\
   quorum_weight A = 2%N /\ max_faulty A = 0%nat /\ served) /\
  (local_testnet_config (Some wasm) = Ok spec ->
   all_keys (get_from_seed hotstuff_from_string) local_seeds = Some (ids A) /\
   quorum_weight A = 5%N /\ max_faulty A = 1%nat /\ served).
Proof.
  intros Hinj Hrun Hstart Hst A served. destruct (runs_spec_authorities spec c Hrun) as (g & Hg & Hget).
  unfold start_hotstuff in Hstart. rewrite Hget in Hstart.
  destruct (PendingFinalizeBlockQueue_new c) as [[queue|]|]; try done. destruct (Timer_new _); try done.
  injection Hstart as <-.
  destruct (started_list (hotstuff_authorities g)) as [Hids Hlen]. destruct (spec_authorities wasm spec g Hinj Hg) as [Hdev Hloc].
  assert (NoDup (ids A) -> (2 <= length A <= 6)%nat -> served) as Hserved.
  { intros Hnd Hle n w' event Hn Hv. assert (authorities_fit A) as Hfit by (unfold authorities_fit, u64_modulus; lia).
    assert (worker_ok A ks w') as Hok by (apply (nsteps_moved A ks Hfit) in Hn; [apply Hn|by apply worker_ok_new]).
    destruct (event_served A ks w' event event_fuel Hfit Hnd) as (w'' & _ & Hr & _); [lia|done|done|lia|]. by exists w''. }
  assert (ids A = hotstuff_authorities g /\ length A = length (hotstuff_authorities g)) as [HidA HlA] by done.
  rewrite HidA, HlA in Hserved. unfold quorum_weight, u64_of_usize, max_faulty.
  split; intros Hspec; [destruct (Hdev Hspec) as (Hnd & Hl & Hall)|destruct (Hloc Hspec) as (Hnd & Hl & Hall)];
    rewrite HidA, HlA, Hl; (split_and!; [done|vm_refl|done|apply Hserved; [done|lia]]).
Qed.

End starting.

(** ** Witnesses *)

(** Key derivation that keeps the text of the seed, and a client that runs the
    local chain. *)
#[export] Instance sample_derivation : KeyDerivation := {|
  AuraId := string;
  Sr25519Public := string;
  AccountId := string;
  aura_from_string uri := Some uri;
  hotstuff_from_string uri := Some (Npos (countable.encode uri));
  sr25519_from_string uri := Some uri;
  into_account public := public;
|}.

Definition sample_wasm : bytes := [Byte.x00; Byte.x61; Byte.x73; Byte.x6d].
Definition local_keys : list AuthorityId := (fun s => Npos (countable.encode ("//" +:+ s))) <$> local_seeds.


#[export] Instance sample_ids_laws : CodecLaws (list AuthorityId) := codec_of_laws (pcodec_list pcodec_N).
#[export] Instance sample_consensus_log : Codec (ConsensusLog AuthorityId) := codec_of pc_log.

#[local] Instance spec_slot_codec : Codec N := codec_of pcodec_N.

(** The state of the runtime at its genesis, which is the storage of the pallet. *)
#[local] Instance local_frame : Frame AuthorityId := {|
  RuntimeState := @Storage (Runtime_hotstuff AuthorityId);
  hotstuff_storage st := st;
  delegate d data st := Err "not called"%string;
  version_codec := codec_of pc_version;
  keys_codec := codec_of pc_session_keys;
  raw_keys_codec := codec_of pc_raw_keys;
  bytes_codec := codec_of pcodec_bytes;
|}.

Definition local_state : RuntimeState := @mkStorage (Runtime_hotstuff AuthorityId) (Some local_keys) 0 [].

#[local] Instance local_ids_codec : Codec (list AuthorityId) := codec_of (pcodec_list pcodec_N).

#[export] Instance local_runtime : RuntimeApi := {|
  expect_block_hash_from_id c n := Ok [];
  executor_call c h method :=
    match List.find (fun m => (api_name m =? method)%string) api_methods with
    | Some m => match run_api m [] local_state with Ok (data, _) => Ok data | Err e => Err e end
    | None => Err "method not found"%string
    end;
  call_result_decode e := e;
  authorities_codec := codec_of (pcodec_list pcodec_N);
|}.

Definition local_spec : ChainSpec :=
  mkChainSpec "Local Testnet" "local_testnet" Local (fun _ => seeds_genesis sample_wasm local_seeds) [] None None None.

Definition no_keys : Keystore := [].

Definition local_worker : Worker :=
  ConsensusWorker_new (ConsensusState_new no_keys ((fun id => (id, 0%N)) <$> local_keys)) (sample_client [])
    GossipValidator_new (mkSharedQueue false []).

Lemma local_distinct : distinct_keys (get_from_seed hotstuff_from_string) local_seeds.
Proof.
  intros s s' x _ _ Hs Hs'. unfold get_from_seed in Hs, Hs'. cbn in Hs, Hs'.
  assert (countable.encode ("//" +:+ s) = countable.encode ("//" +:+ s')) as Heq by congruence.
  apply (inj countable.encode) in Heq. by injection Heq.
Qed.

Lemma local_runs c : runs_spec local_spec c.
Proof.
  eexists _, _, [], local_state. split_and!; [reflexivity|vm_refl|reflexivity|reflexivity|].
  intros m data st' Hd. unfold executor_call, local_runtime. rewrite (api_name_found m).
  exact (f_equal (fun r => match r with Ok (d, _) => Ok d | Err e => Err e end) Hd).
Qed.

Lemma spec_replica_serves_witness :
  let A := cs_authorities (w_state local_worker) in
  all_keys (get_from_seed hotstuff_from_string) local_seeds = Some (ids A) /\ quorum_weight A = 5%N /\
  max_faulty A = 1%nat /\
  exists w, run_event event_fuel local_worker LocalTimer = Some w.
Proof.
  destruct (spec_replica_serves sample_wasm local_spec (sample_client []) no_keys local_worker) as [_ Hl].
  - apply local_distinct.
  - apply local_runs.
  - vm_refl.
  - apply sample_store_ok.
  - destruct Hl as (H1 & H2 & H3 & H4); [done|]. split_and!; try done.
    apply (H4 0%nat); [constructor|vm_refl].
Defined.

Lemma spec_genesis_ok_witness :
  exists g, spec_genesis local_spec tt = Some g /\ genesis_ok g /\
    length (aura_authorities g) = length (hotstuff_authorities g) /\
    exists root, sudo_key g = Some root /\ root ∈ (balances g).*1.
Proof.
  assert (exists g, spec_genesis local_spec tt = Some g) as [g Hg] by (eexists; reflexivity). exists g. split; [exact Hg|].
  apply (spec_genesis_ok sample_wasm local_spec g).
  - intros s s' x _ _ Hs Hs'. unfold get_account_id_from_seed, get_from_seed in Hs, Hs'. cbn in Hs, Hs'.
    rewrite <- Hs' in Hs. by injection Hs.
  - right. reflexivity.
  - exact Hg.
Defined.
