(* ===== verification/Deployment.v ===== *)
(** * Deployment

    The chain of the repository, put together: nodes that [new_full] of
    [node-template/node/src/service.rs] brings up as authorities over the genesis
    that [chain_spec.rs] configures and the runtime serves, whose two consensus
    tasks then take turns among faulty peers. What the other files prove of the
    parts holds of this chain with the numbers of its specification. *)

From S2P Require Import Prelude Primitives Messages Concrete Quorum Aggregator Synchronizer State Network BlockImport Worker WorkerFacts Replica Handlers Safety Authentic System Agreement Progress Liveness ViewChange Recovery Startup Restart Tasks Rpc Service Pallet Runtime Apis ChainSpec.
#[local] Open Scope hs_scope.

Section deployment.
Context `{MessageCodecs} `{!ClientForHotstuff} `{!RuntimeApi} `{!Environment} `{!SharedDatas} `{!GossipEngines}.
Context `{!KeyDerivation} `{!Codec N} `{!Codec (ConsensusLog AuthorityId)} `{!Frame AuthorityId}.

(** The authorities that the nodes of a genesis configuration start with. *)
Definition genesis_list (g : RuntimeGenesisConfig) : AuthorityList := (fun id => (id, 0%N)) <$> hotstuff_authorities g.

(** The nodes come up by [new_full], each with its own configuration and services:
    its client runs the specification and stores no proposal, and its keystore holds
    the key of one authority of the genesis. *)
Record deployed (spec : ChainSpec) (g : RuntimeGenesisConfig) (s : Processes) : Prop := {
  dp_sent : ps_sent s = [];
  dp_node : forall id p, ps_nodes s !! id = Some p ->
    exists (services : Services) config st client ks,
      new_full config new_node = (Val tt, st) /\ voter st = Some p /\ client_parts config = Ok (client, ks) /\
      runs_spec spec client /\ local_authority_id (identity (genesis_list g) ks) = Some id /\
      forall h data, client_get_aux client (hash_as_ref h) <> Ok (Some data);
}.

Context `{!CodecLaws (list AuthorityId)} `{!GossipEngineLaws}.
Context `{!AuxStoreLaws} `{!CodecLaws Proposal} `{!CodecLaws ConsensusMessage} `{!KeystoreLaws}.

(** The voter of a node that came up is made by [start_hotstuff]. *)
Lemma new_full_voter `{!Services} config st p :
  new_full config new_node = (Val tt, st) -> voter st = Some p ->
  exists name client ks, client_parts config = Ok (client, ks) /\ start_tasks name client ks = Some p.
Proof.
  intros Hn Hv. pose proof (new_full_spec config) as Hs. rewrite Hn in Hs.
  destruct Hs as (_ & parts & genesis & network & rpc & [Hparts _ _] & _ & _ & _ & _ & Hvoter & _).
  rewrite Hv in Hvoter. destruct (is_authority config); [|done]. by eexists _, _, _.
Qed.

Lemma deployed_start spec g s :
  spec_genesis spec tt = Some g -> deployed spec g s -> tasks_start (genesis_list g) s.
Proof.
  intros Hg [Hs Hn]. constructor; [done|]. intros id p Hp.
  destruct (Hn id p Hp) as (services & config & st & client & ks & Hnew & Hv & Hparts & Hruns & Hid & Haux).
  destruct (new_full_voter config st p Hnew Hv) as (name & client' & ks' & Hparts' & Hst).
  rewrite Hparts in Hparts'. injection Hparts' as <- <-. exists name, client, ks. split_and!; try done.
  destruct (runs_spec_authorities spec client Hruns) as (g' & Hg' & Hget). rewrite Hg in Hg'. by injection Hg' as <-.
Qed.

(** The authorities of the two specifications, and how many of them may fail. *)
Lemma spec_tolerates wasm spec g :
  distinct_keys (get_from_seed hotstuff_from_string) local_seeds -> spec_genesis spec tt = Some g ->
  development_config (Some wasm) = Ok spec \/ local_testnet_config (Some wasm) = Ok spec ->
  let A := genesis_list g in
  authorities_fit A /\ NoDup (ids A) /\ (2 <= length A <= 6)%nat /\
  (local_testnet_config (Some wasm) = Ok spec -> max_faulty A = 1%nat).
Proof.
  intros Hinj Hg Hspec A. destruct (spec_authorities wasm spec g Hinj Hg) as [Hdev Hloc].
  destruct (started_list (hotstuff_authorities g)) as [Hids Hlen]. fold (genesis_list g) A in Hids, Hlen.
  unfold authorities_fit, max_faulty, u64_modulus. rewrite Hids, Hlen.
  assert (local_testnet_config (Some wasm) = Ok spec -> (length (hotstuff_authorities g) - 1) / 3 = 1)%nat as Hmax.
  { intros Hl. by destruct (Hloc Hl) as (_ & -> & _). }
  destruct Hspec as [Hd|Hl]; [destruct (Hdev Hd) as (Hnd & Hsize & _)|destruct (Hloc Hl) as (Hnd & Hsize & _)];
    (split_and!; [lia|done|lia|lia|exact Hmax]).
Qed.







Context `{!DigestInjective} `{!ProposalDigests}.

(** C16: The deployed chain is safe. Let the nodes come up by [new_full] from the
    specification of the development chain, all authorities being correct, or of the
    local chain, one of the six being faulty; the adversary may have any keys besides.
    Then let the tasks take turns in any order, with any messages lost, repeated or
    made up. A verifying certificate anywhere in the network has a quorum of
    authorities or is signed by a key of the adversary that belongs to none, and two
    of one view with a quorum of authorities are for the same proposal. Each block a
    node asks its client to finalize is that of a proposal of some view with such a
    certificate, and no two nodes do so for different blocks of one view by
    certificates with a quorum of authorities. The tasks of a node never panic below
    the overflow of the view. *)
Theorem deployed_chain_safe (wasm : bytes) (spec : ChainSpec) (g : RuntimeGenesisConfig) (byz : list AuthorityId)
    (e : string) (s0 s : Processes) :
  distinct_keys (get_from_seed hotstuff_from_string) local_seeds -> spec_genesis spec tt = Some g ->
  let A := genesis_list g in
  development_config (Some wasm) = Ok spec /\ faulty A byz = [] \/
  local_testnet_config (Some wasm) = Ok spec /\ (length (faulty A byz) <= 1)%nat ->
  deployed spec g s0 -> rtc (task_step byz e) s0 s ->
  (forall q, certificate_in (system_of s) q -> QC_verify q A = Ok tt -> authority_quorum A q \/ outsider_signed A byz q) /\
  (forall q q', certificate_in (system_of s) q -> certificate_in (system_of s) q' -> QC_verify q A = Ok tt ->
     QC_verify q' A = Ok tt -> authority_quorum A q -> authority_quorum A q' ->
     qc_view q = qc_view q' -> qc_proposal_hash q = qc_proposal_hash q') /\
  (forall id p h, ps_nodes s !! id = Some p -> FinalizeCall h ∈ w_effects (pr_worker p) ->
     exists view q, finalizes_by A byz (system_of s) id view h q /\ QC_verify q A = Ok tt /\
       (authority_quorum A q \/ outsider_signed A byz q)) /\
  (forall id id' view h h' q q', finalizes_by A byz (system_of s) id view h q -> finalizes_by A byz (system_of s) id' view h' q' ->
     authority_quorum A q -> authority_quorum A q' -> h = h') /\
  (forall id p, ps_nodes s !! id = Some p ->
     (forall imports finalities, is_Some (poll_network e p imports finalities)) /\
     (forall event, (cs_view (w_state (pr_worker p)) + 3 < u64_modulus)%N -> is_Some (run_event event_fuel (pr_worker p) event))).
Proof.
  intros Hinj Hg A Hspec Hdep Hr.
  destruct (spec_tolerates wasm spec g Hinj Hg) as (Hfit & Hnd & [Htwo _] & Hmax); [by destruct Hspec as [[? _]|[? _]]; [left|right]|].
  assert (length (faulty A byz) <= max_faulty A)%nat as Hbyz.
  { destruct Hspec as [[_ ->]|[Hl Hb]]; [cbn; lia|]. unfold A in *. by rewrite (Hmax Hl). }
  destruct (tasks_run (byz := byz) (send_error := e) Hfit s0 s (deployed_start spec g s0 Hg Hdep) Hr) as [Hreach Hok].
  destruct (certificates_of_reachable A byz e (system_of s) Hfit Hbyz Hreach) as [Hback Hcert].
  destruct (finality_of_reachable A byz e (system_of s) Hfit Hbyz Hreach) as [Hfin Hagree]. split_and!; try done.
  - intros id p h Hp. apply (Hfin id (node_of p)). by apply system_of_node.
  - intros id p Hp. apply (process_serves (byz := byz) Hfit Hnd Htwo s id p Hreach (Hok id p Hp) Hp).
Qed.


End deployment.

(** ** The local chain with a silent authority

    Five of the six authorities of the local chain come up, each over a client that
    knows one block; the sixth stays silent. *)

#[local] Existing Instance local_frame.
#[local] Existing Instance spec_slot_codec.

Definition local_services (ks : Keystore) : Services := {|
  TransactionPool := unit;
  ImportQueue := unit;
  NetworkService := unit;
  ProposerFactory := unit;
  AuraAuthor := unit;
  telemetry_worker := Ok tt;
  client_parts config := Ok (one_block, ks);
  new_pool config c := tt;
  aura_slot_duration c := Ok 6000%N;
  aura_import_queue import c slot := Ok tt;
  client_block_hash c n := Some [];
  build_network config ps c pool queue := Ok tt;
  spawn_tasks config network c ks pool rpc := Ok [mkTask "rpc" false false];
  new_proposer_factory c pool := tt;
  start_aura slot c import proposer force ks portion := Ok tt;
|}.

Definition brings_up (services : Services) (config : Configuration) : option Process :=
  match new_full config new_node with (Val tt, s) => voter s | _ => None end.

Definition local_node (id : N) : list (N * Process) :=
  match brings_up (local_services (key_of id)) authority_config with Some p => [(id, p)] | None => [] end.

Definition local_up : list N := take 5 local_keys.
Definition local_started : Processes := mkProcesses (list_to_map (List.flat_map local_node local_up)) [].


(** An action where it is possible. *)
Fixpoint task_tries (s : Processes) (l : list TaskAction) : Processes :=
  match l with [] => s | a :: l => task_tries (default s (task_act s a)) l end.

Definition everywhere (data : list nat) : list TaskAction :=
  List.flat_map (fun k => takes (List.map (fun id => (id, k)) local_up)) data.

Definition local_run : list TaskAction := told local_up ++ ticks local_up ++ ticks local_up ++ everywhere (seq 0 40).

Lemma task_tries_reach byz s l : rtc (task_step byz "full") s (task_tries s l).
Proof.
  revert s. induction l as [|a l IH]; intros s; cbn [task_tries]; [done|].
  destruct (task_act s a) as [s'|] eqn:Ha; [|apply IH]. econstructor; [by eapply task_act_step|apply IH].
Qed.

Definition local_genesis : RuntimeGenesisConfig := default (testnet_genesis [] [] "" [] true) (seeds_genesis sample_wasm local_seeds).
Definition local_faulty : list AuthorityId := drop 5 local_keys.

Lemma brings_up_full (services : Services) config p :
  brings_up services config = Some p -> exists st, new_full config new_node = (Val tt, st) /\ voter st = Some p.
Proof. unfold brings_up. destruct (new_full config new_node) as [[[]|x] st]; [|done]. by exists st. Qed.

Lemma local_identity :
  forallb (fun id => bool_decide (local_authority_id (identity (genesis_list local_genesis) (key_of id)) = Some id)) local_up = true.
Proof. vm_refl. Qed.

Lemma local_deployed : deployed local_spec local_genesis local_started.
Proof.
  constructor; [done|]. intros id p Hp. apply elem_of_list_to_map_2, list_elem_of_In, in_flat_map in Hp as (i & Hi & Hin).
  unfold local_node in Hin. destruct (brings_up _ _) as [p'|] eqn:Hup; [|done]. destruct Hin as [[= -> ->]|[]].
  apply brings_up_full in Hup as (st & Hnew & Hv).
  exists (local_services (key_of id)), authority_config, st, one_block, (key_of id). split_and!; try done.
  - apply local_runs.
  - pose proof local_identity as Hl. rewrite forallb_forall in Hl. by apply Hl, bool_decide_eq_true in Hi.
Qed.

(** All five have asked their clients to finalize the block. *)
Definition local_check (s : Processes) : bool := forallb (asked_to_finalize s) local_up.

Lemma local_ends : local_check (task_tries local_started local_run) = true.
Proof. vm_refl. Qed.

Lemma local_insider : local_faulty ⊆ ids (genesis_list local_genesis).
Proof. vm_decide. Qed.

Lemma deployed_chain_safe_witness :
  exists s, rtc (task_step local_faulty "full") local_started s /\
    forall id, id ∈ local_up -> exists p view q, ps_nodes s !! (id : AuthorityId) = Some p /\
      finalizes_by (genesis_list local_genesis) local_faulty (system_of s) id view block1 q /\
      authority_quorum (genesis_list local_genesis) q.
Proof.
  pose proof local_ends as Hc. pose proof (task_tries_reach local_faulty local_started local_run) as Hr.
  revert Hc Hr. generalize (task_tries local_started local_run) as s. intros s Hc Hr. exists s. split; [done|]. intros id Hin.
  destruct (deployed_chain_safe sample_wasm local_spec local_genesis local_faulty "full" local_started s) as (_ & _ & Hfin & _).
  - apply local_distinct.
  - reflexivity.
  - right. split; [reflexivity|vm_decide].
  - apply local_deployed.
  - exact Hr.
  - unfold local_check in Hc. rewrite forallb_forall in Hc.
    apply list_elem_of_In, Hc, asked_to_finalize_in in Hin as (p & Hp & Hin).
    destruct (Hfin id p block1 Hp Hin) as (view & q & Hv & _ & [Hq|(k & _ & Hb & Hk)]); [by exists p, view, q|].
    destruct Hk. revert k Hb. apply local_insider.
Defined.





