(* ===== verification/Payload.v ===== *)
(** * Payload

    The commitment payload of [primitives/src/payload.rs]: a vector of entries
    sorted by a two-byte identifier, searched by halving. *)

From S2P Require Import Prelude Primitives Concrete.
#[local] Open Scope hs_scope.

(** [HotstuffPayloadId]: two bytes, ordered as arrays are. *)
Abbreviation HotstuffPayloadId := (Byte.byte * Byte.byte)%type.

Definition id_cmp (a b : HotstuffPayloadId) : comparison :=
  match N.compare (Byte.to_N a.1) (Byte.to_N b.1) with
  | Eq => N.compare (Byte.to_N a.2) (Byte.to_N b.2)
  | c => c
  end.

(** [struct Payload] *)
Abbreviation PayloadEntries := (list (HotstuffPayloadId * bytes)).

(** [Payload::from_single_entry] *)
Definition from_single_entry (id : HotstuffPayloadId) (value : bytes) : PayloadEntries := [(id, value)].

(** The loop of [slice::binary_search_by]: the window is [left, right). The
    outer option is the fuel, the inner one the [Ok] of the search. *)
Fixpoint binary_search (fuel : nat) (f : HotstuffPayloadId * bytes -> comparison) (l : PayloadEntries)
    (left right : nat) : option (option nat) :=
  match fuel with
  | O => None
  | S fuel =>
      if (left <? right)%nat then
        let mid := (left + (right - left) / 2)%nat in
        match l !! mid with
        | None => None
        | Some probe =>
            match f probe with
            | Lt => binary_search fuel f l (mid + 1) right
            | Gt => binary_search fuel f l left mid
            | Eq => Some (Some mid)
            end
        end
      else Some None
  end.

(** [Payload::get_raw]; the length bounds the number of halvings. The inner option
    is the answer of the code; the outer one is empty when the search did not end. *)
Definition get_raw (self : PayloadEntries) (id : HotstuffPayloadId) : option (option bytes) :=
  (fun found => found ≫= fun index => snd <$> self !! index) <$>
  binary_search (S (length self)) (fun probe => id_cmp probe.1 id) self 0 (length self).

(** [Payload::get_decoded] *)
Definition get_decoded {T} `{!Codec T} (self : PayloadEntries) (id : HotstuffPayloadId) : option (option T) :=
  (fun found => found ≫= fun raw => result_ok (decode raw)) <$> get_raw self id.

(** [slice::sort_by_key], which is stable: insertion after the entries of the
    same key. *)
Fixpoint insert_entry (e : HotstuffPayloadId * bytes) (l : PayloadEntries) : PayloadEntries :=
  match l with
  | [] => [e]
  | x :: rest => match id_cmp e.1 x.1 with Lt => e :: l | _ => x :: insert_entry e rest end
  end.

Definition sort_by_id (l : PayloadEntries) : PayloadEntries := foldl (fun acc e => insert_entry e acc) [] l.

(** [Payload::push_raw] *)
Definition push_raw (self : PayloadEntries) (id : HotstuffPayloadId) (value : bytes) : PayloadEntries :=
  sort_by_id (self ++ [(id, value)]).

(** ** Facts *)

(** The identifier as a number, in the same order. *)
Definition id_num (a : HotstuffPayloadId) : N := (Byte.to_N a.1 * 256 + Byte.to_N a.2)%N.

Lemma byte_lt (b : Byte.byte) : (Byte.to_N b < 256)%N.
Proof. by destruct b. Qed.

Lemma id_cmp_num a b : id_cmp a b = N.compare (id_num a) (id_num b).
Proof.
  unfold id_cmp, id_num. pose proof (byte_lt a.2). pose proof (byte_lt b.2).
  destruct (N.compare_spec (Byte.to_N a.1) (Byte.to_N b.1)) as [->|Hlt|Hgt].
  - destruct (N.compare_spec (Byte.to_N a.2) (Byte.to_N b.2)) as [->|Hlt|Hgt];
      symmetry; [apply N.compare_refl|apply N.compare_lt_iff; lia|apply N.compare_gt_iff; lia].
  - symmetry. apply N.compare_lt_iff. lia.
  - symmetry. apply N.compare_gt_iff. lia.
Qed.

Lemma id_num_inj a b : id_num a = id_num b -> a = b.
Proof.
  unfold id_num. pose proof (byte_lt a.2). pose proof (byte_lt b.2). destruct a as [a1 a2], b as [b1 b2].
  cbn in *. intros Heq. assert (Byte.to_N a1 = Byte.to_N b1) as H1 by lia.
  assert (Byte.to_N a2 = Byte.to_N b2) as H2 by lia.
  apply (f_equal Byte.of_N) in H1, H2. rewrite !Byte.of_to_N in H1, H2. by simplify_eq.
Qed.

(** A payload as the format demands it: sorted, no identifier twice. *)
Definition payload_ok (l : PayloadEntries) : Prop :=
  StronglySorted (fun a b => id_num a.1 < id_num b.1)%N l.

Lemma payload_ok_lookup l i j a b :
  payload_ok l -> l !! i = Some a -> l !! j = Some b -> (i < j)%nat -> (id_num a.1 < id_num b.1)%N.
Proof.
  intros Hs. revert i j. induction Hs as [|x l Hs IH Hf]; intros [|i] [|j] Ha Hb Hij; cbn in *; try done; try lia.
  - rewrite Forall_forall in Hf. simplify_eq. apply Hf. by eapply list_elem_of_lookup_2.
  - apply (IH i j); [done|done|lia].
Qed.

(** The window of the search shrinks at every probe, on any entries. *)
Lemma binary_search_ends fuel f l left right :
  (right <= length l)%nat -> (right - left < fuel)%nat -> is_Some (binary_search fuel f l left right).
Proof.
  revert left right. induction fuel as [|fuel IH]; intros left right Hr Hf; [lia|]. cbn [binary_search].
  destruct (Nat.ltb_spec left right) as [Hlt|]; [|done].
  assert (left <= left + (right - left) / 2 < right)%nat by (pose proof (Nat.div_lt (right - left) 2); lia).
  destruct (lookup_lt_is_Some_2 l (left + (right - left) / 2)%nat) as [probe ->]; [lia|].
  destruct (f probe); [done|apply IH; lia..].
Qed.

(** The search with enough fuel ends on the entry of the identifier if one is in
    the window. *)
Lemma binary_search_spec fuel l id left right :
  payload_ok l -> (right <= length l)%nat -> (right - left < fuel)%nat ->
  exists o, binary_search fuel (fun probe => id_cmp probe.1 id) l left right = Some o /\
    match o with
    | Some i => exists v, l !! i = Some (id, v)
    | None => forall i e, (left <= i < right)%nat -> l !! i = Some e -> e.1 <> id
    end.
Proof.
  intros Hok. revert left right. induction fuel as [|fuel IH]; intros left right Hr Hf; [lia|]. cbn [binary_search].
  destruct (Nat.ltb_spec left right) as [Hlt|Hge]; [|by exists None; split; [|intros; lia]].
  set (mid := (left + (right - left) / 2)%nat).
  assert (left <= mid < right)%nat as Hmid.
  { subst mid. pose proof (Nat.div_lt (right - left) 2). lia. }
  destruct (lookup_lt_is_Some_2 l mid) as [[pid pv] Hp]; [lia|]. rewrite Hp. cbn [fst].
  rewrite id_cmp_num. destruct (N.compare_spec (id_num pid) (id_num id)) as [Heq|Hl|Hg].
  - exists (Some mid). split; [done|]. apply id_num_inj in Heq as ->. by exists pv.
  - destruct (IH (mid + 1)%nat right) as (o & -> & Ho); [done|lia|]. exists o. split; [done|].
    destruct o as [i|]; [done|]. intros i e Hi He Hid. destruct (decide (mid + 1 <= i)%nat) as [Hle|Hn].
    + apply (Ho i e); [lia|done|done].
    + destruct (decide (i = mid)) as [->|Hne]; [simplify_eq/=; subst; lia|].
      pose proof (payload_ok_lookup l i mid e _ Hok He Hp ltac:(lia)) as Hx. cbn in Hx. subst id. lia.
  - destruct (IH left mid) as (o & -> & Ho); [lia|lia|]. exists o. split; [done|].
    destruct o as [i|]; [done|]. intros i e Hi He Hid. destruct (decide (i < mid)%nat) as [Hle|Hn].
    + apply (Ho i e); [lia|done|done].
    + destruct (decide (i = mid)) as [->|Hne]; [simplify_eq/=; subst; lia|].
      pose proof (payload_ok_lookup l mid i _ e Hok Hp He ltac:(lia)) as Hx. cbn in Hx. subst id. lia.
Qed.

Lemma get_raw_ends l id : exists o, get_raw l id = Some o.
Proof.
  unfold get_raw. destruct (binary_search_ends (S (length l)) (fun probe => id_cmp probe.1 id) l 0 (length l)) as [o ->]; [lia..|].
  by eexists.
Qed.

Lemma get_raw_some l id v : payload_ok l -> get_raw l id = Some (Some v) <-> (id, v) ∈ l.
Proof.
  intros Hok. unfold get_raw.
  destruct (binary_search_spec (S (length l)) l id 0 (length l) Hok) as (o & -> & Ho); [lia|lia|].
  rewrite list_elem_of_lookup. destruct o as [i|].
  - destruct Ho as [v' Hi]. cbn [fmap option_fmap option_map mbind option_bind]. rewrite Hi. cbn. split.
    + intros [= ->]. by exists i.
    + intros [j Hj]. destruct (lt_eq_lt_dec i j) as [[Hij| ->]|Hij]; [|by simplify_eq|].
      * pose proof (payload_ok_lookup l i j _ _ Hok Hi Hj Hij) as Hx. cbn in Hx. lia.
      * pose proof (payload_ok_lookup l j i _ _ Hok Hj Hi Hij) as Hx. cbn in Hx. lia.
  - split; [done|]. intros [j Hj]. exfalso. apply (Ho j (id, v)); [|done|done].
    split; [lia|]. by eapply lookup_lt_Some.
Qed.

Lemma insert_entry_perm e l : insert_entry e l ≡ₚ e :: l.
Proof.
  induction l as [|x l IH]; cbn; [done|]. destruct (id_cmp _ _); [|done|]; rewrite IH; apply perm_swap.
Qed.

Lemma insert_entry_ok e l :
  payload_ok l -> e.1 ∉ l.*1 -> payload_ok (insert_entry e l).
Proof.
  intros Hs. induction Hs as [|x l Hs IH Hf]; intros Hn; cbn; [by repeat constructor|].
  rewrite fmap_cons, not_elem_of_cons in Hn. destruct Hn as [Hne Hn]. rewrite id_cmp_num.
  destruct (N.compare_spec (id_num e.1) (id_num x.1)) as [Heq|Hlt|Hgt].
  - by apply id_num_inj in Heq.
  - constructor; [by constructor|]. constructor; [done|]. eapply Forall_impl; [exact Hf|]. cbn. lia.
  - constructor; [by apply IH|]. rewrite insert_entry_perm. by constructor.
Qed.

Lemma insert_entry_last e l :
  Forall (fun x => id_num x.1 < id_num e.1)%N l -> insert_entry e l = l ++ [e].
Proof.
  induction 1 as [|x l Hx Hf IH]; cbn; [done|]. rewrite id_cmp_num, (proj2 (N.compare_gt_iff _ _)) by done.
  by rewrite IH.
Qed.

Lemma sort_by_id_ok l : payload_ok l -> sort_by_id l = l.
Proof.
  unfold sort_by_id. assert (forall acc, payload_ok (acc ++ l) ->
    foldl (fun acc e => insert_entry e acc) acc l = acc ++ l) as Hgen; [|by apply (Hgen [])].
  induction l as [|e l IH]; intros acc Hok; cbn; [by rewrite app_nil_r|].
  rewrite insert_entry_last.
  - rewrite IH; by rewrite <- app_assoc.
  - apply Forall_forall. intros x Hx. apply list_elem_of_lookup in Hx as [i Hi].
    apply (payload_ok_lookup (acc ++ e :: l) i (length acc)); [done| |by apply list_lookup_middle|].
    + by apply lookup_app_l_Some.
    + by eapply lookup_lt_Some.
Qed.

Lemma push_raw_insert l id v : payload_ok l -> push_raw l id v = insert_entry (id, v) l.
Proof.
  intros Hok. unfold push_raw, sort_by_id. rewrite foldl_app. cbn. f_equal. by apply sort_by_id_ok.
Qed.

(** ** Properties *)

(** C36: The halving search of [get_raw] always ends, on any entries, within as many
    probes as there are entries. On a payload as the format demands it, it answers
    exactly what the list holds: the value of an entry with the identifier, and
    nothing when there is none. *)
Theorem get_raw_exact (l : PayloadEntries) (id : HotstuffPayloadId) :
  (exists o, get_raw l id = Some o) /\
  (payload_ok l ->
   (forall v, get_raw l id = Some (Some v) <-> (id, v) ∈ l) /\ (get_raw l id = Some None <-> id ∉ l.*1)).
Proof.
  split; [apply get_raw_ends|]. intros Hok. split; [intros v; by apply get_raw_some|].
  destruct (get_raw_ends l id) as [o Ho]. rewrite list_elem_of_fmap. split; intros Hn.
  - intros ([id' v] & Heq & Hin). cbn in Heq. subst id'. apply (get_raw_some l id v Hok) in Hin. congruence.
  - rewrite Ho. destruct o as [v|]; [|done]. destruct Hn. exists (id, v). split; [done|]. by apply get_raw_some.
Qed.

(** C37: Pushing an entry under a new identifier keeps the payload in the form
    the format demands, makes its value the one found under that identifier,
    decoded too, and changes no other lookup. *)
Theorem push_raw_get {T} `{!Codec T} `{!CodecLaws T} (l : PayloadEntries) (id : HotstuffPayloadId) (value : T) :
  payload_ok l -> id ∉ l.*1 ->
  payload_ok (push_raw l id (encode value)) /\
  get_decoded (push_raw l id (encode value)) id = Some (Some value) /\
  forall id', id' <> id -> get_raw (push_raw l id (encode value)) id' = get_raw l id'.
Proof.
  intros Hok Hn. rewrite push_raw_insert by done.
  pose proof (insert_entry_ok (id, encode value) l Hok Hn) as Hok'. split_and!; [done| |].
  - unfold get_decoded. rewrite (proj2 (get_raw_some _ id (encode value) Hok')).
    + cbn. by rewrite decode_encode.
    + rewrite insert_entry_perm. by left.
  - intros id' Hne. destruct (get_raw_ends (insert_entry (id, encode value) l) id') as [o Ho].
    destruct (get_raw_ends l id') as [o' Ho']. rewrite Ho, Ho'. f_equal. apply option_eq. intros v.
    assert (forall (a : option bytes), Some a = Some (Some v) <-> a = Some v) as Hs by (intros a; split; congruence).
    rewrite <- (Hs o), <- (Hs o'), <- Ho, <- Ho', !get_raw_some by done. rewrite insert_entry_perm.
    rewrite elem_of_cons. split; [intros [[=]|?]; done|by right].
Qed.

(** ** Witnesses: the identifiers of the source's test *)

(** [known_payloads::MMR_ROOT_ID] *)
Definition MMR_ROOT_ID : HotstuffPayloadId := (Byte.x6d, Byte.x68).

Definition id_cs : HotstuffPayloadId := (Byte.x63, Byte.x73).
Definition id_hw : HotstuffPayloadId := (Byte.x68, Byte.x77).
Definition id_yb : HotstuffPayloadId := (Byte.x79, Byte.x62).

#[export] Instance sample_value_codec : Codec N := codec_of pcodec_N.
#[export] Instance sample_value_laws : CodecLaws N := codec_of_laws pcodec_N.

Definition sample_payload : PayloadEntries :=
  push_raw (from_single_entry id_hw (encode 1%N)) id_yb (encode 2%N).

(** The test [payload_methods_work_as_expected]. *)
#[local] Instance text_codec : Codec bytes := codec_of pcodec_bytes.

Definition msg1 : bytes := String.list_byte_of_string "1. Hello World!".
Definition msg2 : bytes := String.list_byte_of_string "2. Yellow Board!".
Definition msg3 : bytes := String.list_byte_of_string "3. Cello Cord!".

Definition payload_methods : PayloadEntries :=
  push_raw (push_raw (from_single_entry id_hw (encode msg1)) id_yb (encode msg2)) id_cs (encode msg3).

Example payload_methods_work_as_expected :
  get_decoded payload_methods id_hw = Some (Some msg1) /\ get_decoded payload_methods id_yb = Some (Some msg2) /\
  get_raw payload_methods id_cs = Some (Some (encode msg3)) /\ get_raw payload_methods MMR_ROOT_ID = Some None.
Proof. by repeat split; vm_refl. Qed.

Lemma sample_payload_ok : payload_ok sample_payload.
Proof. repeat constructor. Qed.

Lemma get_raw_exact_witness :
  (forall v, get_raw sample_payload id_yb = Some (Some v) <-> (id_yb, v) ∈ sample_payload) /\
  (get_raw sample_payload id_cs = Some None <-> id_cs ∉ sample_payload.*1).
Proof.
  split; [apply (get_raw_exact sample_payload id_yb)|apply (get_raw_exact sample_payload id_cs)]; apply sample_payload_ok.
Defined.

Lemma push_raw_get_witness :
  payload_ok (push_raw sample_payload id_cs (encode 3%N)) /\
  get_decoded (push_raw sample_payload id_cs (encode 3%N)) id_cs = Some (Some 3%N) /\
  forall id', id' <> id_cs -> get_raw (push_raw sample_payload id_cs (encode 3%N)) id' = get_raw sample_payload id'.
Proof. apply (push_raw_get sample_payload id_cs 3%N); [apply sample_payload_ok|vm_decide]. Defined.
