(* ===== verification/Inherents.v ===== *)
(** * Inherents

    The slot inherent of [primitives/src/inherents.rs] and the commitment of
    [primitives/src/commitment.rs]. *)

From S2P Require Import Prelude Primitives Concrete Payload.
#[local] Open Scope hs_scope.

(** [sp_inherents::InherentData] with its operations, which are code of another
    crate, on one type of value; [put_data] refuses an identifier that is taken. *)
Class InherentOps := {
  InherentData : Type;
  InherentError : Type;
  get_data : InherentData -> bytes -> result InherentError (option N);
  put_data : InherentData -> bytes -> N -> result InherentError unit * InherentData;
  replace_data : InherentData -> bytes -> N -> InherentData;
}.

(** What is relied on: reading what was put or replaced, other identifiers
    being left alone, and a refused put changing nothing. *)
Class InherentLaws `{InherentOps} : Prop := {
  replace_get : forall d k v k', get_data (replace_data d k v) k' = if decide (k = k') then Ok (Some v) else get_data d k';
  put_get : forall d k v d' k', put_data d k v = (Ok tt, d') ->
    get_data d' k' = if decide (k = k') then Ok (Some v) else get_data d k';
  put_free : forall d k v, get_data d k = Ok None -> (put_data d k v).1 = Ok tt;
  put_taken : forall d k v v', get_data d k = Ok (Some v') -> exists e, put_data d k v = (Err e, d);
}.

Definition INHERENT_IDENTIFIER : bytes := String.list_byte_of_string "hotsslot".

Section inherents.
Context `{InherentOps}.

(** [HotstuffInherentData for InherentData] *)
Definition hotstuff_inherent_data (self : InherentData) : result InherentError (option N) :=
  get_data self INHERENT_IDENTIFIER.

Definition hotstuff_replace_inherent_data (self : InherentData) (new : N) : InherentData :=
  replace_data self INHERENT_IDENTIFIER new.

(** [struct InherentDataProvider], and its constructors; a slot is the number of
    whole durations in the timestamp, and a duration of 0 panics. *)
Record InherentDataProvider := mkInherentDataProvider { provider_slot : N }.

Definition InherentDataProvider_new (slot : N) : InherentDataProvider := mkInherentDataProvider slot.

Definition from_timestamp_and_slot_duration (timestamp slot_duration : N) : option InherentDataProvider :=
  if (slot_duration =? 0)%N then None else Some (mkInherentDataProvider (timestamp / slot_duration)).

(** [provide_inherent_data] and [try_handle_error] *)
Definition provide_inherent_data (self : InherentDataProvider) (inherent_data : InherentData)
    : result InherentError unit * InherentData :=
  put_data inherent_data INHERENT_IDENTIFIER (provider_slot self).

Definition try_handle_error (self : InherentDataProvider) (identifier error : bytes)
    : option (result InherentError unit) := None.

Context `{!InherentLaws}.

(** The slot a provider computes from the time is what the runtime reads back
    from the inherent data, once: the first provider of a block wins, a second
    one is refused and changes nothing, and only replacing gives a new value. *)
Theorem provided_slot_read (d : InherentData) (timestamp slot_duration : N) (p : InherentDataProvider) :
  from_timestamp_and_slot_duration timestamp slot_duration = Some p -> hotstuff_inherent_data d = Ok None ->
  exists d', provide_inherent_data p d = (Ok tt, d') /\
    hotstuff_inherent_data d' = Ok (Some (timestamp / slot_duration)%N) /\
    (provider_slot p * slot_duration <= timestamp < (provider_slot p + 1) * slot_duration)%N /\
    (forall p', exists e, provide_inherent_data p' d' = (Err e, d')) /\
    (forall slot, hotstuff_inherent_data (hotstuff_replace_inherent_data d' slot) = Ok (Some slot)).
Proof.
  unfold from_timestamp_and_slot_duration, hotstuff_inherent_data, provide_inherent_data, hotstuff_replace_inherent_data.
  destruct (N.eqb_spec slot_duration 0) as [|Hne]; [done|]. intros [= <-] Hfree. cbn [provider_slot].
  pose proof (put_free d INHERENT_IDENTIFIER (timestamp / slot_duration) Hfree) as Hok.
  destruct (put_data _ _ _) as [r d'] eqn:Hput. cbn in Hok. subst r. exists d'.
  pose proof (put_get _ _ _ _ INHERENT_IDENTIFIER Hput) as Hg. rewrite decide_True in Hg by done.
  split_and!; [done|done| | | |].
  - pose proof (N.Div0.mul_div_le timestamp slot_duration). lia.
  - pose proof (N.mul_succ_div_gt timestamp slot_duration Hne). lia.
  - intros p'. by eapply put_taken.
  - intros slot. by rewrite replace_get, decide_True.
Qed.

End inherents.

(** [struct Commitment]: data without operations. *)
Record Commitment := mkCommitment {
  commitment_payload : PayloadEntries;
  commitment_block_number : N;
  validator_set_id : N;
}.

(** ** Witness *)

#[export] Instance sample_inherents : InherentOps := {|
  InherentData := gmap bytes N;
  InherentError := unit;
  get_data d k := Ok (d !! k);
  put_data d k v := match d !! k with Some _ => (Err tt, d) | None => (Ok tt, <[k := v]> d) end;
  replace_data d k v := <[k := v]> d;
|}.

#[export] Instance sample_inherent_laws : InherentLaws.
Proof.
  constructor; cbn.
  - intros d k v k'. rewrite lookup_insert. by case_decide.
  - intros d k v d' k'. destruct (d !! k); [done|]. intros [= <-]. rewrite lookup_insert. by case_decide.
  - intros d k v [= ->]. done.
  - intros d k v v' [= ->]. by exists tt.
Qed.

Definition empty_inherents : InherentData := (∅ : gmap bytes N).
Definition slot_provider : InherentDataProvider := mkInherentDataProvider 283333333.

Lemma provided_slot_read_witness :
  exists d', provide_inherent_data slot_provider empty_inherents = (Ok tt, d') /\
    hotstuff_inherent_data d' = Ok (Some (1700000000000 / 6000)%N) /\
    (provider_slot slot_provider * 6000 <= 1700000000000 < (provider_slot slot_provider + 1) * 6000)%N /\
    (forall p', exists e, provide_inherent_data p' d' = (Err e, d')) /\
    (forall slot, hotstuff_inherent_data (hotstuff_replace_inherent_data d' slot) = Ok (Some slot)).
Proof. apply (provided_slot_read empty_inherents 1700000000000 6000 slot_provider); vm_refl. Defined.
