(* ===== verification/Benchmarking.v ===== *)
(** * Benchmarking

    The extrinsics of [node-template/node/src/benchmarking.rs] that the
    benchmarks of the node submit, with the lifetime they are signed for. *)

From S2P Require Import Prelude Primitives Concrete Pallet Runtime.
#[local] Open Scope hs_scope.

(** ** Parameters *)

(** Calls of the runtime, eras, keys and the encoding that is signed are code of
    other crates; [era_mortal] is [Era::mortal]. [chain_hash] and the best block
    are what the client answers. *)
Class ExtrinsicParts := {
  RuntimeCall : Type;
  Account : Type;
  remark : bytes -> RuntimeCall;
  transfer_keep_alive : Account -> N -> RuntimeCall;
  Era : Type;
  era_mortal : N -> N -> Era;
  ChainHash : Type;
  KeyPair : Type;
  PairSignature : Type;
  Bob : KeyPair;
  pair_sign : KeyPair -> bytes -> PairSignature;
  account_of : KeyPair -> Account;
}.

(** [u32::checked_next_power_of_two] *)
Definition checked_next_power_of_two (n : N) : option N :=
  let p := (2 ^ N.log2_up n)%N in
  if (p <? u32_modulus)%N then Some p else None.

(** The period of [create_benchmark_extrinsic], by the number of block hashes
    the runtime keeps. *)
Definition mortal_period (block_hash_count : N) : N :=
  match checked_next_power_of_two block_hash_count with Some c => c / 2 | None => 2 end%N.

Section extrinsics.
Context `{ExtrinsicParts}.

(** The extensions that carry data: the era, the nonce and the tip; the others
    are markers. *)
Record SignedExtra := mkSignedExtra { check_era : Era; check_nonce : N; tip : N }.

(** The additional data of the payload, for the extensions that have some. *)
Record Additional := mkAdditional {
  signed_spec_version : N;
  signed_transaction_version : N;
  signed_genesis : ChainHash;
  signed_checkpoint : ChainHash;
}.

(** [SignedPayload::using_encoded] gives the bytes to sign. *)
Variable payload_bytes : RuntimeCall -> SignedExtra -> Additional -> bytes.

Record UncheckedExtrinsic := mkUncheckedExtrinsic {
  function : RuntimeCall;
  signer : Account;
  extrinsic_signature : PairSignature;
  signed_extra : SignedExtra;
}.

(** What the client answers: the hash of block 0, and the best block. *)
Record ChainView := mkChainView { genesis_block : option ChainHash; best_hash : ChainHash; best_number : N }.

(** [create_benchmark_extrinsic]; [None] is the panic for a missing genesis
    block. *)
Definition create_benchmark_extrinsic (client : ChainView) (sender : KeyPair) (call : RuntimeCall) (nonce : N)
    : option UncheckedExtrinsic :=
  genesis_hash ← genesis_block client;
  let period := mortal_period BlockHashCount in
  let extra := mkSignedExtra (era_mortal period (best_number client)) nonce 0 in
  let raw_payload := payload_bytes call extra
    (mkAdditional (spec_version VERSION) (transaction_version VERSION) genesis_hash (best_hash client)) in
  Some (mkUncheckedExtrinsic call (account_of sender) (pair_sign sender raw_payload) extra).

(** [RemarkBuilder] *)
Definition RemarkBuilder_build (client : ChainView) (nonce : N) : option UncheckedExtrinsic :=
  create_benchmark_extrinsic client Bob (remark []) nonce.

(** [TransferKeepAliveBuilder] *)
Definition TransferKeepAliveBuilder_build (client : ChainView) (dest : Account) (value nonce : N)
    : option UncheckedExtrinsic :=
  create_benchmark_extrinsic client Bob (transfer_keep_alive dest value) nonce.

End extrinsics.

(** ** Properties *)


(** ** Witness *)

