(* ===== verification/NodeConfig.v ===== *)
(** * NodeConfig

    The configuration files of [node-template/node/src/config.rs] and the node
    that is booted from them in [node.rs]. Both files are left over from an
    earlier node: neither the library nor the binary of the crate declares them
    as modules. The crates they call (consensus, crypto, mempool, store) are
    parameters. *)

From S2P Require Import Prelude.
#[local] Open Scope hs_scope.

(** ** Files *)

Abbreviation Files := (gmap string bytes).

(** What the operating system answers apart from the contents: the error of
    reading a file that is not there, and of opening one for writing. *)
Class OS := {
  not_found : string;
  open_error : string -> option string;
}.

(** [serde_json] on one type: the printer, where [None] makes [unwrap] panic, and
    the parser. *)
Class Json (T : Type) := {
  to_string_pretty : T -> option bytes;
  from_slice : bytes -> result string T;
}.

(** White space of JSON. *)
Definition json_space (b : Byte.byte) : bool :=
  bool_decide (b ∈ [Byte.x20; Byte.x09; Byte.x0a; Byte.x0d]).

(** What is relied on: a value is read back from its text when only white space
    follows, and any other character after it is an error. *)
Class JsonLaws (T : Type) `{Json T} : Prop := {
  from_slice_text : forall x data rest, to_string_pretty x = Some data -> forallb json_space rest = true ->
    from_slice (data ++ rest) = Ok x;
  from_slice_trailing : forall x data rest, to_string_pretty x = Some data -> forallb json_space rest = false ->
    exists e, from_slice (data ++ rest) = Err e;
}.

(** [ConfigError] *)
Inductive ConfigError : Type :=
| ReadError (file message : string)
| WriteError (file message : string).

Definition newline : Byte.byte := Byte.x0a.

(** Writing at the start of an open file: what lies beyond stays. *)
Definition overwrite (old data : bytes) : bytes := data ++ drop (length data) old.

Section export.
Context `{OS}.

(** [Export::read] *)
Definition read (T : Type) `{Json T} (path : string) : M Files ConfigError T :=
  let! file := st_get (fun files => files !! path) in
  st_lift (map_err (ReadError path) (match file with Some data => from_slice data | None => Err not_found end)).

(** [Export::write]: the file is opened, and made if it is not there, without
    being truncated; the text and a newline are written to it. Writing to an open
    file does not fail here. *)
Definition write {T : Type} `{Json T} (self : T) (path : string) : M Files ConfigError unit :=
  match open_error path with
  | Some message => st_throw (WriteError path message)
  | None =>
      st_modify (fun files => <[path := default [] (files !! path)]> files) ;!
      let! data := st_expect (to_string_pretty self) in
      st_modify (fun files => <[path := overwrite (default [] (files !! path)) (data ++ [newline])]> files)
  end.

End export.

(** ** The node *)

(** Types and constructors of the other crates. [new_keypair] is
    [generate_production_keypair]; [seed_keypair] is [generate_keypair] with the
    generator seeded by zeros; opening the store may fail. *)
Class Crates := {
  PublicKey : Type;
  SecretKey : Type;
  ConsensusCommittee : Type;
  MempoolCommittee : Type;
  ConsensusParameters : Type;
  MempoolParameters : Type;
  DataStore : Type;
  default_consensus : ConsensusParameters;
  default_mempool : MempoolParameters;
  new_keypair : PublicKey * SecretKey;
  seed_keypair : PublicKey * SecretKey;
  open_store : string -> option DataStore;
}.

Section node.
Context `{OS} `{Crates}.

(** [struct Parameters], with its derived default *)
Record Parameters := mkParameters { consensus_parameters : ConsensusParameters; mempool_parameters : MempoolParameters }.
Definition Parameters_default : Parameters := mkParameters default_consensus default_mempool.

(** [struct Secret] *)
Record Secret := mkSecret { secret_name : PublicKey; secret_key : SecretKey }.
Definition Secret_new : Secret := mkSecret new_keypair.1 new_keypair.2.
Definition Secret_default : Secret := mkSecret seed_keypair.1 seed_keypair.2.

(** [struct Committee] *)
Record Committee := mkCommittee { consensus_committee : ConsensusCommittee; mempool_committee : MempoolCommittee }.

Definition CHANNEL_CAPACITY : N := 1000.

(** What [Mempool::spawn] and [Consensus::spawn] are given; the signature service
    holds the secret key. *)
Record Booted := mkBooted {
  boot_name : PublicKey;
  boot_signer : SecretKey;
  boot_committee : Committee;
  boot_parameters : Parameters;
  boot_store : DataStore;
}.

Context `{!Json Committee} `{!Json Secret} `{!Json Parameters}.

(** [Node::new] *)
Definition Node_new (committee_file key_file store_path : string) (parameters : option string)
    : M Files ConfigError Booted :=
  let! committee := read Committee committee_file in
  let! secret := read Secret key_file in
  let! parameters :=
    match parameters with Some filename => read Parameters filename | None => st_ret Parameters_default end in
  let! store := st_expect (open_store store_path) in
  st_ret (mkBooted (secret_name secret) (secret_key secret) committee parameters store).

(** [Node::print_key_file] *)
Definition print_key_file (filename : string) : M Files ConfigError unit := write Secret_new filename.

End node.

(** ** Properties *)

Section files.
Context `{OS} {T : Type} `{JsonLaws T}.

Lemma overwrite_nil data : overwrite [] data = data.
Proof. unfold overwrite. by rewrite drop_nil, app_nil_r. Qed.

(** What a write leaves in the files. *)
Lemma write_result (x : T) data path files :
  to_string_pretty x = Some data -> open_error path = None ->
  write x path files =
  (Val tt, <[path := overwrite (default [] (files !! path)) (data ++ [newline])]> files).
Proof.
  intros Hx Ho. unfold write. rewrite Ho. unfold st_bind, st_modify. rewrite Hx. cbn.
  by rewrite lookup_insert, decide_True, insert_insert, decide_True.
Qed.

(** What is read from a file that holds the text of a value and something after
    the newline. *)
Lemma read_text (x : T) data rest path files :
  to_string_pretty x = Some data -> files !! path = Some (data ++ [newline] ++ rest) ->
  (forallb json_space rest = true -> read T path files = (Val x, files)) /\
  (forallb json_space rest = false -> exists e, read T path files = (Abort (Fail (ReadError path e)), files)).
Proof.
  intros Hx Hf. unfold read, st_bind, st_get. rewrite Hf. split; intros Hr.
  - rewrite (from_slice_text x data) by done. done.
  - destruct (from_slice_trailing x data ([newline] ++ rest)) as [e He]; [done..|]. exists e. by rewrite He.
Qed.

(** C38: A configuration that is written is read back, and no other file changes,
    when the path was not there or its old text was not longer. But the file is
    not truncated: when the old text is longer and has more than white space
    beyond the end of the new one, the write succeeds and the file cannot be
    read. *)
Theorem config_write_read (x : T) (data : bytes) (path : string) (files : Files) :
  to_string_pretty x = Some data -> open_error path = None ->
  exists files', write x path files = (Val tt, files') /\
    (forall other, other <> path -> files' !! other = files !! other) /\
    ((length (default [] (files !! path)) <= length data + 1)%nat -> read T path files' = (Val x, files')) /\
    (forall old, files !! path = Some old -> forallb json_space (drop (length data + 1) old) = false ->
     exists e, read T path files' = (Abort (Fail (ReadError path e)), files')).
Proof.
  intros Hx Ho. rewrite (write_result x data) by done. eexists. split_and!; [done| | |].
  - intros other Hne. rewrite lookup_insert_ne; congruence.
  - intros Hlen. apply (read_text x data []); [done| |done]. rewrite lookup_insert, decide_True by done.
    unfold overwrite. rewrite drop_ge; [by rewrite app_nil_r|]. by rewrite length_app.
  - intros old Hold Htail. eapply (read_text x data); [done| |exact Htail].
    rewrite lookup_insert, decide_True by done. unfold overwrite. rewrite Hold, length_app. cbn.
    by rewrite <- app_assoc.
Qed.

End files.

Section boot.
Context `{OS} `{Crates} `{!Json Committee} `{!Json Secret} `{!Json Parameters}.
Context `{!JsonLaws Committee} `{!JsonLaws Secret} `{!JsonLaws Parameters}.

Lemma write_new {T} `{Json T} (x : T) data path files :
  to_string_pretty x = Some data -> open_error path = None -> files !! path = None ->
  write x path files = (Val tt, <[path := data ++ [newline]]> files).
Proof. intros Hx Ho Hf. rewrite (write_result x data) by done. by rewrite Hf, overwrite_nil. Qed.

Lemma read_exported {T} `{JsonLaws T} (x : T) data path files :
  to_string_pretty x = Some data -> files !! path = Some (data ++ [newline]) -> read T path files = (Val x, files).
Proof. intros Hx Hf. by apply (read_text x data []). Qed.

(** A node boots from exported files: with a committee, a secret and
    parameters written to three new paths, [Node::new] runs the mempool and the
    consensus with exactly these, under the name of the secret; without a
    parameters file it uses the defaults; and before the key file is written it
    answers the read error of that file. *)
Theorem exported_node_boots (committee : Committee) (secret : Secret) (parameters : Parameters)
    (dc ds dp : bytes) (fc fk fp store_path : string) (store : DataStore) (files : Files) :
  to_string_pretty committee = Some dc -> to_string_pretty secret = Some ds -> to_string_pretty parameters = Some dp ->
  (forall path, open_error path = None) -> NoDup [fc; fk; fp] ->
  (forall path, path ∈ [fc; fk; fp] -> files !! path = None) -> open_store store_path = Some store ->
  let node p := mkBooted (secret_name secret) (secret_key secret) committee p store in
  let keys := write committee fc ;! write secret fk in
  (exists files', (keys ;! write parameters fp ;! Node_new fc fk store_path (Some fp)) files = (Val (node parameters), files')) /\
  (exists files', (keys ;! Node_new fc fk store_path None) files = (Val (node Parameters_default), files')) /\
  (exists files', (write committee fc ;! Node_new fc fk store_path None) files =
     (Abort (Fail (ReadError fk not_found)), files')).
Proof.
  intros Hc Hs Hp Ho Hnd Hnew Hst node keys.
  assert (fc <> fk /\ fc <> fp /\ fk <> fp) as (Hck & Hcp & Hkp).
  { apply NoDup_cons in Hnd as [H1 [H2 _]%NoDup_cons]. set_solver. }
  assert (files !! fc = None /\ files !! fk = None /\ files !! fp = None) as (Hfc & Hfk & Hfp)
    by (split_and!; apply Hnew; set_solver).
  unfold keys, Node_new, st_bind. rewrite (write_new committee dc) by done.
  split_and!; eexists.
  - rewrite (write_new secret ds) by (rewrite ?lookup_insert_ne by congruence; done).
    rewrite (write_new parameters dp) by (rewrite ?lookup_insert_ne by congruence; done).
    rewrite (read_exported committee dc) by
      (rewrite ?(lookup_insert_ne _ fp), ?(lookup_insert_ne _ fk), ?lookup_insert, ?decide_True by congruence; done).
    rewrite (read_exported secret ds) by (rewrite ?(lookup_insert_ne _ fp), ?lookup_insert, ?decide_True by congruence; done).
    rewrite (read_exported parameters dp) by (rewrite ?lookup_insert, ?decide_True by congruence; done).
    by rewrite Hst.
  - rewrite (write_new secret ds) by (rewrite ?lookup_insert_ne by congruence; done).
    rewrite (read_exported committee dc) by
      (rewrite ?(lookup_insert_ne _ fk), ?lookup_insert, ?decide_True by congruence; done).
    rewrite (read_exported secret ds) by (rewrite ?lookup_insert, ?decide_True by congruence; done). cbn. by rewrite Hst.
  - rewrite (read_exported committee dc) by (rewrite ?lookup_insert, ?decide_True by congruence; done).
    unfold read, st_bind at 1, st_get. by rewrite lookup_insert_ne, Hfk by congruence.
Qed.

End boot.

(** ** Witnesses *)

(** A printer of numbers, by that many ones between braces. *)
Definition brace_text (n : nat) : bytes := Byte.x7b :: replicate n Byte.x31 ++ [Byte.x7d].

Fixpoint brace_rest (data : bytes) : option (nat * bytes) :=
  match data with
  | Byte.x31 :: data => '(n, rest) ← brace_rest data; Some (S n, rest)
  | Byte.x7d :: data => Some (0%nat, data)
  | _ => None
  end.

Definition brace_parse (data : bytes) : result string nat :=
  match data with
  | Byte.x7b :: data =>
      match brace_rest data with
      | Some (n, rest) => if forallb json_space rest then Ok n else Err "trailing characters"%string
      | None => Err "expected value"%string
      end
  | _ => Err "expected value"%string
  end.

Lemma brace_rest_text n rest : brace_rest (replicate n Byte.x31 ++ [Byte.x7d] ++ rest) = Some (n, rest).
Proof. induction n as [|n IH]; [done|]. cbn in IH |- *. by rewrite IH. Qed.

Lemma brace_parse_text n rest :
  brace_parse (brace_text n ++ rest) =
  if forallb json_space rest then Ok n else Err "trailing characters"%string.
Proof.
  unfold brace_text. cbn [app brace_parse]. rewrite <- app_assoc. by rewrite brace_rest_text.
Qed.

(** JSON of a type that stands for numbers. *)
Definition json_as {T} (f : T -> nat) (g : nat -> T) : Json T := {|
  to_string_pretty x := Some (brace_text (f x));
  from_slice data := match brace_parse data with Ok n => Ok (g n) | Err e => Err e end;
|}.

Lemma json_as_laws {T} (f : T -> nat) (g : nat -> T) : (forall x, g (f x) = x) -> @JsonLaws T (json_as f g).
Proof.
  intros Hgf. constructor; cbn; intros x data rest [= <-] Hr; rewrite brace_parse_text, Hr; [by rewrite Hgf|by eexists].
Qed.

#[local] Instance sample_os : OS := {| not_found := "No such file or directory"%string; open_error _ := None |}.

#[local] Instance sample_crates : Crates := {|
  PublicKey := nat; SecretKey := unit; ConsensusCommittee := nat; MempoolCommittee := unit;
  ConsensusParameters := nat; MempoolParameters := unit; DataStore := string;
  default_consensus := 5000%nat; default_mempool := tt; new_keypair := (1%nat, tt); seed_keypair := (0%nat, tt);
  open_store path := Some path;
|}.

#[local] Instance sample_json : Json nat := json_as id id.
#[local] Instance sample_json_laws : JsonLaws nat := json_as_laws id id (fun _ => eq_refl).
#[local] Instance json_committee : Json Committee := json_as consensus_committee (fun n => mkCommittee n tt).
#[local] Instance json_secret : Json Secret := json_as secret_name (fun n => mkSecret n tt).
#[local] Instance json_parameters : Json Parameters := json_as consensus_parameters (fun n => mkParameters n tt).
#[local] Instance committee_laws : JsonLaws Committee.
Proof. apply json_as_laws. by intros [n []]. Defined.
#[local] Instance secret_laws : JsonLaws Secret.
Proof. apply json_as_laws. by intros [n []]. Defined.
#[local] Instance parameters_laws : JsonLaws Parameters.
Proof. apply json_as_laws. by intros [n []]. Defined.

Definition one_file : Files := {["parameters.json"%string := brace_text 4 ++ [newline]]}.

(** A text of four ones overwritten by one of two: the write succeeds, the file
    is broken. *)
Lemma config_write_read_witness :
  exists files', write 2%nat "parameters.json" one_file = (Val tt, files') /\
    exists e, read nat "parameters.json" files' = (Abort (Fail (ReadError "parameters.json" e)), files').
Proof.
  destruct (config_write_read 2%nat (brace_text 2) "parameters.json" one_file) as (files' & Hw & _ & _ & Hr);
    [vm_refl|vm_refl|].
  exists files'. split; [exact Hw|]. apply (Hr (brace_text 4 ++ [newline])); vm_refl.
Defined.

Definition four_members : Committee := mkCommittee 4%nat tt.
Definition key_7 : Secret := mkSecret 7%nat tt.
Definition parameters_9 : Parameters := mkParameters 9%nat tt.

Lemma exported_node_boots_witness :
  exists files', ((write four_members "committee.json" ;! write key_7 "key.json") ;!
     Node_new "committee.json" "key.json" "db" None) ∅ =
    (Val (mkBooted (secret_name key_7) (secret_key key_7) four_members Parameters_default ("db"%string : DataStore)),
     files').
Proof.
  destruct (exported_node_boots four_members key_7 parameters_9 (brace_text 4) (brace_text 7) (brace_text 9)
    "committee.json" "key.json" "parameters.json" "db" "db"%string ∅) as (_ & Hb & _); try done.
  by repeat (constructor; [set_solver|]); constructor.
Defined.
