(* ===== verification/BenchClient.v ===== *)
(** * BenchClient

    The benchmark client of [node-template/node/src/client.rs]: the bursts of
    transactions it sends, with their contents, until the connection fails. *)

From S2P Require Import Prelude.
From Stdlib.Strings Require Import Byte.
#[local] Open Scope hs_scope.

(** ** Transactions *)

(** The low byte of a number; [put_u64] puts eight of them, the highest first. *)
Definition low_byte (n : N) : byte := default x00 (Byte.of_N (n mod 256)).

Fixpoint be_bytes (k : nat) (n : N) : bytes :=
  match k with
  | O => []
  | S k => be_bytes k (n / 256) ++ [low_byte n]
  end.

Definition put_u64 (n : N) : bytes := be_bytes 8 n.

(** [tx.resize(size, 0u8)] *)
Definition resize (size : nat) (tx : bytes) : bytes := take size tx ++ replicate (size - length tx) x00.

(** A transaction: the kind, the number, filled up to the size. *)
Definition transaction (size : nat) (sample : bool) (n : N) : bytes :=
  resize size ((if sample then x00 else x01) :: put_u64 n).

(** ** Sending *)

(** [struct Client]; addresses are texts. *)
Record Client := mkClient {
  client_target : string;
  client_size : nat;
  client_rate : N;
  client_timeout : N;
  client_nodes : list string;
}.

Definition PRECISION : N := 20.
Definition BURST_DURATION : N := (1000 / PRECISION)%N.

(** What [send] keeps across bursts: the counter of bursts, the number of the
    last standard transaction, and what was sent. *)
Record Sending := mkSending { counter : N; r : N; sent : list bytes }.

(** The transport takes the transaction, or fails: decided by how many were sent. *)
Section send.
Variable transport : nat -> bool.

(** One turn of [for x in 0..burst], [todo] turns being left; [false] when the
    connection failed. *)
Fixpoint burst_from (size : nat) (burst : N) (todo : nat) (x : N) (s : Sending) : bool * Sending :=
  match todo with
  | O => (true, s)
  | S todo =>
      let sample := (x =? counter s mod burst)%N in
      let r' := if sample then r s else u64_add (r s) 1 in
      let tx := transaction size sample (if sample then counter s else r') in
      let s' := mkSending (counter s) r' (sent s ++ [tx]) in
      if transport (length (sent s)) then burst_from size burst todo (x + 1) s'
      else (false, mkSending (counter s) r' (sent s))
  end.

(** The main loop, for a number of ticks of the interval. *)
Fixpoint send_loop (self : Client) (ticks : nat) (s : Sending) : bool * Sending :=
  match ticks with
  | O => (true, s)
  | S ticks =>
      let burst := (client_rate self / PRECISION)%N in
      match burst_from (client_size self) burst (N.to_nat burst) 0 s with
      | (true, s) => send_loop self ticks (mkSending (u64_add (counter s) 1) (r s) (sent s))
      | (false, s) => (false, s)
      end
  end.

(** [Client::send], with the random start of the numbers and the outcome of the
    connection, for a number of ticks. *)
Definition send (self : Client) (connect : result string unit) (start : N) (ticks : nat)
    : result string (bool * Sending) :=
  if (client_size self <? 16)%nat then Err "Transaction size must be at least 9 bytes"%string
  else
    connect ?;
    Ok (send_loop self ticks (mkSending 0 start [])).

End send.

(** ** Waiting, and the whole program *)

(** The loop on one node: try to connect, decided by the number of the attempt, and
    sleep ten milliseconds after each failure; the milliseconds slept, or nothing
    when the fuel is used up. *)
Fixpoint wait_node (connect : nat -> bool) (fuel attempt : nat) : option N :=
  match fuel with
  | O => None
  | S fuel => if connect attempt then Some (10 * N.of_nat attempt)%N else wait_node connect fuel (S attempt)
  end.

(** [Client::wait]: the loops run side by side and are joined; then twice the
    timeout is slept, in [u64]. *)
Definition wait (self : Client) (connect : string -> nat -> bool) (fuel : nat) : option N :=
  online ← mapM (fun address => wait_node (connect address) fuel 0) (client_nodes self);
  Some (foldr N.max 0 online + (2 * client_timeout self) mod u64_modulus)%N.

(** [struct Cli] *)
Record Cli := mkCli {
  cli_target : string;
  cli_timeout : N;
  cli_size : nat;
  cli_rate : N;
  cli_nodes : list string;
}.

(** [main], with what the client waited; an error gets the context of [main]. *)
Definition client_of (cli : Cli) : Client :=
  mkClient (cli_target cli) (cli_size cli) (cli_rate cli) (cli_timeout cli) (cli_nodes cli).

Definition main (transport : nat -> bool) (connect : string -> nat -> bool) (dial : result string unit)
    (cli : Cli) (start : N) (ticks fuel : nat) : option (N * result (string * string) (bool * Sending)) :=
  let client := client_of cli in
  waited ← wait client connect fuel;
  Some (waited, map_err (fun e => ("Failed to submit transactions"%string, e)) (send transport client dial start ticks)).

(** ** Facts *)

(** A node is online at its first successful attempt. *)
Lemma wait_node_exact connect fuel attempt ms :
  wait_node connect fuel attempt = Some ms <->
  exists k, (attempt <= k < attempt + fuel)%nat /\ connect k = true /\
    (forall j, (attempt <= j < k)%nat -> connect j = false) /\ ms = (10 * N.of_nat k)%N.
Proof.
  revert attempt. induction fuel as [|fuel IH]; intros attempt; cbn [wait_node].
  - split; [done|]. intros (k & Hk & _). lia.
  - destruct (connect attempt) eqn:Hc; [split|rewrite IH; split].
    + intros [= <-]. exists attempt. split_and!; [lia|lia|done|intros; lia|done].
    + intros (k & Hk & Hck & Hb & ->). destruct (decide (k = attempt)) as [->|Hne]; [done|].
      rewrite (Hb attempt) in Hc by lia. done.
    + intros (k & Hk & Hck & Hb & ->). exists k. split_and!; [lia|lia|done| |done].
      intros j Hj. destruct (decide (j = attempt)) as [->|Hne]; [done|]. apply Hb. lia.
    + intros (k & Hk & Hck & Hb & ->). exists k. destruct (decide (k = attempt)) as [->|Hne]; [congruence|].
      split_and!; [lia|lia|done| |done]. intros j Hj. apply Hb. lia.
Qed.

Lemma wait_node_ends connect fuel attempt k :
  (attempt <= k < attempt + fuel)%nat -> connect k = true -> exists ms, wait_node connect fuel attempt = Some ms.
Proof.
  revert attempt. induction fuel as [|fuel IH]; intros attempt Hk Hc; [lia|]. cbn [wait_node].
  destruct (connect attempt) eqn:Ha; [by eexists|]. apply IH; [|done].
  destruct (decide (k = attempt)) as [->|]; [congruence|lia].
Qed.

(** The benchmark starts exactly when every node has accepted a connection: with a
    node that never does, the client waits for ever; and when all of them do, it
    waits for the slowest and then for twice the timeout, and sends. *)
Theorem client_waits (transport : nat -> bool) (connect : string -> nat -> bool) (dial : result string unit)
    (cli : Cli) (start : N) (ticks fuel : nat) :
  (forall r, main transport connect dial cli start ticks fuel = Some r ->
     (forall address, address ∈ cli_nodes cli -> exists k, (k < fuel)%nat /\ connect address k = true)) /\
  ((forall address, address ∈ cli_nodes cli -> exists k, (k < fuel)%nat /\ connect address k = true) ->
   exists waited r, main transport connect dial cli start ticks fuel = Some (waited, r) /\
     ((2 * cli_timeout cli) mod u64_modulus <= waited)%N /\
     (waited <= 10 * N.of_nat fuel + (2 * cli_timeout cli) mod u64_modulus)%N /\
     forall x, send transport (client_of cli) dial start ticks = Ok x -> r = Ok x).
Proof.
  unfold main, wait. cbn [client_nodes client_of client_timeout]. split.
  - intros r (waited & (online & Hon & _)%bind_Some & _)%bind_Some address Hin.
    apply mapM_Some_1 in Hon. apply list_elem_of_lookup in Hin as [i Hi].
    destruct (Forall2_lookup_l _ _ _ _ _ Hon Hi) as (ms & _ & Hw).
    apply wait_node_exact in Hw as (k & Hk & Hc & _). exists k. split; [lia|done].
  - intros Hall.
    assert (exists online, mapM (fun address => wait_node (connect address) fuel 0) (cli_nodes cli) = Some online /\
      Forall (fun ms => ms <= 10 * N.of_nat fuel)%N online) as (online & Hon & Hle).
    { induction (cli_nodes cli) as [|address l IH]; [by exists []|].
      destruct IH as (online & Hon & Hle); [intros a Ha; apply Hall; by right|].
      destruct (Hall address) as (k & Hk & Hc); [by left|].
      destruct (wait_node_ends (connect address) fuel 0 k) as [ms Hw]; [lia|done|].
      exists (ms :: online). cbn. rewrite Hw. cbn. rewrite Hon. cbn. split; [done|]. constructor; [|done].
      apply wait_node_exact in Hw as (j & Hj & _ & _ & ->). lia. }
    rewrite Hon. cbn. eexists _, _. split; [done|].
    assert (foldr N.max 0 online <= 10 * N.of_nat fuel)%N by (clear -Hle; induction Hle; cbn; lia).
    split_and!; [lia|lia|]. by intros x ->.
Qed.

Lemma low_byte_inj n m : low_byte n = low_byte m -> (n mod 256 = m mod 256)%N.
Proof.
  unfold low_byte. assert (forall k, exists b, Byte.of_N (k mod 256) = Some b) as Hb.
  { intros k. destruct (Byte.of_N (k mod 256)) as [b|] eqn:Hk; [by exists b|].
    apply Byte.of_N_None_iff in Hk. pose proof (N.mod_lt k 256). lia. }
  destruct (Hb n) as [b Hn], (Hb m) as [b' Hm]. rewrite Hn, Hm. cbn. intros ->.
  apply Byte.to_of_N in Hn, Hm. congruence.
Qed.

Lemma be_bytes_length k n : length (be_bytes k n) = k.
Proof. revert n. induction k as [|k IH]; intros n; cbn; [done|]. rewrite length_app, IH. cbn. lia. Qed.

Lemma be_bytes_inj k n m : (n < 256 ^ N.of_nat k)%N -> (m < 256 ^ N.of_nat k)%N -> be_bytes k n = be_bytes k m -> n = m.
Proof.
  revert n m. induction k as [|k IH]; intros n m Hn Hm; cbn [be_bytes].
  - cbn in Hn, Hm. lia.
  - rewrite Nat2N.inj_succ, N.pow_succ_r' in Hn, Hm. intros [Hhi Hlo]%app_inj_tail.
    apply low_byte_inj in Hlo. apply IH in Hhi; [lia| |]; apply N.Div0.div_lt_upper_bound; lia.
Qed.

Lemma put_u64_inj n m : (n < u64_modulus)%N -> (m < u64_modulus)%N -> put_u64 n = put_u64 m -> n = m.
Proof. intros Hn Hm. by apply be_bytes_inj. Qed.

Lemma transaction_length size sample n : (9 <= size)%nat -> length (transaction size sample n) = size.
Proof.
  intros Hs. unfold transaction, resize, put_u64. rewrite length_app, length_take, length_replicate.
  cbn [length]. rewrite be_bytes_length. lia.
Qed.

(** Transactions of nine bytes or more tell their kind and number. *)
Lemma transaction_inj size sample sample' n n' :
  (9 <= size)%nat -> (n < u64_modulus)%N -> (n' < u64_modulus)%N ->
  transaction size sample n = transaction size sample' n' -> sample = sample' /\ n = n'.
Proof.
  intros Hs Hn Hn' Heq.
  assert (forall (b : bool) k, length ((if b then x00 else x01) :: put_u64 k) = 9%nat) as Hlen.
  { intros b k. change (S (length (put_u64 k)) = 9%nat). unfold put_u64. by rewrite be_bytes_length. }
  unfold transaction, resize in Heq. rewrite !take_ge in Heq by (rewrite Hlen; lia).
  apply app_inj_1 in Heq as [Heq _]; [|by rewrite !Hlen]. split.
  - apply (f_equal head) in Heq. by destruct sample, sample'.
  - apply put_u64_inj; [done..|]. exact (f_equal tail Heq).
Qed.

(** What was sent: samples of the bursts before [C], and the standard
    transactions numbered from [start] on, [K] of them. *)
Record stream (size : nat) (start C K : N) (s : Sending) : Prop := {
  stream_r : r s = ((start + K) mod u64_modulus)%N;
  stream_count : (K <= N.of_nat (length (sent s)))%N;
  stream_nodup : NoDup (sent s);
  stream_txs : Forall (fun tx =>
    (exists c, (c < C)%N /\ tx = transaction size true c) \/
    (exists k, (1 <= k <= K)%N /\ tx = transaction size false ((start + k) mod u64_modulus))) (sent s);
}.

Lemma mod_window_inj (start k k' M : N) :
  (1 <= k <= M)%N -> (1 <= k' <= M)%N -> ((start + k) mod M = (start + k') mod M)%N -> k = k'.
Proof.
  intros Hk Hk' Heq. assert (start + k = start + k')%N; [|lia].
  apply (residue_unique (start + 1) M); lia.
Qed.

Lemma stream_sample size start C K s :
  (9 <= size)%nat -> (C < u64_modulus)%N -> stream size start C K s ->
  stream size start (C + 1) K (mkSending (counter s) (r s) (sent s ++ [transaction size true C])).
Proof.
  intros Hsize HC [Hr Hk Hnd Htx]. constructor; cbn [r sent]; [done|rewrite length_app; cbn; lia| |].
  - apply NoDup_app. split_and!; [done| |apply NoDup_singleton].
    intros tx Hin ->%list_elem_of_singleton. rewrite Forall_forall in Htx.
    destruct (Htx _ Hin) as [(c & Hc & Heq)|(k & Hk' & Heq)]; apply transaction_inj in Heq as [? ?]; try done;
      unfold u64_modulus in *; lia.
  - apply Forall_app. split.
    + eapply Forall_impl; [exact Htx|]. intros tx [(c & Hc & ->)|?]; [left; exists c; split; [lia|done]|by right].
    + constructor; [|constructor]. left. exists C. split; [lia|done].
Qed.

Lemma stream_standard size start C K s :
  (9 <= size)%nat -> (C <= u64_modulus)%N -> (K + 1 <= u64_modulus)%N -> stream size start C K s ->
  stream size start C (K + 1) (mkSending (counter s) (u64_add (r s) 1)
    (sent s ++ [transaction size false (u64_add (r s) 1)])).
Proof.
  intros Hsize HC HK [Hr Hk Hnd Htx].
  assert (u64_add (r s) 1 = ((start + (K + 1)) mod u64_modulus)%N) as Hr'.
  { rewrite Hr. unfold u64_add. rewrite N.Div0.add_mod_idemp_l. f_equal. lia. }
  assert (forall n, (n mod u64_modulus < u64_modulus)%N) as Hlt by (intros n; apply N.mod_lt; done).
  rewrite Hr'. constructor; cbn [r sent]; [done|rewrite length_app; cbn; lia| |].
  - apply NoDup_app. split_and!; [done| |apply NoDup_singleton].
    intros tx Hin ->%list_elem_of_singleton. rewrite Forall_forall in Htx.
    destruct (Htx _ Hin) as [(c & Hc & Heq)|(k & Hk' & Heq)]; apply transaction_inj in Heq as [? Hn]; try done.
    + lia.
    + apply mod_window_inj in Hn; lia.
  - apply Forall_app. split.
    + eapply Forall_impl; [exact Htx|]. intros tx [?|(k & Hk' & ->)]; [by left|right; exists k; split; [lia|done]].
    + constructor; [|constructor]. right. exists (K + 1)%N. split; [lia|done].
Qed.

Lemma stream_weaken size start C C' K s : (C <= C')%N -> stream size start C K s -> stream size start C' K s.
Proof.
  intros Hle [Hr Hk Hnd Htx]. constructor; try done. eapply Forall_impl; [exact Htx|].
  intros tx [(c & Hc & ->)|?]; [left; exists c; split; [lia|done]|by right].
Qed.

(** The samples there are when the burst is at [x]. *)
Definition samples_at (burst x : N) (s : Sending) : N :=
  (counter s + if (counter s mod burst <? x)%N then 1 else 0)%N.

Lemma burst_from_stream transport size start burst todo x s b s' :
  (9 <= size)%nat -> (counter s < u64_modulus)%N -> (x + N.of_nat todo = burst)%N ->
  (N.of_nat (length (sent s) + todo) <= u64_modulus)%N ->
  (exists K, stream size start (samples_at burst x s) K s) ->
  burst_from transport size burst todo x s = (b, s') ->
  counter s' = counter s /\ (length (sent s') <= length (sent s) + todo)%nat /\
  (b = true -> length (sent s') = length (sent s) + todo)%nat /\
  exists K, stream size start (samples_at burst burst s) K (mkSending (counter s) (if b then r s' else (start + K) mod u64_modulus)%N (sent s')).
Proof.
  intros Hsize. revert x s. induction todo as [|todo IH]; intros x s Hc Hx Hlen [K Hst]; cbn [burst_from].
  - intros [= <- <-]. split_and!; [done|lia|lia|]. exists K. assert (x = burst) as -> by lia. by destruct s.
  - assert (samples_at burst x s <= samples_at burst burst s)%N as Hmono.
    { unfold samples_at. destruct (N.ltb_spec (counter s mod burst) x), (N.ltb_spec (counter s mod burst) burst); lia. }
    destruct (transport (length (sent s))).
    2:{ intros [= <- <-]. cbn. split_and!; [done|lia|done|]. exists K.
        apply (stream_weaken _ _ (samples_at burst x s)); [done|].
        destruct Hst as [Hr Hk Hnd Htx]. by constructor. }
    intros Hrun. set (s1 := mkSending _ _ _) in Hrun.
    assert (exists K, stream size start (samples_at burst (x + 1) s1) K s1) as Hst1.
    { destruct (N.eqb_spec x (counter s mod burst)) as [Heq|Hne].
      - exists K. assert (samples_at burst x s = counter s) as HC
          by (unfold samples_at; destruct (N.ltb_spec (counter s mod burst) x); lia).
        assert (samples_at burst (x + 1) s1 = counter s + 1)%N as ->
          by (unfold samples_at; cbn; destruct (N.ltb_spec (counter s mod burst) (x + 1)); lia).
        rewrite HC in Hst. by apply stream_sample.
      - exists (K + 1)%N. assert (samples_at burst (x + 1) s1 = samples_at burst x s) as ->.
        { unfold samples_at. cbn.
          destruct (N.ltb_spec (counter s mod burst) (x + 1)), (N.ltb_spec (counter s mod burst) x); lia. }
        pose proof (stream_count _ _ _ _ _ Hst) as HK. unfold u64_modulus in *.
        apply stream_standard; try done; [|unfold u64_modulus; lia].
        unfold samples_at, u64_modulus. destruct (_ <? _)%N; lia. }
    apply IH in Hrun; [|done|lia|cbn; rewrite length_app; cbn; lia|done].
    destruct Hrun as (Hc' & Hle & Heq & Hex). cbn in Hle, Heq. rewrite length_app in Hle, Heq. cbn in Hle, Heq.
    split_and!; [done|lia|intros Hb; specialize (Heq Hb); lia|done].
Qed.

Lemma send_loop_stream transport self start ticks s b s' :
  let burst := (client_rate self / PRECISION)%N in
  (9 <= client_size self)%nat -> (0 < burst)%N ->
  (N.of_nat (length (sent s)) + N.of_nat ticks * burst <= u64_modulus)%N ->
  (counter s + N.of_nat ticks <= u64_modulus)%N ->
  (exists K, stream (client_size self) start (counter s) K s) ->
  send_loop transport self ticks s = (b, s') ->
  NoDup (sent s') /\ Forall (fun tx => length tx = client_size self) (sent s') /\
  (N.of_nat (length (sent s')) <= N.of_nat (length (sent s)) + N.of_nat ticks * burst)%N /\
  (b = true -> N.of_nat (length (sent s')) = N.of_nat (length (sent s)) + N.of_nat ticks * burst)%N.
Proof.
  intros burst Hsize Hburst. revert s. induction ticks as [|ticks IH]; intros s Hlen Hcnt [K Hst]; cbn [send_loop].
  - intros [= <- <-]. destruct Hst as [_ _ Hnd Htx]. split_and!; [done| |lia|lia].
    eapply Forall_impl; [exact Htx|]. intros tx [(c & _ & ->)|(k & _ & ->)]; by apply transaction_length.
  - fold burst. destruct (burst_from _ _ _ _ _ s) as [b1 s1] eqn:Hb.
    apply (burst_from_stream _ _ start) in Hb; [|done|lia|lia|nia|].
    2:{ exists K. unfold samples_at. destruct (N.ltb_spec (counter s mod burst) 0); [lia|]. by rewrite N.add_0_r. }
    destruct Hb as (Hc1 & Hle1 & Heq1 & K1 & Hst1).
    assert (samples_at burst burst s = counter s + 1)%N as HC.
    { unfold samples_at. destruct (N.ltb_spec (counter s mod burst) burst); [lia|].
      pose proof (N.mod_lt (counter s) burst). lia. }
    rewrite HC in Hst1. destruct b1.
    + intros Hrun. specialize (Heq1 eq_refl). rewrite Hc1 in Hrun.
      destruct ticks as [|ticks'].
      * cbn in Hrun. injection Hrun as <- <-. cbn. destruct Hst1 as [_ _ Hnd Htx]. cbn in Hnd, Htx.
        split_and!; [done| |lia|lia].
        eapply Forall_impl; [exact Htx|]. intros tx [(c & _ & ->)|(k & _ & ->)]; by apply transaction_length.
      * assert (u64_add (counter s) 1 = counter s + 1)%N as Hadd
          by (unfold u64_add; rewrite N.mod_small; lia).
        rewrite Hadd in Hrun. apply IH in Hrun; cbn; [|nia|lia|].
        -- cbn in Hrun. destruct Hrun as (? & ? & Hle & Heq). split_and!; [done|done|nia|]. intros Hbt.
           specialize (Heq Hbt). nia.
        -- exists K1. destruct Hst1 as [? ? ? ?]. by constructor.
    + intros [= <- <-]. destruct Hst1 as [_ _ Hnd Htx]. cbn in Hnd, Htx. split_and!; [done| |nia|done].
      eapply Forall_impl; [exact Htx|]. intros tx [(c & _ & ->)|(k & _ & ->)]; by apply transaction_length.
Qed.

Lemma send_loop_idle transport self ticks s :
  (client_rate self / PRECISION = 0)%N ->
  exists s', send_loop transport self ticks s = (true, s') /\ sent s' = sent s.
Proof.
  intros H0. revert s. induction ticks as [|ticks IH]; intros s; cbn [send_loop]; [by exists s|].
  rewrite H0. change (N.to_nat 0) with 0%nat. cbn [burst_from]. destruct (IH (mkSending (u64_add (counter s) 1) (r s) (sent s))) as (s' & -> & Hs).
  by exists s'.
Qed.

(** C40: What the benchmark client sends. It refuses a size below 16 (though its
    message says 9). Otherwise, up to the overflow of its counters, all
    transactions are of the size asked for and no two are equal, whatever number
    it starts from, and while the connection holds each tick sends one burst, a
    twentieth of the rate; below 20 transactions a second it sends none. *)
Theorem client_transactions (transport : nat -> bool) (self : Client) (start : N) (ticks : nat) :
  let burst := (client_rate self / PRECISION)%N in
  ((client_size self < 16)%nat -> forall connect, exists e, send transport self connect start ticks = Err e) /\
  ((16 <= client_size self)%nat -> (N.of_nat ticks * burst <= u64_modulus)%N -> (start < u64_modulus)%N ->
   exists b s, send transport self (Ok tt) start ticks = Ok (b, s) /\
     NoDup (sent s) /\ Forall (fun tx => length tx = client_size self) (sent s) /\
     (N.of_nat (length (sent s)) <= N.of_nat ticks * burst)%N /\
     (b = true -> N.of_nat (length (sent s)) = N.of_nat ticks * burst)%N).
Proof.
  intros burst. unfold send. split.
  - intros Hlt connect. rewrite (proj2 (Nat.ltb_lt _ _)) by done. by eexists.
  - intros Hge Hmax Hstart. rewrite (proj2 (Nat.ltb_ge _ _)) by done. cbn [result_bind].
    destruct (N.eq_dec burst 0%N) as [H0|Hpos].
    + destruct (send_loop_idle transport self ticks (mkSending 0 start []) H0) as (s & -> & Hs).
      exists true, s. rewrite Hs, H0. split_and!; [done|by apply NoDup_nil|by apply Forall_nil|cbn; lia|cbn; lia].
    + destruct (send_loop _ _ _ _) as [b s] eqn:Hrun. exists b, s. split; [done|].
      apply (send_loop_stream _ _ start) in Hrun; cbn in *; [|lia|fold burst; lia|fold burst; lia|fold burst; nia|].
      * fold burst in Hrun. rewrite N.add_0_l in Hrun. done.
      * exists 0%N. constructor; cbn; [by rewrite N.add_0_r, N.mod_small|lia|by apply NoDup_nil|by apply Forall_nil].
Qed.

Definition sample_bench : Client := mkClient "127.0.0.1:9944" 20 60 1000 [].

Lemma client_transactions_witness :
  exists b s, send (fun n => (n <? 100)%nat) sample_bench (Ok tt) 18446744073709551610 4 = Ok (b, s) /\
    NoDup (sent s) /\ Forall (fun tx => length tx = 20%nat) (sent s) /\
    (N.of_nat (length (sent s)) <= 4 * 3)%N /\ (b = true -> N.of_nat (length (sent s)) = 4 * 3)%N.
Proof.
  apply (client_transactions (fun n => (n <? 100)%nat) sample_bench 18446744073709551610 4); cbn;
    unfold u64_modulus; lia.
Defined.
